(** * Signalling and connection life cycle of the video-conference client

    A shallow embedding of the WebRTC provider of the application and of
    the join bookkeeping of its room provider.  The repository carries two
    copies of the WebRTC provider:

    - [Part003]  : the copy in [src/unnamed/part_003];
    - [Contexts] : the copy in [src/contexts/webrtc-context.tsx].

    The two copies share the data model below and differ in several
    handlers; every function is embedded once per copy where the text of
    the copies differs.  [RoomContext] embeds [joinRoom] of
    [src/unnamed/part_002].

    Conventions.
    - React state ([useState]) and refs ([useRef]) of one provider are the
      fields of one record [State]; a setter takes effect at once.
    - [RTCPeerConnection] objects live in a store ([heap]), the connection
      map [peerConnections] holds handles into it, so that a connection
      that was closed and dropped from the map is still there to look at.
    - An [async] handler runs to completion as one step; what the browser
      and the relay answer is read from an environment [Env].
    - The browser's [RTCPeerConnection] is outside the repository; its
      signalling state machine is written after the W3C state table.
    - [calls] records, oldest first, the browser and relay operations a
      handler has invoked; it is instrumentation, not program state. *)

From Stdlib Require Import String Ascii Bool Arith Lia List.
From stdpp Require Import base gmap strings list.
Import ListNotations.
Open Scope string_scope.
Open Scope list_scope.
Open Scope nat_scope.

(** ** JavaScript values *)

Module Js.

(** [!s] is false exactly for a non-empty string. *)
Definition truthy (s : string) : bool := negb (String.eqb s "").

(** Truthiness of a [string | null]. *)
Definition truthy_opt (o : option string) : bool :=
  match o with Some s => truthy s | None => false end.

(** [a > b] on strings: lexicographic on the code units. *)
Definition gt (a b : string) : bool :=
  match String.compare a b with Gt => true | _ => false end.

(** [hay.includes(needle)]. *)
Fixpoint includes (needle hay : string) : bool :=
  String.prefix needle hay ||
  match hay with
  | EmptyString => false
  | String _ rest => includes needle rest
  end.

(** [s || d] on strings. *)
Definition or_else (s d : string) : string := if truthy s then s else d.

(** Outcome of a call that may throw. *)
Inductive Result (A : Type) : Type :=
| Ok (a : A)
| Err (msg : string).
Arguments Ok {A} a.
Arguments Err {A} msg.

End Js.
Import Js.

(** ** Media *)

Inductive TrackKind := Audio | Video.

Record Track := {
  kind : TrackKind;
  enabled : bool;
  ended : bool
}.

Record MediaStream := { tracks : list Track }.

Definition is_kind (k : TrackKind) (t : Track) : bool :=
  match k, kind t with
  | Audio, Audio | Video, Video => true
  | _, _ => false
  end.

Definition getVideoTracks (m : MediaStream) : list Track := List.filter (is_kind Video) (tracks m).
Definition getAudioTracks (m : MediaStream) : list Track := List.filter (is_kind Audio) (tracks m).

Definition stop_track (t : Track) : Track :=
  {| kind := kind t; enabled := enabled t; ended := true |}.

Definition set_enabled (k : TrackKind) (b : bool) (t : Track) : Track :=
  if is_kind k t then {| kind := kind t; enabled := b; ended := ended t |} else t.

Definition stop_all (m : MediaStream) : MediaStream := {| tracks := List.map stop_track (tracks m) |}.

Definition enable_tracks (video audio : bool) (m : MediaStream) : MediaStream :=
  {| tracks := List.map (fun t => set_enabled Audio audio (set_enabled Video video t)) (tracks m) |}.

Inductive DeviceSel := AnyDevice | ExactDevice (deviceId : string).

Record VideoConstraints := {
  v_device : DeviceSel;
  v_ideal : option (nat * nat)
}.

Record MediaStreamConstraints := {
  c_audio : option DeviceSel;
  c_video : option VideoConstraints
}.

(** ** The browser's peer connection *)

Inductive RTCSignalingState :=
| Stable | HaveLocalOffer | HaveRemoteOffer
| HaveLocalPranswer | HaveRemotePranswer | SigClosed.

Inductive RTCIceConnectionState :=
| IceNew | IceChecking | IceConnected | IceCompleted
| IceDisconnected | IceFailed | IceClosed.

Inductive RTCPeerConnectionState :=
| ConnNew | ConnConnecting | ConnConnected | ConnDisconnected | ConnFailed | ConnClosed.

Inductive RTCSdpType := Offer | Answer | Rollback.

Record RTCSessionDescription := { sd_type : RTCSdpType; sdp : string }.

#[global] Instance RTCSignalingState_eq_dec : EqDecision RTCSignalingState.
Proof. solve_decision. Defined.
#[global] Instance RTCIceConnectionState_eq_dec : EqDecision RTCIceConnectionState.
Proof. solve_decision. Defined.
#[global] Instance RTCPeerConnectionState_eq_dec : EqDecision RTCPeerConnectionState.
Proof. solve_decision. Defined.
#[global] Instance RTCSdpType_eq_dec : EqDecision RTCSdpType.
Proof. solve_decision. Defined.

(** A connection together with the variables its handlers close over
    ([peerId], [roomId], [initiator]); [pc_handlers] tells whether
    [createPeerConnection] installed them. *)
Record PeerConnection := {
  pc_peer : string;
  pc_room : string;
  pc_initiator : bool;
  pc_handlers : bool;
  signalingState : RTCSignalingState;
  iceConnectionState : RTCIceConnectionState;
  connectionState : RTCPeerConnectionState;
  currentLocalDescription : option RTCSessionDescription;
  pendingLocalDescription : option RTCSessionDescription;
  currentRemoteDescription : option RTCSessionDescription;
  pendingRemoteDescription : option RTCSessionDescription;
  remoteCandidates : list string;
  senders : list Track
}.

Module RTC.

Definition fresh (peerId roomId : string) (initiator handlers : bool) : PeerConnection :=
  {| pc_peer := peerId; pc_room := roomId; pc_initiator := initiator;
     pc_handlers := handlers;
     signalingState := Stable; iceConnectionState := IceNew;
     connectionState := ConnNew;
     currentLocalDescription := None; pendingLocalDescription := None;
     currentRemoteDescription := None; pendingRemoteDescription := None;
     remoteCandidates := []; senders := [] |}.

Definition localDescription (pc : PeerConnection) : option RTCSessionDescription :=
  match pendingLocalDescription pc with
  | Some d => Some d
  | None => currentLocalDescription pc
  end.

Definition remoteDescription (pc : PeerConnection) : option RTCSessionDescription :=
  match pendingRemoteDescription pc with
  | Some d => Some d
  | None => currentRemoteDescription pc
  end.

Definition with_signaling (st : RTCSignalingState)
    (cl pl cr pr : option RTCSessionDescription) (pc : PeerConnection) : PeerConnection :=
  {| pc_peer := pc_peer pc; pc_room := pc_room pc; pc_initiator := pc_initiator pc;
     pc_handlers := pc_handlers pc;
     signalingState := st; iceConnectionState := iceConnectionState pc;
     connectionState := connectionState pc;
     currentLocalDescription := cl; pendingLocalDescription := pl;
     currentRemoteDescription := cr; pendingRemoteDescription := pr;
     remoteCandidates := remoteCandidates pc; senders := senders pc |}.

Definition close (pc : PeerConnection) : PeerConnection :=
  {| pc_peer := pc_peer pc; pc_room := pc_room pc; pc_initiator := pc_initiator pc;
     pc_handlers := pc_handlers pc;
     signalingState := SigClosed; iceConnectionState := IceClosed;
     connectionState := ConnClosed;
     currentLocalDescription := currentLocalDescription pc;
     pendingLocalDescription := pendingLocalDescription pc;
     currentRemoteDescription := currentRemoteDescription pc;
     pendingRemoteDescription := pendingRemoteDescription pc;
     remoteCandidates := remoteCandidates pc; senders := senders pc |}.

Definition with_ice (i : RTCIceConnectionState) (pc : PeerConnection) : PeerConnection :=
  {| pc_peer := pc_peer pc; pc_room := pc_room pc; pc_initiator := pc_initiator pc;
     pc_handlers := pc_handlers pc;
     signalingState := signalingState pc; iceConnectionState := i;
     connectionState := connectionState pc;
     currentLocalDescription := currentLocalDescription pc;
     pendingLocalDescription := pendingLocalDescription pc;
     currentRemoteDescription := currentRemoteDescription pc;
     pendingRemoteDescription := pendingRemoteDescription pc;
     remoteCandidates := remoteCandidates pc; senders := senders pc |}.

Definition with_senders (l : list Track) (pc : PeerConnection) : PeerConnection :=
  {| pc_peer := pc_peer pc; pc_room := pc_room pc; pc_initiator := pc_initiator pc;
     pc_handlers := pc_handlers pc;
     signalingState := signalingState pc; iceConnectionState := iceConnectionState pc;
     connectionState := connectionState pc;
     currentLocalDescription := currentLocalDescription pc;
     pendingLocalDescription := pendingLocalDescription pc;
     currentRemoteDescription := currentRemoteDescription pc;
     pendingRemoteDescription := pendingRemoteDescription pc;
     remoteCandidates := remoteCandidates pc; senders := l |}.

Definition with_candidates (l : list string) (pc : PeerConnection) : PeerConnection :=
  {| pc_peer := pc_peer pc; pc_room := pc_room pc; pc_initiator := pc_initiator pc;
     pc_handlers := pc_handlers pc;
     signalingState := signalingState pc; iceConnectionState := iceConnectionState pc;
     connectionState := connectionState pc;
     currentLocalDescription := currentLocalDescription pc;
     pendingLocalDescription := pendingLocalDescription pc;
     currentRemoteDescription := currentRemoteDescription pc;
     pendingRemoteDescription := pendingRemoteDescription pc;
     remoteCandidates := l; senders := senders pc |}.

Definition invalid_state : string := "InvalidStateError".
Definition wrong_answer_state : string :=
  "InvalidStateError: Failed to set remote answer sdp: Called in wrong state".

(** [pc.setLocalDescription(d)]. *)
Definition setLocalDescription (d : RTCSessionDescription) (pc : PeerConnection)
    : Result PeerConnection :=
  match sd_type d, signalingState pc with
  | Offer, Stable | Offer, HaveLocalOffer =>
      Ok (with_signaling HaveLocalOffer
            (currentLocalDescription pc) (Some d)
            (currentRemoteDescription pc) (pendingRemoteDescription pc) pc)
  | Answer, HaveRemoteOffer | Answer, HaveLocalPranswer =>
      Ok (with_signaling Stable
            (Some d) None (pendingRemoteDescription pc) None pc)
  | Rollback, HaveLocalOffer =>
      Ok (with_signaling Stable
            (currentLocalDescription pc) None
            (currentRemoteDescription pc) (pendingRemoteDescription pc) pc)
  | Rollback, HaveRemoteOffer =>
      Ok (with_signaling Stable
            (currentLocalDescription pc) (pendingLocalDescription pc)
            (currentRemoteDescription pc) None pc)
  | _, _ => Err invalid_state
  end.

(** [pc.setRemoteDescription(d)]. *)
Definition setRemoteDescription (d : RTCSessionDescription) (pc : PeerConnection)
    : Result PeerConnection :=
  match sd_type d, signalingState pc with
  | Offer, Stable | Offer, HaveRemoteOffer =>
      Ok (with_signaling HaveRemoteOffer
            (currentLocalDescription pc) (pendingLocalDescription pc)
            (currentRemoteDescription pc) (Some d) pc)
  | Answer, HaveLocalOffer | Answer, HaveRemotePranswer =>
      Ok (with_signaling Stable
            (pendingLocalDescription pc) None (Some d) None pc)
  | Answer, _ => Err wrong_answer_state
  | Rollback, HaveRemoteOffer =>
      Ok (with_signaling Stable
            (currentLocalDescription pc) (pendingLocalDescription pc)
            (currentRemoteDescription pc) None pc)
  | _, _ => Err invalid_state
  end.

(** [pc.addIceCandidate(c)]: rejected while there is no remote description. *)
Definition addIceCandidate (c : string) (pc : PeerConnection) : Result PeerConnection :=
  match signalingState pc, remoteDescription pc with
  | SigClosed, _ => Err invalid_state
  | _, None => Err invalid_state
  | _, Some _ => Ok (with_candidates (remoteCandidates pc ++ [c]) pc)
  end.

(** [pc.addTrack(t, stream)]. *)
Definition addTrack (t : Track) (pc : PeerConnection) : PeerConnection :=
  with_senders (senders pc ++ [t]) pc.

Definition live (pc : PeerConnection) : bool :=
  negb (bool_decide (signalingState pc = SigClosed)).

End RTC.

(** ** The relay (real-time database) *)

(** A node with named children, in the order a snapshot delivers them. *)
Section Children.
Context {K : Type} `{EqDecision K} {A : Type}.

Fixpoint child (k : K) (l : list (K * A)) : option A :=
  match l with
  | [] => None
  | (k', v) :: rest => if decide (k = k') then Some v else child k rest
  end.

Fixpoint set_child (k : K) (v : A) (l : list (K * A)) : list (K * A) :=
  match l with
  | [] => [(k, v)]
  | (k', v') :: rest =>
      if decide (k = k') then (k, v) :: rest else (k', v') :: set_child k v rest
  end.

Fixpoint remove_child (k : K) (l : list (K * A)) : list (K * A) :=
  match l with
  | [] => []
  | (k', v') :: rest =>
      if decide (k = k') then remove_child k rest else (k', v') :: remove_child k rest
  end.

Definition keys (l : list (K * A)) : list K := List.map fst l.
Definition values (l : list (K * A)) : list A := List.map snd l.
End Children.

(** Children two levels down; a node left without children disappears. *)
Definition set_grandchild {A : Type} (k1 k2 : string) (v : A)
    (l : list (string * list (string * A))) : list (string * list (string * A)) :=
  set_child k1 (set_child k2 v (default [] (child k1 l))) l.

Definition remove_grandchild {A : Type} (k1 k2 : string)
    (l : list (string * list (string * A))) : list (string * list (string * A)) :=
  match child k1 l with
  | None => l
  | Some sub =>
      match remove_child k2 sub with
      | [] => remove_child k1 l
      | sub' => set_child k1 sub' l
      end
  end.

Record Participant := { p_displayName : string; joined : nat }.

(** The subtree [rooms/{roomId}]. *)
Record RoomNode := {
  room_exists : bool;
  participants : list (string * Participant);
  offers : list (string * list (string * string));
  answers : list (string * list (string * string));
  candidates : list (string * list (string * list (nat * string)));
  nextPushId : nat;
  onDisconnectRemove : list string
}.

Definition empty_room : RoomNode :=
  {| room_exists := false; participants := []; offers := []; answers := [];
     candidates := []; nextPushId := 0; onDisconnectRemove := [] |}.

Definition with_participants (v : list (string * Participant)) (r : RoomNode) : RoomNode :=
  {| room_exists := room_exists r; participants := v; offers := offers r;
     answers := answers r; candidates := candidates r; nextPushId := nextPushId r;
     onDisconnectRemove := onDisconnectRemove r |}.

Definition with_offers (v : list (string * list (string * string))) (r : RoomNode) : RoomNode :=
  {| room_exists := room_exists r; participants := participants r; offers := v;
     answers := answers r; candidates := candidates r; nextPushId := nextPushId r;
     onDisconnectRemove := onDisconnectRemove r |}.

Definition with_answers (v : list (string * list (string * string))) (r : RoomNode) : RoomNode :=
  {| room_exists := room_exists r; participants := participants r; offers := offers r;
     answers := v; candidates := candidates r; nextPushId := nextPushId r;
     onDisconnectRemove := onDisconnectRemove r |}.

Definition with_candidates
    (v : list (string * list (string * list (nat * string)))) (n : nat) (r : RoomNode) : RoomNode :=
  {| room_exists := room_exists r; participants := participants r; offers := offers r;
     answers := answers r; candidates := v; nextPushId := n;
     onDisconnectRemove := onDisconnectRemove r |}.

Definition with_onDisconnect (v : list string) (r : RoomNode) : RoomNode :=
  {| room_exists := room_exists r; participants := participants r; offers := offers r;
     answers := answers r; candidates := candidates r; nextPushId := nextPushId r;
     onDisconnectRemove := v |}.

Abbreviation Relay := (gmap string RoomNode).

Definition room (relay : Relay) (roomId : string) : RoomNode :=
  default empty_room (relay !! roomId).

Definition in_room (roomId : string) (f : RoomNode -> RoomNode) (relay : Relay) : Relay :=
  <[roomId := f (room relay roomId)]> relay.

(** Paths written or removed by the client. *)
Inductive RelayPath :=
| ParticipantRef (roomId uid : string)
| OffersFromRef (roomId sender : string)
| OfferRef (roomId sender receiver : string)
| AnswersFromRef (roomId sender : string)
| AnswerRef (roomId sender receiver : string)
| CandidatesFromRef (roomId sender : string)
| CandidatesRef (roomId sender receiver : string)
| CandidateRef (roomId sender receiver : string) (key : nat).

(** [remove(ref(rtdb, path))]. *)
Definition relay_remove (p : RelayPath) (relay : Relay) : Relay :=
  match p with
  | ParticipantRef r uid =>
      in_room r (fun n => with_participants (remove_child uid (participants n)) n) relay
  | OffersFromRef r s => in_room r (fun n => with_offers (remove_child s (offers n)) n) relay
  | OfferRef r s t => in_room r (fun n => with_offers (remove_grandchild s t (offers n)) n) relay
  | AnswersFromRef r s => in_room r (fun n => with_answers (remove_child s (answers n)) n) relay
  | AnswerRef r s t => in_room r (fun n => with_answers (remove_grandchild s t (answers n)) n) relay
  | CandidatesFromRef r s =>
      in_room r (fun n => with_candidates (remove_child s (candidates n)) (nextPushId n) n) relay
  | CandidatesRef r s t =>
      in_room r (fun n => with_candidates (remove_grandchild s t (candidates n)) (nextPushId n) n) relay
  | CandidateRef r s t k =>
      in_room r (fun n =>
        match child s (candidates n) with
        | None => n
        | Some sub =>
            match child t sub with
            | None => n
            | Some cs =>
                match remove_child k cs with
                | [] => with_candidates (remove_grandchild s t (candidates n)) (nextPushId n) n
                | cs' => with_candidates (set_grandchild s t cs' (candidates n)) (nextPushId n) n
                end
            end
        end) relay
  end.

(** ** The provider's state *)

Inductive ConnectionStatus := Connecting | Connected | Disconnected | Failed.

#[global] Instance ConnectionStatus_eq_dec : EqDecision ConnectionStatus.
Proof. solve_decision. Defined.

Record User := { uid : string; user_displayName : string }.

Record Peer := {
  peer_id : string;
  displayName : string;
  stream : option MediaStream;
  connection : option nat
}.

Inductive Call :=
| CallGetUserMedia (c : MediaStreamConstraints)
| CallCreateOffer (h : nat)
| CallCreateAnswer (h : nat)
| CallSetLocalDescription (h : nat) (ty : RTCSdpType)
| CallSetRemoteDescription (h : nat) (ty : RTCSdpType)
| CallAddIceCandidate (h : nat) (c : string)
| CallRestartIce (h : nat)
| CallClose (h : nat)
| CallSet (p : RelayPath)
| CallPush (p : RelayPath)
| CallRemove (p : RelayPath).

Record MediaState := {
  localStream : option MediaStream;
  isAudioEnabled : bool;
  isVideoEnabled : bool;
  isScreenSharing : bool;
  isRecording : bool;
  hasVideo : bool;
  hasAudio : bool;
  selectedVideoDevice : option string;
  selectedAudioDevice : option string;
  screenShareStream : option MediaStream;
  originalStream : option MediaStream;
  mediaRecorder : option bool
}.

(** The unsubscribe refs and the interval handle: [true] when set. *)
Record Listeners := {
  listenersSetupRef : bool;
  participantsUnsubscribeRef : bool;
  offersUnsubscribeRef : bool;
  answersUnsubscribeRef : bool;
  candidatesUnsubscribeRef : bool;
  connectionCheckInterval : bool
}.

Record State := {
  user : option User;
  media : MediaState;
  peers : list Peer;
  currentRoomId : option string;
  webRTCError : option string;
  connectionStatus : ConnectionStatus;
  peerConnections : gmap string nat;
  joinAttemptedRef : bool;
  joinAttemptsRef : nat;
  listeners : Listeners;
  heap : list PeerConnection;
  calls : list Call
}.

(** What the browser and the relay answer during one handler. *)
Record Env := {
  getUserMedia : MediaStreamConstraints -> option MediaStream;
  relayError : option string;
  constructorThrows : bool;
  createOfferError : nat -> option string;
  offerSdp : nat -> string;
  answerSdp : nat -> string;
  sdpError : string -> option string;
  rollbackFails : bool;
  candidateError : string -> option string;
  now : nat
}.

(** Field updates. *)

Definition set_localStream (v : option MediaStream) (m : MediaState) : MediaState :=
  {|
    localStream := v; isAudioEnabled := isAudioEnabled m; isVideoEnabled := isVideoEnabled m;
    isScreenSharing := isScreenSharing m; isRecording := isRecording m;
    hasVideo := hasVideo m; hasAudio := hasAudio m;
    selectedVideoDevice := selectedVideoDevice m;
    selectedAudioDevice := selectedAudioDevice m; screenShareStream := screenShareStream m;
    originalStream := originalStream m; mediaRecorder := mediaRecorder m |}.

Definition set_isAudioEnabled (v : bool) (m : MediaState) : MediaState :=
  {|
    localStream := localStream m; isAudioEnabled := v; isVideoEnabled := isVideoEnabled m;
    isScreenSharing := isScreenSharing m; isRecording := isRecording m;
    hasVideo := hasVideo m; hasAudio := hasAudio m;
    selectedVideoDevice := selectedVideoDevice m;
    selectedAudioDevice := selectedAudioDevice m; screenShareStream := screenShareStream m;
    originalStream := originalStream m; mediaRecorder := mediaRecorder m |}.

Definition set_isVideoEnabled (v : bool) (m : MediaState) : MediaState :=
  {|
    localStream := localStream m; isAudioEnabled := isAudioEnabled m; isVideoEnabled := v;
    isScreenSharing := isScreenSharing m; isRecording := isRecording m;
    hasVideo := hasVideo m; hasAudio := hasAudio m;
    selectedVideoDevice := selectedVideoDevice m;
    selectedAudioDevice := selectedAudioDevice m; screenShareStream := screenShareStream m;
    originalStream := originalStream m; mediaRecorder := mediaRecorder m |}.

Definition set_isScreenSharing (v : bool) (m : MediaState) : MediaState :=
  {|
    localStream := localStream m; isAudioEnabled := isAudioEnabled m;
    isVideoEnabled := isVideoEnabled m; isScreenSharing := v; isRecording := isRecording m;
    hasVideo := hasVideo m; hasAudio := hasAudio m;
    selectedVideoDevice := selectedVideoDevice m;
    selectedAudioDevice := selectedAudioDevice m; screenShareStream := screenShareStream m;
    originalStream := originalStream m; mediaRecorder := mediaRecorder m |}.

Definition set_isRecording (v : bool) (m : MediaState) : MediaState :=
  {|
    localStream := localStream m; isAudioEnabled := isAudioEnabled m;
    isVideoEnabled := isVideoEnabled m; isScreenSharing := isScreenSharing m;
    isRecording := v; hasVideo := hasVideo m; hasAudio := hasAudio m;
    selectedVideoDevice := selectedVideoDevice m;
    selectedAudioDevice := selectedAudioDevice m; screenShareStream := screenShareStream m;
    originalStream := originalStream m; mediaRecorder := mediaRecorder m |}.

Definition set_hasVideo (v : bool) (m : MediaState) : MediaState :=
  {|
    localStream := localStream m; isAudioEnabled := isAudioEnabled m;
    isVideoEnabled := isVideoEnabled m; isScreenSharing := isScreenSharing m;
    isRecording := isRecording m; hasVideo := v; hasAudio := hasAudio m;
    selectedVideoDevice := selectedVideoDevice m;
    selectedAudioDevice := selectedAudioDevice m; screenShareStream := screenShareStream m;
    originalStream := originalStream m; mediaRecorder := mediaRecorder m |}.

Definition set_hasAudio (v : bool) (m : MediaState) : MediaState :=
  {|
    localStream := localStream m; isAudioEnabled := isAudioEnabled m;
    isVideoEnabled := isVideoEnabled m; isScreenSharing := isScreenSharing m;
    isRecording := isRecording m; hasVideo := hasVideo m; hasAudio := v;
    selectedVideoDevice := selectedVideoDevice m;
    selectedAudioDevice := selectedAudioDevice m; screenShareStream := screenShareStream m;
    originalStream := originalStream m; mediaRecorder := mediaRecorder m |}.

Definition set_screenShareStream (v : option MediaStream) (m : MediaState) : MediaState :=
  {|
    localStream := localStream m; isAudioEnabled := isAudioEnabled m;
    isVideoEnabled := isVideoEnabled m; isScreenSharing := isScreenSharing m;
    isRecording := isRecording m; hasVideo := hasVideo m; hasAudio := hasAudio m;
    selectedVideoDevice := selectedVideoDevice m;
    selectedAudioDevice := selectedAudioDevice m; screenShareStream := v;
    originalStream := originalStream m; mediaRecorder := mediaRecorder m |}.

Definition set_originalStream (v : option MediaStream) (m : MediaState) : MediaState :=
  {|
    localStream := localStream m; isAudioEnabled := isAudioEnabled m;
    isVideoEnabled := isVideoEnabled m; isScreenSharing := isScreenSharing m;
    isRecording := isRecording m; hasVideo := hasVideo m; hasAudio := hasAudio m;
    selectedVideoDevice := selectedVideoDevice m;
    selectedAudioDevice := selectedAudioDevice m; screenShareStream := screenShareStream m;
    originalStream := v; mediaRecorder := mediaRecorder m |}.

Definition set_mediaRecorder (v : option bool) (m : MediaState) : MediaState :=
  {|
    localStream := localStream m; isAudioEnabled := isAudioEnabled m;
    isVideoEnabled := isVideoEnabled m; isScreenSharing := isScreenSharing m;
    isRecording := isRecording m; hasVideo := hasVideo m; hasAudio := hasAudio m;
    selectedVideoDevice := selectedVideoDevice m;
    selectedAudioDevice := selectedAudioDevice m; screenShareStream := screenShareStream m;
    originalStream := originalStream m; mediaRecorder := v |}.

Definition setS_media (v : MediaState) (s : State) : State :=
  {|
    user := user s; media := v; peers := peers s; currentRoomId := currentRoomId s;
    webRTCError := webRTCError s; connectionStatus := connectionStatus s;
    peerConnections := peerConnections s; joinAttemptedRef := joinAttemptedRef s;
    joinAttemptsRef := joinAttemptsRef s; listeners := listeners s; heap := heap s;
    calls := calls s |}.

Definition setS_peers (v : list Peer) (s : State) : State :=
  {|
    user := user s; media := media s; peers := v; currentRoomId := currentRoomId s;
    webRTCError := webRTCError s; connectionStatus := connectionStatus s;
    peerConnections := peerConnections s; joinAttemptedRef := joinAttemptedRef s;
    joinAttemptsRef := joinAttemptsRef s; listeners := listeners s; heap := heap s;
    calls := calls s |}.

Definition setS_currentRoomId (v : option string) (s : State) : State :=
  {|
    user := user s; media := media s; peers := peers s; currentRoomId := v;
    webRTCError := webRTCError s; connectionStatus := connectionStatus s;
    peerConnections := peerConnections s; joinAttemptedRef := joinAttemptedRef s;
    joinAttemptsRef := joinAttemptsRef s; listeners := listeners s; heap := heap s;
    calls := calls s |}.

Definition setS_webRTCError (v : option string) (s : State) : State :=
  {|
    user := user s; media := media s; peers := peers s; currentRoomId := currentRoomId s;
    webRTCError := v; connectionStatus := connectionStatus s;
    peerConnections := peerConnections s; joinAttemptedRef := joinAttemptedRef s;
    joinAttemptsRef := joinAttemptsRef s; listeners := listeners s; heap := heap s;
    calls := calls s |}.

Definition setS_connectionStatus (v : ConnectionStatus) (s : State) : State :=
  {|
    user := user s; media := media s; peers := peers s; currentRoomId := currentRoomId s;
    webRTCError := webRTCError s; connectionStatus := v; peerConnections := peerConnections s;
    joinAttemptedRef := joinAttemptedRef s; joinAttemptsRef := joinAttemptsRef s;
    listeners := listeners s; heap := heap s; calls := calls s |}.

Definition setS_peerConnections (v : gmap string nat) (s : State) : State :=
  {|
    user := user s; media := media s; peers := peers s; currentRoomId := currentRoomId s;
    webRTCError := webRTCError s; connectionStatus := connectionStatus s;
    peerConnections := v; joinAttemptedRef := joinAttemptedRef s;
    joinAttemptsRef := joinAttemptsRef s; listeners := listeners s; heap := heap s;
    calls := calls s |}.

Definition setS_joinAttemptedRef (v : bool) (s : State) : State :=
  {|
    user := user s; media := media s; peers := peers s; currentRoomId := currentRoomId s;
    webRTCError := webRTCError s; connectionStatus := connectionStatus s;
    peerConnections := peerConnections s; joinAttemptedRef := v;
    joinAttemptsRef := joinAttemptsRef s; listeners := listeners s; heap := heap s;
    calls := calls s |}.

Definition setS_joinAttemptsRef (v : nat) (s : State) : State :=
  {|
    user := user s; media := media s; peers := peers s; currentRoomId := currentRoomId s;
    webRTCError := webRTCError s; connectionStatus := connectionStatus s;
    peerConnections := peerConnections s; joinAttemptedRef := joinAttemptedRef s;
    joinAttemptsRef := v; listeners := listeners s; heap := heap s; calls := calls s |}.

Definition setS_listeners (v : Listeners) (s : State) : State :=
  {|
    user := user s; media := media s; peers := peers s; currentRoomId := currentRoomId s;
    webRTCError := webRTCError s; connectionStatus := connectionStatus s;
    peerConnections := peerConnections s; joinAttemptedRef := joinAttemptedRef s;
    joinAttemptsRef := joinAttemptsRef s; listeners := v; heap := heap s; calls := calls s |}.

Definition setS_heap (v : list PeerConnection) (s : State) : State :=
  {|
    user := user s; media := media s; peers := peers s; currentRoomId := currentRoomId s;
    webRTCError := webRTCError s; connectionStatus := connectionStatus s;
    peerConnections := peerConnections s; joinAttemptedRef := joinAttemptedRef s;
    joinAttemptsRef := joinAttemptsRef s; listeners := listeners s; heap := v;
    calls := calls s |}.

Definition setS_calls (v : list Call) (s : State) : State :=
  {|
    user := user s; media := media s; peers := peers s; currentRoomId := currentRoomId s;
    webRTCError := webRTCError s; connectionStatus := connectionStatus s;
    peerConnections := peerConnections s; joinAttemptedRef := joinAttemptedRef s;
    joinAttemptsRef := joinAttemptsRef s; listeners := listeners s; heap := heap s; calls := v |}.

(** React setters and ref assignments, named after the source. *)
Definition on_media (f : MediaState -> MediaState) (s : State) : State := setS_media (f (media s)) s.

Definition setLocalStream v := on_media (set_localStream v).
Definition setIsAudioEnabled v := on_media (set_isAudioEnabled v).
Definition setIsVideoEnabled v := on_media (set_isVideoEnabled v).
Definition setIsScreenSharing v := on_media (set_isScreenSharing v).
Definition setIsRecording v := on_media (set_isRecording v).
Definition setHasVideo v := on_media (set_hasVideo v).
Definition setHasAudio v := on_media (set_hasAudio v).
Definition setScreenShareStream v := on_media (set_screenShareStream v).
Definition setOriginalStream v := on_media (set_originalStream v).
Definition setMediaRecorder v := on_media (set_mediaRecorder v).
Definition setPeers (f : list Peer -> list Peer) (s : State) : State := setS_peers (f (peers s)) s.
Definition setCurrentRoomId := setS_currentRoomId.
Definition setWebRTCError := setS_webRTCError.
Definition setConnectionStatus := setS_connectionStatus.
Definition setPeerConnections := setS_peerConnections.
Definition setJoinAttempted := setS_joinAttemptedRef.
Definition setJoinAttempts := setS_joinAttemptsRef.
Definition setListeners := setS_listeners.
Definition setHeap := setS_heap.
Definition record (c : Call) (s : State) : State := setS_calls (calls s ++ [c]) s.

(** Apply [f] to the connection object behind handle [h]. *)
Definition update_pc (h : nat) (f : PeerConnection -> PeerConnection) (s : State) : State :=
  setHeap (alter f h (heap s)) s.

(** [pc.close()] on handle [h]. *)
Definition close_pc (h : nat) (s : State) : State :=
  record (CallClose h) (update_pc h RTC.close s).

(** The connection object stored under [peerId], if any. *)
Definition connection_of (s : State) (peerId : string) : option PeerConnection :=
  match peerConnections s !! peerId with
  | Some h => heap s !! h
  | None => None
  end.

Definition all_listeners (b : bool) : Listeners :=
  {| listenersSetupRef := b; participantsUnsubscribeRef := b; offersUnsubscribeRef := b;
     answersUnsubscribeRef := b; candidatesUnsubscribeRef := b; connectionCheckInterval := b |}.

(** How a call of an [async] function ends. *)
Inductive Outcome := Returned | Threw (msg : string).

(** ** Handlers that touch the relay or may throw *)

Record World := { client : State; relay : Relay }.

Module Handler.

Definition M (A : Type) : Type := World -> Result A * World.

Definition ret {A} (a : A) : M A := fun w => (Ok a, w).

Definition bind {A B} (m : M A) (k : A -> M B) : M B :=
  fun w => match m w with
           | (Ok a, w') => k a w'
           | (Err e, w') => (Err e, w')
           end.

Definition throw {A} (msg : string) : M A := fun w => (Err msg, w).

(** [try { m } catch (error) { handler error }]. *)
Definition try_catch {A} (m : M A) (handler : string -> M A) : M A :=
  fun w => match m w with
           | (Ok a, w') => (Ok a, w')
           | (Err e, w') => handler e w'
           end.

Definition gets {A} (f : State -> A) : M A := fun w => (Ok (f (client w)), w).

Definition modify (f : State -> State) : M unit :=
  fun w => (Ok tt, {| client := f (client w); relay := relay w |}).

(** A state function with a result, such as [createPeerConnection]. *)
Definition lift {A} (f : State -> A * State) : M A :=
  fun w => let '(a, s) := f (client w) in (Ok a, {| client := s; relay := relay w |}).

Definition read_relay {A} (f : Relay -> A) : M A := fun w => (Ok (f (relay w)), w).

Definition write_relay (f : Relay -> Relay) : M unit :=
  fun w => (Ok tt, {| client := client w; relay := f (relay w) |}).

End Handler.
Import Handler.

Notation "'do' x <- m ; k" := (bind m (fun x => k))
  (at level 10, x name, m at level 100, k at level 200).

Fixpoint forEach {A} (l : list A) (f : A -> M unit) : M unit :=
  match l with
  | [] => ret tt
  | x :: rest => do _ <- f x; forEach rest f
  end.

(** An [async] callback whose promise nobody awaits: a rejection is lost. *)
Definition detached (m : M unit) : M unit := try_catch m (fun _ => ret tt).

(** Relay operations: each one rejects when the relay is unreachable. *)
Definition relay_call (env : Env) (c : Call) (f : Relay -> Relay) : M unit :=
  do _ <- modify (record c);
  match relayError env with
  | Some msg => throw msg
  | None => write_relay f
  end.

Definition relay_get {A} (env : Env) (f : Relay -> A) : M A :=
  match relayError env with
  | Some msg => throw msg
  | None => read_relay f
  end.

Definition remove (env : Env) (p : RelayPath) : M unit :=
  relay_call env (CallRemove p) (relay_remove p).

Definition set_offer (env : Env) (roomId sender receiver sdp : string) : M unit :=
  relay_call env (CallSet (OfferRef roomId sender receiver))
    (in_room roomId (fun n => with_offers (set_grandchild sender receiver sdp (offers n)) n)).

Definition set_answer (env : Env) (roomId sender receiver sdp : string) : M unit :=
  relay_call env (CallSet (AnswerRef roomId sender receiver))
    (in_room roomId (fun n => with_answers (set_grandchild sender receiver sdp (answers n)) n)).

Definition set_participant (env : Env) (roomId uid : string) (p : Participant) : M unit :=
  relay_call env (CallSet (ParticipantRef roomId uid))
    (in_room roomId (fun n => with_participants (set_child uid p (participants n)) n)).

Definition onDisconnect_remove (roomId uid : string) : M unit :=
  write_relay (in_room roomId (fun n => with_onDisconnect (uid :: onDisconnectRemove n) n)).

(** [push(candidateRef, candidate)]. *)
Definition push_candidate (env : Env) (roomId sender receiver c : string) : M unit :=
  relay_call env (CallPush (CandidatesRef roomId sender receiver))
    (in_room roomId (fun n =>
       let cs := match child sender (candidates n) with
                 | Some sub => default [] (child receiver sub)
                 | None => []
                 end in
       with_candidates
         (set_grandchild sender receiver (cs ++ [(nextPushId n, c)]) (candidates n))
         (S (nextPushId n)) n)).

(** Browser calls on the connection behind a handle. *)
Definition pc_call (c : Call) (h : nat)
    (f : PeerConnection -> Result PeerConnection) : M unit :=
  do _ <- modify (record c);
  do pc <- gets (fun s => heap s !! h);
  match pc with
  | None => throw RTC.invalid_state
  | Some pc =>
      match f pc with
      | Ok pc' => modify (update_pc h (fun _ => pc'))
      | Err e => throw e
      end
  end.

Definition setLocalDescription (env : Env) (h : nat) (d : RTCSessionDescription) : M unit :=
  pc_call (CallSetLocalDescription h (sd_type d)) h
    (fun pc => if bool_decide (sd_type d = Rollback) && rollbackFails env
               then Err RTC.invalid_state
               else RTC.setLocalDescription d pc).

Definition setRemoteDescription (env : Env) (h : nat) (d : RTCSessionDescription) : M unit :=
  pc_call (CallSetRemoteDescription h (sd_type d)) h
    (fun pc => match sdpError env (sdp d) with
               | Some e => Err e
               | None => RTC.setRemoteDescription d pc
               end).

Definition createOffer (env : Env) (h : nat) : M RTCSessionDescription :=
  do _ <- modify (record (CallCreateOffer h));
  do pc <- gets (fun s => heap s !! h);
  match pc with
  | None => throw RTC.invalid_state
  | Some pc =>
      if bool_decide (signalingState pc = SigClosed) then throw RTC.invalid_state
      else match createOfferError env h with
           | Some e => throw e
           | None => ret {| sd_type := Offer; sdp := offerSdp env h |}
           end
  end.

Definition createAnswer (env : Env) (h : nat) : M RTCSessionDescription :=
  do _ <- modify (record (CallCreateAnswer h));
  do pc <- gets (fun s => heap s !! h);
  match pc with
  | None => throw RTC.invalid_state
  | Some pc =>
      match signalingState pc with
      | HaveRemoteOffer | HaveLocalPranswer => ret {| sd_type := Answer; sdp := answerSdp env h |}
      | _ => throw RTC.invalid_state
      end
  end.

Definition addIceCandidate (env : Env) (h : nat) (c : string) : M unit :=
  pc_call (CallAddIceCandidate h c) h
    (fun pc => match candidateError env c with
               | Some e => Err e
               | None => RTC.addIceCandidate c pc
               end).

Definition local_sdp (s : State) (h : nat) : option string :=
  sdp <$> (heap s !! h ≫= RTC.localDescription).

(** ** Parts that read the same in both copies *)

(** [Object.values(peerConnections.current)]. *)
Definition connection_values (s : State) : list PeerConnection :=
  omap (fun '(_, h) => heap s !! h) (map_to_list (peerConnections s)).

(** [Object.values(peerConnections.current).forEach((pc) => pc.close())]. *)
Definition close_all (s : State) : State :=
  fold_left (fun s '(_, h) => close_pc h s) (map_to_list (peerConnections s)) s.

Definition cleanupWebRTCListeners (s : State) : State := setListeners (all_listeners false) s.

Definition ice_connected (pc : PeerConnection) : bool :=
  bool_decide (iceConnectionState pc = IceConnected)
  || bool_decide (iceConnectionState pc = IceCompleted).

Definition ice_failed_or_disconnected (pc : PeerConnection) : bool :=
  bool_decide (iceConnectionState pc = IceFailed)
  || bool_decide (iceConnectionState pc = IceDisconnected).

(** The callback of [connectionCheckInterval] in [setupWebRTCListeners]
    (part_003:1906-1933, webrtc-context.tsx:1340-1367). *)
Definition connectionCheck (s : State) : State :=
  let connectedPeers := List.filter ice_connected (connection_values s) in
  if 0 <? length connectedPeers then setConnectionStatus Connected s
  else if 0 <? size (peerConnections s) then
    let failedPeers := List.filter ice_failed_or_disconnected (connection_values s) in
    if 0 <? length failedPeers then setConnectionStatus Failed s
    else setConnectionStatus Connecting s
  else setConnectionStatus Disconnected s.

(** The aggregate status in the words of the specification: connected if
    any connection is connected or completed; failed, or disconnected,
    only if all connections share that state; otherwise connecting.
    Nothing is said of the case without connections. *)
Definition status_by_spec (ices : list RTCIceConnectionState) : option ConnectionStatus :=
  match ices with
  | [] => None
  | _ =>
      if existsb (fun i => bool_decide (i = IceConnected) || bool_decide (i = IceCompleted)) ices
      then Some Connected
      else if forallb (fun i => bool_decide (i = IceFailed)) ices then Some Failed
      else if forallb (fun i => bool_decide (i = IceDisconnected)) ices then Some Disconnected
      else Some Connecting
  end.

(** The updater passed to [setPeers] when a participant shows up. *)
Definition add_peer (id name : string) (prevPeers : list Peer) : list Peer :=
  if existsb (fun p => String.eqb (peer_id p) id) prevPeers then prevPeers
  else prevPeers ++ [{| peer_id := id; displayName := name; stream := None; connection := None |}].

Definition includes_key {A} (id : string) (l : list (string * A)) : bool :=
  existsb (String.eqb id) (keys l).

(** The participants listener of [setupWebRTCListeners]
    (part_003:1394-1462, webrtc-context.tsx:1073-1141); the two copies
    differ only in the [createPeerConnection] they call. *)
Section ParticipantsListener.
Variable createPeerConnection : string -> string -> bool -> State -> option nat * State.

Definition add_new_peer (uid roomId : string) (s : State) (entry : string * Participant) : State :=
  let '(id, participant) := entry in
  if negb (String.eqb id uid) && negb (bool_decide (is_Some (peerConnections s !! id))) then
    let s := setPeers (add_peer id (p_displayName participant)) s in
    snd (createPeerConnection id roomId true s)
  else s.

Definition close_if_left (participants : list (string * Participant)) (s : State) (id : string)
    : State :=
  if negb (includes_key id participants) then
    match peerConnections s !! id with
    | Some h => setPeerConnections (delete id (peerConnections s)) (close_pc h s)
    | None => s
    end
  else s.

Definition reconcile (uid roomId : string) (participants : list (string * Participant))
    (s : State) : State :=
  let s := fold_left (add_new_peer uid roomId) participants s in
  let s := setPeers (List.filter (fun peer => includes_key (peer_id peer) participants)) s in
  fold_left (close_if_left participants) (List.map fst (map_to_list (peerConnections s))) s.

(** [snapshot] is [None] when [snapshot.exists()] is false. *)
Definition onParticipants (roomId : string)
    (snapshot : option (list (string * Participant))) (s : State) : State :=
  match snapshot, user s with
  | Some participants, Some u => reconcile (uid u) roomId participants s
  | _, _ => s
  end.
End ParticipantsListener.

(** What a snapshot of a relay node looks like to [onValue]: a node
    without children does not exist. *)
Definition snapshot_of {A} (l : list A) : option (list A) :=
  match l with [] => None | _ => Some l end.

(** ** The copy in src/unnamed/part_003 *)

Module Part003.

Definition device (o : option string) : DeviceSel :=
  match o with
  | Some d => if truthy d then ExactDevice d else AnyDevice
  | None => AnyDevice
  end.

Definition constraints (video audio : bool) (m : MediaState) : MediaStreamConstraints :=
  {| c_audio := if audio then Some (device (selectedAudioDevice m)) else None;
     c_video := if video
                then Some {| v_device := device (selectedVideoDevice m);
                             v_ideal := Some (1280, 720) |}
                else None |}.

Definition audio_only : MediaStreamConstraints :=
  {| c_audio := Some AnyDevice; c_video := None |}.

Definition access_error : string :=
  "Failed to access camera and microphone. Please check your permissions.".

Definition stop_local (s : State) : State :=
  match localStream (media s) with
  | Some m => setLocalStream (Some (stop_all m)) s
  | None => s
  end.

(** [initLocalStream(video, audio)] with its recursive call as [retry]. *)
Definition initLocalStream_with (retry : State -> option MediaStream * State)
    (env : Env) (video audio : bool) (s : State) : option MediaStream * State :=
  let s := stop_local s in
  let c := constraints video audio (media s) in
  let s := record (CallGetUserMedia c) s in
  match getUserMedia env c with
  | Some stream =>
      let s := setHasVideo (0 <? length (getVideoTracks stream)) s in
      let s := setHasAudio (0 <? length (getAudioTracks stream)) s in
      let stream := enable_tracks true true stream in
      let s := setIsVideoEnabled true s in
      let s := setIsAudioEnabled true s in
      let s := setLocalStream (Some stream) s in
      let s := setOriginalStream (Some stream) s in
      (Some stream, s)
  | None =>
      let failed s :=
        (None, setWebRTCError (Some access_error) (setHasAudio false (setHasVideo false s))) in
      if video then retry s
      else if negb video && audio then
        let s := record (CallGetUserMedia audio_only) s in
        match getUserMedia env audio_only with
        | Some audioOnlyStream =>
            let s := setHasVideo false s in
            let s := setHasAudio true s in
            let s := setIsAudioEnabled true s in
            let s := setLocalStream (Some audioOnlyStream) s in
            let s := setOriginalStream (Some audioOnlyStream) s in
            (Some audioOnlyStream, s)
        | None => failed s
        end
      else failed s
  end.

(** [initLocalStream]: the recursive call passes [video = false], and a
    call with [video = false] does not recurse. *)
Definition initLocalStream (env : Env) (video audio : bool) (s : State)
    : option MediaStream * State :=
  initLocalStream_with (initLocalStream_with (fun s => (None, s)) env false true)
    env video audio s.

Definition add_tracks (l : list Track) (pc : PeerConnection) : PeerConnection :=
  fold_left (fun pc t => RTC.addTrack t pc) l pc.

Definition create_error : string := "Failed to create peer connection. Please try again.".
Definition init_error : string := "Failed to initialize local stream".

(** [createPeerConnection(peerId, roomId, initiator)] (part_003:981-1371).
    The handlers it installs are the functions below that take the
    handle of the connection.  [user] and [localStream] are read from
    the state at the time of the call; a caller made by an earlier
    render reads the values of that render. *)
Definition createPeerConnection (env : Env) (peerId roomId : string) (initiator : bool)
    (s : State) : option nat * State :=
  match user s with
  | None => (None, s)
  | Some _ =>
      if negb (truthy roomId) then (None, s)
      else
        let s := match peerConnections s !! peerId with
                 | Some h => setPeerConnections (delete peerId (peerConnections s)) (close_pc h s)
                 | None => s
                 end in
        if constructorThrows env then (None, setWebRTCError (Some create_error) s)
        else
          let h := length (heap s) in
          let s := setHeap (heap s ++ [RTC.fresh peerId roomId initiator true]) s in
          let s := setPeerConnections (<[peerId := h]> (peerConnections s)) s in
          let have_tracks :=
            match localStream (media s) with
            | Some m => 0 <? length (tracks m)
            | None => false
            end in
          let s :=
            if have_tracks then
              update_pc h (add_tracks (default [] (tracks <$> localStream (media s)))) s
            else
              match initLocalStream env true true s with
              | (Some stream, s) => update_pc h (add_tracks (tracks stream)) s
              | (None, s) => setJoinAttempted false (setWebRTCError (Some init_error) s)
              end in
          (Some h, s)
  end.

(** [peerConnection.onicecandidate]. *)
Definition onicecandidate (env : Env) (h : nat) (candidate : option string) : M unit :=
  do pc <- gets (fun s => heap s !! h);
  do u <- gets user;
  match pc, u, candidate with
  | Some pc, Some u, Some c =>
      detached (push_candidate env (pc_room pc) (uid u) (pc_peer pc) c)
  | _, _, _ => ret tt
  end.

(** [peerConnection.oniceconnectionstatechange] (part_003:1157-1218);
    the restart after two seconds is [iceRestartTimeout]. *)
Definition oniceconnectionstatechange (h : nat) (s : State) : State :=
  match heap s !! h with
  | None => s
  | Some pc =>
      if ice_connected pc then setConnectionStatus Connected s
      else if bool_decide (iceConnectionState pc = IceFailed) then
        let s := record (CallRestartIce h) s in
        let allPeersFailed := forallb ice_failed_or_disconnected (connection_values s) in
        if allPeersFailed then setConnectionStatus Failed s else s
      else if bool_decide (iceConnectionState pc = IceDisconnected) then
        let allPeersDisconnected := forallb ice_failed_or_disconnected (connection_values s) in
        if allPeersDisconnected then setConnectionStatus Disconnected s else s
      else s
  end.

Definition iceRestartTimeout (h : nat) (s : State) : State :=
  match heap s !! h with
  | Some pc =>
      if bool_decide (iceConnectionState pc = IceDisconnected)
      then record (CallRestartIce h) s else s
  | None => s
  end.

Definition conn_failed_or_closed (pc : PeerConnection) : bool :=
  bool_decide (connectionState pc = ConnFailed) || bool_decide (connectionState pc = ConnClosed).

(** [peerConnection.onconnectionstatechange] (part_003:1221-1258). *)
Definition onconnectionstatechange (h : nat) (s : State) : State :=
  match heap s !! h with
  | None => s
  | Some pc =>
      if bool_decide (connectionState pc = ConnConnected) then setConnectionStatus Connected s
      else if conn_failed_or_closed pc then
        let s := match peerConnections s !! pc_peer pc with
                 | Some h' => close_pc h' s
                 | None => s
                 end in
        let s := setPeerConnections (delete (pc_peer pc) (peerConnections s)) s in
        let allConnectionsFailed := forallb conn_failed_or_closed (connection_values s) in
        if allConnectionsFailed || (size (peerConnections s) =? 0)
        then setConnectionStatus Failed s else s
      else s
  end.

Definition negotiation_error : string := "Failed to negotiate connection. Please try again.".

(** [peerConnection.onnegotiationneeded] (part_003:1268-1298). *)
Definition onnegotiationneeded (env : Env) (h : nat) : M unit :=
  do pc <- gets (fun s => heap s !! h);
  do u <- gets user;
  match pc, u with
  | Some pc, Some u =>
      if pc_initiator pc && truthy (pc_room pc) then
        try_catch
          (if negb (bool_decide (signalingState pc = Stable)) then ret tt
           else
             do offer <- createOffer env h;
             do _ <- setLocalDescription env h offer;
             do sdp <- gets (fun s => local_sdp s h);
             set_offer env (pc_room pc) (uid u) (pc_peer pc) (default "" sdp))
          (fun _ => modify (setWebRTCError (Some negotiation_error)))
      else ret tt
  | _, _ => ret tt
  end.

Definition offer_error : string := "Failed to respond to connection offer. Please try again.".

(** [processOffer(peerConnection, senderId, offer)] (part_003:1659-1704). *)
Definition processOffer (env : Env) (u : User) (roomId : string)
    (peerConnection : option nat) (senderId offer : string) : M unit :=
  match peerConnection with
  | None => ret tt
  | Some h =>
      try_catch
        (do _ <- setRemoteDescription env h {| sd_type := Offer; sdp := offer |};
         do answer <- createAnswer env h;
         do _ <- setLocalDescription env h answer;
         do sdp <- gets (fun s => local_sdp s h);
         set_answer env roomId (uid u) senderId (default "" sdp))
        (fun _ => modify (setWebRTCError (Some offer_error)))
  end.

(** [peerConnection.close(); delete peerConnections.current[senderId]]
    followed by [createPeerConnection(senderId, roomId, false)]. *)
Definition recreate (env : Env) (roomId : string) (h : nat) (senderId : string)
    (initiator : bool) : M (option nat) :=
  do _ <- modify (close_pc h);
  do _ <- modify (fun s => setPeerConnections (delete senderId (peerConnections s)) s);
  lift (createPeerConnection env senderId roomId initiator).

(** One offer addressed to this client (part_003:1480-1642); the branch
    that waits a second is [offerRetryTimeout]. *)
Definition onOffer (env : Env) (u : User) (roomId senderId offer : string) : M unit :=
  do existing <- gets (fun s => peerConnections s !! senderId);
  do peerConnection <-
    match existing with
    | Some h => ret (Some h)
    | None => lift (createPeerConnection env senderId roomId false)
    end;
  match peerConnection with
  | None => ret tt
  | Some h =>
      do st <- gets (fun s => signalingState <$> heap s !! h);
      if bool_decide (st = Some HaveLocalOffer) then
        if Js.gt (uid u) senderId then ret tt
        else
          do peerConnection <-
            try_catch
              (do _ <- setLocalDescription env h {| sd_type := Rollback; sdp := "" |};
               ret (Some h))
              (fun _ => recreate env roomId h senderId false);
          match peerConnection with
          | None => ret tt
          | Some h' => processOffer env u roomId (Some h') senderId offer
          end
      else if negb (bool_decide (st = Some Stable)) then ret tt
      else processOffer env u roomId (Some h) senderId offer
  end.

(** The callback the offers listener leaves with [setTimeout(..., 1000)]
    for a connection [h] that was neither stable nor in glare
    (part_003:1602-1635). *)
Definition offerRetryTimeout (env : Env) (u : User) (roomId : string) (h : nat)
    (senderId offer : string) : M unit :=
  do st <- gets (fun s => signalingState <$> heap s !! h);
  if negb (bool_decide (st = Some Stable)) then
    do newPeerConnection <- recreate env roomId h senderId false;
    match newPeerConnection with
    | None => ret tt
    | Some h' => processOffer env u roomId (Some h') senderId offer
    end
  else ret tt.

(** The offers listener (part_003:1468-1655).  The offers of one
    snapshot are dealt with one after another; the code starts the
    callback of each and lets them take turns at their [await]s. *)
Definition onOffers (env : Env) (roomId : string)
    (snapshot : option (list (string * list (string * string)))) : M unit :=
  do u <- gets user;
  match snapshot, u with
  | Some offers, Some u =>
      forEach offers (fun '(senderId, senderOffers) =>
        if negb (String.eqb senderId (uid u)) then
          forEach senderOffers (fun '(receiverId, offer) =>
            if String.eqb receiverId (uid u)
            then detached (onOffer env u roomId senderId offer)
            else ret tt)
        else ret tt)
  | _, _ => ret tt
  end.

Definition answer_error : string := "Failed to establish connection. Please try again.".

(** One answer addressed to this client (part_003:1719-1798). *)
Definition onAnswer (env : Env) (u : User) (roomId senderId answer : string) : M unit :=
  do existing <- gets (fun s => peerConnections s !! senderId);
  match existing with
  | None => ret tt
  | Some h =>
      do st <- gets (fun s => signalingState <$> heap s !! h);
      if bool_decide (st = Some HaveLocalOffer) then
        try_catch
          (do _ <- setRemoteDescription env h {| sd_type := Answer; sdp := answer |};
           remove env (AnswerRef roomId senderId (uid u)))
          (fun error =>
             do _ <- modify (setWebRTCError (Some answer_error));
             if Js.includes "Failed to set remote answer sdp:" error
                || Js.includes "Failed to set remote description" error
             then do _ <- recreate env roomId h senderId true; ret tt
             else ret tt)
      else ret tt
  end.

(** The answers listener (part_003:1709-1810). *)
Definition onAnswers (env : Env) (roomId : string)
    (snapshot : option (list (string * list (string * string)))) : M unit :=
  do u <- gets user;
  match snapshot, u with
  | Some answers, Some u =>
      forEach answers (fun '(senderId, senderAnswers) =>
        forEach senderAnswers (fun '(receiverId, answer) =>
          if String.eqb receiverId (uid u)
          then detached (onAnswer env u roomId senderId answer)
          else ret tt))
  | _, _ => ret tt
  end.

(** [candidateKeys.find(key => JSON.stringify(receiverCandidates[key])
    === JSON.stringify(candidate))]: a candidate is its JSON text. *)
Definition find_key (receiverCandidates : list (nat * string)) (candidate : string)
    : option nat :=
  fst <$> List.find (fun '(_, c) => String.eqb c candidate) receiverCandidates.

Definition candidate_error : string :=
  "Connection issue. Try reconnecting if video doesn't appear.".

(** One candidate of a snapshot (part_003:1831-1886). *)
Definition onCandidate (env : Env) (roomId : string) (h : nat)
    (senderId receiverId : string) (receiverCandidates : list (nat * string))
    (candidate : string) : M unit :=
  try_catch
    (do rd <- gets (fun s => heap s !! h ≫= RTC.remoteDescription);
     match rd with
     | None => ret tt
     | Some _ =>
         do _ <- addIceCandidate env h candidate;
         match find_key receiverCandidates candidate with
         | Some candidateKey => remove env (CandidateRef roomId senderId receiverId candidateKey)
         | None => ret tt
         end
     end)
    (fun error =>
       if Js.includes "Cannot add ICE candidate" error
          && negb (Js.includes "Connection failed" error)
       then ret tt
       else modify (setWebRTCError (Some candidate_error))).

(** The ICE candidates listener (part_003:1816-1902). *)
Definition onCandidates (env : Env) (roomId : string)
    (snapshot : option (list (string * list (string * list (nat * string))))) : M unit :=
  do u <- gets user;
  match snapshot, u with
  | Some candidates, Some u =>
      forEach candidates (fun '(senderId, senderCandidates) =>
        forEach senderCandidates (fun '(receiverId, receiverCandidates) =>
          if String.eqb receiverId (uid u) then
            do peerConnection <- gets (fun s => peerConnections s !! senderId);
            match peerConnection with
            | Some h =>
                forEach (values receiverCandidates) (fun candidate =>
                  detached (onCandidate env roomId h senderId receiverId
                              receiverCandidates candidate))
            | None => ret tt
            end
          else ret tt))
  | _, _ => ret tt
  end.

(** [setupWebRTCListeners(roomId, currentRoom)]: what it does to the
    refs; the listeners themselves are the functions above. *)
Definition setupWebRTCListeners (roomId : string) (currentRoom : bool) (s : State) : State :=
  match user s with
  | None => s
  | Some _ =>
      if negb (truthy roomId) || negb currentRoom then s
      else
        let s := if listenersSetupRef (listeners s) then cleanupWebRTCListeners s else s in
        setListeners (all_listeners true) s
  end.

(** [cleanupSignalingData(roomId, userId)] (part_003:326-396). *)
Definition cleanupSignalingData (env : Env) (roomId userId : string) : M unit :=
  try_catch
    (do _ <- remove env (OffersFromRef roomId userId);
     do offers <- relay_get env (fun r => offers (room r roomId));
     do _ <- forEach offers (fun '(senderId, _) =>
               if negb (String.eqb senderId userId)
               then remove env (OfferRef roomId senderId userId) else ret tt);
     do _ <- remove env (AnswersFromRef roomId userId);
     do answers <- relay_get env (fun r => answers (room r roomId));
     do _ <- forEach answers (fun '(senderId, _) =>
               if negb (String.eqb senderId userId)
               then remove env (AnswerRef roomId senderId userId) else ret tt);
     do _ <- remove env (CandidatesFromRef roomId userId);
     do candidates <- relay_get env (fun r => candidates (room r roomId));
     forEach candidates (fun '(senderId, _) =>
       if negb (String.eqb senderId userId)
       then remove env (CandidatesRef roomId senderId userId) else ret tt))
    (fun _ => ret tt).

Definition not_authenticated : string := "Cannot join room: User not authenticated".
Definition too_many : string := "Too many join attempts, aborting to prevent infinite loop".

(** The first offer to one participant found at join time, with the
    retry on a "no BUNDLE group" error (part_003:2093-2202). *)
Definition connect (env : Env) (u : User) (roomId id : string) : M unit :=
  do peerConnection <- lift (createPeerConnection env id roomId true);
  match peerConnection with
  | None => ret tt
  | Some h =>
      try_catch
        (do offer <- createOffer env h;
         do _ <- setLocalDescription env h offer;
         do sdp <- gets (fun s => local_sdp s h);
         match sdp with
         | Some sdp => set_offer env roomId (uid u) id sdp
         | None => ret tt
         end)
        (fun error =>
           if Js.includes "no BUNDLE group" error then
             try_catch
               (do _ <- modify (close_pc h);
                do _ <- modify (fun s => setPeerConnections (delete id (peerConnections s)) s);
                do _ <- (if constructorThrows env then throw "constructor" else ret tt);
                do h' <- gets (fun s => length (heap s));
                do _ <- modify (fun s => setHeap (heap s ++ [RTC.fresh id roomId true false]) s);
                do _ <- modify (fun s => setPeerConnections (<[id := h']> (peerConnections s)) s);
                do _ <- modify (fun s =>
                          match localStream (media s) with
                          | Some m => update_pc h' (add_tracks (tracks m)) s
                          | None => s
                          end);
                do newOffer <- createOffer env h';
                do _ <- setLocalDescription env h' newOffer;
                do sdp <- gets (fun s => local_sdp s h');
                set_offer env roomId (uid u) id (default "" sdp))
               (fun _ => ret tt)
           else ret tt)
  end.

(** The [try] block of [joinRoom] (part_003:2003-2207). *)
Definition join (env : Env) (u : User) (roomId : string) (currentRoom : bool) : M unit :=
  do _ <- modify close_all;
  do _ <- modify (setPeerConnections ∅);
  do _ <- modify (setPeers (fun _ => []));
  do _ <- cleanupSignalingData env roomId (uid u);
  do localStream <- gets (fun s => localStream (media s));
  do _ <-
    match localStream with
    | None =>
        do stream <- lift (initLocalStream env true true);
        match stream with
        | None =>
            do _ <- modify (setWebRTCError (Some init_error));
            do _ <- modify (setJoinAttempted false);
            throw init_error
        | Some _ => ret tt
        end
    | Some m =>
        modify (fun s =>
          setLocalStream
            (Some (enable_tracks (isVideoEnabled (media s)) (isAudioEnabled (media s)) m)) s)
    end;
  do _ <- modify (setCurrentRoomId (Some roomId));
  do _ <- set_participant env roomId (uid u)
            {| p_displayName := or_else (user_displayName u) "Anonymous"; joined := now env |};
  do _ <- onDisconnect_remove roomId (uid u);
  do participants <- relay_get env (fun r => participants (room r roomId));
  do _ <- forEach participants (fun '(id, participant) =>
            if negb (String.eqb id (uid u))
            then modify (setPeers (add_peer id (or_else (p_displayName participant) "Anonymous")))
            else ret tt);
  do _ <- modify (setupWebRTCListeners roomId currentRoom);
  do _ <- forEach participants (fun '(id, _) =>
            if negb (String.eqb id (uid u)) then connect env u roomId id else ret tt);
  do _ <- modify (setConnectionStatus Connected);
  modify (setJoinAttempts 0).

(** [joinRoom(roomId, currentRoom)] (part_003:1972-2218). *)
Definition joinRoom (env : Env) (roomId : string) (currentRoom : bool) (w : World)
    : Outcome * World :=
  let s := client w in
  match user s with
  | None =>
      (Threw not_authenticated,
       {| client := setWebRTCError (Some not_authenticated) s; relay := relay w |})
  | Some u =>
      if joinAttemptedRef s && bool_decide (currentRoomId s = Some roomId) then (Returned, w)
      else
        let s := setJoinAttempts (joinAttemptsRef s + 1) s in
        if 3 <? joinAttemptsRef s then
          (Threw too_many,
           {| client := setJoinAttempts 0 (setWebRTCError (Some too_many) s);
              relay := relay w |})
        else
          let s := setJoinAttempted true s in
          let s := setWebRTCError None s in
          let s := setConnectionStatus Connecting s in
          let '(r, w) :=
            try_catch (join env u roomId currentRoom)
              (fun error =>
                 do _ <- modify (setWebRTCError (Some error));
                 do _ <- modify (setConnectionStatus Failed);
                 throw error)
              {| client := s; relay := relay w |} in
          let w := {| client := setJoinAttempted false (client w); relay := relay w |} in
          (match r with Ok _ => Returned | Err e => Threw e end, w)
  end.

(** [leaveRoom()] (part_003:2221-2282). *)
Definition leaveRoom (env : Env) (w : World) : World :=
  let s := client w in
  match user s with
  | Some u =>
      if negb (truthy_opt (currentRoomId s)) then w
      else
        let roomId := default "" (currentRoomId s) in
        let reset :=
          do _ <- modify (setCurrentRoomId None);
          do _ <- modify (setConnectionStatus Disconnected);
          do _ <- modify (setJoinAttempted false);
          modify (setJoinAttempts 0) in
        snd (try_catch
               (do _ <- cleanupSignalingData env roomId (uid u);
                do _ <- remove env (ParticipantRef roomId (uid u));
                do _ <- modify cleanupWebRTCListeners;
                do _ <- modify close_all;
                do _ <- modify (setPeerConnections ∅);
                do _ <- modify (setPeers (fun _ => []));
                do _ <- modify (fun s =>
                          match isScreenSharing (media s), screenShareStream (media s) with
                          | true, Some _ => setScreenShareStream None s
                          | _, _ => s
                          end);
                do _ <- modify (fun s =>
                          match isRecording (media s), mediaRecorder (media s) with
                          | true, Some _ => setMediaRecorder (Some false) s
                          | _, _ => s
                          end);
                reset)
               (fun _ => reset) w)
  | None => w
  end.

End Part003.

(** ** The copy in src/contexts/webrtc-context.tsx *)

Module Contexts.

Definition device := Part003.device.

Definition constraints (video audio : bool) (m : MediaState) : MediaStreamConstraints :=
  {| c_audio := if audio then Some (device (selectedAudioDevice m)) else None;
     c_video := if video
                then Some {| v_device := device (selectedVideoDevice m); v_ideal := None |}
                else None |}.

Definition audio_only := Part003.audio_only.
Definition access_error := Part003.access_error.
Definition stop_local := Part003.stop_local.
Definition add_tracks := Part003.add_tracks.
Definition init_error := Part003.init_error.

(** [initLocalStream(video, audio)] (webrtc-context.tsx:429-503). *)
Definition initLocalStream (env : Env) (video audio : bool) (s : State)
    : option MediaStream * State :=
  let s := stop_local s in
  let c := constraints video audio (media s) in
  let s := record (CallGetUserMedia c) s in
  match getUserMedia env c with
  | Some stream =>
      let s := setHasVideo (0 <? length (getVideoTracks stream)) s in
      let s := setHasAudio (0 <? length (getAudioTracks stream)) s in
      let s := setLocalStream (Some stream) s in
      let s := setOriginalStream (Some stream) s in
      (Some stream, s)
  | None =>
      let failed s :=
        (None, setWebRTCError (Some access_error) (setHasAudio false (setHasVideo false s))) in
      if negb video then
        let s := record (CallGetUserMedia audio_only) s in
        match getUserMedia env audio_only with
        | Some audioOnlyStream =>
            let s := setHasVideo false s in
            let s := setHasAudio true s in
            let s := setLocalStream (Some audioOnlyStream) s in
            let s := setOriginalStream (Some audioOnlyStream) s in
            (Some audioOnlyStream, s)
        | None => failed s
        end
      else failed s
  end.

(** [createPeerConnection(peerId, roomId, initiator)]
    (webrtc-context.tsx:838-1050).  [new RTCPeerConnection] is taken to
    succeed: this copy has no handler for its failure.  [user] and
    [localStream] are read from the state at the time of the call; a
    caller made by an earlier render reads the values of that render. *)
Definition createPeerConnection (env : Env) (peerId roomId : string) (initiator : bool)
    (s : State) : option nat * State :=
  match user s with
  | None => (None, s)
  | Some _ =>
      if negb (truthy roomId) then (None, s)
      else
        match peerConnections s !! peerId with
        | Some _ => (None, s)
        | None =>
            let h := length (heap s) in
            let s := setHeap (heap s ++ [RTC.fresh peerId roomId initiator true]) s in
            let s := setPeerConnections (<[peerId := h]> (peerConnections s)) s in
            let s :=
              match localStream (media s) with
              | Some m => update_pc h (add_tracks (tracks m)) s
              | None =>
                  match initLocalStream env true true s with
                  | (Some stream, s) => update_pc h (add_tracks (tracks stream)) s
                  | (None, s) => s
                  end
              end in
            (Some h, s)
        end
  end.

Definition onicecandidate := Part003.onicecandidate.

(** [peerConnection.oniceconnectionstatechange] (webrtc-context.tsx:912-943). *)
Definition oniceconnectionstatechange (h : nat) (s : State) : State :=
  match heap s !! h with
  | None => s
  | Some pc =>
      if ice_connected pc then setConnectionStatus Connected s
      else if bool_decide (iceConnectionState pc = IceFailed) then
        setConnectionStatus Failed (record (CallRestartIce h) s)
      else if bool_decide (iceConnectionState pc = IceDisconnected) then
        setConnectionStatus Disconnected s
      else s
  end.

(** [peerConnection.onconnectionstatechange] (webrtc-context.tsx:946-964). *)
Definition onconnectionstatechange (h : nat) (s : State) : State :=
  match heap s !! h with
  | None => s
  | Some pc =>
      if bool_decide (connectionState pc = ConnConnected) then setConnectionStatus Connected s
      else if Part003.conn_failed_or_closed pc then
        let s := match peerConnections s !! pc_peer pc with
                 | Some h' => close_pc h' s
                 | None => s
                 end in
        let s := setPeerConnections (delete (pc_peer pc) (peerConnections s)) s in
        setConnectionStatus Failed s
      else s
  end.

(** [peerConnection.onnegotiationneeded] (webrtc-context.tsx:974-995). *)
Definition onnegotiationneeded (env : Env) (h : nat) : M unit :=
  do pc <- gets (fun s => heap s !! h);
  do u <- gets user;
  match pc, u with
  | Some pc, Some u =>
      if pc_initiator pc && truthy (pc_room pc) then
        try_catch
          (do offer <- createOffer env h;
           do _ <- setLocalDescription env h offer;
           do sdp <- gets (fun s => local_sdp s h);
           set_offer env (pc_room pc) (uid u) (pc_peer pc) (default "" sdp))
          (fun _ => modify (setWebRTCError (Some Part003.negotiation_error)))
      else ret tt
  | _, _ => ret tt
  end.

(** One offer addressed to this client (webrtc-context.tsx:1160-1209). *)
Definition onOffer (env : Env) (u : User) (roomId senderId offer : string) : M unit :=
  do existing <- gets (fun s => peerConnections s !! senderId);
  do peerConnection <-
    match existing with
    | Some h => ret (Some h)
    | None => lift (createPeerConnection env senderId roomId false)
    end;
  match peerConnection with
  | None => throw "TypeError"
  | Some h =>
      do st <- gets (fun s => signalingState <$> heap s !! h);
      if negb (bool_decide (st = Some Stable)) then ret tt
      else
        try_catch
          (do _ <- setRemoteDescription env h {| sd_type := Offer; sdp := offer |};
           do answer <- createAnswer env h;
           do _ <- setLocalDescription env h answer;
           do sdp <- gets (fun s => local_sdp s h);
           set_answer env roomId (uid u) senderId (default "" sdp))
          (fun _ => modify (setWebRTCError (Some Part003.offer_error)))
  end.

(** The offers listener (webrtc-context.tsx:1147-1223). *)
Definition onOffers (env : Env) (roomId : string)
    (snapshot : option (list (string * list (string * string)))) : M unit :=
  do u <- gets user;
  match snapshot, u with
  | Some offers, Some u =>
      forEach offers (fun '(senderId, senderOffers) =>
        if negb (String.eqb senderId (uid u)) then
          forEach senderOffers (fun '(receiverId, offer) =>
            if String.eqb receiverId (uid u)
            then onOffer env u roomId senderId offer
            else ret tt)
        else ret tt)
  | _, _ => ret tt
  end.

(** The answers listener (webrtc-context.tsx:1229-1283). *)
Definition onAnswers (env : Env) (roomId : string)
    (snapshot : option (list (string * list (string * string)))) : M unit :=
  do u <- gets user;
  match snapshot, u with
  | Some answers, Some u =>
      forEach answers (fun '(senderId, senderAnswers) =>
        forEach senderAnswers (fun '(receiverId, answer) =>
          if String.eqb receiverId (uid u) then
            do existing <- gets (fun s => peerConnections s !! senderId);
            match existing with
            | None => ret tt
            | Some h =>
                do st <- gets (fun s => signalingState <$> heap s !! h);
                if bool_decide (st = Some HaveLocalOffer) then
                  try_catch
                    (setRemoteDescription env h {| sd_type := Answer; sdp := answer |})
                    (fun _ => modify (setWebRTCError (Some Part003.answer_error)))
                else ret tt
            end
          else ret tt))
  | _, _ => ret tt
  end.

(** The ICE candidates listener (webrtc-context.tsx:1289-1336). *)
Definition onCandidates (env : Env) (roomId : string)
    (snapshot : option (list (string * list (string * list (nat * string))))) : M unit :=
  do u <- gets user;
  match snapshot, u with
  | Some candidates, Some u =>
      forEach candidates (fun '(senderId, senderCandidates) =>
        forEach senderCandidates (fun '(receiverId, receiverCandidates) =>
          if String.eqb receiverId (uid u) then
            do peerConnection <- gets (fun s => peerConnections s !! senderId);
            match peerConnection with
            | Some h =>
                forEach (values receiverCandidates) (fun candidate =>
                  try_catch (addIceCandidate env h candidate)
                    (fun _ => modify (setWebRTCError (Some Part003.answer_error))))
            | None => ret tt
            end
          else ret tt))
  | _, _ => ret tt
  end.

Definition setupWebRTCListeners := Part003.setupWebRTCListeners.

(** [cleanupSignalingData(roomId, userId)] (webrtc-context.tsx:294-312). *)
Definition cleanupSignalingData (env : Env) (roomId userId : string) : M unit :=
  try_catch
    (do _ <- remove env (OffersFromRef roomId userId);
     do _ <- remove env (AnswersFromRef roomId userId);
     remove env (CandidatesFromRef roomId userId))
    (fun _ => ret tt).

(** The [try] block of [joinRoom] (webrtc-context.tsx:1437-1480). *)
Definition join (env : Env) (u : User) (roomId : string) (currentRoom : bool) : M unit :=
  do _ <- cleanupSignalingData env roomId (uid u);
  do localStream <- gets (fun s => localStream (media s));
  do _ <-
    match localStream with
    | None =>
        do stream <- lift (initLocalStream env true true);
        match stream with
        | None =>
            do _ <- modify (setWebRTCError (Some init_error));
            do _ <- modify (setJoinAttempted false);
            throw init_error
        | Some _ => ret tt
        end
    | Some _ => ret tt
    end;
  do _ <- modify (setCurrentRoomId (Some roomId));
  do _ <- modify close_all;
  do _ <- modify (setPeerConnections ∅);
  do _ <- set_participant env roomId (uid u)
            {| p_displayName := or_else (user_displayName u) "Anonymous"; joined := now env |};
  do _ <- onDisconnect_remove roomId (uid u);
  do _ <- modify (setupWebRTCListeners roomId currentRoom);
  modify (setJoinAttempts 0).

(** [joinRoom(roomId, currentRoom)] (webrtc-context.tsx:1406-1491). *)
Definition joinRoom (env : Env) (roomId : string) (currentRoom : bool) (w : World)
    : Outcome * World :=
  let s := client w in
  match user s with
  | None =>
      (Threw Part003.not_authenticated,
       {| client := setWebRTCError (Some Part003.not_authenticated) s; relay := relay w |})
  | Some u =>
      if joinAttemptedRef s && bool_decide (currentRoomId s = Some roomId) then (Returned, w)
      else
        let s := setJoinAttempts (joinAttemptsRef s + 1) s in
        if 3 <? joinAttemptsRef s then
          (Threw Part003.too_many,
           {| client := setJoinAttempts 0 (setWebRTCError (Some Part003.too_many) s);
              relay := relay w |})
        else
          let s := setJoinAttempted true s in
          let s := setWebRTCError None s in
          let s := setConnectionStatus Connecting s in
          let '(r, w) :=
            try_catch (join env u roomId currentRoom)
              (fun error =>
                 do _ <- modify (setWebRTCError (Some error));
                 do _ <- modify (setConnectionStatus Failed);
                 throw error)
              {| client := s; relay := relay w |} in
          let w := {| client := setJoinAttempted false (client w); relay := relay w |} in
          (match r with Ok _ => Returned | Err e => Threw e end, w)
  end.

(** Put [t] in place of the track of the first video sender. *)
Fixpoint replace_video (t : Track) (l : list Track) : list Track :=
  match l with
  | [] => []
  | x :: rest => if is_kind Video x then t :: rest else x :: replace_video t rest
  end.

(** [toggleScreenShare()] while sharing (webrtc-context.tsx:534-567). *)
Definition stopScreenShare (s : State) : State :=
  let s := match screenShareStream (media s) with
           | Some m => setScreenShareStream (Some (stop_all m)) s
           | None => s
           end in
  match originalStream (media s), localStream (media s) with
  | Some original, Some local =>
      let s := setLocalStream
                 (Some {| tracks := getAudioTracks local ++ getVideoTracks original |}) s in
      let s := match getVideoTracks original with
               | videoTrack :: _ =>
                   fold_left
                     (fun s '(_, h) =>
                        update_pc h (fun pc => RTC.with_senders (replace_video videoTrack (senders pc)) pc) s)
                     (map_to_list (peerConnections s)) s
               | [] => s
               end in
      setIsScreenSharing false s
  | _, _ => s
  end.

(** [toggleRecording()] while recording (webrtc-context.tsx:668-674). *)
Definition stopRecording (s : State) : State :=
  match mediaRecorder (media s) with
  | Some _ => setIsRecording false (setMediaRecorder (Some false) s)
  | None => s
  end.

(** [leaveRoom()] (webrtc-context.tsx:1494-1533). *)
Definition leaveRoom (env : Env) (w : World) : World :=
  let s := client w in
  match user s with
  | Some u =>
      if negb (truthy_opt (currentRoomId s)) then w
      else
        let roomId := default "" (currentRoomId s) in
        snd ((do _ <- detached (remove env (ParticipantRef roomId (uid u)));
              do _ <- modify cleanupWebRTCListeners;
              do _ <- modify close_all;
              do _ <- modify (setPeerConnections ∅);
              do _ <- modify (setPeers (fun _ => []));
              do _ <- modify (setCurrentRoomId None);
              do _ <- modify (setConnectionStatus Disconnected);
              do _ <- modify (fun s' => if isScreenSharing (media s) then stopScreenShare s' else s');
              do _ <- modify (fun s' => if isRecording (media s) then stopRecording s' else s');
              do _ <- modify (setJoinAttempted false);
              modify (setJoinAttempts 0)) w)
  | None => w
  end.

End Contexts.

(** ** The room provider, src/unnamed/part_002 *)

Module RoomContext.

Record RoomState := {
  rc_user : option User;
  currentRoom : option string;
  isJoiningRoom : bool;
  joinError : option string;
  joinInProgressRef : bool;
  joinAttemptsRef : nat;
  currentRoomIdRef : option string
}.

Definition too_many : string := "Too many join attempts, aborting to prevent infinite loop".
Definition not_authenticated : string := "User not authenticated".

Definition not_found (roomId : string) : string :=
  String.append "Room " (String.append roomId " not found in database").

(** [joinRoom(roomId)] (part_002:243-342); the reset of
    [joinInProgressRef] a second later is [joinInProgressTimeout]. *)
Definition joinRoom (env : Env) (roomId : string) (st : RoomState * Relay)
    : Outcome * (RoomState * Relay) :=
  let '(s, relay) := st in
  match rc_user s with
  | None =>
      (Threw not_authenticated,
       ({| rc_user := rc_user s; currentRoom := currentRoom s;
           isJoiningRoom := isJoiningRoom s; joinError := Some not_authenticated;
           joinInProgressRef := joinInProgressRef s; joinAttemptsRef := joinAttemptsRef s;
           currentRoomIdRef := currentRoomIdRef s |}, relay))
  | Some u =>
      if joinInProgressRef s then (Returned, st)
      else if bool_decide (currentRoom s = Some roomId) then (Returned, st)
      else
        let attempts := joinAttemptsRef s + 1 in
        if 3 <? attempts then
          (Threw too_many,
           ({| rc_user := rc_user s; currentRoom := currentRoom s;
               isJoiningRoom := isJoiningRoom s; joinError := Some too_many;
               joinInProgressRef := joinInProgressRef s; joinAttemptsRef := 0;
               currentRoomIdRef := currentRoomIdRef s |}, relay))
        else
          let failed (e : string) (ref : option string) (relay : Relay) :=
            (Threw e,
             ({| rc_user := rc_user s; currentRoom := currentRoom s;
                 isJoiningRoom := false; joinError := Some (or_else e "Failed to join room");
                 joinInProgressRef := true; joinAttemptsRef := attempts;
                 currentRoomIdRef := ref |}, relay)) in
          match relayError env with
          | Some e => failed e (currentRoomIdRef s) relay
          | None =>
              if negb (room_exists (room relay roomId))
              then failed (not_found roomId) (currentRoomIdRef s) relay
              else
                let participant :=
                  {| p_displayName := or_else (user_displayName u) "Anonymous";
                     joined := now env |} in
                let relay :=
                  in_room roomId
                    (fun n => with_onDisconnect (uid u :: onDisconnectRemove n)
                                (with_participants (set_child (uid u) participant (participants n)) n))
                    relay in
                (Returned,
                 ({| rc_user := rc_user s; currentRoom := Some roomId;
                     isJoiningRoom := false; joinError := None;
                     joinInProgressRef := true; joinAttemptsRef := 0;
                     currentRoomIdRef := Some roomId |}, relay))
          end
  end.

Definition joinInProgressTimeout (s : RoomState) : RoomState :=
  {| rc_user := rc_user s; currentRoom := currentRoom s; isJoiningRoom := isJoiningRoom s;
     joinError := joinError s; joinInProgressRef := false;
     joinAttemptsRef := joinAttemptsRef s; currentRoomIdRef := currentRoomIdRef s |}.

End RoomContext.

(** ** Several clients around one relay *)

(** The handlers of one copy of the provider. *)
Record Provider := {
  prov_createPeerConnection : Env -> string -> string -> bool -> State -> option nat * State;
  prov_onOffers : Env -> string -> option (list (string * list (string * string))) -> M unit;
  prov_onAnswers : Env -> string -> option (list (string * list (string * string))) -> M unit;
  prov_onCandidates :
    Env -> string -> option (list (string * list (string * list (nat * string)))) -> M unit;
  prov_onnegotiationneeded : Env -> nat -> M unit
}.

Definition part003 : Provider :=
  {| prov_createPeerConnection := Part003.createPeerConnection;
     prov_onOffers := Part003.onOffers;
     prov_onAnswers := Part003.onAnswers;
     prov_onCandidates := Part003.onCandidates;
     prov_onnegotiationneeded := Part003.onnegotiationneeded |}.

Definition contexts : Provider :=
  {| prov_createPeerConnection := Contexts.createPeerConnection;
     prov_onOffers := Contexts.onOffers;
     prov_onAnswers := Contexts.onAnswers;
     prov_onCandidates := Contexts.onCandidates;
     prov_onnegotiationneeded := Contexts.onnegotiationneeded |}.

Record System := { members : gmap string State; shared : Relay }.

(** What can happen next: the relay delivers the current content of a
    node to the listener of one client (a full snapshot, as [onValue]
    does), or the browser of a client fires [negotiationneeded]. *)
Inductive Event :=
| ParticipantsSnapshot (who : string)
| OffersSnapshot (who : string)
| AnswersSnapshot (who : string)
| CandidatesSnapshot (who : string)
| NegotiationNeeded (who : string) (h : nat).

Definition on_member (who : string) (m : M unit) (sys : System) : System :=
  match members sys !! who with
  | Some s =>
      let '(_, w) := m {| client := s; relay := shared sys |} in
      {| members := <[who := client w]> (members sys); shared := relay w |}
  | None => sys
  end.

Definition deliver (P : Provider) (env : string -> Env) (roomId : string)
    (sys : System) (ev : Event) : System :=
  let node := room (shared sys) roomId in
  match ev with
  | ParticipantsSnapshot who =>
      on_member who
        (modify (onParticipants (prov_createPeerConnection P (env who)) roomId
                   (snapshot_of (participants node)))) sys
  | OffersSnapshot who =>
      on_member who (prov_onOffers P (env who) roomId (snapshot_of (offers node))) sys
  | AnswersSnapshot who =>
      on_member who (prov_onAnswers P (env who) roomId (snapshot_of (answers node))) sys
  | CandidatesSnapshot who =>
      on_member who (prov_onCandidates P (env who) roomId (snapshot_of (candidates node))) sys
  | NegotiationNeeded who h =>
      on_member who (prov_onnegotiationneeded P (env who) h) sys
  end.

Definition run (P : Provider) (env : string -> Env) (roomId : string)
    (schedule : list Event) (sys : System) : System :=
  fold_left (deliver P env roomId) schedule sys.

(** ** Concrete clients used in the examples *)

Module Example.

Definition camera : MediaStream :=
  {| tracks := [ {| kind := Audio; enabled := true; ended := false |};
                 {| kind := Video; enabled := true; ended := false |} ] |}.

Definition microphone : MediaStream :=
  {| tracks := [ {| kind := Audio; enabled := true; ended := false |} ] |}.

Definition no_media : MediaState :=
  {| localStream := None; isAudioEnabled := true; isVideoEnabled := true;
     isScreenSharing := false; isRecording := false; hasVideo := false; hasAudio := false;
     selectedVideoDevice := None; selectedAudioDevice := None;
     screenShareStream := None; originalStream := None; mediaRecorder := None |}.

Definition with_camera : MediaState :=
  {| localStream := Some camera; isAudioEnabled := true; isVideoEnabled := true;
     isScreenSharing := false; isRecording := false; hasVideo := true; hasAudio := true;
     selectedVideoDevice := None; selectedAudioDevice := None;
     screenShareStream := None; originalStream := Some camera; mediaRecorder := None |}.

(** A signed-in client that has not joined any room. *)
Definition signed_in (id : string) (m : MediaState) : State :=
  {| user := Some {| uid := id; user_displayName := id |};
     media := m; peers := []; currentRoomId := None; webRTCError := None;
     connectionStatus := Disconnected; peerConnections := ∅;
     joinAttemptedRef := false; joinAttemptsRef := 0;
     listeners := all_listeners false; heap := []; calls := [] |}.

(** A client in room r1 with listeners attached and no connection yet. *)
Definition in_room_r1 (id : string) : State :=
  setListeners (all_listeners true) (setCurrentRoomId (Some "r1") (signed_in id with_camera)).

(** A browser that grants every request and a relay that is reachable. *)
Definition env_of (id : string) : Env :=
  {| getUserMedia := fun _ => Some camera;
     relayError := None;
     constructorThrows := false;
     createOfferError := fun _ => None;
     offerSdp := fun _ => String.append "offer of " id;
     answerSdp := fun _ => String.append "answer of " id;
     sdpError := fun _ => None;
     rollbackFails := false;
     candidateError := fun _ => None;
     now := 0 |}.

(** A browser that refuses every media request. *)
Definition env_no_media : Env :=
  {| getUserMedia := fun _ => None;
     relayError := None;
     constructorThrows := false;
     createOfferError := fun _ => None;
     offerSdp := fun _ => "offer";
     answerSdp := fun _ => "answer";
     sdpError := fun _ => None;
     rollbackFails := false;
     candidateError := fun _ => None;
     now := 0 |}.

(** A browser with a microphone only. *)
Definition env_audio_only : Env :=
  {| getUserMedia := fun c => match c_video c with Some _ => None | None => Some microphone end;
     relayError := None;
     constructorThrows := false;
     createOfferError := fun _ => None;
     offerSdp := fun _ => "offer";
     answerSdp := fun _ => "answer";
     sdpError := fun _ => None;
     rollbackFails := false;
     candidateError := fun _ => None;
     now := 0 |}.

Definition person (name : string) : Participant := {| p_displayName := name; joined := 0 |}.

Definition room_r1 (ps : list (string * Participant)) : Relay :=
  {[ "r1" := {| room_exists := true; participants := ps; offers := []; answers := [];
                candidates := []; nextPushId := 0; onDisconnectRemove := [] |} ]}.

(** alice and bob are both in room r1. *)
Definition alice_and_bob : System :=
  {| members := {[ "alice" := in_room_r1 "alice"; "bob" := in_room_r1 "bob" ]};
     shared := room_r1 [("alice", person "alice"); ("bob", person "bob")] |}.

(** Both see the roster and both browsers ask for negotiation before
    either offer has been delivered: glare. *)
Definition to_glare : list Event :=
  [ ParticipantsSnapshot "alice"; ParticipantsSnapshot "bob";
    NegotiationNeeded "alice" 0; NegotiationNeeded "bob" 0 ].

Definition signaling_of (sys : System) (who peer : string) : option RTCSignalingState :=
  s ← members sys !! who; signalingState <$> connection_of s peer.

Definition remote_of (sys : System) (who peer : string) : option RTCSessionDescription :=
  s ← members sys !! who; pc ← connection_of s peer; RTC.remoteDescription pc.

Definition local_of (sys : System) (who peer : string) : option RTCSessionDescription :=
  s ← members sys !! who; pc ← connection_of s peer; RTC.localDescription pc.


(** Connections to the listed peers, each in the given ICE state. *)
Definition with_connections (l : list (string * RTCIceConnectionState)) (s : State) : State :=
  fold_left
    (fun s '(id, i) =>
       let h := length (heap s) in
       setPeerConnections (<[id := h]> (peerConnections s))
         (setHeap (heap s ++ [RTC.with_ice i (RTC.fresh id "r1" true true)]) s))
    l s.

Definition one_failed : State :=
  with_connections [("bob", IceFailed); ("carol", IceChecking)] (in_room_r1 "alice").

Definition all_disconnected : State :=
  with_connections [("bob", IceDisconnected)] (in_room_r1 "alice").

(** alice with one connection to bob, as [createPeerConnection] leaves
    it: stable, no description yet. *)
Definition connected_to_bob : State :=
  with_connections [("bob", IceNew)] (in_room_r1 "alice").

(** The same after alice's offer: have-local-offer. *)
Definition offer_pending : State :=
  update_pc 0
    (RTC.with_signaling HaveLocalOffer None
       (Some {| sd_type := Offer; sdp := "offer of alice" |}) None None)
    connected_to_bob.

Definition both_in_r1 : Relay := room_r1 [("alice", person "alice"); ("bob", person "bob")].

Definition alice_world (s : State) : World := {| client := s; relay := both_in_r1 |}.

(** The relay holding one offer from bob to alice. *)
Definition offer_from_bob : Relay :=
  in_room "r1" (with_offers [("bob", [("alice", "offer of bob")])]) both_in_r1.

(** The relay holding one ICE candidate from bob for alice. *)
Definition candidate_from_bob : Relay :=
  in_room "r1" (with_candidates [("bob", [("alice", [(0, "candidate 1")])])] 1) both_in_r1.

(** Four calls of [joinRoom] in a browser that refuses the camera. *)
Definition four_calls : list (Env * string * bool) :=
  [ (env_no_media, "r1", true); (env_no_media, "r1", true);
    (env_no_media, "r1", true); (env_no_media, "r1", true) ].

(** bob is in room r1; alice is signed in and about to join, without a
    local stream. *)
Definition alice_arrives : World :=
  {| client := signed_in "alice" no_media; relay := room_r1 [("bob", person "bob")] |}.

Definition alice_room_state : RoomContext.RoomState * Relay :=
  ({| RoomContext.rc_user := Some {| uid := "alice"; user_displayName := "alice" |};
      RoomContext.currentRoom := None; RoomContext.isJoiningRoom := false;
      RoomContext.joinError := None; RoomContext.joinInProgressRef := false;
      RoomContext.joinAttemptsRef := 0; RoomContext.currentRoomIdRef := None |},
   room_r1 [("bob", person "bob")]).

(** alice's connection to bob after an offer/answer exchange: stable,
    with a remote description. *)
Definition negotiated_with_bob : State :=
  update_pc 0
    (RTC.with_signaling Stable
       (Some {| sd_type := Offer; sdp := "offer of alice" |}) None
       (Some {| sd_type := Answer; sdp := "answer of bob" |}) None)
    connected_to_bob.

Definition candidates_snapshot (w : World)
    : option (list (string * list (string * list (nat * string)))) :=
  snapshot_of (candidates (room (relay w) "r1")).

Definition offers_snapshot (w : World) : option (list (string * list (string * string))) :=
  snapshot_of (offers (room (relay w) "r1")).

(** The glare of [to_glare], by either copy of the provider. *)
Definition glare003 : System := run part003 env_of "r1" to_glare alice_and_bob.
Definition glareContexts : System := run contexts env_of "r1" to_glare alice_and_bob.

(** The offers reach both sides before alice's answer reaches bob. *)
Definition offers_first : list Event :=
  [ OffersSnapshot "bob"; OffersSnapshot "alice"; AnswersSnapshot "bob" ].

(** alice's answer reaches bob before alice's offer does. *)
Definition answer_first : list Event :=
  [ OffersSnapshot "alice"; AnswersSnapshot "bob"; OffersSnapshot "bob" ].

(** Only offers and answers are delivered. *)
Definition signalling_only (ev : Event) : Prop :=
  match ev with
  | OffersSnapshot _ | AnswersSnapshot _ => True
  | _ => False
  end.

(** alice's connection to bob after bob's offer has been applied and
    before the answer is set: have-remote-offer. *)
Definition answering_bob : State :=
  update_pc 0
    (RTC.with_signaling HaveRemoteOffer None None None
       (Some {| sd_type := Offer; sdp := "offer of bob" |}))
    connected_to_bob.

(** The browser reports that connection [h] has failed. *)
Definition connection_fails (h : nat) (s : State) : State :=
  Part003.onconnectionstatechange h
    (update_pc h
       (fun pc =>
          {| pc_peer := pc_peer pc; pc_room := pc_room pc; pc_initiator := pc_initiator pc;
             pc_handlers := pc_handlers pc; signalingState := signalingState pc;
             iceConnectionState := iceConnectionState pc; connectionState := ConnFailed;
             currentLocalDescription := currentLocalDescription pc;
             pendingLocalDescription := pendingLocalDescription pc;
             currentRemoteDescription := currentRemoteDescription pc;
             pendingRemoteDescription := pendingRemoteDescription pc;
             remoteCandidates := remoteCandidates pc; senders := senders pc |}) s).

Definition alice_user : User := {| uid := "alice"; user_displayName := "alice" |}.

(** An offer from bob finds connection 0 in have-remote-offer, so the
    listener leaves a timer; the connection then fails and is dropped,
    the roster listener opens a new one, and the timer fires. *)
Definition timer_after_recreation : World :=
  let w0 := {| client := answering_bob; relay := offer_from_bob |} in
  let w1 := snd (Part003.onOffers (env_of "alice") "r1" (offers_snapshot w0) w0) in
  let w2 := {| client := connection_fails 0 (client w1); relay := relay w1 |} in
  let w3 := {| client := onParticipants (Part003.createPeerConnection (env_of "alice")) "r1"
                           (snapshot_of (participants (room (relay w2) "r1"))) (client w2);
               relay := relay w2 |} in
  snd (Part003.offerRetryTimeout (env_of "alice") alice_user "r1" 0 "bob" "offer of bob" w3).
End Example.

(** ** Vocabulary of the properties *)

(** Running [m] takes every world to one related to it by [R], whether
    [m] returns or throws. *)
Definition respects (R : World -> World -> Prop) {A : Type} (m : M A) : Prop :=
  forall w, R w (snd (m w)).

(** A sequence of calls of a function on worlds, each listed with the
    world before, how it ended and the world after. *)
Fixpoint call_trace {W C : Type} (f : C -> W -> Outcome * W) (calls : list C) (w : W)
    : list (W * C * Outcome * W) :=
  match calls with
  | [] => []
  | c :: rest =>
      let '(o, w') := f c w in
      (w, c, o, w') :: call_trace f rest w'
  end.

(** One call of [joinRoom] of the WebRTC provider: environment, room id,
    whether [currentRoom] is set. *)
Definition JoinCall : Type := Env * string * bool.

Definition room_of_call (c : JoinCall) : string := snd (fst c).

Definition joinRoom003 (c : JoinCall) : World -> Outcome * World :=
  Part003.joinRoom (fst (fst c)) (snd (fst c)) (snd c).

Definition joinRoomContexts (c : JoinCall) : World -> Outcome * World :=
  Contexts.joinRoom (fst (fst c)) (snd (fst c)) (snd c).

(** The call gets as far as the attempt counter and finds it above 3 once
    incremented. *)
Definition counter_exceeded (w : World) (roomId : string) : Prop :=
  is_Some (user (client w))
  /\ (joinAttemptedRef (client w) && bool_decide (currentRoomId (client w) = Some roomId)) = false
  /\ 3 < joinAttemptsRef (client w) + 1.

(** The world [joinRoom] leaves when it gives up: error set, counter
    reset, nothing else touched. *)
Definition gave_up (w : World) : World :=
  {| client := setJoinAttempts 0 (setWebRTCError (Some Part003.too_many) (client w));
     relay := relay w |}.

(** The same for the room provider. *)
Definition room_counter_exceeded (st : RoomContext.RoomState * Relay) (roomId : string) : Prop :=
  is_Some (RoomContext.rc_user (fst st))
  /\ RoomContext.joinInProgressRef (fst st) = false
  /\ RoomContext.currentRoom (fst st) <> Some roomId
  /\ 3 < RoomContext.joinAttemptsRef (fst st) + 1.

Definition room_gave_up (st : RoomContext.RoomState * Relay) : RoomContext.RoomState * Relay :=
  ({| RoomContext.rc_user := RoomContext.rc_user (fst st);
      RoomContext.currentRoom := RoomContext.currentRoom (fst st);
      RoomContext.isJoiningRoom := RoomContext.isJoiningRoom (fst st);
      RoomContext.joinError := Some RoomContext.too_many;
      RoomContext.joinInProgressRef := RoomContext.joinInProgressRef (fst st);
      RoomContext.joinAttemptsRef := 0;
      RoomContext.currentRoomIdRef := RoomContext.currentRoomIdRef (fst st) |}, snd st).


(** The three requests [initLocalStream] of part_003 can make are all
    refused. *)
Definition no_media_at_all (env : Env) (m : MediaState) : Prop :=
  getUserMedia env (Part003.constraints true true m) = None
  /\ getUserMedia env (Part003.constraints false true m) = None
  /\ getUserMedia env Part003.audio_only = None.

(** [joinRoom] gets past its guards and past the attempt counter. *)
Definition join_proceeds (w : World) (roomId : string) : Prop :=
  is_Some (user (client w))
  /\ (joinAttemptedRef (client w) && bool_decide (currentRoomId (client w) = Some roomId)) = false
  /\ joinAttemptsRef (client w) + 1 <= 3.


(** The remote description of the connection behind a handle. *)
Definition remote_description_at (s : State) (h : nat) : option RTCSessionDescription :=
  heap s !! h ≫= RTC.remoteDescription.

(** A call the candidates listener may make in state [s]: no
    [addIceCandidate] on a connection without remote description. *)
Definition candidate_call_allowed (s : State) (c : Call) : Prop :=
  match c with
  | CallAddIceCandidate h _ => is_Some (remote_description_at s h)
  | _ => True
  end.

(** Remote descriptions are as before, and the calls made since are
    allowed by them. *)
Definition candidates_guarded (w w' : World) : Prop :=
  (forall h, remote_description_at (client w') h = remote_description_at (client w) h)
  /\ exists l, calls (client w') = calls (client w) ++ l
               /\ Forall (candidate_call_allowed (client w)) l.

(** No offer has been added to or removed from any room. *)
Definition offers_kept (w w' : World) : Prop :=
  forall r, offers (room (relay w') r) = offers (room (relay w) r).

(** The connections to [peerId] that are not closed, by handle. *)
Definition live_connections_to (s : State) (peerId : string) : list nat :=
  List.map fst
    (List.filter (fun hp => RTC.live (snd hp) && String.eqb (pc_peer (snd hp)) peerId)
       (imap (fun h pc => (h, pc)) (heap s))).

(** Every connection that is not closed is the one the map holds for its
    peer. *)
Definition tracked (s : State) : Prop :=
  forall h pc, heap s !! h = Some pc -> RTC.live pc = true ->
               peerConnections s !! pc_peer pc = Some h.

(** ** The roster and the peers *)

Definition peer_ids (s : State) : list string := List.map peer_id (peers s).

(** Every handle in the map points into the store. *)
Definition handles_valid (s : State) : bool :=
  forallb (fun kv => snd kv <? length (heap s)) (map_to_list (peerConnections s)).

(** Every connection in the map has a Peer record, and self has none. *)
Definition every_connection_has_peer (uid : string) (s : State) : bool :=
  negb (existsb (String.eqb uid) (peer_ids s))
  && forallb (fun kv => existsb (String.eqb (fst kv)) (peer_ids s))
       (map_to_list (peerConnections s)).

(** The map holds for [id] a connection to [id] that is not closed. *)
Definition connection_to (initiator : bool) (s : State) (id : string) : Prop :=
  exists h pc, peerConnections s !! id = Some h /\ heap s !! h = Some pc
               /\ pc_peer pc = id /\ pc_initiator pc = initiator /\ RTC.live pc = true.

Definition closed_at (s : State) (h : nat) : Prop :=
  exists pc, heap s !! h = Some pc /\ RTC.live pc = false.

(** The last snapshot of a sequence that exists. *)
Definition last_existing {A} (snapshots : list (option A)) : option A :=
  fold_left (fun acc o => match o with Some x => Some x | None => acc end) snapshots None.

(** What the participants listener needs of [createPeerConnection] when
    the map has no connection for [id]: it touches no other entry of the
    map and no connection already in the store, leaves the peers alone,
    and the connection it enters, if any, is new; [ok] is the condition
    under which the constructor does not throw. *)
Record creates_at_most_one (ok : Prop)
    (create : string -> string -> bool -> State -> option nat * State) : Prop := {
  cr_peers : forall id r i s, peers (snd (create id r i s)) = peers s;
  cr_user : forall id r i s, user (snd (create id r i s)) = user s;
  cr_others : forall id r i s id',
    peerConnections s !! id = None -> id' <> id ->
    peerConnections (snd (create id r i s)) !! id' = peerConnections s !! id';
  cr_store : forall id r i s h,
    peerConnections s !! id = None -> h < length (heap s) ->
    heap (snd (create id r i s)) !! h = heap s !! h;
  cr_length : forall id r i s,
    peerConnections s !! id = None -> length (heap s) <= length (heap (snd (create id r i s)));
  cr_new : forall id r i s h,
    peerConnections s !! id = None ->
    peerConnections (snd (create id r i s)) !! id = Some h ->
    h = length (heap s)
    /\ exists pc, heap (snd (create id r i s)) !! h = Some pc
                  /\ pc_peer pc = id /\ pc_initiator pc = i /\ RTC.live pc = true;
  cr_succeeds : forall id r i s,
    ok -> is_Some (user s) -> truthy r = true -> peerConnections s !! id = None ->
    is_Some (peerConnections (snd (create id r i s)) !! id)
}.

(** What the first loop of the listener has done once it has gone through
    the ids [ids] of a snapshot. *)
Record added_by (ok : Prop) (uid roomId : string) (ids : list string) (s s1 : State)
    : Prop := {
  ab_user : user s1 = user s;
  ab_length : length (heap s) <= length (heap s1);
  ab_store : forall h, h < length (heap s) -> heap s1 !! h = heap s !! h;
  ab_kept : forall id h, peerConnections s !! id = Some h -> peerConnections s1 !! id = Some h;
  ab_new : forall id h,
    peerConnections s !! id = None -> peerConnections s1 !! id = Some h ->
    In id ids /\ id <> uid /\ length (heap s) <= h
    /\ exists pc, heap s1 !! h = Some pc
                  /\ pc_peer pc = id /\ pc_initiator pc = true /\ RTC.live pc = true;
  ab_peers : forall id,
    In id (peer_ids s1)
    <-> In id (peer_ids s) \/ (In id ids /\ id <> uid /\ peerConnections s !! id = None);
  ab_succeeds : forall id,
    ok -> is_Some (user s) -> truthy roomId = true ->
    In id ids -> id <> uid -> peerConnections s !! id = None ->
    is_Some (peerConnections s1 !! id)
}.

(** What the last loop of the listener has done once it has gone through
    the keys [ks] of the map, [roster] being the ids of the snapshot. *)
Record closed_by (roster ks : list string) (s s3 : State) : Prop := {
  cb_peers : peers s3 = peers s;
  cb_user : user s3 = user s;
  cb_length : length (heap s3) = length (heap s);
  cb_only_deleted : forall id h,
    peerConnections s3 !! id = Some h -> peerConnections s !! id = Some h;
  cb_roster_kept : forall id, In id roster -> peerConnections s3 !! id = peerConnections s !! id;
  cb_left_deleted : forall id, In id ks -> ~ In id roster -> peerConnections s3 !! id = None;
  cb_deleted_closed : forall id h,
    peerConnections s !! id = Some h -> peerConnections s3 !! id = None ->
    h < length (heap s) -> closed_at s3 h;
  cb_closed_stays : forall h, closed_at s h -> closed_at s3 h;
  cb_untouched : forall h,
    (forall id, peerConnections s !! id = Some h -> In id roster) ->
    heap s3 !! h = heap s !! h
}.

(** [s'] is [s] with a new connection for [id] at the end of the store
    and in the map, and nothing else of the map or the store changed. *)
Definition entered (id roomId : string) (initiator : bool) (s s' : State) : Prop :=
  exists f : PeerConnection -> PeerConnection,
    peerConnections s' = <[id := length (heap s)]> (peerConnections s)
    /\ heap s' = alter f (length (heap s)) (heap s ++ [RTC.fresh id roomId initiator true])
    /\ pc_peer (f (RTC.fresh id roomId initiator true)) = id
    /\ pc_initiator (f (RTC.fresh id roomId initiator true)) = initiator
    /\ RTC.live (f (RTC.fresh id roomId initiator true)) = true.

Definition deliver_participants
    (create : string -> string -> bool -> State -> option nat * State) (roomId : string)
    (snapshots : list (option (list (string * Participant)))) (s : State) : State :=
  fold_left (fun s snapshot => onParticipants create roomId snapshot s) snapshots s.

(** ** Signalling data of one user *)

(** The message [sender] has left for [receiver] under a node of the
    relay ([offers], [answers] or [candidates]). *)
Definition addressed {A : Type} (l : list (string * list (string * A)))
    (sender receiver : string) : option A :=
  child sender l ≫= child receiver.

(** One turn of the loops of [cleanupSignalingData] of part_003: the
    message of [senderId] to [userId] is removed, unless [senderId] is
    [userId]. *)
Definition clean_step {A : Type} (userId : string) (acc : list (string * list (string * A)))
    (entry : string * list (string * A)) : list (string * list (string * A)) :=
  if negb (String.eqb (fst entry) userId) then remove_grandchild (fst entry) userId acc else acc.

(** What [cleanupSignalingData] of part_003 leaves of a node: the
    messages of [userId] are removed, then, for every sender found in
    what is left, the message to [userId]. *)
Definition cleaned {A : Type} (userId : string) (l : list (string * list (string * A)))
    : list (string * list (string * A)) :=
  fold_left (clean_step userId) (remove_child userId l) (remove_child userId l).

(** The client is as before but for the log of calls. *)
Definition same_but_calls (s s' : State) : Prop :=
  s' = setS_calls (calls s') s.

(** ** Leaving and joining *)

(** Every connection the map of [before] held is closed in [after]. *)
Definition every_connection_closed (before after : State) : Prop :=
  forall id h, peerConnections before !! id = Some h -> h < length (heap before) ->
               closed_at after h.

(** The state [leaveRoom] always ends in. *)
Definition left_the_room (s : State) : Prop :=
  currentRoomId s = None /\ connectionStatus s = Disconnected
  /\ joinAttemptedRef s = false /\ joinAttemptsRef s = 0.

(** No offer, answer or candidate list in the room is from or for
    [userId]. *)
Definition no_signalling_of (userId : string) (n : RoomNode) : Prop :=
  forall a b, a = userId \/ b = userId ->
    addressed (offers n) a b = None /\ addressed (answers n) a b = None
    /\ addressed (candidates n) a b = None.

(** [env] with the relay out of reach. *)
Definition offline (env : Env) : Env :=
  {| getUserMedia := getUserMedia env; relayError := Some "Network Error";
     constructorThrows := constructorThrows env; createOfferError := createOfferError env;
     offerSdp := offerSdp env; answerSdp := answerSdp env; sdpError := sdpError env;
     rollbackFails := rollbackFails env; candidateError := candidateError env;
     now := now env |}.

(** What the first offers of [joinRoom] leave alone: who is signed in,
    the current room, the peers, the listeners, every roster and
    disconnect registration, and the connections already closed. *)
Definition membership_kept (w w' : World) : Prop :=
  user (client w') = user (client w)
  /\ currentRoomId (client w') = currentRoomId (client w)
  /\ peers (client w') = peers (client w)
  /\ listeners (client w') = listeners (client w)
  /\ (forall k, closed_at (client w) k -> closed_at (client w') k)
  /\ forall r, participants (room (relay w') r) = participants (room (relay w) r)
               /\ onDisconnectRemove (room (relay w') r) = onDisconnectRemove (room (relay w) r).

(** The presence entry [joinRoom] writes. *)
Definition presence_of (env : Env) (u : User) : Participant :=
  {| p_displayName := or_else (user_displayName u) "Anonymous"; joined := now env |}.

(** * Media controls *)

(** The tracks of a stream are held by value: a change of [track.enabled]
    is made in [localStream]; the copies of the track that
    [originalStream] and the senders of the connections hold stay as they
    were taken.  A call reads the state of the latest render. *)

(** [track.enabled = !track.enabled] on a track of kind [k]. *)
Definition flip_enabled (k : TrackKind) (t : Track) : Track :=
  if is_kind k t then {| kind := kind t; enabled := negb (enabled t); ended := ended t |} else t.

Definition flip_tracks (k : TrackKind) (m : MediaStream) : MediaStream :=
  {| tracks := List.map (flip_enabled k) (tracks m) |}.

(** [toggleAudio()] (part_003:654-662, webrtc-context.tsx:511-519). *)
Definition toggleAudio (s : State) : State :=
  match localStream (media s) with
  | Some m =>
      let s' := setLocalStream (Some (flip_tracks Audio m)) s in
      setIsAudioEnabled (negb (isAudioEnabled (media s))) s'
  | None => s
  end.

(** [toggleVideo()] (part_003:665-673, webrtc-context.tsx:522-530). *)
Definition toggleVideo (s : State) : State :=
  match localStream (media s) with
  | Some m =>
      let s' := setLocalStream (Some (flip_tracks Video m)) s in
      setIsVideoEnabled (negb (isVideoEnabled (media s))) s'
  | None => s
  end.

(** ** Senders *)

(** [senders pc] lists the tracks of the senders that carry one, in the
    order of [pc.getSenders()]. *)

(** [senders.find((s) => s.track?.kind === k)] finds a sender. *)
Definition find_sender (k : TrackKind) (senders : list Track) : bool :=
  existsb (is_kind k) senders.

(** Put [t] in place of the track of the first sender of its kind. *)
Fixpoint replace_kind (t : Track) (l : list Track) : list Track :=
  match l with
  | [] => []
  | x :: rest => if is_kind (kind t) x then t :: rest else x :: replace_kind t rest
  end.

(** Take the track of the first sender of kind [k] away. *)
Fixpoint remove_kind (k : TrackKind) (l : list Track) : list Track :=
  match l with
  | [] => []
  | x :: rest => if is_kind k x then rest else x :: remove_kind k rest
  end.

(** [sender.replaceTrack(t)] for the first sender of the kind of [t]:
    the promise is rejected on a closed connection, and the rejection is
    logged or dropped. *)
Definition replaceTrack (t : Track) (pc : PeerConnection) : PeerConnection :=
  if RTC.live pc then RTC.with_senders (replace_kind t (senders pc)) pc else pc.

(** [pc.addTrack(t, stream)] with a track no sender has yet: throws on a
    closed connection. *)
Definition addTrack (t : Track) (pc : PeerConnection) : Result unit * PeerConnection :=
  if RTC.live pc then (Ok tt, RTC.addTrack t pc) else (Err RTC.invalid_state, pc).

(** [pc.removeTrack(sender)] for the first sender of kind [k]: throws on a
    closed connection. *)
Definition removeTrack (k : TrackKind) (pc : PeerConnection) : Result unit * PeerConnection :=
  if RTC.live pc
  then (Ok tt, RTC.with_senders (remove_kind k (senders pc)) pc)
  else (Err RTC.invalid_state, pc).

(** The body of [tracks.forEach((track) => ...)] in [reinitializeMedia]:
    [found] is the array [pc.getSenders()] returned before the loop. *)
Definition replace_or_add (found : list Track) (acc : Result unit * PeerConnection) (track : Track)
    : Result unit * PeerConnection :=
  match acc with
  | (Err e, pc) => (Err e, pc)
  | (Ok _, pc) =>
      if find_sender (kind track) found then (Ok tt, replaceTrack track pc)
      else addTrack track pc
  end.

Definition replace_or_add_all (found l : list Track) (pc : PeerConnection)
    : Result unit * PeerConnection :=
  fold_left (replace_or_add found) l (Ok tt, pc).

(** What one turn of that loop does to the senders of an open
    connection. *)
Definition senders_step (found : list Track) (l : list Track) (t : Track) : list Track :=
  if find_sender (kind t) found then replace_kind t l else l ++ [t].

(** [Object.values(peerConnections.current).forEach((pc) => ...)] with a
    body that may throw: the connections before the one that throws are
    updated, the ones after it are not reached.  The values come in the
    order of [map_to_list], not in the order the keys were added. *)
Definition connection_step (f : PeerConnection -> Result unit * PeerConnection)
    (acc : Result unit * State) (entry : string * nat) : Result unit * State :=
  match acc with
  | (Err e, s) => (Err e, s)
  | (Ok _, s) =>
      match heap s !! snd entry with
      | Some pc => let '(r, pc') := f pc in (r, update_pc (snd entry) (fun _ => pc') s)
      | None => (Ok tt, s)
      end
  end.

Definition for_connections (f : PeerConnection -> Result unit * PeerConnection) (s : State)
    : Result unit * State :=
  fold_left (connection_step f) (map_to_list (peerConnections s)) (Ok tt, s).

Definition could_not_access : string :=
  "Could not access camera or microphone. Please check your permissions and try again.".

(** ** [reinitializeMedia] in part_003 *)

Module Reinit003.

(** The connections take the tracks of the camera and microphone stream
    (part_003:461-476). *)
Definition update_connection (stream : MediaStream) (pc : PeerConnection)
    : Result unit * PeerConnection :=
  replace_or_add_all (senders pc) (tracks stream) pc.

(** The connections take the tracks of the microphone stream
    (part_003:503-523). *)
Definition update_connection_audio (audioStream : MediaStream) (pc : PeerConnection)
    : Result unit * PeerConnection :=
  let found := senders pc in
  let removed := if find_sender Video found then removeTrack Video pc else (Ok tt, pc) in
  match removed with
  | (Err e, pc) => (Err e, pc)
  | (Ok _, pc) => replace_or_add_all found (getAudioTracks audioStream) pc
  end.

(** The microphone alone (part_003:479-535). *)
Definition audio_fallback (env : Env) (isAudioEnabled : bool) (s : State) : bool * State :=
  let failed s :=
    (false, setWebRTCError (Some could_not_access) (setHasAudio false (setHasVideo false s))) in
  let s := record (CallGetUserMedia Part003.audio_only) s in
  match getUserMedia env Part003.audio_only with
  | Some audioStream =>
      let s := setHasVideo false s in
      let s := setHasAudio true s in
      let audioStream :=
        {| tracks := List.map (set_enabled Audio isAudioEnabled) (tracks audioStream) |} in
      let s := setLocalStream (Some audioStream) s in
      let s := setOriginalStream (Some audioStream) s in
      match for_connections (update_connection_audio audioStream) s with
      | (Ok _, s) => (true, s)
      | (Err _, s) => failed s
      end
  | None => failed s
  end.

(** [reinitializeMedia()] (part_003:399-543) with the counter
    [mediaInitAttempts] beside the state.  Nothing in the outer [try]
    throws outside the inner ones, so its handler is left out. *)
Definition reinitializeMedia (env : Env) (st : nat * State) : bool * (nat * State) :=
  let '(mediaInitAttempts, s) := st in
  let mediaInitAttempts := mediaInitAttempts + 1 in
  let isVideoEnabled := isVideoEnabled (media s) in
  let isAudioEnabled := isAudioEnabled (media s) in
  let s := Part003.stop_local s in
  let c := Part003.constraints true true (media s) in
  let s := record (CallGetUserMedia c) s in
  let '(r, s) :=
    match getUserMedia env c with
    | Some stream =>
        let s := setHasVideo (0 <? length (getVideoTracks stream)) s in
        let s := setHasAudio (0 <? length (getAudioTracks stream)) s in
        let stream := enable_tracks isVideoEnabled isAudioEnabled stream in
        let s := setLocalStream (Some stream) s in
        let s := setOriginalStream (Some stream) s in
        match for_connections (update_connection stream) s with
        | (Ok _, s) => (true, s)
        | (Err _, s) => audio_fallback env isAudioEnabled s
        end
    | None => audio_fallback env isAudioEnabled s
    end in
  (r, (mediaInitAttempts, s)).

End Reinit003.

(** ** [reinitializeMedia] in webrtc-context.tsx *)

Module ReinitContexts.

Definition update_connection (stream : MediaStream) (pc : PeerConnection)
    : Result unit * PeerConnection :=
  replace_or_add_all (senders pc) (tracks stream) pc.

(** The microphone alone (webrtc-context.tsx:378-419). *)
Definition audio_fallback (env : Env) (s : State) : bool * State :=
  let failed s :=
    (false, setWebRTCError (Some could_not_access) (setHasAudio false (setHasVideo false s))) in
  let s := record (CallGetUserMedia Contexts.audio_only) s in
  match getUserMedia env Contexts.audio_only with
  | Some audioStream =>
      let s := setHasVideo false s in
      let s := setHasAudio true s in
      let s := setLocalStream (Some audioStream) s in
      let s := setOriginalStream (Some audioStream) s in
      match for_connections (update_connection audioStream) s with
      | (Ok _, s) => (true, s)
      | (Err _, s) => failed s
      end
  | None => failed s
  end.

(** [reinitializeMedia()] (webrtc-context.tsx:315-427). *)
Definition reinitializeMedia (env : Env) (st : nat * State) : bool * (nat * State) :=
  let '(mediaInitAttempts, s) := st in
  let mediaInitAttempts := mediaInitAttempts + 1 in
  let s := Contexts.stop_local s in
  let c := Contexts.constraints true true (media s) in
  let s := record (CallGetUserMedia c) s in
  let '(r, s) :=
    match getUserMedia env c with
    | Some stream =>
        let s := setHasVideo (0 <? length (getVideoTracks stream)) s in
        let s := setHasAudio (0 <? length (getAudioTracks stream)) s in
        let s := setLocalStream (Some stream) s in
        let s := setOriginalStream (Some stream) s in
        match for_connections (update_connection stream) s with
        | (Ok _, s) => (true, s)
        | (Err _, s) => audio_fallback env s
        end
    | None => audio_fallback env s
    end in
  (r, (mediaInitAttempts, s)).

End ReinitContexts.

(** ** Properties of the media state *)

(** The flag each kind of track follows. *)
Definition flag_of (m : MediaState) (k : TrackKind) : bool :=
  match k with Audio => isAudioEnabled m | Video => isVideoEnabled m end.

(** The [enabled] bit of every local track is the flag of its kind: what
    the controls show is what is sent. *)
Definition flags_match_tracks (s : State) : Prop :=
  forall m t, localStream (media s) = Some m -> In t (tracks m) ->
    enabled t = flag_of (media s) (kind t).

(** Every connection the map holds is open. *)
Definition all_open (s : State) : Prop :=
  forall id h pc, peerConnections s !! id = Some h -> heap s !! h = Some pc ->
    RTC.live pc = true.

(** The browser gives no video track when asked for the microphone only. *)
Definition audio_only_honoured (env : Env) : Prop :=
  forall a, getUserMedia env Part003.audio_only = Some a -> getVideoTracks a = [].

(** The connection sends, for every track of [m], a track of [m] of the
    same kind. *)
Definition carries (m : MediaStream) (pc : PeerConnection) : Prop :=
  forall t, In t (tracks m) ->
    exists t', In t' (senders pc) /\ kind t' = kind t /\ In t' (tracks m).

(** The connection has taken [offer] as remote description and answered
    it with [answer]. *)
Definition answered (offer answer : string) (pc : PeerConnection) : Prop :=
  signalingState pc = Stable
  /\ RTC.remoteDescription pc = Some {| sd_type := Offer; sdp := offer |}
  /\ RTC.localDescription pc = Some {| sd_type := Answer; sdp := answer |}.

(** * The room provider: leaving *)

Module RoomProvider.
Import RoomContext.

(** [leaveRoom()] (part_002:344-365).  The removal is not awaited and its
    failure is logged.  The listener on the room node is left out, as in
    [joinRoom]. *)
Definition leaveRoom (env : Env) (st : RoomState * Relay) : RoomState * Relay :=
  let '(s, relay) := st in
  match rc_user s, currentRoomIdRef s with
  | Some u, Some roomId =>
      if truthy roomId then
        let relay :=
          match relayError env with
          | Some _ => relay
          | None => relay_remove (ParticipantRef roomId (uid u)) relay
          end in
        ({| rc_user := rc_user s; currentRoom := None;
            isJoiningRoom := isJoiningRoom s; joinError := joinError s;
            joinInProgressRef := joinInProgressRef s; joinAttemptsRef := 0;
            currentRoomIdRef := None |}, relay)
      else st
  | _, _ => st
  end.

End RoomProvider.

(** * The middleware, src/unnamed/part_000 *)

Module Middleware.

(** The value of [Number.parseInt(cookie || "0")]: an integer, or NaN when
    the cookie does not start with one.  [Int z] stands for an integer
    that a double holds exactly. *)
Inductive Count := NaN | Int (z : Z).

(** What the middleware reads of a request. *)
Record Request := {
  pathname : string;
  firebase_token : option string;
  redirect_count : Count
}.

(** [NextResponse.next()], with the cookie [redirect-count] cleared or
    untouched, or [NextResponse.redirect(to)] with the cookie set to
    [count.toString()]. *)
Inductive Response :=
| Next (cleared : bool)
| Redirect (to : string) (count : Count).

(** [redirectCount > 3]: false for NaN. *)
Definition gt3 (c : Count) : bool :=
  match c with NaN => false | Int z => (3 <? z)%Z end.

(** [redirectCount + 1], on the integers: the sum of doubles is the same
    up to 2^53. *)
Definition plus1 (c : Count) : Count :=
  match c with NaN => NaN | Int z => Int (z + 1) end.

(** [middleware(request)] (part_000:4-53). *)
Definition middleware (request : Request) : Response :=
  let path := pathname request in
  let isPublicPath :=
    String.eqb path "/" || String.eqb path "/login" || String.eqb path "/signup" in
  let token := default "" (firebase_token request) in
  let redirectCount := redirect_count request in
  if gt3 redirectCount then Next true
  else if isPublicPath && truthy token then Redirect "/dashboard" (plus1 redirectCount)
  else if negb isPublicPath && negb (truthy token) then Redirect "/login" (plus1 redirectCount)
  else Next false.

(** The request a browser sends when it follows a redirect: the token
    cookie as before, the counter as the response set it. *)
Definition follow (request : Request) (r : Response) : option Request :=
  match r with
  | Redirect to count =>
      Some {| pathname := to; firebase_token := firebase_token request;
              redirect_count := count |}
  | Next _ => None
  end.

(** The responses to a request and to the redirects that follow it, at
    most [fuel] of them. *)
Fixpoint responses (fuel : nat) (request : Request) : list Response :=
  match fuel with
  | 0 => []
  | S fuel =>
      let r := middleware request in
      r :: match follow request r with
           | Some next => responses fuel next
           | None => []
           end
  end.

(** The same page asked for again within the minute the counter cookie
    lives: the counter is what the last response made it, zero after it
    was cleared. *)
Definition again (request : Request) (r : Response) : Request :=
  {| pathname := pathname request; firebase_token := firebase_token request;
     redirect_count := match r with
                       | Redirect _ count => count
                       | Next true => Int 0
                       | Next false => redirect_count request
                       end |}.

(** The responses to [n] requests for the same page in a row. *)
Fixpoint tries (n : nat) (request : Request) : list Response :=
  match n with
  | 0 => []
  | S n => middleware request :: tries n (again request (middleware request))
  end.

Definition protected (path : string) : bool :=
  negb (String.eqb path "/" || String.eqb path "/login" || String.eqb path "/signup").

End Middleware.

(** * The layout of a recording *)

Module Recording.

(** [streams]: the local stream and the stream of every peer that has
    one (part_003:829-832, webrtc-context.tsx:686-689). *)
Definition streams (localStream : MediaStream) (peers : list Peer) : list MediaStream :=
  localStream :: omap stream peers.

(** [Math.ceil(a / b)] on counts. *)
Definition ceil_div (a b : nat) : nat := a / b + (if a mod b =? 0 then 0 else 1).

(** [cols = Math.ceil(Math.sqrt(totalStreams))] and
    [rows = Math.ceil(totalStreams / cols)] (part_003:853-855,
    webrtc-context.tsx:710-712), for the counts whose square root a
    double tells from the integer below it. *)
Definition cols (totalStreams : nat) : nat := Nat.sqrt_up totalStreams.
Definition rows (totalStreams : nat) : nat := ceil_div totalStreams (cols totalStreams).

(** The cell [(col, row)] of the video at [index] (part_003:897-898,
    webrtc-context.tsx:754-755); it is drawn at
    [(col * (1280 / cols), row * (720 / rows))] with the size of one cell. *)
Definition cell (totalStreams index : nat) : nat * nat :=
  (index mod cols totalStreams, index / cols totalStreams).

End Recording.

(** A sequence of [createPeerConnection] calls, each with what the
    browser answers during it. *)
Definition create_all (create : Env -> string -> string -> bool -> State -> option nat * State)
    (l : list (Env * string * string * bool)) (s : State) : State :=
  fold_left (fun s '(env, peerId, roomId, initiator) => snd (create env peerId roomId initiator s))
    l s.

(** No peer has two connections that are not closed. *)
Definition one_open_per_peer (s : State) : Prop :=
  forall h1 h2 pc1 pc2,
    heap s !! h1 = Some pc1 -> heap s !! h2 = Some pc2 ->
    RTC.live pc1 = true -> RTC.live pc2 = true -> pc_peer pc1 = pc_peer pc2 ->
    h1 = h2.

(** The relay is as it was. *)
Definition relay_kept (w w' : World) : Prop := relay w' = relay w.

(** * The attempt counter, call by call *)

(** The join-attempt counter is as it was. *)
Definition attempts_kept (w w' : World) : Prop :=
  joinAttemptsRef (client w') = joinAttemptsRef (client w).

(** [m] leaves the attempt counter at 0 when it returns and as it found
    it when it throws. *)
Definition resets_on_return {A : Type} (m : M A) : Prop :=
  forall w,
    match fst (m w) with
    | Ok _ => joinAttemptsRef (client (snd (m w))) = 0
    | Err _ => joinAttemptsRef (client (snd (m w))) = joinAttemptsRef (client w)
    end.

(** The call is stopped before it reaches the counter: nobody is signed
    in, or a join of this room is under way. *)
Definition stopped_by_guard (w : World) (roomId : string) : Prop :=
  user (client w) = None
  \/ (joinAttemptedRef (client w) && bool_decide (currentRoomId (client w) = Some roomId)) = true.

(** What one call of [joinRoom] of the WebRTC provider does to the
    attempt counter, [pre] and [post] being the worlds before and after
    and [outcome] how the call ended: the counter stays within 3; a call
    stopped by a guard leaves it alone; a call that finds it above 3
    once incremented is refused; any other call is an attempt, which
    puts the counter back to 0 when it returns and leaves it one higher
    when it throws. *)
Definition counted (pre : World) (roomId : string) (outcome : Outcome) (post : World) : Prop :=
  joinAttemptsRef (client post) <= 3
  /\ (stopped_by_guard pre roomId ->
      joinAttemptsRef (client post) = joinAttemptsRef (client pre))
  /\ (counter_exceeded pre roomId -> outcome = Threw Part003.too_many /\ post = gave_up pre)
  /\ (join_proceeds pre roomId ->
      match outcome with
      | Returned => joinAttemptsRef (client post) = 0
      | Threw _ => joinAttemptsRef (client post) = joinAttemptsRef (client pre) + 1
      end).

(** What happens to the room provider: a call of [joinRoom], or the
    timer that clears [joinInProgressRef] a second after a call. *)
Inductive RoomEvent :=
| JoinRoom (env : Env) (roomId : string)
| JoinInProgressTimeout.

Definition room_event (e : RoomEvent) (st : RoomContext.RoomState * Relay)
    : Outcome * (RoomContext.RoomState * Relay) :=
  match e with
  | JoinRoom env roomId => RoomContext.joinRoom env roomId st
  | JoinInProgressTimeout => (Returned, (RoomContext.joinInProgressTimeout (fst st), snd st))
  end.

Definition room_stopped_by_guard (st : RoomContext.RoomState * Relay) (roomId : string) : Prop :=
  RoomContext.rc_user (fst st) = None
  \/ RoomContext.joinInProgressRef (fst st) = true
  \/ RoomContext.currentRoom (fst st) = Some roomId.

(** [joinRoom] of the room provider gets past its guards and past the
    attempt counter. *)
Definition room_join_proceeds (st : RoomContext.RoomState * Relay) (roomId : string) : Prop :=
  is_Some (RoomContext.rc_user (fst st))
  /\ RoomContext.joinInProgressRef (fst st) = false
  /\ RoomContext.currentRoom (fst st) <> Some roomId
  /\ RoomContext.joinAttemptsRef (fst st) + 1 <= 3.

(** [counted] for the room provider; the timer leaves the counter
    alone. *)
Definition room_counted (pre : RoomContext.RoomState * Relay) (e : RoomEvent)
    (outcome : Outcome) (post : RoomContext.RoomState * Relay) : Prop :=
  RoomContext.joinAttemptsRef (fst post) <= 3
  /\ match e with
     | JoinInProgressTimeout =>
         RoomContext.joinAttemptsRef (fst post) = RoomContext.joinAttemptsRef (fst pre)
     | JoinRoom _ roomId =>
         (room_stopped_by_guard pre roomId ->
          RoomContext.joinAttemptsRef (fst post) = RoomContext.joinAttemptsRef (fst pre))
         /\ (room_counter_exceeded pre roomId ->
             outcome = Threw RoomContext.too_many /\ post = room_gave_up pre)
         /\ (room_join_proceeds pre roomId ->
             match outcome with
             | Returned => RoomContext.joinAttemptsRef (fst post) = 0
             | Threw _ =>
                 RoomContext.joinAttemptsRef (fst post)
                 = RoomContext.joinAttemptsRef (fst pre) + 1
             end)
     end.

(** * Joining with the media at hand *)


(** * When the browser fires [negotiationneeded]

    The handlers [createPeerConnection] installs have no caller in the
    program: the browser runs them.  It fires [negotiationneeded] on a
    connection only while the signalling state of the connection is
    stable; when negotiation becomes needed in another state, the event
    waits until the connection is back in stable (WebRTC 1.0, "update
    the negotiation-needed flag"). *)
Definition negotiationneeded_fires (h : nat) (s : State) : bool :=
  match heap s !! h with
  | Some pc => bool_decide (signalingState pc = Stable)
  | None => false
  end.


(** * Runs of two clients from their calls of [joinRoom] *)

Module Scenario.




(** Four calls of [joinRoom] of the room provider for a room that does
    not exist, each made after the timer of the one before. *)
Definition four_room_calls : list RoomEvent :=
  [ JoinRoom Example.env_no_media "r2"; JoinInProgressTimeout;
    JoinRoom Example.env_no_media "r2"; JoinInProgressTimeout;
    JoinRoom Example.env_no_media "r2"; JoinInProgressTimeout;
    JoinRoom Example.env_no_media "r2" ].

(** Room r1 exists and is empty; nobody has opened the page. *)
Definition start : System := {| members := ∅; shared := Example.room_r1 [] |}.

(** The two copies of the provider, each with its [joinRoom]. *)
Record Copy := {
  provider : Provider;
  joinRoom_of : Env -> string -> bool -> World -> Outcome * World
}.

Definition copy003 : Copy := {| provider := part003; joinRoom_of := Part003.joinRoom |}.

Definition copyContexts : Copy :=
  {| provider := contexts; joinRoom_of := Contexts.joinRoom |}.

(** What happens in a run: a user opens the page, signed in and with a
    camera; a user calls [joinRoom("r1", currentRoom)] with a room at
    hand; the browser of a user goes, and the relay removes the presence
    entry that was registered with [onDisconnect], and nothing else; or
    the relay or the browser delivers an event. *)
Inductive Step :=
| Arrives (who : string)
| Joins (who : string)
| Drops (who : string)
| Delivers (ev : Event).

Definition arrives (who : string) (sys : System) : System :=
  {| members := <[who := Example.signed_in who Example.with_camera]> (members sys);
     shared := shared sys |}.

Definition joins (joinRoom : Env -> string -> bool -> World -> Outcome * World)
    (who : string) (sys : System) : System :=
  match members sys !! who with
  | Some s =>
      let w := snd (joinRoom (Example.env_of who) "r1" true
                      {| client := s; relay := shared sys |}) in
      {| members := <[who := client w]> (members sys); shared := relay w |}
  | None => sys
  end.

Definition drops (who : string) (sys : System) : System :=
  {| members := delete who (members sys);
     shared :=
       in_room "r1"
         (fun n =>
            with_onDisconnect
              (List.filter (fun id => negb (String.eqb id who)) (onDisconnectRemove n))
              (with_participants (remove_child who (participants n)) n))
         (shared sys) |}.

Definition step (C : Copy) (sys : System) (st : Step) : System :=
  match st with
  | Arrives who => arrives who sys
  | Joins who => joins (joinRoom_of C) who sys
  | Drops who => drops who sys
  | Delivers ev => deliver (provider C) Example.env_of "r1" sys ev
  end.

Definition play (C : Copy) (steps : list Step) (sys : System) : System :=
  fold_left (step C) steps sys.

(** Every [negotiationneeded] of the run is fired on a connection that
    is stable at that moment, as the browser does. *)
Fixpoint fired_from_stable (C : Copy) (steps : list Step) (sys : System) : bool :=
  match steps with
  | [] => true
  | st :: rest =>
      match st with
      | Delivers (NegotiationNeeded who h) =>
          match members sys !! who with
          | Some s => negotiationneeded_fires h s
          | None => false
          end
      | _ => true
      end
      && fired_from_stable C rest (step C sys st)
  end.

(** alice joins the empty room, then bob joins. *)
Definition both_join : list Step :=
  [ Arrives "alice"; Joins "alice"; Arrives "bob"; Joins "bob" ].

(** How bob's offer to alice gets to the relay once he has joined: in
    part_003 [joinRoom] itself has sent it; in src/contexts his
    participants listener makes the connection and the browser asks for
    the offer. *)
Definition bob_offers003 : list Step := [].

Definition bob_offersContexts : list Step :=
  [ Delivers (ParticipantsSnapshot "bob"); Delivers (NegotiationNeeded "bob" 0) ].

(** bob's offer reaches alice's offers listener before the roster with
    bob reaches her participants listener. *)
Definition offer_before_roster (bob_offers : list Step) : list Step :=
  both_join ++ bob_offers
  ++ [ Delivers (OffersSnapshot "alice"); Delivers (ParticipantsSnapshot "alice") ].

(** The usual order, for comparison: the roster reaches alice first. *)
Definition roster_before_offer (bob_offers : list Step) : list Step :=
  both_join ++ bob_offers
  ++ [ Delivers (ParticipantsSnapshot "alice"); Delivers (OffersSnapshot "alice") ].

(** A run in which every snapshot reaches alice in the order of the
    writes.  alice and bob are in the room, alice has seen the roster
    and offered, and each has seen the other's offer; bob's browser
    goes, which leaves his offer to alice in the relay, and alice sees
    the roster without him; carol joins, alice sees the roster with her
    and offers, and the offers snapshot her own write brings her holds
    bob's old offer; bob comes back, and alice sees the roster with
    him. *)
Definition bob_comes_back (bob_offers : list Step) : list Step :=
  both_join
  ++ [ Delivers (ParticipantsSnapshot "alice"); Delivers (NegotiationNeeded "alice" 0) ]
  ++ bob_offers
  ++ [ Delivers (OffersSnapshot "alice"); Delivers (OffersSnapshot "bob");
       Drops "bob"; Delivers (ParticipantsSnapshot "alice");
       Arrives "carol"; Joins "carol";
       Delivers (ParticipantsSnapshot "alice"); Delivers (NegotiationNeeded "alice" 1);
       Delivers (OffersSnapshot "alice");
       Arrives "bob"; Joins "bob"; Delivers (ParticipantsSnapshot "alice") ].

(** The roster of room r1. *)
Definition roster (sys : System) : list string :=
  keys (participants (room (shared sys) "r1")).

(** The Peers of a member. *)
Definition peers_of (sys : System) (who : string) : option (list string) :=
  peer_ids <$> members sys !! who.

(** The open connections of a member to a peer, each with its handle and
    whether this side is the initiator. *)
Definition open_connections (sys : System) (who peer : string) : option (list (nat * bool)) :=
  s ← members sys !! who;
  Some (List.map (fun h => (h, default false (pc_initiator <$> heap s !! h)))
          (live_connections_to s peer)).

End Scenario.

(** * Properties *)

(** ** Aggregate connection status *)

Lemma connectionCheck_connected (s : State) (pc : PeerConnection) :
  In pc (connection_values s) -> ice_connected pc = true ->
  connectionStatus (connectionCheck s) = Connected.
Proof.
  intros Hin Hc. unfold connectionCheck.
  assert (Hf : In pc (List.filter ice_connected (connection_values s)))
    by (apply filter_In; auto).
  destruct (List.filter ice_connected (connection_values s)); [destruct Hf | reflexivity].
Qed.

Lemma connectionCheck_none (s : State) :
  size (peerConnections s) = 0 -> connectionStatus (connectionCheck s) = Disconnected.
Proof.
  intros Hz. unfold connectionCheck, connection_values.
  apply map_size_empty_inv in Hz. rewrite Hz, map_to_list_empty. reflexivity.
Qed.

Lemma connectionCheck_some_failed (s : State) (pc : PeerConnection) :
  (forall pc', In pc' (connection_values s) -> ice_connected pc' = false) ->
  In pc (connection_values s) -> ice_failed_or_disconnected pc = true ->
  connectionStatus (connectionCheck s) = Failed.
Proof.
  intros Hnone Hin Hf. unfold connectionCheck.
  assert (Hc : List.filter ice_connected (connection_values s) = []).
  { destruct (List.filter ice_connected (connection_values s)) as [|x l] eqn:E; [reflexivity|].
    assert (Hx : In x (x :: l)) by (left; reflexivity).
    rewrite <- E in Hx. apply filter_In in Hx as [Hx1 Hx2].
    rewrite (Hnone x Hx1) in Hx2. discriminate. }
  rewrite Hc. simpl.
  assert (Hsz : 0 < size (peerConnections s)).
  { destruct (decide (size (peerConnections s) = 0)) as [Hz|Hz]; [|lia].
    apply map_size_empty_inv in Hz. unfold connection_values in Hin.
    rewrite Hz, map_to_list_empty in Hin. destruct Hin. }
  apply Nat.ltb_lt in Hsz. rewrite Hsz.
  assert (Hff : In pc (List.filter ice_failed_or_disconnected (connection_values s)))
    by (apply filter_In; auto).
  destruct (List.filter ice_failed_or_disconnected (connection_values s));
    [destruct Hff | reflexivity].
Qed.

(** C3 (the code departs from the claim).  With one connection failed
    and another still checking, the interval callback reports [Failed]
    where the specified rule gives [Connecting]; with the only connection
    disconnected it reports [Failed] where the rule gives [Disconnected]. *)
Theorem connectionCheck_failed_on_any_failure :
  (iceConnectionState <$> connection_of Example.one_failed "bob") = Some IceFailed
  /\ (iceConnectionState <$> connection_of Example.one_failed "carol") = Some IceChecking
  /\ status_by_spec (List.map iceConnectionState (connection_values Example.one_failed))
     = Some Connecting
  /\ connectionStatus (connectionCheck Example.one_failed) = Failed
  /\ List.map iceConnectionState (connection_values Example.all_disconnected) = [IceDisconnected]
  /\ status_by_spec [IceDisconnected] = Some Disconnected
  /\ connectionStatus (connectionCheck Example.all_disconnected) = Failed.
Proof. vm_compute. repeat split; reflexivity. Qed.

(** The handler of [iceconnectionstatechange] in part_003 does apply the
    rule "failed only if all": the same event on the same connections
    leaves the status alone. *)
Lemma oniceconnectionstatechange_waits_for_all :
  connectionStatus (Part003.oniceconnectionstatechange 0 Example.one_failed)
  = connectionStatus Example.one_failed.
Proof. vm_compute. reflexivity. Qed.

(** ** leaveRoom *)

(** C10.  Without a current room, or without a signed-in user,
    [leaveRoom] returns at once and nothing changes: client state and
    relay are the ones before the call, in both copies. *)
Theorem leaveRoom_without_room_or_user (env : Env) (w : World) :
  currentRoomId (client w) = None \/ user (client w) = None ->
  Part003.leaveRoom env w = w /\ Contexts.leaveRoom env w = w.
Proof.
  intros [H | H]; unfold Part003.leaveRoom, Contexts.leaveRoom; rewrite H.
  - destruct (user (client w)); simpl; auto.
  - auto.
Qed.

Lemma leaveRoom_without_room_or_user_witness :
  Part003.leaveRoom (Example.env_of "alice") (Example.alice_world (Example.signed_in "alice" Example.with_camera))
  = Example.alice_world (Example.signed_in "alice" Example.with_camera)
  /\ Contexts.leaveRoom (Example.env_of "alice") (Example.alice_world (Example.signed_in "alice" Example.with_camera))
  = Example.alice_world (Example.signed_in "alice" Example.with_camera).
Proof.
  apply (leaveRoom_without_room_or_user (Example.env_of "alice")
           (Example.alice_world (Example.signed_in "alice" Example.with_camera))).
  left. reflexivity.
Defined.

(** In a room, [leaveRoom] does its work: the connection is closed, the
    map and the peer list are emptied, the presence entry is removed. *)
Lemma leaveRoom_in_room :
  let w := Example.alice_world Example.connected_to_bob in
  let w3 := Part003.leaveRoom (Example.env_of "alice") w in
  let wc := Contexts.leaveRoom (Example.env_of "alice") w in
  currentRoomId (client w3) = None /\ peerConnections (client w3) = ∅
  /\ (signalingState <$> heap (client w3) !! 0) = Some SigClosed
  /\ keys (participants (room (relay w3) "r1")) = ["bob"]
  /\ currentRoomId (client wc) = None /\ peerConnections (client wc) = ∅
  /\ (signalingState <$> heap (client wc) !! 0) = Some SigClosed
  /\ keys (participants (room (relay wc) "r1")) = ["bob"].
Proof. vm_compute. repeat split; reflexivity. Qed.

(** ** Frame reasoning for handlers

    [respects R m] says that running [m] takes every world to one
    related to it by [R], whether [m] returns or throws. *)

Section Respects.
Variable R : World -> World -> Prop.
Hypothesis R_refl : forall w, R w w.
Hypothesis R_trans : forall a b c, R a b -> R b c -> R a c.

Lemma respects_ret {A} (a : A) : respects R (ret a).
Proof. intros w. apply R_refl. Qed.

Lemma respects_throw {A} (e : string) : respects R (@throw A e).
Proof. intros w. apply R_refl. Qed.

Lemma respects_gets {A} (f : State -> A) : respects R (gets f).
Proof. intros w. apply R_refl. Qed.

Lemma respects_read_relay {A} (f : Relay -> A) : respects R (read_relay f).
Proof. intros w. apply R_refl. Qed.

Lemma respects_bind {A B} (m : M A) (k : A -> M B) :
  respects R m -> (forall a, respects R (k a)) -> respects R (bind m k).
Proof.
  intros Hm Hk w. unfold bind. specialize (Hm w).
  destruct (m w) as [[a | e] w']; simpl in *.
  - eapply R_trans; [exact Hm | apply Hk].
  - exact Hm.
Qed.

Lemma respects_try_catch {A} (m : M A) (handler : string -> M A) :
  respects R m -> (forall e, respects R (handler e)) -> respects R (try_catch m handler).
Proof.
  intros Hm Hk w. unfold try_catch. specialize (Hm w).
  destruct (m w) as [[a | e] w']; simpl in *.
  - exact Hm.
  - eapply R_trans; [exact Hm | apply Hk].
Qed.

Lemma respects_detached (m : M unit) : respects R m -> respects R (detached m).
Proof. intros Hm. apply respects_try_catch; [exact Hm | intros; apply respects_ret]. Qed.

Lemma respects_forEach {A} (l : list A) (f : A -> M unit) :
  (forall x, respects R (f x)) -> respects R (forEach l f).
Proof.
  intros Hf. induction l as [| x l IH]; simpl.
  - apply respects_ret.
  - apply respects_bind; [apply Hf | intros _; exact IH].
Qed.

Lemma respects_modify (f : State -> State) :
  (forall s rl, R {| client := s; relay := rl |} {| client := f s; relay := rl |}) ->
  respects R (modify f).
Proof. intros Hf [s rl]. apply Hf. Qed.

Lemma respects_lift {A} (f : State -> A * State) :
  (forall s rl, R {| client := s; relay := rl |} {| client := snd (f s); relay := rl |}) ->
  respects R (lift f).
Proof. intros Hf [s rl]. unfold lift. simpl. specialize (Hf s rl). destruct (f s). exact Hf. Qed.

Lemma respects_write_relay (f : Relay -> Relay) :
  (forall s rl, R {| client := s; relay := rl |} {| client := s; relay := f rl |}) ->
  respects R (write_relay f).
Proof. intros Hf [s rl]. apply Hf. Qed.
End Respects.

(** Takes a handler apart down to its state and relay updates; [refl]
    and [trans] are the proofs that the relation is a preorder. *)
Ltac frame_step refl trans :=
  first
    [ apply (respects_ret _ refl)
    | apply (respects_throw _ refl)
    | apply (respects_gets _ refl)
    | apply (respects_read_relay _ refl)
    | apply (respects_bind _ trans); [| intros ?]
    | apply (respects_try_catch _ trans); [| intros ?]
    | apply (respects_detached _ refl trans)
    | apply (respects_forEach _ refl trans); intros ?
    | apply respects_modify; intros ? ?
    | apply respects_lift; intros ? ?
    | apply respects_write_relay; intros ? ?
    | match goal with
      | |- respects _ (match ?x with _ => _ end) => destruct x
      | |- respects _ (if ?x then _ else _) => destruct x
      end
    | progress cbv beta
    | progress unfold relay_call, relay_get, remove, set_offer, set_answer, set_participant,
        onDisconnect_remove, push_candidate, pc_call, setLocalDescription,
        setRemoteDescription, createOffer, createAnswer, addIceCandidate ].

Ltac frame refl trans := repeat frame_step refl trans.

(** The same, trying [leaf] first: for handlers already dealt with. *)
Ltac frame_using refl trans leaf := repeat first [ leaf | frame_step refl trans ].


(** ** What the state functions leave alone *)

Lemma close_all_shape (s : State) :
  exists h c, close_all s = setS_calls c (setS_heap h s).
Proof.
  unfold close_all. generalize (map_to_list (peerConnections s)). intros l.
  assert (H0 : exists h c, s = setS_calls c (setS_heap h s))
    by (exists (heap s), (calls s); destruct s; reflexivity).
  revert H0. generalize s at 1 3 as s0. intros s0. revert s0.
  induction l as [| [k h] l IH]; intros s0 H0; simpl.
  - exact H0.
  - apply IH. destruct H0 as (h0 & c0 & ->).
    eexists _, _. reflexivity.
Qed.

Ltac shape_media :=
  match goal with
  | |- exists m e c, ?X = _ => exists (media X), (webRTCError X), (calls X); reflexivity
  end.

Lemma initLocalStream_with_shape (retry : State -> option MediaStream * State)
    (env : Env) (video audio : bool) :
  (forall s, exists m e c, snd (retry s) = setS_calls c (setS_webRTCError e (setS_media m s))) ->
  forall s, exists m e c,
    snd (Part003.initLocalStream_with retry env video audio s)
    = setS_calls c (setS_webRTCError e (setS_media m s)).
Proof.
  intros Hretry s.
  unfold Part003.initLocalStream_with, Part003.stop_local.
  destruct (localStream (media s)); simpl;
    repeat match goal with
           | |- context [getUserMedia ?e ?c] => destruct (getUserMedia e c); simpl
           | |- context [if ?b then _ else _] => destruct b; simpl
           end;
    try shape_media;
    match goal with
    | |- context [retry ?s1] => destruct (Hretry s1) as (m1 & e1 & c1 & ->); shape_media
    end.
Qed.

Lemma initLocalStream003_shape (env : Env) (video audio : bool) (s : State) :
  exists m e c,
    snd (Part003.initLocalStream env video audio s)
    = setS_calls c (setS_webRTCError e (setS_media m s)).
Proof.
  unfold Part003.initLocalStream. apply initLocalStream_with_shape.
  apply initLocalStream_with_shape. intros s0. simpl.
  exists (media s0), (webRTCError s0), (calls s0). destruct s0; reflexivity.
Qed.

Lemma initLocalStreamContexts_shape (env : Env) (video audio : bool) (s : State) :
  exists m e c,
    snd (Contexts.initLocalStream env video audio s)
    = setS_calls c (setS_webRTCError e (setS_media m s)).
Proof.
  unfold Contexts.initLocalStream, Contexts.stop_local, Part003.stop_local.
  destruct (localStream (media s)); simpl;
    repeat match goal with
           | |- context [getUserMedia ?e ?c] => destruct (getUserMedia e c); simpl
           | |- context [if ?b then _ else _] => destruct b; simpl
           end;
    match goal with
    | |- exists m e c, ?X = _ => exists (media X), (webRTCError X), (calls X); reflexivity
    end.
Qed.

Ltac shape_connection :=
  match goal with
  | |- exists m e j p h c, ?X = _ =>
      exists (media X), (webRTCError X), (joinAttemptedRef X), (peerConnections X),
        (heap X), (calls X); reflexivity
  end.

Lemma createPeerConnection003_shape (env : Env) (peerId roomId : string) (initiator : bool)
    (s : State) :
  exists m e j p h c,
    snd (Part003.createPeerConnection env peerId roomId initiator s)
    = setS_calls c (setS_heap h (setS_peerConnections p
        (setS_joinAttemptedRef j (setS_webRTCError e (setS_media m s))))).
Proof.
  assert (Hid : exists m e j p h c,
             s = setS_calls c (setS_heap h (setS_peerConnections p
                   (setS_joinAttemptedRef j (setS_webRTCError e (setS_media m s))))))
    by (exists (media s), (webRTCError s), (joinAttemptedRef s), (peerConnections s),
          (heap s), (calls s); destruct s; reflexivity).
  unfold Part003.createPeerConnection.
  destruct (user s); [| exact Hid].
  destruct (negb (truthy roomId)); [exact Hid |].
  destruct (peerConnections s !! peerId); simpl;
    (destruct (constructorThrows env); simpl; [shape_connection |]);
    match goal with
    | |- context [if ?b then _ else _] => destruct b; simpl; [shape_connection |]
    end;
    match goal with
    | |- context [Part003.initLocalStream ?e ?v ?a ?s1] =>
        destruct (initLocalStream003_shape e v a s1) as (m1 & e1 & c1 & Hs);
        destruct (Part003.initLocalStream e v a s1) as [[stream |] s2];
        simpl in Hs; subst s2; simpl; shape_connection
    end.
Qed.

Lemma createPeerConnectionContexts_shape (env : Env) (peerId roomId : string)
    (initiator : bool) (s : State) :
  exists m e j p h c,
    snd (Contexts.createPeerConnection env peerId roomId initiator s)
    = setS_calls c (setS_heap h (setS_peerConnections p
        (setS_joinAttemptedRef j (setS_webRTCError e (setS_media m s))))).
Proof.
  assert (Hid : exists m e j p h c,
             s = setS_calls c (setS_heap h (setS_peerConnections p
                   (setS_joinAttemptedRef j (setS_webRTCError e (setS_media m s))))))
    by (exists (media s), (webRTCError s), (joinAttemptedRef s), (peerConnections s),
          (heap s), (calls s); destruct s; reflexivity).
  unfold Contexts.createPeerConnection.
  destruct (user s); [| exact Hid].
  destruct (negb (truthy roomId)); [exact Hid |].
  destruct (peerConnections s !! peerId); [exact Hid |]. simpl.
  destruct (localStream (media s)); simpl; [shape_connection |].
  match goal with
  | |- context [Contexts.initLocalStream ?e ?v ?a ?s1] =>
      destruct (initLocalStreamContexts_shape e v a s1) as (m1 & e1 & c1 & Hs);
      destruct (Contexts.initLocalStream e v a s1) as [[stream |] s2];
      simpl in Hs; subst s2; simpl; shape_connection
  end.
Qed.

(** Projections through the state functions, for rewriting. *)
Ltac through_shapes :=
  repeat match goal with
         | |- context [close_all ?s] =>
             let h := fresh "h" in let c := fresh "c" in let E := fresh "E" in
             destruct (close_all_shape s) as (h & c & E); rewrite E; clear E
         | |- context [snd (Part003.initLocalStream ?e ?v ?a ?s)] =>
             let E := fresh "E" in
             destruct (initLocalStream003_shape e v a s) as (? & ? & ? & E); rewrite E; clear E
         | |- context [snd (Contexts.initLocalStream ?e ?v ?a ?s)] =>
             let E := fresh "E" in
             destruct (initLocalStreamContexts_shape e v a s) as (? & ? & ? & E);
             rewrite E; clear E
         | |- context [snd (Part003.createPeerConnection ?e ?p ?r ?i ?s)] =>
             let E := fresh "E" in
             destruct (createPeerConnection003_shape e p r i s) as (? & ? & ? & ? & ? & ? & E);
             rewrite E; clear E
         | |- context [snd (Contexts.createPeerConnection ?e ?p ?r ?i ?s)] =>
             let E := fresh "E" in
             destruct (createPeerConnectionContexts_shape e p r i s)
               as (? & ? & ? & ? & ? & ? & E);
             rewrite E; clear E
         end.

(** ** Media acquisition and joining *)

Lemma bind_modify {B} (f : State -> State) (k : unit -> M B) (w : World) :
  bind (modify f) k w = k tt {| client := f (client w); relay := relay w |}.
Proof. reflexivity. Qed.

Lemma bind_gets {A B} (f : State -> A) (k : A -> M B) (w : World) :
  bind (gets f) k w = k (f (client w)) w.
Proof. reflexivity. Qed.

Lemma bind_lift {A B} (f : State -> A * State) (k : A -> M B) (w : World) :
  bind (lift f) k w
  = k (fst (f (client w))) {| client := snd (f (client w)); relay := relay w |}.
Proof. unfold bind, lift. destruct (f (client w)). reflexivity. Qed.

Lemma room_in_room (r r' : string) (f : RoomNode -> RoomNode) (rl : Relay) :
  room (in_room r f rl) r' = if decide (r = r') then f (room rl r) else room rl r'.
Proof.
  unfold room at 1, in_room. rewrite lookup_insert.
  destruct (decide (r = r')); reflexivity.
Qed.









(** Camera and microphone refused, microphone granted: the stream is
    the audio stream and no error is set. *)
Lemma initLocalStream003_degrades (env : Env) (s : State) (a : MediaStream) :
  getUserMedia env (Part003.constraints true true (media s)) = None ->
  getUserMedia env (Part003.constraints false true (media s)) = Some a ->
  fst (Part003.initLocalStream env true true s) = Some (enable_tracks true true a)
  /\ localStream (media (snd (Part003.initLocalStream env true true s)))
     = Some (enable_tracks true true a)
  /\ webRTCError (snd (Part003.initLocalStream env true true s)) = webRTCError s.
Proof.
  intros H1 H2.
  unfold Part003.initLocalStream, Part003.initLocalStream_with, Part003.stop_local.
  unfold Part003.constraints in *.
  destruct (localStream (media s)) eqn:E; simpl in *;
    repeat (progress (simpl; rewrite ?E, ?H1, ?H2)); auto.
Qed.

(** The request with the selected microphone refused as well, any
    microphone granted. *)
Lemma initLocalStream003_last_resort (env : Env) (s : State) (a : MediaStream) :
  getUserMedia env (Part003.constraints true true (media s)) = None ->
  getUserMedia env (Part003.constraints false true (media s)) = None ->
  getUserMedia env Part003.audio_only = Some a ->
  fst (Part003.initLocalStream env true true s) = Some a
  /\ localStream (media (snd (Part003.initLocalStream env true true s))) = Some a
  /\ hasVideo (media (snd (Part003.initLocalStream env true true s))) = false
  /\ hasAudio (media (snd (Part003.initLocalStream env true true s))) = true
  /\ webRTCError (snd (Part003.initLocalStream env true true s)) = webRTCError s.
Proof.
  intros H1 H2 H3.
  unfold Part003.initLocalStream, Part003.initLocalStream_with, Part003.stop_local.
  unfold Part003.constraints in *.
  destruct (localStream (media s)) eqn:E; simpl in *;
    repeat (progress (simpl; rewrite ?E, ?H1, ?H2, ?H3)); auto.
Qed.



Lemma bind_ok {A B} (m : M A) (k : A -> M B) (w : World) (a : A) :
  fst (m w) = Ok a -> bind m k w = k a (snd (m w)).
Proof. unfold bind. destruct (m w) as [[x | e] w']; simpl; intros H; inversion H; reflexivity. Qed.






(** ** Negotiation needed *)

(** In part_003 the handler does nothing unless the connection is stable
    and this side is the initiator. *)
Lemma onnegotiationneeded003_only_from_stable (env : Env) (h : nat) (w : World) :
  snd (Part003.onnegotiationneeded env h w) <> w ->
  exists pc, heap (client w) !! h = Some pc
             /\ signalingState pc = Stable /\ pc_initiator pc = true.
Proof.
  unfold Part003.onnegotiationneeded. rewrite !bind_gets.
  destruct (heap (client w) !! h) as [pc |]; [| intros H; exfalso; apply H; reflexivity].
  destruct (user (client w)) as [u |]; [| intros H; exfalso; apply H; reflexivity].
  destruct (pc_initiator pc) eqn:Hi; simpl;
    [| intros H; exfalso; apply H; reflexivity].
  destruct (truthy (pc_room pc)); simpl; [| intros H; exfalso; apply H; reflexivity].
  destruct (decide (signalingState pc = Stable)) as [Hs | Hs].
  - intros _. exists pc. auto.
  - rewrite bool_decide_eq_false_2 by exact Hs. simpl.
    intros H; exfalso; apply H; reflexivity.
Qed.

(** From stable, with a working browser and relay, it does create and
    publish the offer and leaves the connection in have-local-offer. *)
Lemma onnegotiationneeded003_offers :
  let w := Example.alice_world Example.connected_to_bob in
  let w' := snd (Part003.onnegotiationneeded (Example.env_of "alice") 0 w) in
  (signalingState <$> connection_of (client w') "bob") = Some HaveLocalOffer
  /\ child "alice" (offers (room (relay w') "r1")) = Some [("bob", "offer of alice")]
  /\ calls (client w')
     = [CallCreateOffer 0; CallSetLocalDescription 0 Offer; CallSet (OfferRef "r1" "alice" "bob")].
Proof. vm_compute. repeat split; reflexivity. Qed.

(** The handler in src/contexts/webrtc-context.tsx has no check of its
    own: run by hand on a connection that is in have-local-offer, which
    the browser never does, it would create an offer, set it and publish
    it, where the handler of part_003 returns at once. *)
Remark negotiation_without_stable_check :
  let w := Example.alice_world Example.offer_pending in
  let w' := snd (Contexts.onnegotiationneeded (Example.env_of "alice") 0 w) in
  (signalingState <$> connection_of (client w) "bob") = Some HaveLocalOffer
  /\ (pc_initiator <$> connection_of (client w) "bob") = Some true
  /\ calls (client w')
     = [CallCreateOffer 0; CallSetLocalDescription 0 Offer; CallSet (OfferRef "r1" "alice" "bob")]
  /\ child "alice" (offers (room (relay w') "r1")) = Some [("bob", "offer of alice")]
  /\ Part003.onnegotiationneeded (Example.env_of "alice") 0 w = (Ok tt, w).
Proof. vm_compute. repeat split; reflexivity. Qed.

(** ** ICE candidates *)

Lemma candidates_guarded_refl (w : World) : candidates_guarded w w.
Proof.
  split; [reflexivity |]. exists []. split; [symmetry; apply app_nil_r | constructor].
Qed.

Lemma candidate_call_allowed_ext (s s' : State) (c : Call) :
  (forall h, remote_description_at s' h = remote_description_at s h) ->
  candidate_call_allowed s' c -> candidate_call_allowed s c.
Proof. intros H. destruct c; simpl; auto. rewrite H. auto. Qed.

Lemma candidates_guarded_trans (a b c : World) :
  candidates_guarded a b -> candidates_guarded b c -> candidates_guarded a c.
Proof.
  intros (H1 & l1 & E1 & F1) (H2 & l2 & E2 & F2). split.
  - intros h. rewrite H2. apply H1.
  - exists (l1 ++ l2). split.
    + rewrite E2, E1. symmetry. apply app_assoc.
    + apply Forall_app. split; [exact F1 |].
      eapply Forall_impl; [exact F2 |]. intros x. apply candidate_call_allowed_ext. exact H1.
Qed.

Lemma remote_description_add (c : string) (pc pc' : PeerConnection) :
  RTC.addIceCandidate c pc = Ok pc' -> RTC.remoteDescription pc' = RTC.remoteDescription pc.
Proof.
  unfold RTC.addIceCandidate.
  destruct (signalingState pc), (RTC.remoteDescription pc) eqn:E; intros H; inversion H;
    subst; exact E.
Qed.

Lemma remote_description_at_update (s : State) (h h' : nat) (pc pc' : PeerConnection) :
  heap s !! h = Some pc -> RTC.remoteDescription pc' = RTC.remoteDescription pc ->
  remote_description_at (update_pc h (fun _ => pc') s) h' = remote_description_at s h'.
Proof.
  intros Hh Hr. unfold remote_description_at, update_pc. simpl.
  destruct (decide (h = h')) as [-> | Hne].
  - rewrite list_lookup_alter_eq, Hh. simpl. exact Hr.
  - rewrite list_lookup_alter_ne by exact Hne. reflexivity.
Qed.

(** One candidate in part_003: [addIceCandidate] is reached only behind
    the check of the remote description. *)
Lemma onCandidate003_guarded (env : Env) (roomId : string) (h : nat)
    (senderId receiverId : string) (receiverCandidates : list (nat * string))
    (candidate : string) :
  respects candidates_guarded
    (Part003.onCandidate env roomId h senderId receiverId receiverCandidates candidate).
Proof.
  intros w.
  unfold Part003.onCandidate, try_catch, addIceCandidate, pc_call, remove, relay_call,
    bind, gets, modify, throw, ret, write_relay.
  simpl.
  destruct (heap (client w) !! h) as [pc |] eqn:Hpc; simpl; [| apply candidates_guarded_refl].
  destruct (RTC.remoteDescription pc) as [rd |] eqn:Hrd; simpl;
    [| apply candidates_guarded_refl].
  rewrite Hpc.
  assert (Hallowed : candidate_call_allowed (client w) (CallAddIceCandidate h candidate))
    by (simpl; unfold remote_description_at; rewrite Hpc; simpl; rewrite Hrd;
        eexists; reflexivity).
  assert (Hkeep : forall pc', RTC.addIceCandidate candidate pc = Ok pc' ->
            forall h', (alter (fun _ => pc') h (heap (client w)) !! h') ≫= RTC.remoteDescription
                       = (heap (client w) !! h') ≫= RTC.remoteDescription).
  { intros pc' Hadd h'.
    destruct (decide (h = h')) as [<- | Hne].
    - rewrite list_lookup_alter_eq, Hpc. simpl. eapply remote_description_add. exact Hadd.
    - rewrite list_lookup_alter_ne by exact Hne. reflexivity. }
  assert (Hdone : forall (s : State) (rl : Relay) (l : list Call),
            (forall h', remote_description_at s h' = remote_description_at (client w) h') ->
            calls s = calls (client w) ++ CallAddIceCandidate h candidate :: l ->
            Forall (candidate_call_allowed (client w)) l ->
            candidates_guarded w {| client := s; relay := rl |}).
  { intros s rl l Hr Hc Hl. split; [exact Hr |].
    exists (CallAddIceCandidate h candidate :: l). split; [exact Hc |].
    constructor; [exact Hallowed | exact Hl]. }
  assert (Hfinish : forall (s : State) (rl : Relay) (l : list Call),
            heap s = heap (client w)
            \/ (exists pc', RTC.addIceCandidate candidate pc = Ok pc'
                            /\ heap s = alter (fun _ => pc') h (heap (client w))) ->
            calls s = calls (client w) ++ CallAddIceCandidate h candidate :: l ->
            Forall (fun c => exists p, c = CallRemove p) l ->
            candidates_guarded w {| client := s; relay := rl |}).
  { intros s rl l Hh Hc Hl. apply Hdone with (l := l); [| exact Hc |].
    - intros h'. unfold remote_description_at.
      destruct Hh as [-> | (pc' & Hadd & ->)]; [reflexivity | apply (Hkeep pc' Hadd)].
    - eapply Forall_impl; [exact Hl |]. intros c (p & ->). exact I. }
  destruct (candidateError env candidate) as [e |]; simpl.
  { destruct (_ && _); simpl; apply (Hfinish _ _ []); simpl; auto. }
  destruct (RTC.addIceCandidate candidate pc) as [pc' | e] eqn:Hadd; simpl.
  2: { destruct (_ && _); simpl; apply (Hfinish _ _ []); simpl; auto. }
  destruct (Part003.find_key receiverCandidates candidate) as [k |]; simpl.
  2: { apply (Hfinish _ _ []); simpl; eauto. }
  destruct (relayError env) as [e |]; simpl.
  - destruct (_ && _); simpl;
      apply (Hfinish _ _ [CallRemove (CandidateRef roomId senderId receiverId k)]);
      simpl; eauto; rewrite <- ?app_assoc; reflexivity.
  - apply (Hfinish _ _ [CallRemove (CandidateRef roomId senderId receiverId k)]);
      simpl; eauto; rewrite <- ?app_assoc; reflexivity.
Qed.

(** X23.  The whole candidates listener of part_003, on any snapshot and in
    any state: [addIceCandidate] is never invoked on a connection whose
    remote description is unset. *)
Lemma onCandidates003_guarded (env : Env) (roomId : string)
    (snapshot : option (list (string * list (string * list (nat * string))))) :
  respects candidates_guarded (Part003.onCandidates env roomId snapshot).
Proof.
  unfold Part003.onCandidates.
  frame_using candidates_guarded_refl candidates_guarded_trans
    ltac:(apply onCandidate003_guarded).
Qed.

(** In part_003 a candidate for a connection that has a remote
    description is added and its message removed from the relay; one for
    a connection without remote description is left where it is. *)
Lemma onCandidates003_adds_and_consumes :
  let env := Example.env_of "alice" in
  let ready := {| client := Example.negotiated_with_bob; relay := Example.candidate_from_bob |} in
  let early := {| client := Example.connected_to_bob; relay := Example.candidate_from_bob |} in
  let w' := snd (Part003.onCandidates env "r1" (Example.candidates_snapshot ready) ready) in
  (remoteCandidates <$> connection_of (client w') "bob") = Some ["candidate 1"]
  /\ candidates (room (relay w') "r1") = []
  /\ calls (client w')
     = [CallAddIceCandidate 0 "candidate 1"; CallRemove (CandidateRef "r1" "bob" "alice" 0)]
  /\ Part003.onCandidates env "r1" (Example.candidates_snapshot early) early = (Ok tt, early).
Proof. vm_compute. repeat split; reflexivity. Qed.

(** C7 (the code departs from the claim).  The candidates listener in
    src/contexts/webrtc-context.tsx calls [addIceCandidate] on a
    connection that has no remote description (the browser rejects it and
    an error is shown), and when the connection does have one the
    candidate is added but its message stays in the relay, so that the
    next snapshot adds it again. *)
Theorem candidate_added_without_remote_description :
  let env := Example.env_of "alice" in
  let early := {| client := Example.connected_to_bob; relay := Example.candidate_from_bob |} in
  let ready := {| client := Example.negotiated_with_bob; relay := Example.candidate_from_bob |} in
  let e' := snd (Contexts.onCandidates env "r1" (Example.candidates_snapshot early) early) in
  let r1 := snd (Contexts.onCandidates env "r1" (Example.candidates_snapshot ready) ready) in
  let r2 := snd (Contexts.onCandidates env "r1" (Example.candidates_snapshot r1) r1) in
  remote_description_at (client early) 0 = None
  /\ calls (client e') = [CallAddIceCandidate 0 "candidate 1"]
  /\ webRTCError (client e') = Some Part003.answer_error
  /\ candidates (room (relay r1) "r1") = candidates (room (relay ready) "r1")
  /\ (remoteCandidates <$> connection_of (client r2) "bob")
     = Some ["candidate 1"; "candidate 1"].
Proof. vm_compute. repeat split; reflexivity. Qed.

(** ** Offers and answers: consumption *)

Lemma offers_kept_refl (w : World) : offers_kept w w.
Proof. intros r. reflexivity. Qed.

Lemma offers_kept_trans (a b c : World) :
  offers_kept a b -> offers_kept b c -> offers_kept a c.
Proof. intros H1 H2 r. rewrite H2. apply H1. Qed.

Ltac offers_done :=
  unfold offers_kept; simpl; intros;
  rewrite ?room_in_room;
  repeat match goal with
         | |- context [decide (?a = ?b)] => destruct (decide (a = b)); subst
         end;
  try reflexivity;
  repeat match goal with
         | |- context [match ?x with _ => _ end] => destruct x; simpl
         end;
  reflexivity.

(** The offers listener of part_003 removes no offer, whatever it does
    with it: accepted, ignored in glare or left for the timer, the
    message stays in the relay. *)
Lemma onOffers003_keeps_offers (env : Env) (roomId : string)
    (snapshot : option (list (string * list (string * string)))) :
  respects offers_kept (Part003.onOffers env roomId snapshot).
Proof.
  unfold Part003.onOffers, Part003.onOffer, Part003.processOffer, Part003.recreate.
  frame offers_kept_refl offers_kept_trans; offers_done.
Qed.

Lemma onOffersContexts_keeps_offers (env : Env) (roomId : string)
    (snapshot : option (list (string * list (string * string)))) :
  respects offers_kept (Contexts.onOffers env roomId snapshot).
Proof.
  unfold Contexts.onOffers, Contexts.onOffer.
  frame offers_kept_refl offers_kept_trans; offers_done.
Qed.

(** An answer applied in part_003 is removed from the relay, and a second
    delivery of the same snapshot changes nothing on the connection. *)
Lemma onAnswers003_consumes :
  let after := run part003 Example.env_of "r1" Example.offers_first Example.glare003 in
  answers (room (shared after) "r1") = []
  /\ Example.remote_of after "bob" "alice"
     = Some {| sd_type := Answer; sdp := "answer of alice" |}.
Proof. vm_compute. split; reflexivity. Qed.

(** C5 (the code departs from the claim).  alice has a stable connection
    to bob and the relay holds an offer from bob.  The offers listener of
    part_003 accepts it and publishes an answer, and the offer is still
    in the relay; the next delivery of the snapshot accepts it again and
    publishes a second answer.  The answers listener of the same copy
    does remove what it has applied. *)
Theorem offer_processed_again_on_replay :
  let env := Example.env_of "alice" in
  let w0 := {| client := Example.connected_to_bob; relay := Example.offer_from_bob |} in
  let w1 := snd (Part003.onOffers env "r1" (Example.offers_snapshot w0) w0) in
  let w2 := snd (Part003.onOffers env "r1" (Example.offers_snapshot w1) w1) in
  let accept := [ CallSetRemoteDescription 0 Offer; CallCreateAnswer 0;
                  CallSetLocalDescription 0 Answer; CallSet (AnswerRef "r1" "alice" "bob") ] in
  (signalingState <$> connection_of (client w1) "bob") = Some Stable
  /\ answers (room (relay w1) "r1") = [("alice", [("bob", "answer of alice")])]
  /\ offers (room (relay w1) "r1") = [("bob", [("alice", "offer of bob")])]
  /\ calls (client w1) = accept
  /\ calls (client w2) = accept ++ accept.
Proof. vm_compute. repeat split; reflexivity. Qed.

(** ** Glare *)

(** Of two distinct identities exactly one is the greater. *)
Lemma gt_decides (a b : string) : a <> b -> Js.gt a b = negb (Js.gt b a).
Proof.
  intros Hne. unfold Js.gt. rewrite (String.compare_antisym b a).
  destruct (String.compare a b) eqn:E; simpl; try reflexivity.
  apply String.compare_eq_iff in E. contradiction.
Qed.

(** In part_003, the side with the greater identity ignores an offer
    that arrives while its own is pending. *)
Lemma onOffer003_greater_ignores (env : Env) (u : User) (roomId senderId offer : string)
    (w : World) (h : nat) (pc : PeerConnection) :
  peerConnections (client w) !! senderId = Some h ->
  heap (client w) !! h = Some pc ->
  signalingState pc = HaveLocalOffer ->
  Js.gt (uid u) senderId = true ->
  Part003.onOffer env u roomId senderId offer w = (Ok tt, w).
Proof.
  intros Hm Hh Hs Hgt. unfold Part003.onOffer.
  rewrite bind_gets, Hm. unfold bind at 1. unfold ret at 1.
  rewrite bind_gets, Hh. simpl. rewrite Hs, Hgt. reflexivity.
Qed.

(** The side with the lesser identity rolls its offer back first. *)
Lemma onOffer003_lesser_rolls_back :
  let after := run part003 Example.env_of "r1" [OffersSnapshot "alice"] Example.glare003 in
  (calls <$> members after !! "alice")
  = Some [ CallCreateOffer 0; CallSetLocalDescription 0 Offer;
           CallSet (OfferRef "r1" "alice" "bob");
           CallSetLocalDescription 0 Rollback;
           CallSetRemoteDescription 0 Offer; CallCreateAnswer 0;
           CallSetLocalDescription 0 Answer; CallSet (AnswerRef "r1" "alice" "bob") ]
  /\ Example.signaling_of after "alice" "bob" = Some Stable
  /\ Example.remote_of after "alice" "bob" = Some {| sd_type := Offer; sdp := "offer of bob" |}.
Proof. vm_compute. repeat split; reflexivity. Qed.

Lemma on_member_dom (who : string) (m : M unit) (sys : System) :
  dom (members (on_member who m sys)) = dom (members sys).
Proof.
  unfold on_member. destruct (members sys !! who) as [s |] eqn:E; [| reflexivity].
  destruct (m _) as [r w]. simpl. rewrite dom_insert_L.
  apply elem_of_dom_2 in E. apply subseteq_union_1_L. apply singleton_subseteq_l. exact E.
Qed.

Lemma deliver_dom (P : Provider) (env : string -> Env) (roomId : string) (sys : System)
    (ev : Event) :
  dom (members (deliver P env roomId sys ev)) = dom (members sys).
Proof. destruct ev; apply on_member_dom. Qed.

Lemma run_dom (P : Provider) (env : string -> Env) (roomId : string) (schedule : list Event)
    (sys : System) :
  dom (members (run P env roomId schedule sys)) = dom (members sys).
Proof.
  unfold run. revert sys. induction schedule as [| ev l IH]; intros sys; simpl.
  - reflexivity.
  - rewrite IH. apply deliver_dom.
Qed.

(** In the copy of src/contexts no delivery of offers or answers moves a
    pair of clients out of glare. *)
Lemma glareContexts_is_stuck (schedule : list Event) :
  Forall Example.signalling_only schedule ->
  run contexts Example.env_of "r1" schedule Example.glareContexts = Example.glareContexts.
Proof.
  assert (Hstep : forall who,
             deliver contexts Example.env_of "r1" Example.glareContexts (OffersSnapshot who)
             = Example.glareContexts
             /\ deliver contexts Example.env_of "r1" Example.glareContexts (AnswersSnapshot who)
                = Example.glareContexts).
  { intros who. unfold deliver, on_member.
    destruct (decide (who = "alice")) as [-> | Ha]; [vm_compute; split; reflexivity |].
    destruct (decide (who = "bob")) as [-> | Hb]; [vm_compute; split; reflexivity |].
    assert (Hn : members Example.glareContexts !! who = None).
    { apply not_elem_of_dom. unfold Example.glareContexts. rewrite run_dom.
      unfold Example.alice_and_bob. simpl.
      rewrite dom_insert_L, dom_singleton_L.
      intros [H | H]%elem_of_union; apply elem_of_singleton in H; contradiction. }
    rewrite Hn. split; reflexivity. }
  intros Hall. unfold run. induction Hall as [| ev l Hev _ IH]; simpl; [reflexivity |].
  destruct ev as [who | who | who | who | who h]; simpl in Hev; try contradiction.
  - rewrite (proj1 (Hstep who)). exact IH.
  - rewrite (proj2 (Hstep who)). exact IH.
Qed.

(** C1 (the code departs from the claim).  alice < bob are in glare:
    both in have-local-offer, both offers in the relay.  In part_003,
    when the offers reach both sides before alice's answer reaches bob,
    alice rolls back and bob's offer is the one negotiated; when alice's
    answer reaches bob first, bob is stable again by the time alice's
    offer is delivered, accepts the offer alice has rolled back and
    answers it.  In the copy of src/contexts there is no tie-break: both
    sides skip the other's offer and stay in have-local-offer. *)
Theorem glare_outcome_depends_on_arrival_order :
  let in_order := run part003 Example.env_of "r1" Example.offers_first Example.glare003 in
  let reordered := run part003 Example.env_of "r1" Example.answer_first Example.glare003 in
  let old := run contexts Example.env_of "r1" Example.offers_first Example.glareContexts in
  Js.gt "bob" "alice" = true
  /\ Example.signaling_of Example.glare003 "alice" "bob" = Some HaveLocalOffer
  /\ Example.signaling_of Example.glare003 "bob" "alice" = Some HaveLocalOffer
  /\ Example.remote_of in_order "alice" "bob" = Some {| sd_type := Offer; sdp := "offer of bob" |}
  /\ Example.remote_of in_order "bob" "alice"
     = Some {| sd_type := Answer; sdp := "answer of alice" |}
  /\ Example.signaling_of reordered "bob" "alice" = Some Stable
  /\ Example.remote_of reordered "bob" "alice"
     = Some {| sd_type := Offer; sdp := "offer of alice" |}
  /\ answers (room (shared reordered) "r1") = [("bob", [("alice", "answer of bob")])]
  /\ Example.signaling_of old "alice" "bob" = Some HaveLocalOffer
  /\ Example.signaling_of old "bob" "alice" = Some HaveLocalOffer
  /\ answers (room (shared old) "r1") = [].
Proof. vm_compute. repeat split; reflexivity. Qed.

(** ** One connection per peer *)

(** The copy of src/contexts returns at once when the map already holds
    a connection for the peer. *)
Lemma createPeerConnectionContexts_keeps_existing (env : Env) (peerId roomId : string)
    (initiator : bool) (s : State) (h : nat) :
  peerConnections s !! peerId = Some h ->
  Contexts.createPeerConnection env peerId roomId initiator s = (None, s).
Proof.
  intros Hm. unfold Contexts.createPeerConnection.
  destruct (user s); [| reflexivity].
  destruct (negb (truthy roomId)); [reflexivity |].
  rewrite Hm. reflexivity.
Qed.

Lemma add_tracks_keeps (l : list Track) (pc : PeerConnection) :
  signalingState (Part003.add_tracks l pc) = signalingState pc
  /\ pc_peer (Part003.add_tracks l pc) = pc_peer pc
  /\ pc_initiator (Part003.add_tracks l pc) = pc_initiator pc.
Proof.
  unfold Part003.add_tracks. revert pc. induction l as [| t l IH]; intros pc; simpl.
  - auto.
  - destruct (IH (RTC.addTrack t pc)) as (H1 & H2 & H3). rewrite H1, H2, H3. auto.
Qed.

(** X24.  [createPeerConnection] of part_003 for a peer the map already
    has a connection for, with a signed-in user, a room id and a working
    constructor: it closes the connection it finds and puts a new one, stable
    and for the same peer, in its place in the map. *)
Lemma createPeerConnection003_recreates (env : Env) (peerId roomId : string)
    (initiator : bool) (s : State) (h : nat) (pc : PeerConnection) :
  is_Some (user s) -> truthy roomId = true -> constructorThrows env = false ->
  peerConnections s !! peerId = Some h -> heap s !! h = Some pc ->
  let r := Part003.createPeerConnection env peerId roomId initiator s in
  fst r = Some (length (heap s))
  /\ peerConnections (snd r) !! peerId = Some (length (heap s))
  /\ heap (snd r) !! h = Some (RTC.close pc)
  /\ exists pc', heap (snd r) !! length (heap s) = Some pc'
                 /\ signalingState pc' = Stable /\ pc_peer pc' = peerId
                 /\ pc_initiator pc' = initiator.
Proof.
  intros [u Hu] Hr Hc Hm Hh. unfold Part003.createPeerConnection.
  rewrite Hu, Hr, Hm, Hc. simpl.
  assert (Hlt : h < length (heap s)) by (eapply lookup_lt_Some; exact Hh).
  assert (Hlen : length (alter RTC.close h (heap s)) = length (heap s))
    by apply length_alter.
  rewrite Hlen.
  set (fresh := RTC.fresh peerId roomId initiator true).
  assert (Hnew : forall f (hp : list PeerConnection),
             hp = alter RTC.close h (heap s) ++ [fresh] ->
             alter f (length (heap s)) hp !! h = Some (RTC.close pc)
             /\ alter f (length (heap s)) hp !! length (heap s) = Some (f fresh)).
  { intros f hp ->. split.
    - rewrite list_lookup_alter_ne by lia.
      rewrite lookup_app_l by (rewrite Hlen; exact Hlt).
      rewrite list_lookup_alter_eq, Hh. reflexivity.
    - rewrite list_lookup_alter_eq.
      rewrite lookup_app_r by (rewrite Hlen; lia).
      rewrite Hlen, Nat.sub_diag. reflexivity. }
  assert (Hfresh : forall l, signalingState (Part003.add_tracks l fresh) = Stable
                             /\ pc_peer (Part003.add_tracks l fresh) = peerId
                             /\ pc_initiator (Part003.add_tracks l fresh) = initiator).
  { intros l. destruct (add_tracks_keeps l fresh) as (H1 & H2 & H3).
    rewrite H1, H2, H3. repeat split; reflexivity. }
  match goal with
  | |- context [if ?b then _ else _] => destruct b; simpl
  end.
  - rewrite lookup_insert_eq.
    match goal with
    | |- context [alter ?f _ ?hp] => destruct (Hnew f hp eq_refl) as [Ha Hb]
    end.
    repeat split; [exact Ha |]. eexists. split; [exact Hb | apply Hfresh].
  - match goal with
    | |- context [Part003.initLocalStream ?e ?v ?a ?s1] =>
        destruct (initLocalStream003_shape e v a s1) as (m1 & e1 & c1 & Hs);
        destruct (Part003.initLocalStream e v a s1) as [[stream |] s2];
        simpl in Hs; subst s2; simpl
    end.
    + rewrite lookup_insert_eq.
      match goal with
      | |- context [alter ?f _ ?hp] => destruct (Hnew f hp eq_refl) as [Ha Hb]
      end.
      repeat split; [exact Ha |]. eexists. split; [exact Hb | apply Hfresh].
    + rewrite lookup_insert_eq.
      destruct (Hnew (fun x => x) _ eq_refl) as [Ha Hb].
      assert (Hid : forall hp : list PeerConnection,
                 alter (fun x => x) (length (heap s)) hp = hp).
      { intros hp. apply list_eq. intros i.
        destruct (decide (length (heap s) = i)) as [<- | Hne].
        - rewrite list_lookup_alter_eq. destruct (hp !! length (heap s)); reflexivity.
        - rewrite list_lookup_alter_ne by exact Hne. reflexivity. }
      rewrite Hid in Ha, Hb.
      repeat split; [exact Ha |]. eexists. split; [exact Hb |].
      repeat split; reflexivity.
Qed.
Lemma tracked_one_live (s : State) (h1 h2 : nat) (pc1 pc2 : PeerConnection) :
  tracked s ->
  heap s !! h1 = Some pc1 -> heap s !! h2 = Some pc2 ->
  RTC.live pc1 = true -> RTC.live pc2 = true -> pc_peer pc1 = pc_peer pc2 ->
  h1 = h2.
Proof.
  intros Ht H1 H2 L1 L2 Hp.
  pose proof (Ht h1 pc1 H1 L1) as E1. pose proof (Ht h2 pc2 H2 L2) as E2.
  rewrite Hp in E1. congruence.
Qed.

Lemma live_close (pc : PeerConnection) : RTC.live (RTC.close pc) = false.
Proof. reflexivity. Qed.

(** Closing and dropping the entry of [peerId], if there is one, leaves
    no live connection to [peerId] and keeps the others tracked. *)
Lemma tracked_after_drop (s : State) (peerId : string) :
  tracked s ->
  let s1 := match peerConnections s !! peerId with
            | Some h => setPeerConnections (delete peerId (peerConnections s)) (close_pc h s)
            | None => s
            end in
  forall h pc, heap s1 !! h = Some pc -> RTC.live pc = true ->
               pc_peer pc <> peerId /\ peerConnections s1 !! pc_peer pc = Some h.
Proof.
  intros Ht. simpl. destruct (peerConnections s !! peerId) as [h0 |] eqn:Hm.
  - intros h pc Hh Hl. simpl in Hh.
    destruct (decide (h0 = h)) as [-> | Hne].
    + rewrite list_lookup_alter_eq in Hh. destruct (heap s !! h) as [pc0 |]; [| discriminate].
      simpl in Hh. inversion Hh; subst. rewrite live_close in Hl. discriminate.
    + rewrite list_lookup_alter_ne in Hh by exact Hne.
      pose proof (Ht h pc Hh Hl) as E.
      assert (Hp : pc_peer pc <> peerId) by (intros Heq; rewrite Heq in E; congruence).
      split; [exact Hp |]. simpl. rewrite lookup_delete_ne by auto. exact E.
  - intros h pc Hh Hl. pose proof (Ht h pc Hh Hl) as E.
    split; [intros Heq; rewrite Heq in E; congruence | exact E].
Qed.

(** A new connection for [peerId] appended to the store and entered in
    the map keeps the store tracked, whatever is then done to the new
    connection as long as its peer stays. *)
Lemma tracked_after_insert (hp : list PeerConnection) (m : gmap string nat)
    (peerId : string) (fresh : PeerConnection) (f : PeerConnection -> PeerConnection) :
  (forall h pc, hp !! h = Some pc -> RTC.live pc = true ->
                pc_peer pc <> peerId /\ m !! pc_peer pc = Some h) ->
  pc_peer (f fresh) = peerId ->
  forall h pc, alter f (length hp) (hp ++ [fresh]) !! h = Some pc -> RTC.live pc = true ->
               <[peerId := length hp]> m !! pc_peer pc = Some h.
Proof.
  intros Hold Hp h pc Hh Hl.
  destruct (decide (length hp = h)) as [<- | Hne].
  - rewrite list_lookup_alter_eq in Hh.
    rewrite lookup_app_r in Hh by lia. rewrite Nat.sub_diag in Hh. simpl in Hh.
    injection Hh as <-. rewrite Hp. apply lookup_insert_eq.
  - rewrite list_lookup_alter_ne in Hh by exact Hne.
    assert (Hlt : h < length hp).
    { apply lookup_lt_Some in Hh. rewrite length_app in Hh. simpl in Hh. lia. }
    rewrite lookup_app_l in Hh by exact Hlt.
    destruct (Hold h pc Hh Hl) as [Hp' E].
    rewrite lookup_insert_ne by auto. exact E.
Qed.

Lemma alter_id_list {A} (i : nat) (l : list A) : alter (fun x => x) i l = l.
Proof.
  apply list_eq. intros j. destruct (decide (i = j)) as [<- | Hne].
  - rewrite list_lookup_alter_eq. destruct (l !! i); reflexivity.
  - rewrite list_lookup_alter_ne by exact Hne. reflexivity.
Qed.

(** [createPeerConnection] of part_003 keeps every live connection
    tracked, hence at most one live connection per peer. *)
Lemma createPeerConnection003_tracked (env : Env) (peerId roomId : string) (initiator : bool)
    (s : State) :
  tracked s -> tracked (snd (Part003.createPeerConnection env peerId roomId initiator s)).
Proof.
  intros Ht. unfold Part003.createPeerConnection.
  destruct (user s); [| exact Ht].
  destruct (negb (truthy roomId)); [exact Ht |].
  pose proof (tracked_after_drop s peerId Ht) as Hdrop. simpl in Hdrop.
  set (s1 := match peerConnections s !! peerId with
             | Some h => setPeerConnections (delete peerId (peerConnections s)) (close_pc h s)
             | None => s
             end) in *.
  destruct (constructorThrows env).
  { intros h pc Hh Hl. simpl in *. apply (Hdrop h pc Hh Hl). }
  set (fresh := RTC.fresh peerId roomId initiator true).
  assert (Hfin : forall (f : PeerConnection -> PeerConnection) (s' : State),
             pc_peer (f fresh) = peerId ->
             heap s' = alter f (length (heap s1)) (heap s1 ++ [fresh]) ->
             peerConnections s' = <[peerId := length (heap s1)]> (peerConnections s1) ->
             tracked s').
  { intros f s' Hp Hhp Hm h pc Hh Hl. rewrite Hhp in Hh. rewrite Hm.
    eapply tracked_after_insert; eauto. }
  simpl.
  match goal with
  | |- context [if ?b then _ else _] => destruct b; simpl
  end.
  - eapply Hfin with (f := Part003.add_tracks _); [| reflexivity | reflexivity].
    apply add_tracks_keeps.
  - match goal with
    | |- context [Part003.initLocalStream ?e ?v ?a ?s2] =>
        destruct (initLocalStream003_shape e v a s2) as (m1 & e1 & c1 & Hs);
        destruct (Part003.initLocalStream e v a s2) as [[stream |] s3];
        simpl in Hs; subst s3; simpl
    end.
    + eapply Hfin with (f := Part003.add_tracks _); [| reflexivity | reflexivity].
      apply add_tracks_keeps.
    + eapply Hfin with (f := fun x => x); [reflexivity | | reflexivity].
      simpl. symmetry. apply alter_id_list.
Qed.

Lemma createPeerConnectionContexts_tracked (env : Env) (peerId roomId : string)
    (initiator : bool) (s : State) :
  tracked s -> tracked (snd (Contexts.createPeerConnection env peerId roomId initiator s)).
Proof.
  intros Ht. unfold Contexts.createPeerConnection.
  destruct (user s); [| exact Ht].
  destruct (negb (truthy roomId)); [exact Ht |].
  destruct (peerConnections s !! peerId) as [h0 |] eqn:Hm; [exact Ht |].
  set (fresh := RTC.fresh peerId roomId initiator true).
  assert (Hold : forall h pc, heap s !! h = Some pc -> RTC.live pc = true ->
                   pc_peer pc <> peerId /\ peerConnections s !! pc_peer pc = Some h).
  { intros h pc Hh Hl. pose proof (Ht h pc Hh Hl) as E.
    split; [intros Heq; rewrite Heq in E; congruence | exact E]. }
  assert (Hfin : forall (f : PeerConnection -> PeerConnection) (s' : State),
             pc_peer (f fresh) = peerId ->
             heap s' = alter f (length (heap s)) (heap s ++ [fresh]) ->
             peerConnections s' = <[peerId := length (heap s)]> (peerConnections s) ->
             tracked s').
  { intros f s' Hp Hhp Hm' h pc Hh Hl. rewrite Hhp in Hh. rewrite Hm'.
    eapply tracked_after_insert; eauto. }
  simpl.
  destruct (localStream (media s)); simpl.
  - eapply Hfin with (f := Part003.add_tracks _); [| reflexivity | reflexivity].
    apply add_tracks_keeps.
  - match goal with
    | |- context [Contexts.initLocalStream ?e ?v ?a ?s2] =>
        destruct (initLocalStreamContexts_shape e v a s2) as (m1 & e1 & c1 & Hs);
        destruct (Contexts.initLocalStream e v a s2) as [[stream |] s3];
        simpl in Hs; subst s3; simpl
    end.
    + eapply Hfin with (f := Part003.add_tracks _); [| reflexivity | reflexivity].
      apply add_tracks_keeps.
    + eapply Hfin with (f := fun x => x); [reflexivity | | reflexivity].
      simpl. symmetry. apply alter_id_list.
Qed.

(** C2 (the code departs from the claim).  In the copy of src/contexts a
    call for a peer that already has a connection returns at once: the
    old connection is neither closed nor replaced, where part_003 closes
    it and enters a new one.  And in part_003 the timer that the offers
    listener leaves behind drops from the map a connection it does not
    close: after it has fired there are two live connections to bob. *)
Theorem existing_connection_neither_closed_nor_replaced :
  let env := Example.env_of "alice" in
  let s := Example.connected_to_bob in
  let s3 := snd (Part003.createPeerConnection env "bob" "r1" true s) in
  let after_timer := client Example.timer_after_recreation in
  peerConnections s !! "bob" = Some 0
  /\ (signalingState <$> heap s !! 0) = Some Stable
  /\ Contexts.createPeerConnection env "bob" "r1" true s = (None, s)
  /\ (signalingState <$> heap s3 !! 0) = Some SigClosed
  /\ peerConnections s3 !! "bob" = Some 1
  /\ live_connections_to s3 "bob" = [1]
  /\ live_connections_to after_timer "bob" = [1; 2]
  /\ peerConnections after_timer !! "bob" = Some 2.
Proof. vm_compute. repeat split; reflexivity. Qed.

(** ** The participants listener *)

Lemma handles_valid_spec (s : State) :
  handles_valid s = true
  <-> forall id h, peerConnections s !! id = Some h -> h < length (heap s).
Proof.
  unfold handles_valid. rewrite forallb_forall. split.
  - intros H id h Hm. apply elem_of_map_to_list in Hm. apply list_elem_of_In in Hm.
    specialize (H _ Hm). simpl in H. apply Nat.ltb_lt in H. exact H.
  - intros H [id h] Hin. apply list_elem_of_In in Hin. apply elem_of_map_to_list in Hin.
    simpl. apply Nat.ltb_lt. eapply H; exact Hin.
Qed.

Lemma existsb_eqb_In (id : string) (l : list string) :
  existsb (String.eqb id) l = true <-> In id l.
Proof.
  rewrite existsb_exists. split.
  - intros (x & Hin & Heq). apply String.eqb_eq in Heq. subst. exact Hin.
  - intros Hin. exists id. split; [exact Hin | apply String.eqb_refl].
Qed.

Lemma every_connection_has_peer_spec (uid : string) (s : State) :
  every_connection_has_peer uid s = true
  <-> ~ In uid (peer_ids s)
      /\ forall id h, peerConnections s !! id = Some h -> In id (peer_ids s).
Proof.
  unfold every_connection_has_peer. rewrite andb_true_iff, negb_true_iff, forallb_forall.
  split.
  - intros [Hself Hall]. split.
    + intros Hin. apply existsb_eqb_In in Hin. congruence.
    + intros id h Hm. apply elem_of_map_to_list in Hm. apply list_elem_of_In in Hm.
      specialize (Hall _ Hm). simpl in Hall. apply existsb_eqb_In. exact Hall.
  - intros [Hself Hall]. split.
    + destruct (existsb (String.eqb uid) (peer_ids s)) eqn:E; [| reflexivity].
      apply existsb_eqb_In in E. contradiction.
    + intros [id h] Hin. apply list_elem_of_In in Hin. apply elem_of_map_to_list in Hin.
      simpl. apply existsb_eqb_In. eapply Hall; exact Hin.
Qed.

Lemma includes_key_In {A} (id : string) (l : list (string * A)) :
  includes_key id l = true <-> In id (keys l).
Proof. apply existsb_eqb_In. Qed.

Lemma add_peer_ids (id name x : string) (l : list Peer) :
  In x (List.map peer_id (add_peer id name l)) <-> In x (List.map peer_id l) \/ x = id.
Proof.
  unfold add_peer.
  destruct (existsb (fun p => String.eqb (peer_id p) id) l) eqn:E.
  - split; [auto |]. intros [H | ->]; [exact H |].
    apply existsb_exists in E. destruct E as (p & Hin & Heq).
    apply String.eqb_eq in Heq. subst id. apply in_map. exact Hin.
  - rewrite map_app, in_app_iff. simpl. intuition.
Qed.

Lemma filter_peer_ids {A} (roster : list (string * A)) (l : list Peer) (x : string) :
  In x (List.map peer_id (List.filter (fun peer => includes_key (peer_id peer) roster) l))
  <-> In x (List.map peer_id l) /\ In x (keys roster).
Proof.
  rewrite !in_map_iff. split.
  - intros (p & Heq & Hin). apply filter_In in Hin. destruct Hin as [Hin Hk].
    apply includes_key_In in Hk. subst x. split; [exists p; auto | exact Hk].
  - intros [(p & Heq & Hin) Hk]. exists p. split; [exact Heq |].
    apply filter_In. split; [exact Hin |]. apply includes_key_In. subst x. exact Hk.
Qed.

Section Reconciler.
Variable ok : Prop.
Variable create : string -> string -> bool -> State -> option nat * State.
Hypothesis Hcreate : creates_at_most_one ok create.
Variables uid roomId : string.

Lemma added_by_none (ids : list string) (s : State) :
  (forall id, In id ids -> id <> uid -> peerConnections s !! id = None -> False) ->
  added_by ok uid roomId ids s s.
Proof.
  intros Hno. constructor; auto.
  - intros id h Hn Hs. congruence.
  - intros id. split; [auto |]. intros [H | (Hin & Hne & Hn)]; [exact H |].
    exfalso. eapply Hno; eauto.
  - intros id _ _ _ Hin Hne Hn. exfalso. eapply Hno; eauto.
Qed.

Lemma added_by_app (ids1 ids2 : list string) (s m s1 : State) :
  added_by ok uid roomId ids1 s m -> added_by ok uid roomId ids2 m s1 ->
  added_by ok uid roomId (ids1 ++ ids2) s s1.
Proof.
  intros A B. constructor.
  - rewrite (ab_user _ _ _ _ _ _ B). apply (ab_user _ _ _ _ _ _ A).
  - pose proof (ab_length _ _ _ _ _ _ A). pose proof (ab_length _ _ _ _ _ _ B). lia.
  - intros h Hh. rewrite (ab_store _ _ _ _ _ _ B) by
      (pose proof (ab_length _ _ _ _ _ _ A); lia).
    apply (ab_store _ _ _ _ _ _ A). exact Hh.
  - intros id h Hm. apply (ab_kept _ _ _ _ _ _ B). apply (ab_kept _ _ _ _ _ _ A). exact Hm.
  - intros id h Hn Hs. destruct (peerConnections m !! id) as [h' |] eqn:Hmid.
    + pose proof (ab_kept _ _ _ _ _ _ B _ _ Hmid) as Hk.
      assert (h' = h) by congruence. subst h'.
      destruct (ab_new _ _ _ _ _ _ A _ _ Hn Hmid) as (Hin & Hne & Hle & pc & Hpc & Hrest).
      split; [apply in_or_app; auto |]. split; [exact Hne |]. split; [exact Hle |].
      exists pc. split; [| exact Hrest].
      rewrite (ab_store _ _ _ _ _ _ B); [exact Hpc |].
      eapply lookup_lt_Some; exact Hpc.
    + destruct (ab_new _ _ _ _ _ _ B _ _ Hmid Hs) as (Hin & Hne & Hle & Hrest).
      split; [apply in_or_app; auto |]. split; [exact Hne |]. split; [| exact Hrest].
      pose proof (ab_length _ _ _ _ _ _ A). lia.
  - intros id. rewrite (ab_peers _ _ _ _ _ _ B), (ab_peers _ _ _ _ _ _ A), in_app_iff. split.
    + intros [[H | (Hin & Hne & Hn)] | (Hin & Hne & Hn)]; auto.
      right. split; [auto |]. split; [exact Hne |].
      destruct (peerConnections s !! id) as [h |] eqn:E; [| reflexivity].
      pose proof (ab_kept _ _ _ _ _ _ A _ _ E). congruence.
    + intros [H | ([Hin | Hin] & Hne & Hn)]; auto.
      destruct (peerConnections m !! id) as [h |] eqn:E; [| auto].
      destruct (ab_new _ _ _ _ _ _ A _ _ Hn E) as (Hin1 & _). auto.
  - intros id Hok Hu Hr Hin Hne Hn. apply in_app_or in Hin.
    assert (Hum : is_Some (user m)) by (rewrite (ab_user _ _ _ _ _ _ A); exact Hu).
    destruct (peerConnections m !! id) as [h |] eqn:E.
    + exists h. apply (ab_kept _ _ _ _ _ _ B). exact E.
    + destruct Hin as [Hin | Hin].
      * destruct (ab_succeeds _ _ _ _ _ _ A id Hok Hu Hr Hin Hne Hn) as [h Hh]. congruence.
      * apply (ab_succeeds _ _ _ _ _ _ B id Hok Hum Hr Hin Hne E).
Qed.

Lemma add_new_peer_added (s : State) (entry : string * Participant) :
  added_by ok uid roomId [fst entry] s (add_new_peer create uid roomId s entry).
Proof.
  destruct entry as [id participant]. unfold add_new_peer. simpl fst.
  destruct (negb (String.eqb id uid)
            && negb (bool_decide (is_Some (peerConnections s !! id)))) eqn:Hc.
  - apply andb_true_iff in Hc. destruct Hc as [Hne Hnone].
    apply negb_true_iff in Hne. apply String.eqb_neq in Hne.
    apply negb_true_iff in Hnone. apply bool_decide_eq_false in Hnone.
    assert (Hm : peerConnections s !! id = None).
    { destruct (peerConnections s !! id) eqn:E; [exfalso; apply Hnone; eauto | reflexivity]. }
    set (s0 := setPeers (add_peer id (p_displayName participant)) s).
    assert (Hm0 : peerConnections s0 !! id = None) by exact Hm.
    constructor.
    + rewrite (cr_user _ _ Hcreate). reflexivity.
    + apply (cr_length _ _ Hcreate id roomId true s0 Hm0).
    + intros h Hh. apply (cr_store _ _ Hcreate id roomId true s0 h Hm0 Hh).
    + intros id' h Hs.
      rewrite (cr_others _ _ Hcreate id roomId true s0 id' Hm0) by congruence. exact Hs.
    + intros id' h Hn Hs. destruct (decide (id' = id)) as [-> | Hd].
      * destruct (cr_new _ _ Hcreate id roomId true s0 h Hm0 Hs) as (-> & Hpc).
        split; [left; reflexivity |]. split; [exact Hne |]. split; [apply Nat.le_refl |].
        exact Hpc.
      * rewrite (cr_others _ _ Hcreate id roomId true s0 id' Hm0 Hd) in Hs.
        change (peerConnections s !! id' = Some h) in Hs. congruence.
    + intros x. unfold peer_ids. rewrite (cr_peers _ _ Hcreate). simpl.
      rewrite add_peer_ids. split.
      * intros [H | ->]; auto.
      * intros [H | ([<- | []] & _ & _)]; auto.
    + intros id' Hok Hu Hr [<- | []] _ _.
      apply (cr_succeeds _ _ Hcreate id roomId true s0 Hok Hu Hr Hm0).
  - apply added_by_none. intros id' [<- | []] Hne Hn.
    apply andb_false_iff in Hc. destruct Hc as [Hc | Hc].
    + apply negb_false_iff in Hc. apply String.eqb_eq in Hc. contradiction.
    + apply negb_false_iff in Hc. apply bool_decide_eq_true in Hc.
      rewrite Hn in Hc. destruct Hc as [? ?]. discriminate.
Qed.

Lemma add_new_peers_added (participants : list (string * Participant)) (s : State) :
  added_by ok uid roomId (keys participants) s
    (fold_left (add_new_peer create uid roomId) participants s).
Proof.
  revert s. induction participants as [| entry rest IH]; intros s; simpl.
  - apply added_by_none. intros id [].
  - change (fst entry :: keys rest) with ([fst entry] ++ keys rest).
    eapply added_by_app; [apply add_new_peer_added | apply IH].
Qed.

End Reconciler.

Lemma closed_at_close (s : State) (h h' : nat) :
  closed_at s h' -> closed_at (close_pc h s) h'.
Proof.
  intros (pc & Hpc & Hl). unfold closed_at. simpl.
  destruct (decide (h = h')) as [-> | Hne].
  - rewrite list_lookup_alter_eq, Hpc. simpl. eexists. split; reflexivity.
  - rewrite list_lookup_alter_ne by exact Hne. eauto.
Qed.

Lemma close_pc_closes (s : State) (h : nat) :
  h < length (heap s) -> closed_at (close_pc h s) h.
Proof.
  intros Hlt. apply lookup_lt_is_Some in Hlt. destruct Hlt as [pc Hpc].
  unfold closed_at. simpl. rewrite list_lookup_alter_eq, Hpc. simpl.
  eexists. split; reflexivity.
Qed.

Section Leavers.
Variable participants : list (string * Participant).

Lemma closed_by_none (ks : list string) (s : State) :
  (forall id, In id ks -> ~ In id (keys participants) -> peerConnections s !! id = None) ->
  closed_by (keys participants) ks s s.
Proof.
  intros Hno. constructor; auto.
  intros id h Hs Hn. congruence.
Qed.

Lemma closed_by_app (ks1 ks2 : list string) (s m s3 : State) :
  closed_by (keys participants) ks1 s m -> closed_by (keys participants) ks2 m s3 ->
  closed_by (keys participants) (ks1 ++ ks2) s s3.
Proof.
  intros A B. constructor.
  - rewrite (cb_peers _ _ _ _ B). apply (cb_peers _ _ _ _ A).
  - rewrite (cb_user _ _ _ _ B). apply (cb_user _ _ _ _ A).
  - rewrite (cb_length _ _ _ _ B). apply (cb_length _ _ _ _ A).
  - intros id h Hs. apply (cb_only_deleted _ _ _ _ A). apply (cb_only_deleted _ _ _ _ B).
    exact Hs.
  - intros id Hin. rewrite (cb_roster_kept _ _ _ _ B) by exact Hin.
    apply (cb_roster_kept _ _ _ _ A). exact Hin.
  - intros id Hin Hout. apply in_app_or in Hin. destruct Hin as [Hin | Hin].
    + destruct (peerConnections s3 !! id) as [h |] eqn:E; [| reflexivity].
      apply (cb_only_deleted _ _ _ _ B) in E.
      rewrite (cb_left_deleted _ _ _ _ A id Hin Hout) in E. discriminate.
    + apply (cb_left_deleted _ _ _ _ B id Hin Hout).
  - intros id h Hs Hn Hlt. destruct (peerConnections m !! id) as [h' |] eqn:E.
    + pose proof (cb_only_deleted _ _ _ _ A _ _ E) as Hk.
      assert (h' = h) by congruence. subst h'.
      apply (cb_deleted_closed _ _ _ _ B id h E Hn).
      rewrite (cb_length _ _ _ _ A). exact Hlt.
    + apply (cb_closed_stays _ _ _ _ B). apply (cb_deleted_closed _ _ _ _ A id h Hs E Hlt).
  - intros h Hc. apply (cb_closed_stays _ _ _ _ B). apply (cb_closed_stays _ _ _ _ A).
    exact Hc.
  - intros h Hall. rewrite (cb_untouched _ _ _ _ B).
    + apply (cb_untouched _ _ _ _ A). exact Hall.
    + intros id Hs. apply Hall. apply (cb_only_deleted _ _ _ _ A). exact Hs.
Qed.

Lemma close_if_left_closed (s : State) (id : string) :
  closed_by (keys participants) [id] s (close_if_left participants s id).
Proof.
  unfold close_if_left. destruct (includes_key id participants) eqn:Hk; simpl.
  - apply includes_key_In in Hk. apply closed_by_none.
    intros id' [<- | []] Hout. contradiction.
  - assert (Hout : ~ In id (keys participants)).
    { intros Hin. apply includes_key_In in Hin. congruence. }
    destruct (peerConnections s !! id) as [h |] eqn:Hm.
    + constructor; simpl.
      * reflexivity.
      * reflexivity.
      * apply length_alter.
      * intros id' h' Hs. apply lookup_delete_Some in Hs. tauto.
      * intros id' Hin. apply lookup_delete_ne. intros ->. contradiction.
      * intros id' [<- | []] _. apply lookup_delete_eq.
      * intros id' h' Hs Hn Hlt. apply lookup_delete_None in Hn.
        destruct Hn as [<- | Hn]; [| congruence].
        assert (h' = h) by congruence. subst h'.
        apply (close_pc_closes s h Hlt).
      * intros h' Hc. apply (closed_at_close s h h' Hc).
      * intros h' Hall. apply list_lookup_alter_ne. intros ->.
        apply Hout. apply Hall. exact Hm.
    + apply closed_by_none. intros id' [<- | []] _. exact Hm.
Qed.

Lemma close_those_that_left (ks : list string) (s : State) :
  closed_by (keys participants) ks s (fold_left (close_if_left participants) ks s).
Proof.
  revert s. induction ks as [| id rest IH]; intros s; simpl.
  - apply closed_by_none. intros id [].
  - change (id :: rest) with ([id] ++ rest).
    eapply closed_by_app; [apply close_if_left_closed | apply IH].
Qed.

End Leavers.

(** The two loops and the filter between them, put together: [s1] is the
    state after the first loop, [s2] after the filter, [s3] at the end. *)
Section Phases.
Variable ok : Prop.
Variables uid roomId : string.
Variable participants : list (string * Participant).
Variable ks : list string.
Variables s s1 s2 s3 : State.
Hypothesis Hvalid : handles_valid s = true.
Hypothesis A : added_by ok uid roomId (keys participants) s s1.
Hypothesis Hpeers2 :
  peers s2 = List.filter (fun peer => includes_key (peer_id peer) participants) (peers s1).
Hypothesis Hmap2 : peerConnections s2 = peerConnections s1.
Hypothesis Hheap2 : heap s2 = heap s1.
Hypothesis Huser2 : user s2 = user s1.
Hypothesis B : closed_by (keys participants) ks s2 s3.
Hypothesis Hks : forall id h, peerConnections s2 !! id = Some h -> In id ks.

Lemma phases_user : user s3 = user s.
Proof. rewrite (cb_user _ _ _ _ B), Huser2. apply (ab_user _ _ _ _ _ _ A). Qed.

Lemma phases_origin (id : string) (h : nat) :
  peerConnections s3 !! id = Some h ->
  peerConnections s1 !! id = Some h
  /\ (peerConnections s !! id = Some h \/ peerConnections s !! id = None).
Proof.
  intros H3. apply (cb_only_deleted _ _ _ _ B) in H3. rewrite Hmap2 in H3.
  split; [exact H3 |].
  destruct (peerConnections s !! id) as [h' |] eqn:E; [| auto].
  left. pose proof (ab_kept _ _ _ _ _ _ A _ _ E). congruence.
Qed.

Lemma phases_valid : handles_valid s3 = true.
Proof.
  apply handles_valid_spec. intros id h H3.
  destruct (phases_origin id h H3) as [H1 [H0 | H0]].
  - rewrite (cb_length _ _ _ _ B), Hheap2.
    pose proof (proj1 (handles_valid_spec s) Hvalid id h H0).
    pose proof (ab_length _ _ _ _ _ _ A). lia.
  - destruct (ab_new _ _ _ _ _ _ A _ _ H0 H1) as (_ & _ & _ & pc & Hpc & _).
    rewrite (cb_length _ _ _ _ B), Hheap2. eapply lookup_lt_Some. exact Hpc.
Qed.

Lemma phases_peers (id : string) :
  In id (peer_ids s3)
  <-> In id (keys participants)
      /\ (In id (peer_ids s) \/ (id <> uid /\ peerConnections s !! id = None)).
Proof.
  unfold peer_ids at 1. rewrite (cb_peers _ _ _ _ B), Hpeers2, filter_peer_ids.
  fold (peer_ids s1). rewrite (ab_peers _ _ _ _ _ _ A). tauto.
Qed.

Lemma phases_kept (id : string) (h : nat) :
  In id (keys participants) -> peerConnections s !! id = Some h ->
  peerConnections s3 !! id = Some h.
Proof.
  intros Hin H0. rewrite (cb_roster_kept _ _ _ _ B) by exact Hin. rewrite Hmap2.
  apply (ab_kept _ _ _ _ _ _ A). exact H0.
Qed.

Lemma phases_added (id : string) :
  ok -> is_Some (user s) -> truthy roomId = true ->
  In id (keys participants) -> id <> uid -> peerConnections s !! id = None ->
  connection_to true s3 id.
Proof.
  intros Hok Hu Hr Hin Hne H0.
  destruct (ab_succeeds _ _ _ _ _ _ A id Hok Hu Hr Hin Hne H0) as [h H1].
  destruct (ab_new _ _ _ _ _ _ A _ _ H0 H1) as (_ & _ & Hle & pc & Hpc & Hp & Hi & Hl).
  exists h, pc. split.
  - rewrite (cb_roster_kept _ _ _ _ B) by exact Hin. rewrite Hmap2. exact H1.
  - split; [| auto]. rewrite (cb_untouched _ _ _ _ B).
    + rewrite Hheap2. exact Hpc.
    + intros id' H2. rewrite Hmap2 in H2.
      destruct (peerConnections s !! id') as [h' |] eqn:E.
      * pose proof (ab_kept _ _ _ _ _ _ A _ _ E) as Hk.
        assert (h' = h) by congruence. subst h'.
        pose proof (proj1 (handles_valid_spec s) Hvalid id' h E). lia.
      * destruct (ab_new _ _ _ _ _ _ A _ _ E H2) as (Hin' & _). exact Hin'.
Qed.

Lemma phases_removed (id : string) :
  ~ In id (keys participants) ->
  peerConnections s3 !! id = None
  /\ forall h, peerConnections s !! id = Some h -> closed_at s3 h.
Proof.
  intros Hout.
  assert (H3 : peerConnections s3 !! id = None).
  { destruct (peerConnections s2 !! id) as [h |] eqn:E.
    - apply (cb_left_deleted _ _ _ _ B); [eapply Hks; exact E | exact Hout].
    - destruct (peerConnections s3 !! id) as [h |] eqn:E3; [| reflexivity].
      apply (cb_only_deleted _ _ _ _ B) in E3. congruence. }
  split; [exact H3 |]. intros h H0.
  apply (cb_deleted_closed _ _ _ _ B id h).
  - rewrite Hmap2. apply (ab_kept _ _ _ _ _ _ A). exact H0.
  - exact H3.
  - rewrite Hheap2. pose proof (proj1 (handles_valid_spec s) Hvalid id h H0).
    pose proof (ab_length _ _ _ _ _ _ A). lia.
Qed.

Lemma phases_converge :
  every_connection_has_peer uid s = true ->
  every_connection_has_peer uid s3 = true
  /\ forall id, In id (peer_ids s3) <-> In id (keys participants) /\ id <> uid.
Proof.
  intros Hinv. apply every_connection_has_peer_spec in Hinv. destruct Hinv as [Hself Hall].
  assert (Heq : forall id, In id (peer_ids s3) <-> In id (keys participants) /\ id <> uid).
  { intros id. rewrite phases_peers. split.
    - intros [Hin [Hp | [Hne _]]]; [| auto]. split; [exact Hin |]. intros ->. contradiction.
    - intros [Hin Hne]. split; [exact Hin |].
      destruct (peerConnections s !! id) as [h |] eqn:E; [| auto].
      left. eapply Hall. exact E. }
  split; [| exact Heq]. apply every_connection_has_peer_spec. split.
  - intros Hin. apply Heq in Hin. destruct Hin as [_ Hne]. congruence.
  - intros id h H3. apply Heq.
    assert (Hin : In id (keys participants)).
    { destruct (in_dec string_dec id (keys participants)) as [Hin | Hout]; [exact Hin |].
      destruct (phases_removed id Hout) as [Hn _]. congruence. }
    split; [exact Hin |].
    destruct (phases_origin id h H3) as [H1 [H0 | H0]].
    + intros ->. apply Hself. eapply Hall. exact H0.
    + destruct (ab_new _ _ _ _ _ _ A _ _ H0 H1) as (_ & Hne & _). exact Hne.
Qed.

End Phases.

Lemma reconcile_phases (ok : Prop)
    (create : string -> string -> bool -> State -> option nat * State)
    (uid roomId : string) (participants : list (string * Participant)) (s : State) :
  creates_at_most_one ok create ->
  exists ks s1 s2,
    added_by ok uid roomId (keys participants) s s1
    /\ peers s2 = List.filter (fun peer => includes_key (peer_id peer) participants) (peers s1)
    /\ peerConnections s2 = peerConnections s1
    /\ heap s2 = heap s1
    /\ user s2 = user s1
    /\ closed_by (keys participants) ks s2 (reconcile create uid roomId participants s)
    /\ forall id h, peerConnections s2 !! id = Some h -> In id ks.
Proof.
  intros Hcreate. unfold reconcile.
  set (s1 := fold_left (add_new_peer create uid roomId) participants s).
  set (s2 := setPeers (List.filter (fun peer => includes_key (peer_id peer) participants)) s1).
  exists (List.map fst (map_to_list (peerConnections s2))), s1, s2.
  split; [apply add_new_peers_added; exact Hcreate |].
  split; [reflexivity |]. split; [reflexivity |]. split; [reflexivity |].
  split; [reflexivity |]. split; [apply close_those_that_left |].
  intros id h Hm. apply in_map_iff. exists (id, h). split; [reflexivity |].
  apply list_elem_of_In. apply elem_of_map_to_list. exact Hm.
Qed.

Lemma entered_frame (id roomId : string) (initiator : bool) (s s' : State) :
  entered id roomId initiator s s' ->
  (forall id', id' <> id -> peerConnections s' !! id' = peerConnections s !! id')
  /\ (forall h, h < length (heap s) -> heap s' !! h = heap s !! h)
  /\ length (heap s) <= length (heap s')
  /\ peerConnections s' !! id = Some (length (heap s))
  /\ exists pc, heap s' !! length (heap s) = Some pc
                /\ pc_peer pc = id /\ pc_initiator pc = initiator /\ RTC.live pc = true.
Proof.
  intros (f & Hm & Hh & Hp & Hi & Hl). rewrite Hm, Hh.
  split; [intros id' Hne; apply lookup_insert_ne; congruence |].
  split.
  { intros h Hlt. rewrite list_lookup_alter_ne by lia. apply lookup_app_l. exact Hlt. }
  split; [rewrite length_alter, length_app; simpl; lia |].
  split; [apply lookup_insert_eq |].
  exists (f (RTC.fresh id roomId initiator true)). split; [| auto].
  rewrite list_lookup_alter_eq, lookup_app_r by lia. rewrite Nat.sub_diag. reflexivity.
Qed.

Lemma add_tracks_live (l : list Track) (id roomId : string) (initiator : bool) :
  RTC.live (Part003.add_tracks l (RTC.fresh id roomId initiator true)) = true.
Proof.
  unfold RTC.live. destruct (add_tracks_keeps l (RTC.fresh id roomId initiator true)) as (H & _).
  rewrite H. reflexivity.
Qed.

Lemma entered_with_tracks (l : list Track) (id roomId : string) (initiator : bool)
    (s s' : State) :
  peerConnections s' = <[id := length (heap s)]> (peerConnections s) ->
  heap s' = alter (Part003.add_tracks l) (length (heap s))
              (heap s ++ [RTC.fresh id roomId initiator true]) ->
  entered id roomId initiator s s'.
Proof.
  intros Hm Hh. exists (Part003.add_tracks l). split; [exact Hm |]. split; [exact Hh |].
  destruct (add_tracks_keeps l (RTC.fresh id roomId initiator true)) as (_ & Hp & Hi).
  split; [exact Hp |]. split; [exact Hi | apply add_tracks_live].
Qed.

Lemma entered_without_tracks (id roomId : string) (initiator : bool) (s s' : State) :
  peerConnections s' = <[id := length (heap s)]> (peerConnections s) ->
  heap s' = heap s ++ [RTC.fresh id roomId initiator true] ->
  entered id roomId initiator s s'.
Proof.
  intros Hm Hh. exists (fun pc => pc). split; [exact Hm |].
  split; [rewrite Hh; symmetry; apply alter_id_list |]. auto.
Qed.

(** Without a connection for [peerId] in the map, part_003 enters a new
    one unless there is no user, no room id, or the constructor throws. *)
Lemma createPeerConnection003_enters (env : Env) (peerId roomId : string) (initiator : bool)
    (s : State) :
  peerConnections s !! peerId = None ->
  let s' := snd (Part003.createPeerConnection env peerId roomId initiator s) in
  entered peerId roomId initiator s s'
  \/ (peerConnections s' = peerConnections s /\ heap s' = heap s
      /\ (user s = None \/ truthy roomId = false \/ constructorThrows env = true)).
Proof.
  intros Hm. unfold Part003.createPeerConnection.
  destruct (user s); [| right; auto].
  destruct (truthy roomId); simpl; [| right; auto].
  rewrite Hm. destruct (constructorThrows env); simpl; [right; auto |]. left.
  match goal with
  | |- context [if ?b then _ else _] => destruct b; simpl
  end.
  - eapply entered_with_tracks; reflexivity.
  - match goal with
    | |- context [Part003.initLocalStream ?e ?v ?a ?s2] =>
        destruct (initLocalStream003_shape e v a s2) as (m1 & e1 & c1 & Hs);
        destruct (Part003.initLocalStream e v a s2) as [[stream |] s3];
        simpl in Hs; subst s3; simpl
    end.
    + eapply entered_with_tracks; reflexivity.
    + eapply entered_without_tracks; reflexivity.
Qed.

Lemma createPeerConnectionContexts_enters (env : Env) (peerId roomId : string)
    (initiator : bool) (s : State) :
  peerConnections s !! peerId = None ->
  let s' := snd (Contexts.createPeerConnection env peerId roomId initiator s) in
  entered peerId roomId initiator s s'
  \/ (peerConnections s' = peerConnections s /\ heap s' = heap s
      /\ (user s = None \/ truthy roomId = false)).
Proof.
  intros Hm. unfold Contexts.createPeerConnection.
  destruct (user s); [| right; auto].
  destruct (truthy roomId); simpl; [| right; auto].
  rewrite Hm. left.
  destruct (localStream (media s)); simpl.
  - eapply entered_with_tracks; reflexivity.
  - match goal with
    | |- context [Contexts.initLocalStream ?e ?v ?a ?s2] =>
        destruct (initLocalStreamContexts_shape e v a s2) as (m1 & e1 & c1 & Hs);
        destruct (Contexts.initLocalStream e v a s2) as [[stream |] s3];
        simpl in Hs; subst s3; simpl
    end.
    + eapply entered_with_tracks; reflexivity.
    + eapply entered_without_tracks; reflexivity.
Qed.

Lemma creates_from_enters (ok : Prop)
    (create : string -> string -> bool -> State -> option nat * State) :
  (forall id r i s, peers (snd (create id r i s)) = peers s
                    /\ user (snd (create id r i s)) = user s) ->
  (forall id r i s,
     peerConnections s !! id = None ->
     entered id r i s (snd (create id r i s))
     \/ (peerConnections (snd (create id r i s)) = peerConnections s
         /\ heap (snd (create id r i s)) = heap s
         /\ (user s = None \/ truthy r = false \/ ~ ok))) ->
  creates_at_most_one ok create.
Proof.
  intros Hshape Henters. constructor.
  - intros id r i s. apply Hshape.
  - intros id r i s. apply Hshape.
  - intros id r i s id' Hm Hne. destruct (Henters id r i s Hm) as [He | (Hp & _)].
    + apply entered_frame in He. destruct He as (H & _). apply H. exact Hne.
    + rewrite Hp. reflexivity.
  - intros id r i s h Hm Hlt. destruct (Henters id r i s Hm) as [He | (_ & Hh & _)].
    + apply entered_frame in He. destruct He as (_ & H & _). apply H. exact Hlt.
    + rewrite Hh. reflexivity.
  - intros id r i s Hm. destruct (Henters id r i s Hm) as [He | (_ & Hh & _)].
    + apply entered_frame in He. destruct He as (_ & _ & H & _). exact H.
    + rewrite Hh. apply Nat.le_refl.
  - intros id r i s h Hm Hs. destruct (Henters id r i s Hm) as [He | (Hp & _)].
    + apply entered_frame in He. destruct He as (_ & _ & _ & Hn & Hpc).
      assert (h = length (heap s)) by congruence. subst h. split; [reflexivity | exact Hpc].
    + rewrite Hp in Hs. congruence.
  - intros id r i s Hok [u Hu] Hr Hm.
    destruct (Henters id r i s Hm) as [He | (_ & _ & [Hn | [Hn | Hn]])].
    + apply entered_frame in He. destruct He as (_ & _ & _ & Hn & _). eauto.
    + congruence.
    + congruence.
    + contradiction.
Qed.

Lemma createPeerConnection003_creates (env : Env) :
  creates_at_most_one (constructorThrows env = false) (Part003.createPeerConnection env).
Proof.
  apply creates_from_enters.
  - intros id r i s.
    destruct (createPeerConnection003_shape env id r i s) as (m & e & j & p & h & c & Hs).
    rewrite Hs. split; reflexivity.
  - intros id r i s Hm.
    destruct (createPeerConnection003_enters env id r i s Hm) as [He | (Hp & Hh & Hwhy)].
    + left. exact He.
    + right. split; [exact Hp |]. split; [exact Hh |].
      destruct Hwhy as [H | [H | H]]; [auto | auto |].
      right. right. intros Hok. congruence.
Qed.

Lemma createPeerConnectionContexts_creates (env : Env) :
  creates_at_most_one (constructorThrows env = false) (Contexts.createPeerConnection env).
Proof.
  apply creates_from_enters.
  - intros id r i s.
    destruct (createPeerConnectionContexts_shape env id r i s)
      as (m & e & j & p & h & c & Hs).
    rewrite Hs. split; reflexivity.
  - intros id r i s Hm.
    destruct (createPeerConnectionContexts_enters env id r i s Hm) as [He | (Hp & Hh & Hwhy)].
    + left. exact He.
    + right. split; [exact Hp |]. split; [exact Hh |]. tauto.
Qed.

Lemma provider_creates (P : Provider) (env : Env) :
  P = part003 \/ P = contexts ->
  creates_at_most_one (constructorThrows env = false) (prov_createPeerConnection P env).
Proof.
  intros [-> | ->]; simpl.
  - apply createPeerConnection003_creates.
  - apply createPeerConnectionContexts_creates.
Qed.

Section Snapshots.
Variable ok : Prop.
Variable create : string -> string -> bool -> State -> option nat * State.
Hypothesis Hcreate : creates_at_most_one ok create.
Variable roomId : string.
Variable u : User.

Lemma onParticipants_absent (s : State) : onParticipants create roomId None s = s.
Proof. reflexivity. Qed.

Lemma onParticipants_existing (participants : list (string * Participant)) (s : State) :
  user s = Some u ->
  onParticipants create roomId (Some participants) s
  = reconcile create (uid u) roomId participants s.
Proof. intros Hu. unfold onParticipants. rewrite Hu. reflexivity. Qed.

(** After any sequence of snapshots the peers are the last roster that
    existed, less self; [acc] is the roster the peers follow so far. *)
Lemma snapshots_converge (snapshots : list (option (list (string * Participant))))
    (s : State) (acc : option (list (string * Participant))) :
  user s = Some u -> handles_valid s = true ->
  every_connection_has_peer (uid u) s = true ->
  (forall last, acc = Some last ->
     forall id, In id (peer_ids s) <-> In id (keys last) /\ id <> uid u) ->
  let s' := deliver_participants create roomId snapshots s in
  every_connection_has_peer (uid u) s' = true
  /\ forall last,
       fold_left (fun acc o => match o with Some x => Some x | None => acc end) snapshots acc
       = Some last ->
       forall id, In id (peer_ids s') <-> In id (keys last) /\ id <> uid u.
Proof.
  revert s acc. induction snapshots as [| o rest IH]; intros s acc Hu Hv Hinv Hacc; simpl.
  - split; [exact Hinv | exact Hacc].
  - destruct o as [participants |].
    + rewrite (onParticipants_existing participants s Hu).
      destruct (reconcile_phases ok create (uid u) roomId participants s Hcreate)
        as (ks & s1 & s2 & A & Hp2 & Hm2 & Hh2 & Hu2 & B & Hks).
      destruct (phases_converge ok (uid u) roomId participants ks s s1 s2 _
                  Hv A Hp2 Hm2 Hh2 B Hks Hinv) as [Hinv' Heq].
      apply (IH _ (Some participants)).
      * rewrite (phases_user ok (uid u) roomId participants ks s s1 s2 _ A Hu2 B). exact Hu.
      * apply (phases_valid ok (uid u) roomId participants ks s s1 s2 _ Hv A Hm2 Hh2 B).
      * exact Hinv'.
      * intros last Hl. injection Hl as <-. exact Heq.
    + apply (IH s acc Hu Hv Hinv Hacc).
Qed.

End Snapshots.

(** A snapshot that does not exist, as the relay delivers when the last
    participant has gone, is skipped by the guard of the listener: bob,
    known and absent from it, keeps his Peer record and his open
    connection.  And a connection made by the offers listener counts as
    known although it has no Peer record, so the roster that follows
    adds no Peer for bob. *)
Lemma absent_snapshot_leaves_peers :
  let create := Part003.createPeerConnection (Example.env_of "alice") in
  let roster := [("alice", Example.person "alice"); ("bob", Example.person "bob")] in
  let joined := onParticipants create "r1" (Some roster) (Example.in_room_r1 "alice") in
  let left := onParticipants create "r1" (snapshot_of []) joined in
  let w0 := {| client := Example.in_room_r1 "alice"; relay := Example.offer_from_bob |} in
  let offered :=
    client (snd (Part003.onOffers (Example.env_of "alice") "r1" (Example.offers_snapshot w0)
                   w0)) in
  let answering := onParticipants create "r1" (Some roster) offered in
  peer_ids joined = ["bob"]
  /\ peer_ids left = ["bob"]
  /\ live_connections_to left "bob" = [0]
  /\ peerConnections left !! "bob" = Some 0
  /\ onParticipants (Contexts.createPeerConnection (Example.env_of "alice")) "r1"
       (snapshot_of []) joined = joined
  /\ peerConnections offered !! "bob" = Some 0
  /\ peer_ids offered = []
  /\ peer_ids answering = [].
Proof. vm_compute. repeat split; reflexivity. Qed.

(** What the participants listener does do.  For a snapshot that exists,
    delivered to a signed-in client whose map holds handles of its store,
    the listener of either copy: leaves the user and the validity of the
    map as they are; gives
    a Peer record to each roster id that is not self and has no
    connection in the map, and, when there is a room id and the
    constructor does not throw, an open connection as initiator; keeps
    the map entry of a roster id that has one; for each id absent from
    the roster, drops the Peer, removes the map entry and closes the
    connection it held; so that the Peers are the roster ids that were
    Peers or that are not self and had no connection.  A snapshot that
    does not exist changes nothing.  If every connection in the map has
    a Peer record and self has none, then after any sequence of
    snapshots the Peers are the roster of the last one that exists, less
    self. *)
Lemma reconciler_follows_existing_snapshots
    (P : Provider) (env : Env) (roomId : string) (u : User) (s : State)
    (participants : list (string * Participant)) :
  P = part003 \/ P = contexts ->
  user s = Some u ->
  handles_valid s = true ->
  let create := prov_createPeerConnection P env in
  let s' := onParticipants create roomId (Some participants) s in
  onParticipants create roomId None s = s
  /\ user s' = Some u
  /\ handles_valid s' = true
  /\ (forall id, In id (keys participants) -> id <> uid u ->
        peerConnections s !! id = None ->
        In id (peer_ids s')
        /\ (truthy roomId = true -> constructorThrows env = false ->
            connection_to true s' id))
  /\ (forall id h, In id (keys participants) -> peerConnections s !! id = Some h ->
        peerConnections s' !! id = Some h)
  /\ (forall id, ~ In id (keys participants) ->
        ~ In id (peer_ids s') /\ peerConnections s' !! id = None
        /\ forall h, peerConnections s !! id = Some h -> closed_at s' h)
  /\ (forall id, In id (peer_ids s')
                 <-> In id (keys participants)
                     /\ (In id (peer_ids s)
                         \/ (id <> uid u /\ peerConnections s !! id = None)))
  /\ (every_connection_has_peer (uid u) s = true ->
      forall snapshots last,
        last_existing snapshots = Some last ->
        every_connection_has_peer (uid u)
          (deliver_participants create roomId snapshots s) = true
        /\ forall id, In id (peer_ids (deliver_participants create roomId snapshots s))
                      <-> In id (keys last) /\ id <> uid u).
Proof.
  intros HP Hu Hv create s'.
  pose proof (provider_creates P env HP) as Hcreate. fold create in Hcreate.
  split; [reflexivity |].
  unfold s'. rewrite (onParticipants_existing create roomId u participants s Hu).
  destruct (reconcile_phases _ create (uid u) roomId participants s Hcreate)
    as (ks & s1 & s2 & A & Hp2 & Hm2 & Hh2 & Hu2 & B & Hks).
  set (s3 := reconcile create (uid u) roomId participants s) in *.
  pose proof (phases_peers _ (uid u) roomId participants ks s s1 s2 s3 A Hp2 B) as Hpeers.
  split.
  { rewrite (phases_user _ (uid u) roomId participants ks s s1 s2 s3 A Hu2 B). exact Hu. }
  split.
  { apply (phases_valid _ (uid u) roomId participants ks s s1 s2 s3 Hv A Hm2 Hh2 B). }
  split.
  { intros id Hin Hne Hn. split.
    - apply Hpeers. auto.
    - intros Hr Hok.
      apply (phases_added _ (uid u) roomId participants ks s s1 s2 s3 Hv A Hm2 Hh2 B id);
        eauto. }
  split.
  { intros id h Hin Hs.
    apply (phases_kept _ (uid u) roomId participants ks s s1 s2 s3 A Hm2 B id h Hin Hs). }
  split.
  { intros id Hout. split.
    - intros Hin. apply Hpeers in Hin. tauto.
    - apply (phases_removed _ (uid u) roomId participants ks s s1 s2 s3 Hv A Hm2 Hh2 B Hks
               id Hout). }
  split; [exact Hpeers |].
  intros Hinv snapshots last Hlast.
  destruct (snapshots_converge _ create Hcreate roomId u snapshots s None Hu Hv Hinv)
    as [Hinv' Heq].
  - intros ? Hnone. discriminate.
  - split; [exact Hinv' |]. apply Heq. exact Hlast.
Qed.

Lemma reconciler_follows_existing_snapshots_example :
  let create := Part003.createPeerConnection (Example.env_of "alice") in
  let roster := [("alice", Example.person "alice"); ("bob", Example.person "bob")] in
  let s' := onParticipants create "r1" (Some roster) (Example.in_room_r1 "alice") in
  In "bob" (peer_ids s')
  /\ connection_to true s' "bob"
  /\ ~ In "carol" (peer_ids s')
  /\ forall id,
       In id (peer_ids (deliver_participants create "r1"
                          [Some roster; None;
                           Some [("alice", Example.person "alice");
                                 ("carol", Example.person "carol")]; None]
                          (Example.in_room_r1 "alice")))
       <-> In id ["alice"; "carol"] /\ id <> "alice".
Proof.
  intros create roster s'.
  destruct (reconciler_follows_existing_snapshots part003 (Example.env_of "alice") "r1"
              Example.alice_user (Example.in_room_r1 "alice") roster)
    as (_ & _ & _ & Hadd & _ & Hrem & _ & Hseq).
  - left. reflexivity.
  - reflexivity.
  - reflexivity.
  - destruct (Hadd "bob") as [Hin Hconn].
    + simpl. auto.
    + simpl. discriminate.
    + reflexivity.
    + split; [exact Hin |]. split; [apply Hconn; reflexivity |].
      split.
      * apply Hrem. simpl. intros [H | [H | []]]; discriminate.
      * exact (proj2 (Hseq eq_refl
                        [Some roster; None;
                         Some [("alice", Example.person "alice");
                               ("carol", Example.person "carol")]; None]
                        [("alice", Example.person "alice"); ("carol", Example.person "carol")]
                        eq_refl)).
Defined.
(** ** Cleaning up signalling data *)

Section ChildFacts.
Context {A : Type}.

Lemma child_remove_child (k k' : string) (l : list (string * A)) :
  child k (remove_child k' l) = if decide (k = k') then None else child k l.
Proof.
  induction l as [| [k0 v] l IH]; simpl.
  - destruct (decide (k = k')); reflexivity.
  - destruct (decide (k' = k0)) as [-> | Hne]; simpl.
    + rewrite IH. destruct (decide (k = k0)); reflexivity.
    + destruct (decide (k = k0)) as [-> | Hne'].
      * destruct (decide (k0 = k')); [congruence | reflexivity].
      * exact IH.
Qed.

Lemma child_set_child (k k' : string) (v : A) (l : list (string * A)) :
  child k (set_child k' v l) = if decide (k = k') then Some v else child k l.
Proof.
  induction l as [| [k0 v0] l IH]; simpl.
  - destruct (decide (k = k')); reflexivity.
  - destruct (decide (k' = k0)) as [-> | Hne]; simpl.
    + destruct (decide (k = k0)); reflexivity.
    + destruct (decide (k = k0)) as [-> | Hne'].
      * destruct (decide (k0 = k')); [congruence | reflexivity].
      * exact IH.
Qed.

Lemma child_Some_keys (k : string) (v : A) (l : list (string * A)) :
  child k l = Some v -> In k (keys l).
Proof.
  induction l as [| [k0 v0] l IH]; simpl; [discriminate |].
  destruct (decide (k = k0)) as [-> | Hne]; auto.
Qed.

Lemma child_nil_any (k : string) (l : list (string * A)) :
  l = [] -> child k l = None.
Proof. intros ->. reflexivity. Qed.
End ChildFacts.

Lemma child_remove_grandchild {A : Type} (k s t : string)
    (l : list (string * list (string * A))) :
  child k (remove_grandchild s t l)
  = if decide (k = s) then
      match child s l with
      | None => None
      | Some sub => match remove_child t sub with [] => None | sub' => Some sub' end
      end
    else child k l.
Proof.
  unfold remove_grandchild. destruct (child s l) as [sub |] eqn:Hs.
  - destruct (remove_child t sub) as [| x sub'] eqn:Hr.
    + rewrite child_remove_child. reflexivity.
    + rewrite child_set_child. reflexivity.
  - destruct (decide (k = s)) as [-> | Hne]; [exact Hs | reflexivity].
Qed.

(** A message to [t] is gone once [remove_grandchild s t] has run, and
    the other messages of [s] and the messages of the other senders are
    the ones before. *)
Lemma addressed_remove_grandchild {A : Type} (s t a b : string)
    (l : list (string * list (string * A))) :
  addressed (remove_grandchild s t l) a b
  = if decide (a = s) then if decide (b = t) then None else addressed l a b
    else addressed l a b.
Proof.
  unfold addressed. rewrite child_remove_grandchild.
  destruct (decide (a = s)) as [-> | Hne]; [| reflexivity].
  destruct (child s l) as [sub |] eqn:Hs.
  - transitivity (child b (remove_child t sub)).
    + destruct (remove_child t sub); reflexivity.
    + rewrite child_remove_child. destruct (decide (b = t)); reflexivity.
  - destruct (decide (b = t)); reflexivity.
Qed.

Lemma addressed_remove_child {A : Type} (s a b : string)
    (l : list (string * list (string * A))) :
  addressed (remove_child s l) a b = if decide (a = s) then None else addressed l a b.
Proof.
  unfold addressed. rewrite child_remove_child. destruct (decide (a = s)); reflexivity.
Qed.

Section Cleaned.
Context {A : Type}.
Variable userId : string.

Lemma addressed_clean_step (acc : list (string * list (string * A)))
    (entry : string * list (string * A)) (a b : string) :
  addressed (clean_step userId acc entry) a b
  = if decide (a = fst entry /\ b = userId /\ a <> userId) then None else addressed acc a b.
Proof.
  unfold clean_step. destruct (String.eqb (fst entry) userId) eqn:E; simpl.
  - apply String.eqb_eq in E.
    destruct (decide (a = fst entry /\ b = userId /\ a <> userId)) as [(H1 & _ & H3) |];
      [congruence | reflexivity].
  - apply String.eqb_neq in E. rewrite addressed_remove_grandchild.
    destruct (decide (a = fst entry)) as [-> | Hne].
    + destruct (decide (b = userId)) as [-> | Hb].
      * destruct (decide (fst entry = fst entry /\ userId = userId /\ fst entry <> userId));
          [reflexivity | tauto].
      * destruct (decide (fst entry = fst entry /\ b = userId /\ fst entry <> userId));
          [tauto | reflexivity].
    + destruct (decide (a = fst entry /\ b = userId /\ a <> userId)); [tauto | reflexivity].
Qed.

Lemma addressed_fold_clean (entries acc : list (string * list (string * A))) (a b : string) :
  addressed (fold_left (clean_step userId) entries acc) a b
  = if decide (a ∈ keys entries /\ b = userId /\ a <> userId) then None
    else addressed acc a b.
Proof.
  revert acc. induction entries as [| e rest IH]; intros acc; simpl.
  - destruct (decide (a ∈ @nil string /\ b = userId /\ a <> userId)) as [(H & _) |];
      [inversion H | reflexivity].
  - rewrite IH, addressed_clean_step.
    assert (Hcons : a ∈ keys (e :: rest) <-> a = fst e \/ a ∈ keys rest)
      by (unfold keys; simpl; apply elem_of_cons).
    repeat match goal with
           | |- context [decide ?P] => destruct (decide P)
           end; try reflexivity; exfalso; unfold keys in *; simpl in *;
      rewrite ?elem_of_cons in *; intuition congruence.
Qed.

(** Of a cleaned node, what [userId] has sent and what was sent to
    [userId] is gone; the rest is as before. *)
Lemma addressed_cleaned (l : list (string * list (string * A))) (a b : string) :
  addressed (cleaned userId l) a b
  = if decide (a = userId \/ b = userId) then None else addressed l a b.
Proof.
  unfold cleaned. rewrite addressed_fold_clean, addressed_remove_child.
  destruct (decide (a ∈ keys (remove_child userId l) /\ b = userId /\ a <> userId))
    as [H1 | H1].
  - destruct (decide (a = userId \/ b = userId)); [reflexivity | tauto].
  - destruct (decide (a = userId)) as [-> | Ha].
    + destruct (decide (userId = userId \/ b = userId)); [reflexivity | tauto].
    + destruct (decide (a = userId \/ b = userId)) as [[? | ->] | H2];
        [contradiction | | reflexivity].
      unfold addressed. destruct (child a l) as [sub |] eqn:Hc; [| reflexivity].
      exfalso. apply H1. split; [| auto].
      apply list_elem_of_In. apply (child_Some_keys a sub). rewrite child_remove_child.
      destruct (decide (a = userId)); [contradiction | exact Hc].
Qed.
End Cleaned.

Lemma same_but_calls_refl (s : State) : same_but_calls s s.
Proof. unfold same_but_calls. destruct s; reflexivity. Qed.

Lemma same_but_calls_trans (a b c : State) :
  same_but_calls a b -> same_but_calls b c -> same_but_calls a c.
Proof. unfold same_but_calls. intros H1 H2. rewrite H2, H1. reflexivity. Qed.

Lemma same_but_calls_record (c : Call) (s : State) : same_but_calls s (record c s).
Proof. reflexivity. Qed.

Section ReachableRelay.
Variable env : Env.
Hypothesis Hrelay : relayError env = None.

Lemma remove_ok (p : RelayPath) (w : World) :
  remove env p w
  = (Ok tt, {| client := record (CallRemove p) (client w); relay := relay_remove p (relay w) |}).
Proof. unfold remove, relay_call, bind, modify, write_relay. rewrite Hrelay. reflexivity. Qed.

Lemma bind_remove_ok {B} (p : RelayPath) (k : unit -> M B) (w : World) :
  bind (remove env p) k w
  = k tt {| client := record (CallRemove p) (client w); relay := relay_remove p (relay w) |}.
Proof. unfold bind at 1. rewrite remove_ok. reflexivity. Qed.

Lemma bind_relay_get_ok {A B} (f : Relay -> A) (k : A -> M B) (w : World) :
  bind (relay_get env f) k w = k (f (relay w)) w.
Proof. unfold bind, relay_get, read_relay. rewrite Hrelay. reflexivity. Qed.

Variables roomId userId : string.

(** What a loop of removals has done to the node of the room, the other
    rooms and the client. *)
Lemma forEach_remove_offers (entries : list (string * list (string * string))) (w : World) :
  exists w',
    forEach entries (fun '(senderId, _) =>
      if negb (String.eqb senderId userId)
      then remove env (OfferRef roomId senderId userId) else ret tt) w = (Ok tt, w')
    /\ same_but_calls (client w) (client w')
    /\ offers (room (relay w') roomId)
       = fold_left (clean_step userId) entries (offers (room (relay w) roomId))
    /\ answers (room (relay w') roomId) = answers (room (relay w) roomId)
    /\ candidates (room (relay w') roomId) = candidates (room (relay w) roomId)
    /\ forall r, participants (room (relay w') r) = participants (room (relay w) r).
Proof.
  revert w. induction entries as [| [senderId x] rest IH]; intros w; simpl.
  - exists w. split; [reflexivity |]. split; [apply same_but_calls_refl | auto].
  - unfold clean_step at 2. simpl fst.
    destruct (negb (String.eqb senderId userId)).
    + rewrite bind_remove_ok.
      destruct (IH {| client := record (CallRemove (OfferRef roomId senderId userId)) (client w);
                      relay := relay_remove (OfferRef roomId senderId userId) (relay w) |})
        as (w' & Hrun & Hs & Ho & Ha & Hc & Hp).
      exists w'. split; [exact Hrun |]. simpl in *.
      rewrite room_in_room in Ho, Ha, Hc. destruct (decide (roomId = roomId)); [| congruence].
      split; [eapply same_but_calls_trans; [apply same_but_calls_record | exact Hs] |].
      split; [exact Ho |]. split; [exact Ha |]. split; [exact Hc |].
      intros r. rewrite Hp, room_in_room. destruct (decide (roomId = r)); subst; reflexivity.
    + apply IH.
Qed.

Lemma forEach_remove_answers (entries : list (string * list (string * string))) (w : World) :
  exists w',
    forEach entries (fun '(senderId, _) =>
      if negb (String.eqb senderId userId)
      then remove env (AnswerRef roomId senderId userId) else ret tt) w = (Ok tt, w')
    /\ same_but_calls (client w) (client w')
    /\ answers (room (relay w') roomId)
       = fold_left (clean_step userId) entries (answers (room (relay w) roomId))
    /\ offers (room (relay w') roomId) = offers (room (relay w) roomId)
    /\ candidates (room (relay w') roomId) = candidates (room (relay w) roomId)
    /\ forall r, participants (room (relay w') r) = participants (room (relay w) r).
Proof.
  revert w. induction entries as [| [senderId x] rest IH]; intros w; simpl.
  - exists w. split; [reflexivity |]. split; [apply same_but_calls_refl | auto].
  - unfold clean_step at 2. simpl fst.
    destruct (negb (String.eqb senderId userId)).
    + rewrite bind_remove_ok.
      destruct (IH {| client := record (CallRemove (AnswerRef roomId senderId userId)) (client w);
                      relay := relay_remove (AnswerRef roomId senderId userId) (relay w) |})
        as (w' & Hrun & Hs & Ho & Ha & Hc & Hp).
      exists w'. split; [exact Hrun |]. simpl in *.
      rewrite room_in_room in Ho, Ha, Hc. destruct (decide (roomId = roomId)); [| congruence].
      split; [eapply same_but_calls_trans; [apply same_but_calls_record | exact Hs] |].
      split; [exact Ho |]. split; [exact Ha |]. split; [exact Hc |].
      intros r. rewrite Hp, room_in_room. destruct (decide (roomId = r)); subst; reflexivity.
    + apply IH.
Qed.

Lemma forEach_remove_candidates
    (entries : list (string * list (string * list (nat * string)))) (w : World) :
  exists w',
    forEach entries (fun '(senderId, _) =>
      if negb (String.eqb senderId userId)
      then remove env (CandidatesRef roomId senderId userId) else ret tt) w = (Ok tt, w')
    /\ same_but_calls (client w) (client w')
    /\ candidates (room (relay w') roomId)
       = fold_left (clean_step userId) entries (candidates (room (relay w) roomId))
    /\ offers (room (relay w') roomId) = offers (room (relay w) roomId)
    /\ answers (room (relay w') roomId) = answers (room (relay w) roomId)
    /\ forall r, participants (room (relay w') r) = participants (room (relay w) r).
Proof.
  revert w. induction entries as [| [senderId x] rest IH]; intros w; simpl.
  - exists w. split; [reflexivity |]. split; [apply same_but_calls_refl | auto].
  - unfold clean_step at 2. simpl fst.
    destruct (negb (String.eqb senderId userId)).
    + rewrite bind_remove_ok.
      destruct (IH {| client := record (CallRemove (CandidatesRef roomId senderId userId))
                                  (client w);
                      relay := relay_remove (CandidatesRef roomId senderId userId) (relay w) |})
        as (w' & Hrun & Hs & Ho & Ha & Hc & Hp).
      exists w'. split; [exact Hrun |]. simpl in *.
      rewrite room_in_room in Ho, Ha, Hc. destruct (decide (roomId = roomId)); [| congruence].
      split; [eapply same_but_calls_trans; [apply same_but_calls_record | exact Hs] |].
      split; [exact Ho |]. split; [exact Ha |]. split; [exact Hc |].
      intros r. rewrite Hp, room_in_room. destruct (decide (roomId = r)); subst; reflexivity.
    + apply IH.
Qed.

(** With the relay reachable, [cleanupSignalingData] of part_003 returns
    and leaves each of the three nodes cleaned, the roster and the
    client (but for the log of calls) as they were. *)
Lemma cleanupSignalingData003_runs (w : World) :
  exists w',
    Part003.cleanupSignalingData env roomId userId w = (Ok tt, w')
    /\ same_but_calls (client w) (client w')
    /\ offers (room (relay w') roomId) = cleaned userId (offers (room (relay w) roomId))
    /\ answers (room (relay w') roomId) = cleaned userId (answers (room (relay w) roomId))
    /\ candidates (room (relay w') roomId) = cleaned userId (candidates (room (relay w) roomId))
    /\ forall r, participants (room (relay w') r) = participants (room (relay w) r).
Proof.
  unfold Part003.cleanupSignalingData, try_catch.
  rewrite bind_remove_ok, bind_relay_get_ok.
  match goal with
  | |- context [bind (forEach ?l ?f) ?k ?w0] =>
      destruct (forEach_remove_offers l w0) as (w1 & Hrun1 & Hs1 & Ho1 & Ha1 & Hc1 & Hp1);
      unfold bind at 1; rewrite Hrun1
  end.
  rewrite bind_remove_ok, bind_relay_get_ok.
  match goal with
  | |- context [bind (forEach ?l ?f) ?k ?w0] =>
      destruct (forEach_remove_answers l w0) as (w2 & Hrun2 & Hs2 & Ha2 & Ho2 & Hc2 & Hp2);
      unfold bind at 1; rewrite Hrun2
  end.
  rewrite bind_remove_ok, bind_relay_get_ok.
  match goal with
  | |- context [forEach ?l ?f ?w0] =>
      destruct (forEach_remove_candidates l w0) as (w3 & Hrun3 & Hs3 & Hc3 & Ho3 & Ha3 & Hp3);
      rewrite Hrun3
  end.
  exists w3. split; [reflexivity |].
  simpl in *. rewrite !room_in_room in *.
  destruct (decide (roomId = roomId)); [| congruence]. simpl in *.
  split.
  { eapply same_but_calls_trans; [| exact Hs3].
    eapply same_but_calls_trans; [| apply same_but_calls_record].
    eapply same_but_calls_trans; [| exact Hs2].
    eapply same_but_calls_trans; [| apply same_but_calls_record].
    eapply same_but_calls_trans; [| exact Hs1]. apply same_but_calls_record. }
  split; [rewrite Ho3, Ho2, Ho1; reflexivity |].
  split; [rewrite Ha3, Ha2, Ha1; reflexivity |].
  split; [rewrite Hc3, Hc2, Hc1; reflexivity |].
  intros r.
  repeat first
    [ rewrite Hp3 | rewrite Hp2 | rewrite Hp1 | rewrite room_in_room | progress simpl
    | match goal with
      | |- context [decide (?a = ?b)] => destruct (decide (a = b)); subst
      end ];
    reflexivity.
Qed.

End ReachableRelay.

(** X6.  [cleanupSignalingData(roomId, userId)] of
    part_003, with the relay reachable: afterwards the room holds no
    offer, answer or candidate list sent by [userId] or addressed to
    [userId], and every message between two other participants is the
    one that was there before. *)
Theorem cleanupSignalingData003_clears_the_user
    (env : Env) (roomId userId : string) (w : World) (a b : string) :
  relayError env = None ->
  let n := room (relay w) roomId in
  let n' := room (relay (snd (Part003.cleanupSignalingData env roomId userId w))) roomId in
  (a = userId \/ b = userId ->
   addressed (offers n') a b = None /\ addressed (answers n') a b = None
   /\ addressed (candidates n') a b = None)
  /\ (a <> userId -> b <> userId ->
      addressed (offers n') a b = addressed (offers n) a b
      /\ addressed (answers n') a b = addressed (answers n) a b
      /\ addressed (candidates n') a b = addressed (candidates n) a b).
Proof.
  intros Hrelay n n'.
  destruct (cleanupSignalingData003_runs env Hrelay roomId userId w)
    as (w' & Hrun & _ & Ho & Ha & Hc & _).
  unfold n'. rewrite Hrun. simpl. rewrite Ho, Ha, Hc, !addressed_cleaned.
  destruct (decide (a = userId \/ b = userId)) as [H | H].
  - split; [auto | intros; tauto].
  - split; [intros; tauto | auto].
Qed.

Lemma cleanupSignalingData003_clears_the_user_witness :
  let w := {| client := Example.in_room_r1 "alice"; relay := Example.offer_from_bob |} in
  let n' := room (relay (snd (Part003.cleanupSignalingData (Example.env_of "alice") "r1"
                                "alice" w))) "r1" in
  addressed (offers (room (relay w) "r1")) "bob" "alice" = Some "offer of bob"
  /\ addressed (offers n') "bob" "alice" = None
  /\ addressed (answers n') "bob" "alice" = None
  /\ addressed (candidates n') "bob" "alice" = None.
Proof.
  intros w n'. split; [reflexivity |].
  apply (cleanupSignalingData003_clears_the_user (Example.env_of "alice") "r1" "alice" w
           "bob" "alice").
  - reflexivity.
  - right. reflexivity.
Defined.

(** What [leaveRoom] needs of [cleanupSignalingData]: it returns, and an
    unreachable relay is left as it was. *)
Lemma cleanupSignalingData003_spares_the_relay (env : Env) (roomId userId : string)
    (w : World) :
  let r := Part003.cleanupSignalingData env roomId userId w in
  fst r = Ok tt
  /\ same_but_calls (client w) (client (snd r))
  /\ (relayError env <> None -> relay (snd r) = relay w).
Proof.
  destruct (relayError env) as [e |] eqn:Hrelay.
  - unfold Part003.cleanupSignalingData, try_catch, remove, relay_call, bind, modify. simpl.
    rewrite Hrelay. simpl. repeat split; auto.
  - destruct (cleanupSignalingData003_runs env Hrelay roomId userId w)
      as (w' & Hrun & Hs & _).
    simpl. rewrite Hrun. simpl. repeat split; auto. intros H. contradiction.
Qed.

(** X7.  [cleanupSignalingData] of part_003 never
    throws: it returns also when the relay is unreachable, and then the
    relay is untouched.  Whatever the relay answers, the rosters of all
    rooms and the client, but for its log of calls, are as before. *)
Theorem cleanupSignalingData003_never_throws
    (env : Env) (roomId userId : string) (w : World) :
  let r := Part003.cleanupSignalingData env roomId userId w in
  fst r = Ok tt
  /\ same_but_calls (client w) (client (snd r))
  /\ (forall room_id, participants (room (relay (snd r)) room_id)
                      = participants (room (relay w) room_id))
  /\ (relayError env <> None -> relay (snd r) = relay w).
Proof.
  destruct (relayError env) as [e |] eqn:Hrelay.
  - unfold Part003.cleanupSignalingData, try_catch, remove, relay_call, bind, modify. simpl.
    rewrite Hrelay. simpl. repeat split; auto.
  - destruct (cleanupSignalingData003_runs env Hrelay roomId userId w)
      as (w' & Hrun & Hs & _ & _ & _ & Hp).
    simpl. rewrite Hrun. simpl. repeat split; auto. intros H. contradiction.
Qed.

(** X8.  [cleanupSignalingData] of the copy in
    src/contexts removes what [userId] has sent and nothing else: with
    the relay reachable, a message addressed to [userId] by another
    participant is still there afterwards. *)
Theorem cleanupSignalingDataContexts_keeps_incoming
    (env : Env) (roomId userId : string) (w : World) (a b : string) :
  relayError env = None ->
  let n := room (relay w) roomId in
  let n' := room (relay (snd (Contexts.cleanupSignalingData env roomId userId w))) roomId in
  (a = userId ->
   addressed (offers n') a b = None /\ addressed (answers n') a b = None
   /\ addressed (candidates n') a b = None)
  /\ (a <> userId ->
      addressed (offers n') a b = addressed (offers n) a b
      /\ addressed (answers n') a b = addressed (answers n) a b
      /\ addressed (candidates n') a b = addressed (candidates n) a b).
Proof.
  intros Hrelay n n'. unfold n', Contexts.cleanupSignalingData, try_catch.
  rewrite !(bind_remove_ok env Hrelay), (remove_ok env Hrelay). simpl.
  repeat (rewrite room_in_room; destruct (decide (roomId = roomId)); [| congruence]; simpl).
  rewrite !addressed_remove_child.
  destruct (decide (a = userId)); split; intros; try tauto; auto.
Qed.

Lemma cleanupSignalingDataContexts_keeps_incoming_witness :
  let w := {| client := Example.in_room_r1 "alice"; relay := Example.offer_from_bob |} in
  let n' := room (relay (snd (Contexts.cleanupSignalingData (Example.env_of "alice") "r1"
                                "alice" w))) "r1" in
  addressed (offers n') "bob" "alice" = Some "offer of bob"
  /\ addressed (answers n') "bob" "alice" = None
  /\ addressed (candidates n') "bob" "alice" = None.
Proof.
  intros w n'.
  destruct (cleanupSignalingDataContexts_keeps_incoming (Example.env_of "alice") "r1" "alice" w
              "bob" "alice") as [_ H].
  - reflexivity.
  - apply H. discriminate.
Defined.

(** ** Leaving a room *)

Lemma fold_close_closes (id : string) (h : nat) (l : list (string * nat)) (s : State) :
  closed_at s h \/ (In (id, h) l /\ h < length (heap s)) ->
  closed_at (fold_left (fun s '(_, h) => close_pc h s) l s) h.
Proof.
  revert s. induction l as [| [k h0] rest IH]; intros s H; simpl.
  - destruct H as [H | [[] _]]. exact H.
  - apply IH. destruct H as [H | [[Heq | Hin] Hlt]].
    + left. apply closed_at_close. exact H.
    + inversion Heq; subst. left. apply close_pc_closes. exact Hlt.
    + right. split; [exact Hin |]. simpl. rewrite length_alter. exact Hlt.
Qed.

Lemma close_all_closes (s : State) : every_connection_closed s (close_all s).
Proof.
  intros id h Hm Hlt. unfold close_all. apply (fold_close_closes id).
  right. split; [| exact Hlt].
  apply list_elem_of_In. apply elem_of_map_to_list. exact Hm.
Qed.

Lemma close_all_keeps_closed (s : State) (h : nat) :
  closed_at s h -> closed_at (close_all s) h.
Proof. intros H. unfold close_all. apply (fold_close_closes ""). left. exact H. Qed.

Lemma child_remove_child_participants (k k' : string) (l : list (string * Participant)) :
  child k (remove_child k' l) = if decide (k = k') then None else child k l.
Proof. apply child_remove_child. Qed.

Ltac media_cases :=
  repeat match goal with
         | |- context [if ?x then _ else _] => destruct x; simpl
         | |- context [match ?x with Some _ => _ | None => _ end] => destruct x; simpl
         end.

(** X3.  [leaveRoom()] of part_003 in a room, with a
    signed-in user and the relay reachable: the client has left (no
    current room, status disconnected, both join refs reset), the map
    and the peer list are empty, the listeners are detached, every
    connection the map held is closed, and in the relay the user's
    presence entry and all signalling data from or for the user are
    gone, the presence of the others untouched. *)
Theorem leaveRoom003_leaves_and_cleans
    (env : Env) (w : World) (u : User) (roomId : string) :
  user (client w) = Some u -> currentRoomId (client w) = Some roomId ->
  truthy roomId = true -> relayError env = None ->
  let w' := Part003.leaveRoom env w in
  left_the_room (client w')
  /\ peerConnections (client w') = ∅ /\ peers (client w') = []
  /\ listeners (client w') = all_listeners false
  /\ every_connection_closed (client w) (client w')
  /\ (forall id, child id (participants (room (relay w') roomId))
                 = if decide (id = uid u) then None
                   else child id (participants (room (relay w) roomId)))
  /\ no_signalling_of (uid u) (room (relay w') roomId).
Proof.
  intros Hu Hroom Htruthy Hrelay w'.
  destruct (cleanupSignalingData003_runs env Hrelay roomId (uid u) w)
    as (w1 & Hrun & Hs & Ho & Ha & Hc & Hp).
  unfold same_but_calls in Hs.
  eassert (E : w' = {| client := _; relay := _ |}).
  { unfold w', Part003.leaveRoom. rewrite Hu, Hroom.
    unfold truthy_opt. rewrite Htruthy. cbn [negb default from_option]. unfold id.
    unfold try_catch. unfold bind at 1. rewrite Hrun.
    rewrite (bind_remove_ok env Hrelay). rewrite !bind_modify. unfold modify.
    cbn [snd client relay]. reflexivity. }
  rewrite E. clear E. cbn [client relay].
  split; [unfold left_the_room; media_cases; repeat split |].
  split; [media_cases; reflexivity |]. split; [media_cases; reflexivity |].
  split; [media_cases; through_shapes; reflexivity |].
  split.
  { intros id h Hm Hlt.
    assert (Hclosed : closed_at
              (close_all (cleanupWebRTCListeners
                 (record (CallRemove (ParticipantRef roomId (uid u))) (client w1)))) h).
    { apply close_all_closes with (id := id); rewrite Hs; [exact Hm | exact Hlt]. }
    destruct Hclosed as (pc & Hpc & Hl). exists pc. split; [| exact Hl].
    media_cases; exact Hpc. }
  split.
  { intros id. cbn [relay_remove]. rewrite room_in_room. destruct (decide (roomId = roomId)); [| congruence].
    simpl. rewrite child_remove_child, Hp. reflexivity. }
  intros a b Hab. cbn [relay_remove]. rewrite room_in_room. destruct (decide (roomId = roomId)); [| congruence].
  simpl. rewrite Ho, Ha, Hc, !addressed_cleaned.
  destruct (decide (a = uid u \/ b = uid u)); [auto | contradiction].
Qed.

Lemma leaveRoom003_leaves_and_cleans_witness :
  let w := Example.alice_world Example.connected_to_bob in
  let w' := Part003.leaveRoom (Example.env_of "alice") w in
  left_the_room (client w')
  /\ peerConnections (client w') = ∅ /\ peers (client w') = []
  /\ listeners (client w') = all_listeners false
  /\ every_connection_closed (client w) (client w')
  /\ (forall id, child id (participants (room (relay w') "r1"))
                 = if decide (id = "alice") then None
                   else child id (participants (room (relay w) "r1")))
  /\ no_signalling_of "alice" (room (relay w') "r1").
Proof.
  intros w w'.
  apply (leaveRoom003_leaves_and_cleans (Example.env_of "alice") w Example.alice_user "r1");
    reflexivity.
Defined.

Lemma remove_unreachable (env : Env) (e : string) (p : RelayPath) (w : World) :
  relayError env = Some e ->
  remove env p w = (Err e, {| client := record (CallRemove p) (client w); relay := relay w |}).
Proof.
  intros H. unfold remove, relay_call, bind, modify, throw. rewrite H. reflexivity.
Qed.

(** X4.  [leaveRoom()] of part_003 with the relay out
    of reach: the client still ends outside the room (no current room,
    status disconnected, join refs reset), but the work of the [try]
    block is skipped: the connections stay open and in the map, the peer
    list, the listeners and the media state are as before, and so is the
    relay. *)
Theorem leaveRoom003_unreachable_relay
    (env : Env) (w : World) (u : User) (roomId e : string) :
  user (client w) = Some u -> currentRoomId (client w) = Some roomId ->
  truthy roomId = true -> relayError env = Some e ->
  let w' := Part003.leaveRoom env w in
  left_the_room (client w')
  /\ relay w' = relay w
  /\ peerConnections (client w') = peerConnections (client w)
  /\ heap (client w') = heap (client w)
  /\ peers (client w') = peers (client w)
  /\ listeners (client w') = listeners (client w)
  /\ media (client w') = media (client w).
Proof.
  intros Hu Hroom Htruthy Hrelay w'.
  destruct (cleanupSignalingData003_spares_the_relay env roomId (uid u) w)
    as (Hok & Hs & Hsame).
  destruct (Part003.cleanupSignalingData env roomId (uid u) w) as [r w1] eqn:Hrun.
  simpl in Hok, Hs, Hsame. subst r. unfold same_but_calls in Hs.
  assert (Hr : relay w1 = relay w) by (apply Hsame; congruence).
  eassert (E : w' = {| client := _; relay := _ |}).
  { unfold w', Part003.leaveRoom. rewrite Hu, Hroom.
    unfold truthy_opt. rewrite Htruthy. cbn [negb default from_option]. unfold id.
    unfold try_catch. unfold bind at 1. rewrite Hrun.
    unfold bind at 1. rewrite (remove_unreachable env e _ _ Hrelay).
    rewrite !bind_modify. unfold modify. cbn [snd client relay]. reflexivity. }
  rewrite E. clear E. cbn [client relay]. rewrite Hs.
  repeat split; try reflexivity. exact Hr.
Qed.

Lemma leaveRoom003_unreachable_relay_witness :
  let w := Example.alice_world Example.connected_to_bob in
  let w' := Part003.leaveRoom (offline (Example.env_of "alice")) w in
  left_the_room (client w')
  /\ relay w' = relay w
  /\ peerConnections (client w') = peerConnections (client w)
  /\ heap (client w') = heap (client w)
  /\ peers (client w') = peers (client w)
  /\ listeners (client w') = listeners (client w)
  /\ media (client w') = media (client w).
Proof.
  intros w w'.
  apply (leaveRoom003_unreachable_relay (offline (Example.env_of "alice")) w
           Example.alice_user "r1" "Network Error"); reflexivity.
Defined.

Lemma update_pc_keeps_closed (s : State) (h k : nat) (f : PeerConnection -> PeerConnection) :
  (forall pc, RTC.live (f pc) = RTC.live pc) ->
  closed_at s k -> closed_at (update_pc h f s) k.
Proof.
  intros Hf (pc & Hpc & Hl). unfold closed_at, update_pc. simpl.
  destruct (decide (h = k)) as [-> | Hne].
  - rewrite list_lookup_alter_eq, Hpc. simpl. exists (f pc). split; [reflexivity |].
    rewrite Hf. exact Hl.
  - rewrite list_lookup_alter_ne by exact Hne. eauto.
Qed.

Lemma state_eta_heap_media (s : State) : s = setS_heap (heap s) (setS_media (media s) s).
Proof. destruct s; reflexivity. Qed.

(** What stopping the screen share and the recorder leaves alone. *)
Lemma stopScreenShare_shape (s : State) :
  exists m h, Contexts.stopScreenShare s = setS_heap h (setS_media m s)
              /\ forall k, closed_at s k -> closed_at (setS_heap h (setS_media m s)) k.
Proof.
  assert (Hid : forall s0 : State,
             exists m h, s0 = setS_heap h (setS_media m s0)
                         /\ forall k, closed_at s0 k -> closed_at (setS_heap h (setS_media m s0)) k).
  { intros s0. exists (media s0), (heap s0). split; [destruct s0; reflexivity |].
    intros k Hk. exact Hk. }
  unfold Contexts.stopScreenShare.
  set (s1 := match screenShareStream (media s) with
             | Some m => setScreenShareStream (Some (stop_all m)) s
             | None => s
             end).
  assert (H1 : exists m, s1 = setS_media m s).
  { unfold s1. destruct (screenShareStream (media s)).
    - eexists. reflexivity.
    - exists (media s). destruct s; reflexivity. }
  destruct H1 as (m1 & E1). rewrite E1. simpl.
  destruct (originalStream m1) as [original |]; [| exists m1, (heap s); split;
    [destruct s; reflexivity | intros k Hk; exact Hk]].
  destruct (localStream m1) as [local |]; [| exists m1, (heap s); split;
    [destruct s; reflexivity | intros k Hk; exact Hk]].
  destruct (getVideoTracks original) as [| videoTrack rest].
  - match goal with
    | |- exists m h, ?X = _ /\ _ => exists (media X), (heap s)
    end.
    split; [reflexivity |]. intros k Hk. exact Hk.
  - match goal with
    | |- context [fold_left ?f ?l ?s0] =>
        assert (Hfold : forall l0 s2,
                  (exists m h, s2 = setS_heap h (setS_media m s)
                               /\ forall k, closed_at s k -> closed_at s2 k) ->
                  exists m h, fold_left f l0 s2 = setS_heap h (setS_media m s)
                              /\ forall k, closed_at s k -> closed_at (fold_left f l0 s2) k)
    end.
    { induction l0 as [| [k0 h0] l0 IH]; intros s2 H2; simpl; [exact H2 |].
      apply IH. destruct H2 as (m2 & h2 & -> & Hc2).
      eexists _, _. split; [reflexivity |].
      intros k Hk. apply update_pc_keeps_closed; [intros pc; reflexivity |].
      apply Hc2. exact Hk. }
    match goal with
    | |- context [fold_left ?f ?l ?s0] =>
        destruct (Hfold l s0) as (m3 & h3 & E3 & Hc3)
    end.
    { match goal with
      | |- exists m h, ?X = _ /\ _ => exists (media X), (heap s)
      end.
      split; [reflexivity |]. intros k Hk. exact Hk. }
    match goal with
    | |- exists m h, ?X = _ /\ _ => exists (media X), h3
    end. rewrite E3. split; [reflexivity |].
    intros k Hk. specialize (Hc3 k Hk). rewrite E3 in Hc3.
    destruct Hc3 as (pc & Hpc & Hl). exists pc. split; [exact Hpc | exact Hl].
Qed.

(** X5.  [leaveRoom()] of the copy in src/contexts does
    not wait for the relay: whether or not the presence entry could be
    removed, the client ends outside the room, the map and the peer list
    are empty, the listeners are detached and every connection the map
    held is closed.  The signalling data of the user stays in the
    relay. *)
Theorem leaveRoomContexts_always_cleans
    (env : Env) (w : World) (u : User) (roomId : string) :
  user (client w) = Some u -> currentRoomId (client w) = Some roomId ->
  truthy roomId = true ->
  let w' := Contexts.leaveRoom env w in
  left_the_room (client w')
  /\ peerConnections (client w') = ∅ /\ peers (client w') = []
  /\ listeners (client w') = all_listeners false
  /\ every_connection_closed (client w) (client w')
  /\ (forall r, offers (room (relay w') r) = offers (room (relay w) r)
                /\ answers (room (relay w') r) = answers (room (relay w) r)
                /\ candidates (room (relay w') r) = candidates (room (relay w) r)).
Proof.
  intros Hu Hroom Htruthy w'.
  set (X := setConnectionStatus Disconnected
              (setCurrentRoomId None
                 (setPeers (fun _ => [])
                    (setPeerConnections ∅
                       (close_all
                          (cleanupWebRTCListeners
                             (record (CallRemove (ParticipantRef roomId (uid u)))
                                (client w)))))))).
  set (T := fun s' : State =>
              if isRecording (media (client w))
              then Contexts.stopRecording
                     (if isScreenSharing (media (client w))
                      then Contexts.stopScreenShare s' else s')
              else if isScreenSharing (media (client w))
                   then Contexts.stopScreenShare s' else s').
  assert (E : exists rl, w' = {| client := setJoinAttempts 0 (setJoinAttempted false (T X));
                                 relay := rl |}
                         /\ forall r, offers (room rl r) = offers (room (relay w) r)
                                      /\ answers (room rl r) = answers (room (relay w) r)
                                      /\ candidates (room rl r) = candidates (room (relay w) r)).
  { unfold w', Contexts.leaveRoom. rewrite Hu, Hroom.
    unfold truthy_opt. rewrite Htruthy. cbn [negb default from_option]. unfold id.
    unfold detached, try_catch, remove, relay_call.
    destruct (relayError env) as [e |]; unfold bind, modify, throw, write_relay, ret;
      cbn [snd client relay]; eexists; (split; [unfold T, X; reflexivity |]).
    - auto.
    - intros r. cbn [relay_remove]. rewrite room_in_room.
      destruct (decide (roomId = r)); subst; auto. }
  destruct E as (rl & E & Hrl). rewrite E. clear E. cbn [client relay].
  assert (HT : exists m h, T X = setS_heap h (setS_media m X)
                           /\ forall k, closed_at X k -> closed_at (T X) k).
  { unfold T. destruct (isScreenSharing (media (client w))).
    - destruct (stopScreenShare_shape X) as (m & h & Es & Hc). rewrite Es.
      destruct (isRecording (media (client w))).
      + unfold Contexts.stopRecording. simpl.
        destruct (mediaRecorder m).
        * match goal with
          | |- exists m0 h0, ?Y = _ /\ _ => exists (media Y), h
          end.
          split; [reflexivity |].
          intros k Hk; destruct (Hc k Hk) as (pc & Hpc & Hl); exists pc; auto.
        * exists m, h. split; [reflexivity |].
          intros k Hk; destruct (Hc k Hk) as (pc & Hpc & Hl); exists pc; auto.
      + exists m, h. split; [reflexivity | exact Hc].
    - destruct (isRecording (media (client w))).
      + unfold Contexts.stopRecording.
        destruct (mediaRecorder (media X)).
        * match goal with
          | |- exists m h, ?Y = _ /\ _ => exists (media Y), (heap X)
          end.
          split; [reflexivity |]. intros k Hk; exact Hk.
        * exists (media X), (heap X). split; [apply state_eta_heap_media |].
          intros k Hk; exact Hk.
      + exists (media X), (heap X). split; [apply state_eta_heap_media |].
        intros k Hk; exact Hk. }
  destruct HT as (m & h & ET & Hclosed).
  split; [rewrite ET; unfold left_the_room; repeat split |].
  split; [rewrite ET; reflexivity |]. split; [rewrite ET; reflexivity |].
  split; [rewrite ET; unfold X; through_shapes; reflexivity |].
  split; [| exact Hrl].
  intros id k Hm Hlt.
  assert (Hx : closed_at X k).
  { assert (Hc : closed_at (close_all (cleanupWebRTCListeners
                   (record (CallRemove (ParticipantRef roomId (uid u))) (client w)))) k)
      by (apply close_all_closes with (id := id); [exact Hm | exact Hlt]).
    destruct Hc as (pc & Hpc & Hl). exists pc. split; [exact Hpc | exact Hl]. }
  destruct (Hclosed k Hx) as (pc & Hpc & Hl). exists pc. split; [exact Hpc | exact Hl].
Qed.

Lemma leaveRoomContexts_always_cleans_witness :
  let w := Example.alice_world Example.connected_to_bob in
  let w' := Contexts.leaveRoom (offline (Example.env_of "alice")) w in
  left_the_room (client w')
  /\ peerConnections (client w') = ∅ /\ peers (client w') = []
  /\ listeners (client w') = all_listeners false
  /\ every_connection_closed (client w) (client w')
  /\ (forall r, offers (room (relay w') r) = offers (room (relay w) r)
                /\ answers (room (relay w') r) = answers (room (relay w) r)
                /\ candidates (room (relay w') r) = candidates (room (relay w) r)).
Proof.
  intros w w'.
  apply (leaveRoomContexts_always_cleans (offline (Example.env_of "alice")) w
           Example.alice_user "r1"); reflexivity.
Defined.

(** ** Joining a room *)

Lemma membership_kept_refl (w : World) : membership_kept w w.
Proof. unfold membership_kept. repeat split; auto. Qed.

Lemma membership_kept_trans (a b c : World) :
  membership_kept a b -> membership_kept b c -> membership_kept a c.
Proof.
  unfold membership_kept. intros (H1 & H2 & H3 & H4 & H5 & H6) (K1 & K2 & K3 & K4 & K5 & K6).
  split; [congruence |]. split; [congruence |]. split; [congruence |].
  split; [congruence |]. split; [auto |].
  intros r. destruct (H6 r) as [Ha Hb]. destruct (K6 r) as [Ka Kb]. split; congruence.
Qed.

Lemma closed_at_heap (s s' : State) (k : nat) :
  heap s' = heap s -> closed_at s k -> closed_at s' k.
Proof. unfold closed_at. intros ->. auto. Qed.

Lemma closed_at_append (s s' : State) (k : nat) (pc : PeerConnection) :
  heap s' = heap s ++ [pc] -> closed_at s k -> closed_at s' k.
Proof.
  unfold closed_at. intros -> (pc0 & Hpc & Hl). exists pc0. split; [| exact Hl].
  rewrite lookup_app_l; [exact Hpc |]. eapply lookup_lt_Some. exact Hpc.
Qed.

Lemma add_tracks_same_live (l : list Track) (pc : PeerConnection) :
  RTC.live (Part003.add_tracks l pc) = RTC.live pc.
Proof.
  unfold RTC.live. destruct (add_tracks_keeps l pc) as (H & _). rewrite H. reflexivity.
Qed.

Lemma createPeerConnection003_keeps_closed (env : Env) (peerId roomId : string)
    (initiator : bool) (s : State) (k : nat) :
  closed_at s k ->
  closed_at (snd (Part003.createPeerConnection env peerId roomId initiator s)) k.
Proof.
  intros Hk. unfold Part003.createPeerConnection.
  destruct (user s); [| exact Hk].
  destruct (negb (truthy roomId)); [exact Hk |].
  set (s1 := match peerConnections s !! peerId with
             | Some h => setPeerConnections (delete peerId (peerConnections s)) (close_pc h s)
             | None => s
             end).
  assert (H1 : closed_at s1 k).
  { unfold s1. destruct (peerConnections s !! peerId) as [h |]; [| exact Hk].
    apply closed_at_heap with (s := close_pc h s); [reflexivity |].
    apply closed_at_close. exact Hk. }
  clearbody s1.
  destruct (constructorThrows env); [apply closed_at_heap with (s := s1); [reflexivity | exact H1] |].
  simpl.
  set (s2 := setPeerConnections (<[peerId := length (heap s1)]> (peerConnections s1))
               (setHeap (heap s1 ++ [RTC.fresh peerId roomId initiator true]) s1)).
  assert (H2 : closed_at s2 k)
    by (eapply closed_at_append; [reflexivity | exact H1]).
  match goal with
  | |- context [if ?b then _ else _] => destruct b; simpl
  end.
  - apply update_pc_keeps_closed; [apply add_tracks_same_live | exact H2].
  - match goal with
    | |- context [Part003.initLocalStream ?e ?v ?a ?s3] =>
        destruct (initLocalStream003_shape e v a s3) as (m1 & e1 & c1 & Hs);
        destruct (Part003.initLocalStream e v a s3) as [[stream |] s4];
        simpl in Hs; subst s4; simpl
    end.
    + apply update_pc_keeps_closed; [apply add_tracks_same_live |].
      apply closed_at_heap with (s := s2); [reflexivity | exact H2].
    + apply closed_at_heap with (s := s2); [reflexivity | exact H2].
Qed.

Ltac membership_done :=
  unfold membership_kept; simpl;
  repeat match goal with
         | |- context [match localStream ?m with _ => _ end] => destruct (localStream m); simpl
         end;
  repeat split; try reflexivity; try (intros; assumption);
  intros; rewrite ?room_in_room;
  repeat match goal with
         | |- context [decide (?a = ?b)] => destruct (decide (a = b)); subst
         end;
  try reflexivity; auto;
  first [ apply closed_at_close; assumption
        | eapply closed_at_append; [reflexivity | assumption]
        | apply update_pc_keeps_closed; [apply add_tracks_same_live | assumption] ].

Lemma createPeerConnection003_membership (env : Env) (peerId roomId : string)
    (initiator : bool) :
  respects membership_kept (lift (Part003.createPeerConnection env peerId roomId initiator)).
Proof.
  apply respects_lift. intros s rl. unfold membership_kept. simpl.
  split; [through_shapes; reflexivity |]. split; [through_shapes; reflexivity |].
  split; [through_shapes; reflexivity |]. split; [through_shapes; reflexivity |].
  split; [intros k Hk; apply createPeerConnection003_keeps_closed; exact Hk | auto].
Qed.

Lemma closed_never_set (d : RTCSessionDescription) (pc pc' : PeerConnection) :
  RTC.setLocalDescription d pc = Ok pc' -> RTC.live pc = true.
Proof.
  unfold RTC.setLocalDescription, RTC.live.
  destruct (sd_type d), (signalingState pc); intros H; try discriminate; reflexivity.
Qed.

Lemma pc_call_membership (c : Call) (h : nat) (f : PeerConnection -> Result PeerConnection) :
  (forall pc pc', f pc = Ok pc' -> RTC.live pc = true) ->
  respects membership_kept (pc_call c h f).
Proof.
  intros Hf [s rl]. unfold pc_call, bind, modify, gets, throw. simpl.
  destruct (heap s !! h) as [pc |] eqn:Hh; simpl.
  - destruct (f pc) as [pc' | e] eqn:Hfpc; simpl.
    + unfold membership_kept. simpl. repeat split; auto.
      intros k (pc0 & Hpc0 & Hl). unfold closed_at. simpl.
      destruct (decide (h = k)) as [-> | Hne].
      * exfalso. rewrite Hh in Hpc0. inversion Hpc0; subst.
        rewrite (Hf _ _ Hfpc) in Hl. discriminate.
      * rewrite list_lookup_alter_ne by exact Hne. eauto.
    + membership_done.
  - membership_done.
Qed.

Lemma setLocalDescription_membership (env : Env) (h : nat) (d : RTCSessionDescription) :
  respects membership_kept (setLocalDescription env h d).
Proof.
  apply pc_call_membership. intros pc pc'.
  destruct (bool_decide (sd_type d = Rollback) && rollbackFails env); [discriminate |].
  apply closed_never_set.
Qed.

Ltac frame_membership :=
  frame_using membership_kept_refl membership_kept_trans
    ltac:(first [ apply createPeerConnection003_membership
                | apply setLocalDescription_membership ]).

Lemma connect_membership (env : Env) (u : User) (roomId id : string) :
  respects membership_kept (Part003.connect env u roomId id).
Proof.
  unfold Part003.connect. frame_membership; try membership_done.
Qed.

Lemma connect_returns (env : Env) (u : User) (roomId id : string) (w : World) :
  fst (Part003.connect env u roomId id w) = Ok tt.
Proof.
  unfold Part003.connect. rewrite bind_lift.
  destruct (fst (Part003.createPeerConnection env id roomId true (client w))) as [h |];
    [| reflexivity].
  unfold try_catch.
  match goal with
  | |- fst (match ?m ?w0 with _ => _ end) = _ => destruct (m w0) as [[[] | e] w1]
  end; [reflexivity |].
  destruct (Js.includes "no BUNDLE group" e); [| reflexivity].
  match goal with
  | |- fst (match ?m ?w0 with _ => _ end) = _ => destruct (m w0) as [[[] | e'] w2]
  end; reflexivity.
Qed.

Lemma forEach_returns {A} (l : list A) (f : A -> M unit) (w : World) :
  (forall x w0, fst (f x w0) = Ok tt) -> fst (forEach l f w) = Ok tt.
Proof.
  intros Hf. revert w. induction l as [| x l IH]; intros w; simpl; [reflexivity |].
  rewrite (bind_ok _ _ w tt (Hf x w)). apply IH.
Qed.

Section JoinTail.
Variable env : Env.
Hypothesis Hrelay : relayError env = None.
Variable u : User.
Variables (roomId : string) (currentRoom : bool).

Lemma forEach_add_peers (ps : list (string * Participant)) (w : World) :
  forEach ps (fun '(id, participant) =>
    if negb (String.eqb id (uid u))
    then modify (setPeers (add_peer id (or_else (p_displayName participant) "Anonymous")))
    else ret tt) w
  = (Ok tt,
     {| client :=
          setS_peers
            (fold_left
               (fun acc '(id, participant) =>
                  if negb (String.eqb id (uid u))
                  then add_peer id (or_else (p_displayName participant) "Anonymous") acc
                  else acc) ps (peers (client w))) (client w);
        relay := relay w |}).
Proof.
  revert w. induction ps as [| [id participant] rest IH]; intros [s rl]; simpl.
  - destruct s; reflexivity.
  - destruct (negb (String.eqb id (uid u))).
    + rewrite bind_modify, IH. reflexivity.
    + unfold bind, ret. rewrite IH. reflexivity.
Qed.

Lemma peers_added (ps : list (string * Participant)) (acc : list Peer) (x : string) :
  In x (List.map peer_id
          (fold_left
             (fun acc '(id, participant) =>
                if negb (String.eqb id (uid u))
                then add_peer id (or_else (p_displayName participant) "Anonymous") acc
                else acc) ps acc))
  <-> In x (List.map peer_id acc) \/ (In x (keys ps) /\ x <> uid u).
Proof.
  revert acc. induction ps as [| [id participant] rest IH]; intros acc; simpl.
  - tauto.
  - rewrite IH. destruct (String.eqb id (uid u)) eqn:E; simpl.
    + apply String.eqb_eq in E. subst id. intuition congruence.
    + apply String.eqb_neq in E. rewrite add_peer_ids. intuition congruence.
Qed.

Lemma bind_set_participant_ok {B} (id : string) (p : Participant) (k : unit -> M B)
    (w : World) :
  bind (set_participant env roomId id p) k w
  = k tt {| client := record (CallSet (ParticipantRef roomId id)) (client w);
            relay := in_room roomId
                       (fun n => with_participants (set_child id p (participants n)) n)
                       (relay w) |}.
Proof.
  unfold set_participant, relay_call, bind, modify, write_relay. rewrite Hrelay. reflexivity.
Qed.

(** The part of [joinRoom] from [setCurrentRoomId(roomId)] on. *)
Lemma join003_tail (w : World) :
  user (client w) = Some u ->
  exists w',
    (do _ <- modify (setCurrentRoomId (Some roomId));
     do _ <- set_participant env roomId (uid u) (presence_of env u);
     do _ <- onDisconnect_remove roomId (uid u);
     do participants <- relay_get env (fun r => participants (room r roomId));
     do _ <- forEach participants (fun '(id, participant) =>
               if negb (String.eqb id (uid u))
               then modify (setPeers (add_peer id
                                        (or_else (p_displayName participant) "Anonymous")))
               else ret tt);
     do _ <- modify (Part003.setupWebRTCListeners roomId currentRoom);
     do _ <- forEach participants (fun '(id, _) =>
               if negb (String.eqb id (uid u)) then Part003.connect env u roomId id
               else ret tt);
     do _ <- modify (setConnectionStatus Connected);
     modify (setJoinAttempts 0)) w = (Ok tt, w')
    /\ currentRoomId (client w') = Some roomId
    /\ connectionStatus (client w') = Connected
    /\ joinAttemptsRef (client w') = 0
    /\ participants (room (relay w') roomId)
       = set_child (uid u) (presence_of env u) (participants (room (relay w) roomId))
    /\ In (uid u) (onDisconnectRemove (room (relay w') roomId))
    /\ (forall id, In id (peer_ids (client w'))
                   <-> In id (peer_ids (client w))
                       \/ (In id (keys (participants (room (relay w') roomId)))
                           /\ id <> uid u))
    /\ listeners (client w')
       = (if truthy roomId && currentRoom then all_listeners true else listeners (client w))
    /\ forall k, closed_at (client w) k -> closed_at (client w') k.
Proof.
  intros Hu.
  rewrite bind_modify, bind_set_participant_ok.
  unfold onDisconnect_remove at 1. unfold bind at 1, write_relay at 1.
  rewrite (bind_relay_get_ok env Hrelay). cbn [client relay].
  unfold bind at 1. rewrite forEach_add_peers. cbn [client relay].
  rewrite bind_modify. cbn [client relay].
  match goal with
  | |- context [bind (forEach ?l ?f) ?k ?w0] =>
      assert (Hret : fst (forEach l f w0) = Ok tt);
      [ apply forEach_returns; intros [id x] w1;
        destruct (negb (String.eqb id (uid u))); [apply connect_returns | reflexivity]
      | assert (Hkept : membership_kept w0 (snd (forEach l f w0)));
        [ apply (respects_forEach _ membership_kept_refl membership_kept_trans);
          intros [id x]; destruct (negb (String.eqb id (uid u)));
          [apply connect_membership | apply (respects_ret _ membership_kept_refl)]
        | rewrite (bind_ok _ _ w0 tt Hret); set (w6 := snd (forEach l f w0)) in * ] ]
  end.
  clearbody w6. clear Hret.
  destruct Hkept as (K1 & K2 & K3 & K4 & K5 & K6). cbn [client relay] in *.
  rewrite !bind_modify. unfold modify. cbn [client relay].
  eexists. split; [reflexivity |]. cbn [client relay].
  assert (Hroom : room (in_room roomId
                          (fun n => with_onDisconnect (uid u :: onDisconnectRemove n) n)
                          (in_room roomId
                             (fun n => with_participants
                                         (set_child (uid u) (presence_of env u) (participants n)) n)
                             (relay w))) roomId
                  = with_onDisconnect (uid u :: onDisconnectRemove (room (relay w) roomId))
                      (with_participants
                         (set_child (uid u) (presence_of env u)
                            (participants (room (relay w) roomId)))
                         (room (relay w) roomId))).
  { rewrite !room_in_room. destruct (decide (roomId = roomId)); [reflexivity | congruence]. }
  destruct (K6 roomId) as [Kp Kd]. rewrite Hroom in Kp, Kd. simpl in Kp, Kd.
  split; [simpl; rewrite K2; unfold Part003.setupWebRTCListeners; simpl; rewrite Hu;
          repeat match goal with
                 | |- context [if ?b then _ else _] => destruct b; simpl
                 end; reflexivity |].
  split; [reflexivity |]. split; [reflexivity |].
  split; [exact Kp |].
  split; [rewrite Kd; left; reflexivity |].
  split.
  { intros id. unfold peer_ids. simpl. rewrite K3, Kp.
    unfold Part003.setupWebRTCListeners. simpl. rewrite Hu.
    destruct (negb (truthy roomId) || negb currentRoom);
      [| destruct (listenersSetupRef (listeners (client w)))];
      simpl; rewrite Hroom; simpl; apply peers_added. }
  split.
  { simpl. rewrite K4. unfold Part003.setupWebRTCListeners. simpl. rewrite Hu.
    destruct (truthy roomId), currentRoom; simpl; reflexivity. }
  intros k Hk. simpl.
  assert (Hk6 : closed_at (client w6) k).
  { apply K5. unfold Part003.setupWebRTCListeners. simpl. rewrite Hu.
    destruct Hk as (pc & Hpc & Hl). exists pc. split; [| exact Hl].
    destruct (negb (truthy roomId) || negb currentRoom); [exact Hpc |].
    simpl. destruct (listenersSetupRef (listeners (client w))); exact Hpc. }
  destruct Hk6 as (pc & Hpc & Hl). exists pc. split; [exact Hpc | exact Hl].
Qed.

End JoinTail.

Lemma initLocalStream003_some (env : Env) (s : State) :
  ~ no_media_at_all env (media s) ->
  is_Some (fst (Part003.initLocalStream env true true s)).
Proof.
  intros Hsome.
  destruct (getUserMedia env (Part003.constraints true true (media s))) as [a |] eqn:H1.
  - unfold Part003.initLocalStream, Part003.initLocalStream_with, Part003.stop_local.
    unfold Part003.constraints in *.
    destruct (localStream (media s)) eqn:E; simpl in *;
      repeat (progress (simpl; rewrite ?E, ?H1)); eauto.
  - destruct (getUserMedia env (Part003.constraints false true (media s))) as [a |] eqn:H2.
    + destruct (initLocalStream003_degrades env s a H1 H2) as (H & _). rewrite H. eauto.
    + destruct (getUserMedia env Part003.audio_only) as [a |] eqn:H3.
      * destruct (initLocalStream003_last_resort env s a H1 H2 H3) as (H & _). rewrite H. eauto.
      * exfalso. apply Hsome. repeat split; assumption.
Qed.

Lemma join003_joins (env : Env) (u : User) (roomId : string) (currentRoom : bool)
    (w : World) :
  relayError env = None ->
  user (client w) = Some u ->
  (localStream (media (client w)) = None -> ~ no_media_at_all env (media (client w))) ->
  exists w',
    Part003.join env u roomId currentRoom w = (Ok tt, w')
    /\ currentRoomId (client w') = Some roomId
    /\ connectionStatus (client w') = Connected
    /\ joinAttemptsRef (client w') = 0
    /\ participants (room (relay w') roomId)
       = set_child (uid u) (presence_of env u) (participants (room (relay w) roomId))
    /\ In (uid u) (onDisconnectRemove (room (relay w') roomId))
    /\ (forall id, In id (peer_ids (client w'))
                   <-> In id (keys (participants (room (relay w') roomId))) /\ id <> uid u)
    /\ listeners (client w')
       = (if truthy roomId && currentRoom then all_listeners true else listeners (client w))
    /\ every_connection_closed (client w) (client w').
Proof.
  intros Hrelay Hu Hmedia. unfold Part003.join.
  rewrite !bind_modify. cbn [client relay].
  set (s0 := setPeers (fun _ => []) (setPeerConnections ∅ (close_all (client w)))).
  assert (Hs0 : user s0 = Some u /\ media s0 = media (client w) /\ peers s0 = []
                /\ listeners s0 = listeners (client w)
                /\ every_connection_closed (client w) s0).
  { assert (Hclosed : every_connection_closed (client w) s0).
    { intros id k Hm Hlt.
      destruct (close_all_closes (client w) id k Hm Hlt) as (pc & Hpc & Hl).
      exists pc. split; [exact Hpc | exact Hl]. }
    split; [unfold s0; simpl; through_shapes; exact Hu |].
    split; [unfold s0; simpl; through_shapes; reflexivity |].
    split; [reflexivity |].
    split; [unfold s0; simpl; through_shapes; reflexivity |]. exact Hclosed. }
  clearbody s0. destruct Hs0 as (Hu0 & Hm0 & Hp0 & Hl0 & Hc0).
  destruct (cleanupSignalingData003_runs env Hrelay roomId (uid u)
              {| client := s0; relay := relay w |})
    as (w1 & Hrun & Hs & _ & _ & _ & Hp).
  unfold bind at 1. rewrite Hrun. cbn [client relay] in *.
  unfold same_but_calls in Hs.
  assert (Hw1 : user (client w1) = Some u /\ media (client w1) = media (client w)
                /\ peers (client w1) = [] /\ listeners (client w1) = listeners (client w)
                /\ every_connection_closed (client w) (client w1)).
  { rewrite Hs. simpl. repeat split; auto. }
  clear Hs. destruct Hw1 as (Hu1 & Hm1 & Hp1 & Hl1 & Hc1).
  rewrite bind_gets, Hm1.
  assert (Hfinish : forall w2 : World,
             user (client w2) = Some u -> peers (client w2) = [] ->
             listeners (client w2) = listeners (client w) ->
             every_connection_closed (client w) (client w2) ->
             relay w2 = relay w1 ->
             exists w',
               (do _ <- modify (setCurrentRoomId (Some roomId));
                do _ <- set_participant env roomId (uid u) (presence_of env u);
                do _ <- onDisconnect_remove roomId (uid u);
                do participants <- relay_get env (fun r => participants (room r roomId));
                do _ <- forEach participants (fun '(id, participant) =>
                          if negb (String.eqb id (uid u))
                          then modify (setPeers (add_peer id
                                 (or_else (p_displayName participant) "Anonymous")))
                          else ret tt);
                do _ <- modify (Part003.setupWebRTCListeners roomId currentRoom);
                do _ <- forEach participants (fun '(id, _) =>
                          if negb (String.eqb id (uid u)) then Part003.connect env u roomId id
                          else ret tt);
                do _ <- modify (setConnectionStatus Connected);
                modify (setJoinAttempts 0)) w2 = (Ok tt, w')
               /\ currentRoomId (client w') = Some roomId
               /\ connectionStatus (client w') = Connected
               /\ joinAttemptsRef (client w') = 0
               /\ participants (room (relay w') roomId)
                  = set_child (uid u) (presence_of env u) (participants (room (relay w) roomId))
               /\ In (uid u) (onDisconnectRemove (room (relay w') roomId))
               /\ (forall id, In id (peer_ids (client w'))
                              <-> In id (keys (participants (room (relay w') roomId)))
                                  /\ id <> uid u)
               /\ listeners (client w')
                  = (if truthy roomId && currentRoom then all_listeners true
                     else listeners (client w))
               /\ every_connection_closed (client w) (client w')).
  { intros w2 Hu2 Hp2 Hl2 Hc2 Hr2.
    destruct (join003_tail env Hrelay u roomId currentRoom w2 Hu2)
      as (w' & Hrun' & T1 & T2 & T3 & T4 & T5 & T6 & T7 & T8).
    exists w'. split; [exact Hrun' |].
    split; [exact T1 |]. split; [exact T2 |]. split; [exact T3 |].
    split; [rewrite T4, Hr2, Hp; reflexivity |]. split; [exact T5 |].
    split.
    { intros id. rewrite T6. unfold peer_ids at 1. rewrite Hp2. simpl. tauto. }
    split; [rewrite T7, Hl2; reflexivity |].
    intros id k Hm Hlt. apply T8. apply (Hc2 id k Hm Hlt). }
  destruct (localStream (media (client w))) as [m |] eqn:Hls.
  - rewrite bind_modify.
    apply Hfinish; auto.
  - assert (Hsome : is_Some (fst (Part003.initLocalStream env true true (client w1)))).
    { apply initLocalStream003_some. rewrite Hm1. apply Hmedia. reflexivity. }
    destruct Hsome as [stream Hstream].
    unfold bind at 1. rewrite bind_lift, Hstream. unfold ret at 1.
    apply Hfinish; cbn [client relay];
      try (through_shapes; simpl; assumption); auto.
Qed.

(** X1.  [joinRoom(roomId, currentRoom)] of part_003,
    called by a signed-in user with attempts left, the relay reachable
    and a local stream at hand or obtainable: it returns; the client is
    in the room with status connected and the attempt counter back at 0;
    the roster holds the user's presence entry, registered for removal on
    disconnect; the peers are the other participants of the roster; every
    connection held before the call is closed; and the listeners are
    attached only if [currentRoom] was passed (and the room id is not
    empty), otherwise they are left as they were. *)
Theorem joinRoom003_joins
    (env : Env) (roomId : string) (currentRoom : bool) (w : World) (u : User) :
  user (client w) = Some u ->
  join_proceeds w roomId ->
  relayError env = None ->
  (localStream (media (client w)) = None -> ~ no_media_at_all env (media (client w))) ->
  let r := Part003.joinRoom env roomId currentRoom w in
  let s' := client (snd r) in
  let n' := room (relay (snd r)) roomId in
  fst r = Returned
  /\ currentRoomId s' = Some roomId
  /\ connectionStatus s' = Connected
  /\ joinAttemptsRef s' = 0
  /\ joinAttemptedRef s' = false
  /\ participants n'
     = set_child (uid u) (presence_of env u) (participants (room (relay w) roomId))
  /\ In (uid u) (onDisconnectRemove n')
  /\ (forall id, In id (peer_ids s') <-> In id (keys (participants n')) /\ id <> uid u)
  /\ listeners s'
     = (if truthy roomId && currentRoom then all_listeners true else listeners (client w))
  /\ every_connection_closed (client w) s'.
Proof.
  intros Hu (_ & Hg & Hn) Hrelay Hmedia r s' n'.
  unfold s', n', r, Part003.joinRoom. clear s' n' r.
  rewrite Hu, Hg. cbn zeta.
  assert (Hlt : (3 <? joinAttemptsRef (client w) + 1) = false) by (apply Nat.ltb_ge; lia).
  cbn [joinAttemptsRef setJoinAttempts setS_joinAttemptsRef]. rewrite Hlt.
  match goal with
  | |- context [try_catch (Part003.join ?e ?u0 ?rm ?c) ?k ?w0] =>
      destruct (join003_joins e u0 rm c w0 Hrelay) as
        (w' & Hj & J1 & J2 & J3 & J4 & J5 & J6 & J7 & J8);
      [exact Hu | exact Hmedia | unfold try_catch; rewrite Hj]
  end.
  cbn [fst snd client relay] in *.
  split; [reflexivity |]. split; [exact J1 |]. split; [exact J2 |]. split; [exact J3 |].
  split; [reflexivity |]. split; [exact J4 |]. split; [exact J5 |].
  split; [exact J6 |]. split; [exact J7 |].
  intros id k Hm Hk. destruct (J8 id k Hm Hk) as (pc & Hpc & Hl).
  exists pc. split; [exact Hpc | exact Hl].
Qed.

Lemma joinRoom003_joins_witness :
  let w := Example.alice_arrives in
  let r := Part003.joinRoom (Example.env_of "alice") "r1" true w in
  let s' := client (snd r) in
  let n' := room (relay (snd r)) "r1" in
  fst r = Returned
  /\ currentRoomId s' = Some "r1"
  /\ connectionStatus s' = Connected
  /\ joinAttemptsRef s' = 0
  /\ joinAttemptedRef s' = false
  /\ participants n'
     = set_child "alice" (presence_of (Example.env_of "alice") Example.alice_user)
         (participants (room (relay w) "r1"))
  /\ In "alice" (onDisconnectRemove n')
  /\ (forall id, In id (peer_ids s') <-> In id (keys (participants n')) /\ id <> "alice")
  /\ listeners s' = all_listeners true
  /\ every_connection_closed (client w) s'.
Proof.
  intros w r s' n'.
  apply (joinRoom003_joins (Example.env_of "alice") "r1" true w Example.alice_user).
  - reflexivity.
  - split; [eexists; reflexivity | split; [reflexivity | simpl; lia]].
  - reflexivity.
  - intros _ (H & _). discriminate H.
Defined.

(** * Joining, in the copy of src/contexts *)

Lemma joinContexts_joins (env : Env) (u : User) (roomId : string) (currentRoom : bool)
    (w : World) :
  relayError env = None ->
  user (client w) = Some u ->
  (localStream (media (client w)) = None ->
   is_Some (getUserMedia env (Contexts.constraints true true (media (client w))))) ->
  exists w',
    Contexts.join env u roomId currentRoom w = (Ok tt, w')
    /\ currentRoomId (client w') = Some roomId
    /\ connectionStatus (client w') = connectionStatus (client w)
    /\ joinAttemptsRef (client w') = 0
    /\ participants (room (relay w') roomId)
       = set_child (uid u) (presence_of env u) (participants (room (relay w) roomId))
    /\ In (uid u) (onDisconnectRemove (room (relay w') roomId))
    /\ peers (client w') = peers (client w)
    /\ peerConnections (client w') = ∅
    /\ is_Some (localStream (media (client w')))
    /\ listeners (client w')
       = (if truthy roomId && currentRoom then all_listeners true else listeners (client w))
    /\ every_connection_closed (client w) (client w').
Proof.
  intros Hrelay Hu Hmedia. unfold Contexts.join, Contexts.cleanupSignalingData.
  unfold try_catch at 1. unfold bind at 1.
  rewrite !(bind_remove_ok env Hrelay), (remove_ok env Hrelay). cbn [client relay].
  set (s1 := record (CallRemove (CandidatesFromRef roomId (uid u)))
               (record (CallRemove (AnswersFromRef roomId (uid u)))
                  (record (CallRemove (OffersFromRef roomId (uid u))) (client w)))).
  set (rl1 := relay_remove (CandidatesFromRef roomId (uid u))
                (relay_remove (AnswersFromRef roomId (uid u))
                   (relay_remove (OffersFromRef roomId (uid u)) (relay w)))).
  assert (Hp1 : participants (room rl1 roomId) = participants (room (relay w) roomId)).
  { unfold rl1. simpl.
    repeat (rewrite room_in_room; destruct (decide (roomId = roomId)); [| congruence]; simpl).
    reflexivity. }
  rewrite bind_gets. cbn [client].
  assert (Hfinish : forall s2 : State,
             user s2 = Some u -> peers s2 = peers (client w) ->
             listeners s2 = listeners (client w) ->
             connectionStatus s2 = connectionStatus (client w) ->
             heap s2 = heap (client w) -> peerConnections s2 = peerConnections (client w) ->
             is_Some (localStream (media s2)) ->
             exists w',
               (do _ <- modify (setCurrentRoomId (Some roomId));
                do _ <- modify close_all;
                do _ <- modify (setPeerConnections ∅);
                do _ <- set_participant env roomId (uid u)
                          {| p_displayName := or_else (user_displayName u) "Anonymous";
                             joined := now env |};
                do _ <- onDisconnect_remove roomId (uid u);
                do _ <- modify (Contexts.setupWebRTCListeners roomId currentRoom);
                modify (setJoinAttempts 0)) {| client := s2; relay := rl1 |} = (Ok tt, w')
               /\ currentRoomId (client w') = Some roomId
               /\ connectionStatus (client w') = connectionStatus (client w)
               /\ joinAttemptsRef (client w') = 0
               /\ participants (room (relay w') roomId)
                  = set_child (uid u) (presence_of env u) (participants (room (relay w) roomId))
               /\ In (uid u) (onDisconnectRemove (room (relay w') roomId))
               /\ peers (client w') = peers (client w)
               /\ peerConnections (client w') = ∅
               /\ is_Some (localStream (media (client w')))
               /\ listeners (client w')
                  = (if truthy roomId && currentRoom then all_listeners true
                     else listeners (client w))
               /\ every_connection_closed (client w) (client w')).
  { intros s2 Hu2 Hp2 Hl2 Hc2 Hh2 Hm2 Hs2.
    rewrite !bind_modify. cbn [client relay].
    rewrite (bind_set_participant_ok env Hrelay roomId). cbn [client relay].
    unfold onDisconnect_remove. unfold bind at 1. unfold write_relay at 1. cbn [client relay].
    rewrite bind_modify. cbn [client relay]. unfold modify.
    eexists. split; [reflexivity|]. cbn [client relay].
    assert (Hclosed : every_connection_closed (client w)
                        (close_all (setCurrentRoomId (Some roomId) s2))).
    { intros id k Hm Hlt.
      apply (close_all_closes (setCurrentRoomId (Some roomId) s2) id k).
      - simpl. rewrite Hm2. exact Hm.
      - simpl. rewrite Hh2. exact Hlt. }
    unfold Contexts.setupWebRTCListeners, Part003.setupWebRTCListeners.
    assert (Hu3 : forall x, user (setPeerConnections ∅ (close_all (setCurrentRoomId x s2)))
                            = Some u).
    { intros x. simpl. through_shapes. simpl. exact Hu2. }
    cbn [user record setS_calls]. rewrite Hu3.
    split; [media_cases; simpl; through_shapes; reflexivity|].
    split; [media_cases; simpl; through_shapes; simpl; exact Hc2|].
    split; [reflexivity|].
    split.
    { rewrite !room_in_room. destruct (decide (roomId = roomId)); [| congruence]. simpl.
      rewrite Hp1. reflexivity. }
    split.
    { rewrite !room_in_room. destruct (decide (roomId = roomId)); [| congruence]. simpl.
      left. reflexivity. }
    split; [media_cases; simpl; through_shapes; simpl; exact Hp2|].
    split; [media_cases; simpl; through_shapes; reflexivity|].
    split; [media_cases; simpl; through_shapes; simpl; exact Hs2|].
    split.
    { destruct (truthy roomId), currentRoom; simpl; media_cases; simpl; through_shapes; simpl;
        try reflexivity; exact Hl2. }
    intros id k Hm Hlt. destruct (Hclosed id k Hm Hlt) as (pc & Hpc & Hlive).
    exists pc. split; [|exact Hlive].
    media_cases; simpl; simpl in Hpc; exact Hpc. }
  destruct (localStream (media (client w))) as [m |] eqn:Hls.
  - assert (E : localStream (media s1) = Some m) by (unfold s1; simpl; exact Hls).
    rewrite E. unfold bind at 1. unfold ret at 1.
    apply Hfinish; unfold s1; simpl; auto.
  - assert (E : localStream (media s1) = None) by (unfold s1; simpl; exact Hls).
    rewrite E.
    destruct (Hmedia eq_refl) as [stream Hstream].
    assert (Hinit : exists s2, Contexts.initLocalStream env true true s1 = (Some stream, s2)
                /\ user s2 = Some u /\ peers s2 = peers (client w)
                /\ listeners s2 = listeners (client w)
                /\ connectionStatus s2 = connectionStatus (client w)
                /\ heap s2 = heap (client w)
                /\ peerConnections s2 = peerConnections (client w)
                /\ is_Some (localStream (media s2))).
    { unfold Contexts.initLocalStream, Contexts.stop_local, Part003.stop_local.
      rewrite E. unfold s1 at 1. cbn [media record setS_calls].
      rewrite Hstream. eexists. split; [reflexivity|].
      unfold s1. simpl. repeat split; auto. }
    destruct Hinit as (s2 & Hi & F1 & F2 & F3 & F4 & F5 & F6 & F7).
    unfold bind at 1. rewrite bind_lift. cbn [client relay]. rewrite Hi. cbn [fst snd].
    unfold ret at 1.
    apply Hfinish; assumption.
Qed.

(** X2. [joinRoom] in the copy of src/contexts, called by
    a signed-in user with attempts left, the relay reachable and a local
    stream at hand or granted at the first request: it returns with the
    client in the room, the attempt counter at 0, the user's presence
    entry in the roster and registered for removal on disconnect, every
    connection held before closed and the map empty.  Unlike part_003 it
    leaves the status at connecting and the Peer records as they were,
    and it makes no offer: the participants listener is left to do
    that. *)
Theorem joinRoomContexts_joins
    (env : Env) (roomId : string) (currentRoom : bool) (w : World) (u : User) :
  user (client w) = Some u ->
  join_proceeds w roomId ->
  relayError env = None ->
  (localStream (media (client w)) = None ->
   is_Some (getUserMedia env (Contexts.constraints true true (media (client w))))) ->
  let r := Contexts.joinRoom env roomId currentRoom w in
  let s' := client (snd r) in
  let n' := room (relay (snd r)) roomId in
  fst r = Returned
  /\ currentRoomId s' = Some roomId
  /\ connectionStatus s' = Connecting
  /\ joinAttemptsRef s' = 0
  /\ joinAttemptedRef s' = false
  /\ participants n'
     = set_child (uid u) (presence_of env u) (participants (room (relay w) roomId))
  /\ In (uid u) (onDisconnectRemove n')
  /\ peers s' = peers (client w)
  /\ peerConnections s' = ∅
  /\ is_Some (localStream (media s'))
  /\ listeners s'
     = (if truthy roomId && currentRoom then all_listeners true else listeners (client w))
  /\ every_connection_closed (client w) s'.
Proof.
  intros Hu (_ & Hg & Hn) Hrelay Hmedia r s' n'.
  unfold s', n', r, Contexts.joinRoom. clear s' n' r.
  rewrite Hu, Hg. cbn zeta.
  assert (Hlt : (3 <? joinAttemptsRef (client w) + 1) = false) by (apply Nat.ltb_ge; lia).
  cbn [joinAttemptsRef setJoinAttempts setS_joinAttemptsRef]. rewrite Hlt.
  match goal with
  | |- context [try_catch (Contexts.join ?e ?u0 ?rm ?c) ?k ?w0] =>
      destruct (joinContexts_joins e u0 rm c w0 Hrelay) as
        (w' & Hj & J1 & J2 & J3 & J4 & J5 & J6 & J7 & J8 & J9 & J10);
      [exact Hu | exact Hmedia | unfold try_catch; rewrite Hj]
  end.
  cbn [fst snd client relay] in *.
  split; [reflexivity |]. split; [exact J1 |]. split; [exact J2 |]. split; [exact J3 |].
  split; [reflexivity |]. split; [exact J4 |]. split; [exact J5 |].
  split; [exact J6 |]. split; [exact J7 |]. split; [exact J8 |]. split; [exact J9 |].
  intros id k Hm Hk. destruct (J10 id k Hm Hk) as (pc & Hpc & Hl).
  exists pc. split; [exact Hpc | exact Hl].
Qed.

Lemma joinRoomContexts_joins_witness :
  let w := Example.alice_arrives in
  let r := Contexts.joinRoom (Example.env_of "alice") "r1" true w in
  let s' := client (snd r) in
  fst r = Returned
  /\ currentRoomId s' = Some "r1"
  /\ connectionStatus s' = Connecting
  /\ peers s' = []
  /\ child "alice" (participants (room (relay (snd r)) "r1"))
     = Some (presence_of (Example.env_of "alice") Example.alice_user).
Proof.
  intros w r s'.
  destruct (joinRoomContexts_joins (Example.env_of "alice") "r1" true w Example.alice_user)
    as (H1 & H2 & H3 & _ & _ & H6 & _ & H8 & _).
  - reflexivity.
  - split; [eexists; reflexivity | split; [reflexivity | simpl; lia]].
  - reflexivity.
  - intros _. eexists. reflexivity.
  - split; [exact H1|]. split; [exact H2|]. split; [exact H3|]. split; [exact H8|].
    fold r in H6. rewrite H6. reflexivity.
Defined.

(** * Media controls *)

Lemma flip_enabled_involutive (k : TrackKind) (t : Track) :
  flip_enabled k (flip_enabled k t) = t.
Proof.
  destruct t as [kd en ed], k, kd; unfold flip_enabled; simpl;
    rewrite ?negb_involutive; reflexivity.
Qed.

Lemma flip_enabled_comm (t : Track) :
  flip_enabled Audio (flip_enabled Video t) = flip_enabled Video (flip_enabled Audio t).
Proof. destruct t as [kd en ed], kd; reflexivity. Qed.

Lemma flip_tracks_involutive (k : TrackKind) (m : MediaStream) :
  flip_tracks k (flip_tracks k m) = m.
Proof.
  destruct m as [l]; unfold flip_tracks; simpl; f_equal.
  rewrite List.map_map.
  induction l as [|t l IH]; simpl; [reflexivity|].
  rewrite flip_enabled_involutive. f_equal. exact IH.
Qed.

Lemma flip_tracks_comm (m : MediaStream) :
  flip_tracks Audio (flip_tracks Video m) = flip_tracks Video (flip_tracks Audio m).
Proof.
  destruct m as [l]; unfold flip_tracks; simpl; f_equal.
  rewrite !List.map_map. apply List.map_ext. intros t. apply flip_enabled_comm.
Qed.

(** X10. Muting is undone by muting again, and the two switches do
    not interfere: [toggleAudio] twice and [toggleVideo] twice give the
    state back as it was, and the two commute.  Without a local stream
    neither does anything. *)
Theorem toggles_undo_and_commute (s : State) :
  toggleAudio (toggleAudio s) = s
  /\ toggleVideo (toggleVideo s) = s
  /\ toggleAudio (toggleVideo s) = toggleVideo (toggleAudio s)
  /\ (localStream (media s) = None -> toggleAudio s = s /\ toggleVideo s = s).
Proof.
  destruct s as [u md ps cr er cs pcs ja jn ls hp cl].
  destruct md as [lst ia iv iss ir hv ha sv sa sss os mr].
  destruct lst as [m|]; [|repeat split; reflexivity].
  unfold toggleAudio, toggleVideo; cbn.
  rewrite !flip_tracks_involutive, !negb_involutive, flip_tracks_comm.
  repeat split; try reflexivity; discriminate.
Qed.

Lemma for_connections_frame (f : PeerConnection -> Result unit * PeerConnection) (s : State) :
  snd (for_connections f s) = setHeap (heap (snd (for_connections f s))) s.
Proof.
  unfold for_connections.
  assert (G : forall l (acc : Result unit * State),
             snd acc = setHeap (heap (snd acc)) s ->
             snd (fold_left (connection_step f) l acc)
             = setHeap (heap (snd (fold_left (connection_step f) l acc))) s).
  { induction l as [|[id k] l IH]; intros acc Hacc; simpl; [exact Hacc|].
    apply IH. destruct acc as [[u|e] st]; simpl in *; [|exact Hacc].
    destruct (heap st !! k) as [pc|]; simpl; [|exact Hacc].
    destruct (f pc) as [r pc']; simpl.
    rewrite Hacc at 1. destruct s; reflexivity. }
  apply G. destruct s; reflexivity.
Qed.

Lemma for_connections_media (f : PeerConnection -> Result unit * PeerConnection) (s : State) :
  media (snd (for_connections f s)) = media s.
Proof. rewrite for_connections_frame. reflexivity. Qed.

Lemma flags_match_media (s s' : State) :
  media s' = media s -> flags_match_tracks s -> flags_match_tracks s'.
Proof. unfold flags_match_tracks. intros ->. auto. Qed.

Lemma flags_match_intro (s : State) (m : MediaStream) :
  localStream (media s) = Some m ->
  (forall t, In t (tracks m) -> enabled t = flag_of (media s) (kind t)) ->
  flags_match_tracks s.
Proof. intros E H m' t E'. rewrite E in E'. injection E' as <-. apply H. Qed.

(** X11. The switches keep the controls and the tracks
    together: when the [enabled] bit of every local track is the flag of
    its kind, it still is after [toggleAudio] and after [toggleVideo]. *)
Theorem toggles_keep_flags_and_tracks_together (s : State) :
  flags_match_tracks s ->
  flags_match_tracks (toggleAudio s) /\ flags_match_tracks (toggleVideo s).
Proof.
  intros H. unfold toggleAudio, toggleVideo.
  destruct (localStream (media s)) as [m|] eqn:E; [|split; exact H].
  split.
  - eapply flags_match_intro; [reflexivity|].
    intros t Ht. simpl in Ht. apply in_map_iff in Ht as (t0 & <- & Ht0).
    specialize (H m t0 E Ht0). destruct t0 as [kd en ed], kd; simpl in *; congruence.
  - eapply flags_match_intro; [reflexivity|].
    intros t Ht. simpl in Ht. apply in_map_iff in Ht as (t0 & <- & Ht0).
    specialize (H m t0 E Ht0). destruct t0 as [kd en ed], kd; simpl in *; congruence.
Qed.

Lemma toggles_keep_flags_and_tracks_together_witness :
  flags_match_tracks (toggleAudio (Example.in_room_r1 "alice"))
  /\ flags_match_tracks (toggleVideo (Example.in_room_r1 "alice")).
Proof.
  apply toggles_keep_flags_and_tracks_together.
  intros m t E Ht. vm_compute in E. injection E as <-.
  simpl in Ht. destruct Ht as [<-|[<-|[]]]; reflexivity.
Defined.

Lemma audio_fallback003_media (env : Env) (b : bool) (s : State) :
  let s' := snd (Reinit003.audio_fallback env b s) in
  isAudioEnabled (media s') = isAudioEnabled (media s)
  /\ isVideoEnabled (media s') = isVideoEnabled (media s)
  /\ (localStream (media s') = localStream (media s)
      \/ exists a, getUserMedia env Part003.audio_only = Some a
                   /\ localStream (media s')
                      = Some {| tracks := List.map (set_enabled Audio b) (tracks a) |}).
Proof.
  unfold Reinit003.audio_fallback.
  destruct (getUserMedia env Part003.audio_only) as [a|] eqn:Ea; cbn zeta.
  - match goal with |- context [for_connections ?f ?s0] =>
      pose proof (for_connections_media f s0) as Hm;
      destruct (for_connections f s0) as [[u|e] s1] end;
      simpl in Hm; simpl; rewrite Hm; simpl;
      (split; [reflexivity|split; [reflexivity|right; exists a; split; reflexivity]]).
  - simpl. split; [reflexivity|split; [reflexivity|left; reflexivity]].
Qed.

Lemma stop_local_flags (s : State) :
  flags_match_tracks s -> flags_match_tracks (Part003.stop_local s).
Proof.
  intros H. unfold Part003.stop_local.
  destruct (localStream (media s)) as [m|] eqn:E; [|exact H].
  eapply flags_match_intro; [reflexivity|].
  intros t Ht. simpl in Ht. apply in_map_iff in Ht as (t0 & <- & Ht0).
  exact (H m t0 E Ht0).
Qed.

Lemma stop_local_keeps_flags (s : State) :
  isAudioEnabled (media (Part003.stop_local s)) = isAudioEnabled (media s)
  /\ isVideoEnabled (media (Part003.stop_local s)) = isVideoEnabled (media s).
Proof.
  unfold Part003.stop_local. destruct (localStream (media s)); split; reflexivity.
Qed.

Lemma enabled_set_enabled_twice (v a : bool) (t : Track) :
  enabled (set_enabled Audio a (set_enabled Video v t))
  = match kind t with Audio => a | Video => v end
  /\ kind (set_enabled Audio a (set_enabled Video v t)) = kind t.
Proof. destruct t as [kd en ed], kd; split; reflexivity. Qed.

Lemma is_kind_filter_nil (k : TrackKind) (l : list Track) (t : Track) :
  List.filter (is_kind k) l = [] -> In t l -> kind t <> k.
Proof.
  intros Hn Ht Hk.
  assert (Hin : In t (List.filter (is_kind k) l)).
  { apply filter_In. split; [exact Ht|]. unfold is_kind. rewrite Hk. destruct k; reflexivity. }
  rewrite Hn in Hin. exact Hin.
Qed.

(** X12. In part_003 a refresh of the devices keeps what
    the user muted: [reinitializeMedia] leaves [isAudioEnabled] and
    [isVideoEnabled] as they are, and when every local track agreed with
    the flag of its kind before the call, every local track agrees after
    it, whether the call gets a camera stream, a microphone stream or
    nothing. *)
Theorem reinitializeMedia003_keeps_mute (env : Env) (n : nat) (s : State) :
  flags_match_tracks s -> audio_only_honoured env ->
  let s' := snd (snd (Reinit003.reinitializeMedia env (n, s))) in
  isAudioEnabled (media s') = isAudioEnabled (media s)
  /\ isVideoEnabled (media s') = isVideoEnabled (media s)
  /\ flags_match_tracks s'.
Proof.
  intros Hf Hh. unfold Reinit003.reinitializeMedia.
  pose proof (stop_local_flags s Hf) as Hf0.
  destruct (stop_local_keeps_flags s) as [Ka Kv].
  set (s0 := Part003.stop_local s) in *.
  assert (Tail : forall s1 : State,
             isAudioEnabled (media s1) = isAudioEnabled (media s) ->
             isVideoEnabled (media s1) = isVideoEnabled (media s) ->
             flags_match_tracks s1 ->
             let s' := snd (Reinit003.audio_fallback env (isAudioEnabled (media s)) s1) in
             isAudioEnabled (media s') = isAudioEnabled (media s)
             /\ isVideoEnabled (media s') = isVideoEnabled (media s)
             /\ flags_match_tracks s').
  { intros s1 Ha Hv Hf1.
    destruct (audio_fallback003_media env (isAudioEnabled (media s)) s1) as (Pa & Pv & Pl).
    cbn zeta. split; [congruence|split; [congruence|]].
    destruct Pl as [Pl|(a & Ea & Pl)].
    - intros m t Em Ht. rewrite Pl in Em.
      unfold flag_of. rewrite Pa, Pv. exact (Hf1 m t Em Ht).
    - eapply flags_match_intro; [exact Pl|].
      intros t Ht. simpl in Ht. apply in_map_iff in Ht as (t0 & <- & Ht0).
      pose proof (is_kind_filter_nil Video (tracks a) t0 (Hh a Ea) Ht0) as Hk.
      unfold flag_of. rewrite Pa, Pv, Ha.
      destruct t0 as [kd en ed], kd; simpl in *; [reflexivity|congruence]. }
  destruct (getUserMedia env (Part003.constraints true true (media s0))) as [stream|] eqn:Eg.
  - cbn zeta.
    match goal with |- context [for_connections ?f ?sx] =>
      pose proof (for_connections_media f sx) as Hm;
      destruct (for_connections f sx) as [[u|e] s1] eqn:Efc end; simpl in Hm.
    + simpl. rewrite Hm. simpl. split; [exact Ka|split; [exact Kv|]].
      eapply flags_match_intro; [rewrite Hm; reflexivity|].
      intros t Ht. simpl in Ht. apply in_map_iff in Ht as (t0 & <- & Ht0).
      destruct (enabled_set_enabled_twice (isVideoEnabled (media s)) (isAudioEnabled (media s)) t0)
        as [-> ->].
      rewrite Hm. destruct (kind t0); simpl; congruence.
    + assert (Hf1 : flags_match_tracks s1).
      { eapply flags_match_intro; [rewrite Hm; reflexivity|].
        intros t Ht. simpl in Ht. apply in_map_iff in Ht as (t0 & <- & Ht0).
        destruct (enabled_set_enabled_twice (isVideoEnabled (media s)) (isAudioEnabled (media s)) t0)
          as [-> ->].
        rewrite Hm. destruct (kind t0); simpl; congruence. }
      assert (Ha1 : isAudioEnabled (media s1) = isAudioEnabled (media s))
        by (rewrite Hm; simpl; exact Ka).
      assert (Hv1 : isVideoEnabled (media s1) = isVideoEnabled (media s))
        by (rewrite Hm; simpl; exact Kv).
      specialize (Tail s1 Ha1 Hv1 Hf1). cbn zeta in Tail.
      destruct (Reinit003.audio_fallback env (isAudioEnabled (media s)) s1) as [r s2].
      exact Tail.
  - assert (Hf1 : flags_match_tracks
                    (record (CallGetUserMedia (Part003.constraints true true (media s0))) s0))
      by (eapply flags_match_media; [|exact Hf0]; reflexivity).
    match goal with |- context [Reinit003.audio_fallback ?e ?b ?sx] =>
      specialize (Tail sx Ka Kv Hf1); cbn zeta in Tail;
      destruct (Reinit003.audio_fallback e b sx) as [r s2] end.
    exact Tail.
Qed.

Lemma reinitializeMedia003_keeps_mute_witness :
  let s := toggleAudio Example.connected_to_bob in
  let s' := snd (snd (Reinit003.reinitializeMedia Example.env_audio_only (0, s))) in
  isAudioEnabled (media s) = false
  /\ isAudioEnabled (media s') = isAudioEnabled (media s)
  /\ isVideoEnabled (media s') = isVideoEnabled (media s)
  /\ flags_match_tracks s'.
Proof.
  intros s s'. split; [reflexivity|].
  apply (reinitializeMedia003_keeps_mute Example.env_audio_only 0 s).
  - intros m t E Ht. vm_compute in E. injection E as <-.
    simpl in Ht. destruct Ht as [<-|[<-|[]]]; reflexivity.
  - intros a E. vm_compute in E. injection E as <-. reflexivity.
Defined.

(** ** The connections during [reinitializeMedia] *)

Lemma live_with_senders (l : list Track) (pc : PeerConnection) :
  RTC.live (RTC.with_senders l pc) = RTC.live pc.
Proof. destruct pc; reflexivity. Qed.

Lemma senders_with_senders (l : list Track) (pc : PeerConnection) :
  senders (RTC.with_senders l pc) = l.
Proof. destruct pc; reflexivity. Qed.

Lemma with_senders_twice (l l' : list Track) (pc : PeerConnection) :
  RTC.with_senders l' (RTC.with_senders l pc) = RTC.with_senders l' pc.
Proof. destruct pc; reflexivity. Qed.

Lemma replace_or_add_all_live (found l : list Track) (pc : PeerConnection) :
  RTC.live pc = true ->
  replace_or_add_all found l pc
  = (Ok tt, RTC.with_senders (fold_left (senders_step found) l (senders pc)) pc).
Proof.
  unfold replace_or_add_all. revert pc.
  induction l as [|t l IH]; intros pc Hl; cbn [fold_left].
  - destruct pc; reflexivity.
  - assert (E : replace_or_add found (Ok tt, pc) t
                = (Ok tt, RTC.with_senders (senders_step found (senders pc) t) pc)).
    { unfold replace_or_add, senders_step, replaceTrack, addTrack, RTC.addTrack. rewrite Hl.
      destruct (find_sender (kind t) found); reflexivity. }
    rewrite E, IH by (rewrite live_with_senders; exact Hl).
    rewrite senders_with_senders, with_senders_twice. reflexivity.
Qed.

Section ForConnections.
Variable f : PeerConnection -> Result unit * PeerConnection.
Variable Q : PeerConnection -> Prop.
Hypothesis f_ok : forall pc, RTC.live pc = true ->
  fst (f pc) = Ok tt /\ RTC.live (snd (f pc)) = true /\ Q (snd (f pc)).

Lemma for_connections_fold (l done : list (string * nat)) (st : State) :
  (forall k pc, heap st !! k = Some pc -> (exists id, In (id, k) (done ++ l)) -> RTC.live pc = true) ->
  (forall id k pc, In (id, k) done -> heap st !! k = Some pc -> Q pc) ->
  let r := fold_left (connection_step f) l (Ok tt, st) in
  fst r = Ok tt
  /\ forall id k pc, In (id, k) (done ++ l) -> heap (snd r) !! k = Some pc ->
       Q pc /\ RTC.live pc = true.
Proof.
  revert done st. induction l as [|[id0 k0] l IH]; intros done st Hlive Hdone; simpl.
  - split; [reflexivity|]. intros id k pc Hin Hk.
    rewrite app_nil_r in Hin. split; [eapply Hdone; eauto|].
    eapply Hlive; [exact Hk|]. exists id. rewrite app_nil_r. exact Hin.
  - destruct (heap st !! k0) as [pc0|] eqn:E0.
    + assert (L0 : RTC.live pc0 = true).
      { eapply Hlive; [exact E0|]. exists id0. apply in_or_app. right. left. reflexivity. }
      destruct (f_ok pc0 L0) as (F1 & F2 & F3).
      destruct (f pc0) as [r0 pc0'] eqn:Ef. simpl in F1, F2, F3. subst r0.
      specialize (IH (done ++ [(id0, k0)]) (update_pc k0 (fun _ => pc0') st)).
      rewrite <- app_assoc in IH. simpl in IH. apply IH.
      * intros k pc Hk Hex. simpl in Hk.
        destruct (decide (k = k0)) as [->|Hne].
        -- rewrite list_lookup_alter_eq, E0 in Hk. simpl in Hk. congruence.
        -- rewrite list_lookup_alter_ne in Hk by congruence. eapply Hlive; eauto.
      * intros id k pc Hin Hk. simpl in Hk.
        destruct (decide (k = k0)) as [->|Hne].
        -- rewrite list_lookup_alter_eq, E0 in Hk. simpl in Hk. congruence.
        -- rewrite list_lookup_alter_ne in Hk by congruence.
           apply in_app_or in Hin as [Hin|[Hin|[]]]; [eapply Hdone; eauto|congruence].
    + specialize (IH (done ++ [(id0, k0)]) st).
      rewrite <- app_assoc in IH. simpl in IH. apply IH.
      * exact Hlive.
      * intros id k pc Hin Hk.
        apply in_app_or in Hin as [Hin|[Hin|[]]]; [eapply Hdone; eauto|congruence].
Qed.

Lemma for_connections_post (s : State) :
  all_open s ->
  let r := for_connections f s in
  fst r = Ok tt
  /\ forall id k pc, peerConnections s !! id = Some k -> heap (snd r) !! k = Some pc ->
       Q pc /\ RTC.live pc = true.
Proof.
  intros Hopen. unfold for_connections.
  destruct (for_connections_fold (map_to_list (peerConnections s)) [] s) as [H1 H2].
  - intros k pc Hk [id Hin]. simpl in Hin.
    apply list_elem_of_In, elem_of_map_to_list in Hin. eapply Hopen; eauto.
  - intros id k pc [].
  - split; [exact H1|]. intros id k pc Hid Hk.
    apply (H2 id k pc); [|exact Hk].
    simpl. apply list_elem_of_In, elem_of_map_to_list. exact Hid.
Qed.

End ForConnections.

Lemma is_kind_true (t x : Track) : is_kind (kind t) x = true <-> kind x = kind t.
Proof. destruct t as [k1 e1 d1], x as [k2 e2 d2], k1, k2; simpl; split; congruence. Qed.

Lemma find_sender_replace (k : TrackKind) (t : Track) (l : list Track) :
  find_sender k (replace_kind t l) = find_sender k l.
Proof.
  unfold find_sender. induction l as [|x l IH]; simpl; [reflexivity|].
  destruct (is_kind (kind t) x) eqn:E; simpl.
  - apply is_kind_true in E. f_equal. unfold is_kind. rewrite E. reflexivity.
  - rewrite IH. reflexivity.
Qed.

Lemma find_sender_app (k : TrackKind) (l l' : list Track) :
  find_sender k l = true -> find_sender k (l ++ l') = true.
Proof. unfold find_sender. rewrite existsb_app. intros ->. reflexivity. Qed.

Lemma replace_kind_new (t : Track) (l : list Track) :
  find_sender (kind t) l = true -> In t (replace_kind t l).
Proof.
  unfold find_sender. induction l as [|x l IH]; simpl; [discriminate|].
  destruct (is_kind (kind t) x); simpl; [left; reflexivity|].
  intros H. right. apply IH. exact H.
Qed.

Lemma replace_kind_old (t x : Track) (l : list Track) :
  In x l -> In x (replace_kind t l) \/ kind x = kind t.
Proof.
  induction l as [|y l IH]; simpl; [intros []|].
  intros [->|Hin].
  - destruct (is_kind (kind t) x) eqn:E; [right; apply is_kind_true; exact E|left; left; reflexivity].
  - destruct (is_kind (kind t) y); [left; right; exact Hin|].
    destruct (IH Hin) as [H|H]; [left; right; exact H|right; exact H].
Qed.

Lemma senders_step_carries (found all : list Track) (l seen cur : list Track) :
  (forall t, In t (seen ++ l) -> In t all) ->
  (forall t, In t l -> find_sender (kind t) found = true -> find_sender (kind t) cur = true) ->
  (forall t, In t seen -> exists t', In t' cur /\ kind t' = kind t /\ In t' all) ->
  forall t, In t (seen ++ l) ->
    exists t', In t' (fold_left (senders_step found) l cur) /\ kind t' = kind t /\ In t' all.
Proof.
  revert seen cur. induction l as [|t0 l IH]; intros seen cur Hall Hfound Hseen t Ht; simpl.
  - rewrite app_nil_r in Ht. apply Hseen. exact Ht.
  - assert (H0 : In t0 all) by (apply Hall; apply in_or_app; right; left; reflexivity).
    apply (IH (seen ++ [t0])).
    + intros x Hx. apply Hall. rewrite <- app_assoc in Hx. exact Hx.
    + intros x Hx Hf. unfold senders_step.
      destruct (find_sender (kind t0) found).
      * rewrite find_sender_replace. apply Hfound; [right; exact Hx|exact Hf].
      * apply find_sender_app. apply Hfound; [right; exact Hx|exact Hf].
    + intros x Hx. unfold senders_step.
      destruct (find_sender (kind t0) found) eqn:Ef.
      * assert (Hc : find_sender (kind t0) cur = true)
          by (apply Hfound; [left; reflexivity|exact Ef]).
        apply in_app_or in Hx as [Hx|[<-|[]]].
        -- destruct (Hseen x Hx) as (t' & Hin & Hk & Ha).
           destruct (replace_kind_old t0 t' cur Hin) as [Hr|Hr].
           ++ exists t'. auto.
           ++ exists t0. split; [apply replace_kind_new; exact Hc|split; [congruence|exact H0]].
        -- exists t0. split; [apply replace_kind_new; exact Hc|split; [reflexivity|exact H0]].
      * apply in_app_or in Hx as [Hx|[<-|[]]].
        -- destruct (Hseen x Hx) as (t' & Hin & Hk & Ha).
           exists t'. split; [apply in_or_app; left; exact Hin|auto].
        -- exists t0. split; [apply in_or_app; right; left; reflexivity|auto].
    + rewrite <- app_assoc. exact Ht.
Qed.

Lemma update_connection_carries (stream : MediaStream) (pc : PeerConnection) :
  RTC.live pc = true ->
  fst (replace_or_add_all (senders pc) (tracks stream) pc) = Ok tt
  /\ RTC.live (snd (replace_or_add_all (senders pc) (tracks stream) pc)) = true
  /\ carries stream (snd (replace_or_add_all (senders pc) (tracks stream) pc)).
Proof.
  intros Hl. rewrite replace_or_add_all_live by exact Hl. simpl.
  split; [reflexivity|]. split; [rewrite live_with_senders; exact Hl|].
  intros t Ht. rewrite senders_with_senders.
  apply (senders_step_carries (senders pc) (tracks stream) (tracks stream) [] (senders pc));
    simpl; auto. intros x [].
Qed.

Lemma find_sender_remove_other (k k' : TrackKind) (l : list Track) :
  k <> k' -> find_sender k (remove_kind k' l) = find_sender k l.
Proof.
  intros Hne. unfold find_sender. induction l as [|x l IH]; simpl; [reflexivity|].
  destruct (is_kind k' x) eqn:E; simpl.
  - assert (is_kind k x = false) as ->; [|reflexivity].
    destruct x as [kx ex dx], k, k', kx; simpl in *; congruence.
  - rewrite IH. reflexivity.
Qed.

Lemma kind_of_filtered (k : TrackKind) (l : list Track) (t : Track) :
  In t (List.filter (is_kind k) l) -> kind t = k.
Proof.
  intros H. apply filter_In in H as [_ H].
  destruct t as [kt et dt], k, kt; simpl in *; congruence.
Qed.

Lemma update_connection_audio_carries (a : MediaStream) (pc : PeerConnection) :
  getVideoTracks a = [] ->
  RTC.live pc = true ->
  fst (Reinit003.update_connection_audio a pc) = Ok tt
  /\ RTC.live (snd (Reinit003.update_connection_audio a pc)) = true
  /\ carries a (snd (Reinit003.update_connection_audio a pc)).
Proof.
  intros Hv Hl. unfold Reinit003.update_connection_audio, removeTrack. rewrite Hl.
  assert (Haud : List.filter (is_kind Audio) (tracks a) = tracks a).
  { assert (G : forall l, List.filter (is_kind Video) l = [] -> List.filter (is_kind Audio) l = l).
    { induction l as [|x l IH]; simpl; [reflexivity|].
      destruct x as [kx ex dx], kx; simpl; [intros H; rewrite IH by exact H; reflexivity|discriminate]. }
    apply G. exact Hv. }
  set (pc1 := if find_sender Video (senders pc) then _ else _).
  assert (H1 : exists l1, pc1 = (Ok tt, RTC.with_senders l1 pc)
                          /\ forall k, k <> Video ->
                               find_sender k l1 = find_sender k (senders pc)).
  { subst pc1. destruct (find_sender Video (senders pc)).
    - exists (remove_kind Video (senders pc)). split; [reflexivity|].
      intros k Hk. apply find_sender_remove_other. exact Hk.
    - exists (senders pc). split; [destruct pc; reflexivity|reflexivity]. }
  destruct H1 as (l1 & -> & Hfind).
  rewrite replace_or_add_all_live by (rewrite live_with_senders; exact Hl). simpl.
  split; [reflexivity|]. split; [rewrite !live_with_senders; exact Hl|].
  intros t Ht. rewrite !senders_with_senders.
  unfold getAudioTracks. rewrite Haud.
  apply (senders_step_carries (senders pc) (tracks a) (tracks a) [] l1); simpl; auto.
  - intros x Hx Hf. rewrite Hfind; [exact Hf|].
    rewrite <- Haud in Hx. apply kind_of_filtered in Hx. congruence.
  - intros x [].
Qed.

Lemma for_connections_run (f : PeerConnection -> Result unit * PeerConnection)
    (Q : PeerConnection -> Prop) (s : State) :
  (forall pc, RTC.live pc = true ->
     fst (f pc) = Ok tt /\ RTC.live (snd (f pc)) = true /\ Q (snd (f pc))) ->
  all_open s ->
  exists hp, for_connections f s = (Ok tt, setHeap hp s)
             /\ forall id k pc, peerConnections s !! id = Some k -> hp !! k = Some pc ->
                  Q pc /\ RTC.live pc = true.
Proof.
  intros Hf Hopen.
  destruct (for_connections_post f Q Hf s Hopen) as [H1 H2].
  exists (heap (snd (for_connections f s))). split.
  - rewrite <- for_connections_frame. rewrite <- H1. destruct (for_connections f s); reflexivity.
  - exact H2.
Qed.

Lemma all_open_same (s s' : State) :
  heap s' = heap s -> peerConnections s' = peerConnections s -> all_open s -> all_open s'.
Proof. unfold all_open. intros -> ->. auto. Qed.

Lemma stop_local_same (s : State) :
  heap (Part003.stop_local s) = heap s
  /\ peerConnections (Part003.stop_local s) = peerConnections s
  /\ webRTCError (Part003.stop_local s) = webRTCError s
  /\ selectedVideoDevice (media (Part003.stop_local s)) = selectedVideoDevice (media s)
  /\ selectedAudioDevice (media (Part003.stop_local s)) = selectedAudioDevice (media s)
  /\ localStream (media (Part003.stop_local s)) = stop_all <$> localStream (media s).
Proof.
  unfold Part003.stop_local. destruct (localStream (media s)) eqn:E; simpl; rewrite ?E; auto 10.
Qed.

Lemma update_connection_audio_ok (a : MediaStream) (pc : PeerConnection) :
  RTC.live pc = true ->
  fst (Reinit003.update_connection_audio a pc) = Ok tt
  /\ RTC.live (snd (Reinit003.update_connection_audio a pc)) = true
  /\ (getVideoTracks a = [] -> carries a (snd (Reinit003.update_connection_audio a pc))).
Proof.
  intros Hl. unfold Reinit003.update_connection_audio, removeTrack. rewrite Hl.
  assert (E : exists l1, (if find_sender Video (senders pc)
                          then (Ok tt, RTC.with_senders (remove_kind Video (senders pc)) pc)
                          else (Ok tt, pc)) = (Ok tt, RTC.with_senders l1 pc)).
  { destruct (find_sender Video (senders pc)); eexists; [reflexivity|].
    instantiate (1 := senders pc). destruct pc; reflexivity. }
  split; [|split].
  - destruct E as (l1 & ->).
    rewrite replace_or_add_all_live by (rewrite live_with_senders; exact Hl). reflexivity.
  - destruct E as (l1 & ->).
    rewrite replace_or_add_all_live by (rewrite live_with_senders; exact Hl).
    simpl. rewrite !live_with_senders. exact Hl.
  - intros Hv. pose proof (update_connection_audio_carries a pc Hv Hl) as (_ & _ & H).
    unfold Reinit003.update_connection_audio, removeTrack in H. rewrite Hl in H. exact H.
Qed.

(** X13. What [reinitializeMedia] of part_003 answers while
    every connection in the map is open: with a camera and microphone
    stream it returns true, and the local stream is that stream with its
    video and audio tracks enabled as [isVideoEnabled] and
    [isAudioEnabled] say; refused that but given the microphone alone it
    returns true with [hasVideo] false and [hasAudio] true; refused both
    it returns false, sets the error and leaves the old stream in place
    with its tracks stopped.  A success does not clear an earlier error,
    and every call counts one attempt. *)
Theorem reinitializeMedia003_outcome (env : Env) (n : nat) (s : State) :
  all_open s ->
  let r := Reinit003.reinitializeMedia env (n, s) in
  let s' := snd (snd r) in
  fst (snd r) = n + 1
  /\ match getUserMedia env (Part003.constraints true true (media s)),
           getUserMedia env Part003.audio_only with
     | Some stream, _ =>
         fst r = true
         /\ localStream (media s')
            = Some (enable_tracks (isVideoEnabled (media s)) (isAudioEnabled (media s)) stream)
         /\ hasVideo (media s') = (0 <? length (getVideoTracks stream))
         /\ hasAudio (media s') = (0 <? length (getAudioTracks stream))
         /\ webRTCError s' = webRTCError s
     | None, Some a =>
         fst r = true
         /\ localStream (media s')
            = Some {| tracks := List.map (set_enabled Audio (isAudioEnabled (media s))) (tracks a) |}
         /\ hasVideo (media s') = false
         /\ hasAudio (media s') = true
         /\ webRTCError s' = webRTCError s
     | None, None =>
         fst r = false
         /\ localStream (media s') = stop_all <$> localStream (media s)
         /\ hasVideo (media s') = false
         /\ hasAudio (media s') = false
         /\ webRTCError s' = Some could_not_access
     end.
Proof.
  intros Hopen. unfold Reinit003.reinitializeMedia.
  destruct (stop_local_same s) as (Sh & Sp & Se & Sv & Sa & Sl).
  assert (Hc : Part003.constraints true true (media (Part003.stop_local s))
               = Part003.constraints true true (media s)).
  { unfold Part003.constraints. rewrite Sv, Sa. reflexivity. }
  rewrite Hc.
  set (s0 := Part003.stop_local s) in *.
  destruct (getUserMedia env (Part003.constraints true true (media s))) as [stream|] eqn:Eg.
  - cbn zeta.
    match goal with |- context [for_connections ?f ?sx] =>
      destruct (for_connections_run f (fun _ => True) sx) as (hp & E & _);
        [intros pc Hl; destruct (update_connection_carries
                                   (enable_tracks (isVideoEnabled (media s))
                                      (isAudioEnabled (media s)) stream) pc Hl) as (A & B & _);
         auto
        |eapply all_open_same; [| |exact Hopen]; [exact Sh|exact Sp]
        |rewrite E] end.
    simpl. repeat split; try reflexivity. exact Se.
  - unfold Reinit003.audio_fallback.
    destruct (getUserMedia env Part003.audio_only) as [a|] eqn:Ea; cbn zeta.
    + match goal with |- context [for_connections ?f ?sx] =>
        destruct (for_connections_run f (fun _ => True) sx) as (hp & E & _);
          [intros pc Hl;
           destruct (update_connection_audio_ok
                       {| tracks := List.map (set_enabled Audio (isAudioEnabled (media s)))
                                      (tracks a) |} pc Hl) as (A & B & _); auto
          |eapply all_open_same; [| |exact Hopen]; [exact Sh|exact Sp]
          |rewrite E] end.
      simpl. repeat split; try reflexivity. exact Se.
    + simpl. repeat split; try reflexivity. exact Sl.
Qed.

Lemma reinitializeMedia003_outcome_witness :
  let s := toggleAudio Example.connected_to_bob in
  let r := Reinit003.reinitializeMedia Example.env_audio_only (0, s) in
  fst r = true
  /\ localStream (media (snd (snd r)))
     = Some {| tracks := [ {| kind := Audio; enabled := false; ended := false |} ] |}
  /\ hasVideo (media (snd (snd r))) = false
  /\ hasAudio (media (snd (snd r))) = true
  /\ webRTCError (snd (snd r)) = None.
Proof.
  intros s r.
  destruct (reinitializeMedia003_outcome Example.env_audio_only 0 s) as [_ H].
  - intros id k pc Hid Hk.
    destruct (decide (id = "bob")) as [->|Hne].
    + vm_compute in Hid. injection Hid as <-. vm_compute in Hk. injection Hk as <-. reflexivity.
    + unfold s, toggleAudio in Hid. simpl in Hid. unfold Example.connected_to_bob in Hid.
      simpl in Hid. rewrite lookup_insert_ne in Hid by congruence.
      rewrite lookup_empty in Hid. discriminate.
  - exact H.
Defined.

(** X14. When [reinitializeMedia] of part_003 returns
    true with every connection in the map open, each of these
    connections is still open and sends, for every track of the new local
    stream, a track of that stream of the same kind. *)
Theorem reinitializeMedia003_connections_carry_the_stream (env : Env) (n : nat) (s : State) :
  all_open s -> audio_only_honoured env ->
  let r := Reinit003.reinitializeMedia env (n, s) in
  let s' := snd (snd r) in
  fst r = true ->
  exists m, localStream (media s') = Some m
            /\ forall id pc, connection_of s' id = Some pc ->
                 RTC.live pc = true /\ carries m pc.
Proof.
  intros Hopen Hh. unfold Reinit003.reinitializeMedia.
  destruct (stop_local_same s) as (Sh & Sp & Se & Sv & Sa & Sl).
  set (s0 := Part003.stop_local s) in *.
  destruct (getUserMedia env (Part003.constraints true true (media s0))) as [stream|] eqn:Eg.
  - cbn zeta.
    match goal with |- context [for_connections (Reinit003.update_connection ?m) ?sx] =>
      destruct (for_connections_run (Reinit003.update_connection m) (carries m) sx)
        as (hp & E & Hq);
        [intros pc Hl; exact (update_connection_carries m pc Hl)
        |eapply all_open_same; [| |exact Hopen]; [exact Sh|exact Sp]
        |rewrite E] end.
    simpl. intros _. eexists. split; [reflexivity|].
    intros id pc Hc. unfold connection_of in Hc. simpl in Hc.
    destruct (peerConnections s0 !! id) as [k|] eqn:Ek; [|discriminate].
    destruct (Hq id k pc Ek Hc) as [H1 H2]. split; [exact H2|exact H1].
  - unfold Reinit003.audio_fallback.
    destruct (getUserMedia env Part003.audio_only) as [a|] eqn:Ea; cbn zeta;
      [|simpl; discriminate].
    assert (Hv : getVideoTracks
                   {| tracks := List.map (set_enabled Audio (isAudioEnabled (media s)))
                                  (tracks a) |} = []).
    { pose proof (Hh a Ea) as Hn. unfold getVideoTracks in *. simpl.
      revert Hn. generalize (tracks a). induction l as [|x l IH]; simpl; [reflexivity|].
      destruct x as [kx ex dx], kx; simpl; [exact IH|discriminate]. }
    match goal with |- context [for_connections (Reinit003.update_connection_audio ?m) ?sx] =>
      destruct (for_connections_run (Reinit003.update_connection_audio m) (carries m) sx)
        as (hp & E & Hq);
        [intros pc Hl; destruct (update_connection_audio_ok m pc Hl) as (A & B & C); auto
        |eapply all_open_same; [| |exact Hopen]; [exact Sh|exact Sp]
        |rewrite E] end.
    simpl. intros _. eexists. split; [reflexivity|].
    intros id pc Hc. unfold connection_of in Hc. simpl in Hc.
    destruct (peerConnections s0 !! id) as [k|] eqn:Ek; [|discriminate].
    destruct (Hq id k pc Ek Hc) as [H1 H2]. split; [exact H2|exact H1].
Qed.

Lemma all_open_connected_to_bob : all_open Example.connected_to_bob.
Proof.
  intros id k pc Hid Hk.
  destruct (decide (id = "bob")) as [->|Hne].
  - vm_compute in Hid. injection Hid as <-. vm_compute in Hk. injection Hk as <-. reflexivity.
  - unfold Example.connected_to_bob in Hid. simpl in Hid.
    rewrite lookup_insert_ne in Hid by congruence.
    rewrite lookup_empty in Hid. discriminate.
Qed.

Lemma audio_only_honoured_example : audio_only_honoured Example.env_audio_only.
Proof. intros a E. vm_compute in E. injection E as <-. reflexivity. Qed.

Lemma reinitializeMedia003_connections_carry_the_stream_witness :
  let r := Reinit003.reinitializeMedia Example.env_audio_only (0, Example.connected_to_bob) in
  exists m, localStream (media (snd (snd r))) = Some m
            /\ forall id pc, connection_of (snd (snd r)) id = Some pc ->
                 RTC.live pc = true /\ carries m pc.
Proof.
  intros r.
  apply (reinitializeMedia003_connections_carry_the_stream Example.env_audio_only 0
           Example.connected_to_bob).
  - exact all_open_connected_to_bob.
  - exact audio_only_honoured_example.
  - reflexivity.
Defined.

(** X15. In webrtc-context.tsx a refresh of the devices
    forgets what the user muted: with every connection in the map open
    and a camera and microphone stream granted, [reinitializeMedia]
    returns true and makes that stream the local stream with its tracks
    as the browser delivered them, while [isAudioEnabled] and
    [isVideoEnabled] stay as they are.  So a track delivered with an
    [enabled] bit other than the flag of its kind leaves controls and
    tracks apart. *)
Theorem reinitializeMediaContexts_forgets_mute (env : Env) (n : nat) (s : State)
    (stream : MediaStream) :
  all_open s ->
  getUserMedia env (Contexts.constraints true true (media s)) = Some stream ->
  let r := ReinitContexts.reinitializeMedia env (n, s) in
  let s' := snd (snd r) in
  fst r = true
  /\ localStream (media s') = Some stream
  /\ isAudioEnabled (media s') = isAudioEnabled (media s)
  /\ isVideoEnabled (media s') = isVideoEnabled (media s)
  /\ ((exists t, In t (tracks stream) /\ enabled t <> flag_of (media s) (kind t)) ->
      ~ flags_match_tracks s').
Proof.
  intros Hopen Eg. unfold ReinitContexts.reinitializeMedia.
  destruct (stop_local_same s) as (Sh & Sp & Se & Sv & Sa & Sl).
  destruct (stop_local_keeps_flags s) as [Ka Kv].
  assert (Hc : Contexts.constraints true true (media (Contexts.stop_local s))
               = Contexts.constraints true true (media s)).
  { unfold Contexts.constraints, Contexts.stop_local. rewrite Sv, Sa. reflexivity. }
  rewrite Hc, Eg. unfold Contexts.stop_local. cbn zeta.
  set (s0 := Part003.stop_local s) in *.
  match goal with |- context [for_connections ?f ?sx] =>
    destruct (for_connections_run f (fun _ => True) sx) as (hp & E & _);
      [intros pc Hl; destruct (update_connection_carries stream pc Hl) as (A & B & _); auto
      |eapply all_open_same; [| |exact Hopen]; [exact Sh|exact Sp]
      |rewrite E] end.
  simpl. split; [reflexivity|]. split; [reflexivity|]. split; [exact Ka|]. split; [exact Kv|].
  intros (t & Ht & Hne) Hf. apply Hne.
  rewrite (Hf stream t eq_refl Ht). unfold flag_of. simpl. rewrite Ka, Kv. reflexivity.
Qed.

Lemma reinitializeMediaContexts_forgets_mute_witness :
  let s := toggleAudio Example.connected_to_bob in
  let r := ReinitContexts.reinitializeMedia (Example.env_of "alice") (0, s) in
  flags_match_tracks s
  /\ isAudioEnabled (media s) = false
  /\ fst r = true
  /\ localStream (media (snd (snd r))) = Some Example.camera
  /\ isAudioEnabled (media (snd (snd r))) = false
  /\ ~ flags_match_tracks (snd (snd r)).
Proof.
  intros s r.
  assert (Hs : all_open s).
  { eapply all_open_same; [| |exact all_open_connected_to_bob]; reflexivity. }
  destruct (reinitializeMediaContexts_forgets_mute (Example.env_of "alice") 0 s Example.camera
              Hs eq_refl) as (H1 & H2 & H3 & H4 & H5).
  split.
  { intros m t E Ht. vm_compute in E. injection E as <-.
    simpl in Ht. destruct Ht as [<-|[<-|[]]]; reflexivity. }
  split; [reflexivity|]. split; [exact H1|]. split; [exact H2|]. split; [exact H3|].
  apply H5. exists {| kind := Audio; enabled := true; ended := false |}.
  split; [left; reflexivity|discriminate].
Defined.

(** * Acquiring the stream and the mute flags *)

(** X28. [initLocalStream()] and what the user muted.  In
    part_003 a granted request unmutes: the new local stream has every
    track enabled and both [isAudioEnabled] and [isVideoEnabled] are
    true, so controls and tracks agree whatever they were before.  In
    the copy of src/contexts the stream is taken as the browser delivers
    it and the flags are left as they are. *)
Theorem initLocalStream_and_the_mute_flags (env : Env) (s : State) (a : MediaStream) :
  (getUserMedia env (Part003.constraints true true (media s)) = Some a ->
   let r := Part003.initLocalStream env true true s in
   fst r = Some (enable_tracks true true a)
   /\ localStream (media (snd r)) = Some (enable_tracks true true a)
   /\ isAudioEnabled (media (snd r)) = true
   /\ isVideoEnabled (media (snd r)) = true
   /\ flags_match_tracks (snd r))
  /\ (getUserMedia env (Contexts.constraints true true (media s)) = Some a ->
      let r := Contexts.initLocalStream env true true s in
      fst r = Some a
      /\ localStream (media (snd r)) = Some a
      /\ isAudioEnabled (media (snd r)) = isAudioEnabled (media s)
      /\ isVideoEnabled (media (snd r)) = isVideoEnabled (media s)).
Proof.
  destruct (stop_local_same s) as (_ & _ & _ & Sv & Sa & _).
  destruct (stop_local_keeps_flags s) as [Ka Kv].
  split.
  - intros Hg.
    assert (Hc : Part003.constraints true true (media (Part003.stop_local s))
                 = Part003.constraints true true (media s)).
    { unfold Part003.constraints. rewrite Sv, Sa. reflexivity. }
    unfold Part003.initLocalStream, Part003.initLocalStream_with.
    cbv zeta. rewrite Hc, Hg. cbn [fst snd].
    split; [reflexivity|]. split; [reflexivity|]. split; [reflexivity|]. split; [reflexivity|].
    eapply flags_match_intro; [reflexivity|].
    intros t Ht. simpl in Ht. apply in_map_iff in Ht as (t0 & <- & _).
    destruct t0 as [kd en ed], kd; reflexivity.
  - intros Hg.
    assert (Hc : Contexts.constraints true true (media (Contexts.stop_local s))
                 = Contexts.constraints true true (media s)).
    { unfold Contexts.constraints, Contexts.stop_local. rewrite Sv, Sa. reflexivity. }
    unfold Contexts.initLocalStream. cbv zeta. rewrite Hc, Hg. cbn [fst snd].
    split; [reflexivity|]. split; [reflexivity|]. split; [exact Ka|exact Kv].
Qed.

Lemma initLocalStream_and_the_mute_flags_witness :
  let s := toggleAudio (Example.in_room_r1 "alice") in
  isAudioEnabled (media s) = false
  /\ isAudioEnabled (media (snd (Part003.initLocalStream (Example.env_of "alice") true true s)))
     = true
  /\ isAudioEnabled (media (snd (Contexts.initLocalStream (Example.env_of "alice") true true s)))
     = false
  /\ localStream (media (snd (Contexts.initLocalStream (Example.env_of "alice") true true s)))
     = Some Example.camera.
Proof.
  intros s.
  destruct (initLocalStream_and_the_mute_flags (Example.env_of "alice") s Example.camera)
    as [H1 H2].
  destruct (H1 eq_refl) as (_ & _ & A & _).
  destruct (H2 eq_refl) as (_ & B & C & _).
  split; [reflexivity|]. split; [exact A|]. split; [exact C|exact B].
Defined.

(** * The room provider: joining and leaving *)

Lemma joinRoomOfRooms_joined (env : Env) (roomId : string) (s : RoomContext.RoomState)
    (rl : Relay) (u : User) :
  RoomContext.rc_user s = Some u ->
  RoomContext.currentRoom s <> Some roomId ->
  RoomContext.currentRoom (fst (snd (RoomContext.joinRoom env roomId (s, rl)))) = Some roomId ->
  room_exists (room rl roomId) = true
  /\ RoomContext.joinRoom env roomId (s, rl)
     = (Returned,
        ({| RoomContext.rc_user := Some u; RoomContext.currentRoom := Some roomId;
            RoomContext.isJoiningRoom := false; RoomContext.joinError := None;
            RoomContext.joinInProgressRef := true; RoomContext.joinAttemptsRef := 0;
            RoomContext.currentRoomIdRef := Some roomId |},
         in_room roomId
           (fun n => with_onDisconnect (uid u :: onDisconnectRemove n)
                       (with_participants
                          (set_child (uid u)
                             {| p_displayName := or_else (user_displayName u) "Anonymous";
                                joined := now env |} (participants n)) n)) rl)).
Proof.
  intros Hu Hne. unfold RoomContext.joinRoom. rewrite Hu.
  destruct (RoomContext.joinInProgressRef s) eqn:Hp; [simpl; contradiction|].
  destruct (bool_decide (RoomContext.currentRoom s = Some roomId)) eqn:Hc;
    [simpl; contradiction|].
  destruct (3 <? RoomContext.joinAttemptsRef s + 1) eqn:Hn; [simpl; contradiction|].
  destruct (relayError env) as [e|] eqn:He; [simpl; contradiction|].
  destruct (room_exists (room rl roomId)) eqn:Hx; simpl; [|contradiction].
  intros _. split; reflexivity.
Qed.

(** X9. Leaving right after joining, in the room provider of
    part_002: when [joinRoom] has put the user into the room and the
    relay is reachable, [leaveRoom] takes the user's entry out of the
    roster, leaves the other entries alone, and clears [currentRoom]; the
    removal registered for a disconnect stays registered.  Until the
    timer of the join has reset [joinInProgressRef], every further
    [joinRoom] returns without doing anything; after the timer the user
    can join again. *)
Theorem leaveRoomOfRooms_after_join (env env1 env2 : Env) (roomId : string)
    (st : RoomContext.RoomState * Relay) (u : User) :
  RoomContext.rc_user (fst st) = Some u ->
  truthy roomId = true ->
  RoomContext.currentRoom (fst st) <> Some roomId ->
  RoomContext.currentRoom (fst (snd (RoomContext.joinRoom env roomId st))) = Some roomId ->
  relayError env1 = None ->
  let st2 := RoomProvider.leaveRoom env1 (snd (RoomContext.joinRoom env roomId st)) in
  RoomContext.currentRoom (fst st2) = None
  /\ RoomContext.currentRoomIdRef (fst st2) = None
  /\ RoomContext.joinAttemptsRef (fst st2) = 0
  /\ child (uid u) (participants (room (snd st2) roomId)) = None
  /\ (forall id, id <> uid u ->
        child id (participants (room (snd st2) roomId))
        = child id (participants (room (snd st) roomId)))
  /\ In (uid u) (onDisconnectRemove (room (snd st2) roomId))
  /\ (forall roomId', RoomContext.joinRoom env2 roomId' st2 = (Returned, st2))
  /\ (relayError env2 = None ->
      RoomContext.currentRoom
        (fst (snd (RoomContext.joinRoom env2 roomId
                     (RoomContext.joinInProgressTimeout (fst st2), snd st2))))
      = Some roomId).
Proof.
  destruct st as [s rl]. cbn [fst snd]. intros Hu Ht Hne Hj He1.
  destruct (joinRoomOfRooms_joined env roomId s rl u Hu Hne Hj) as [Hx ->].
  cbn [snd]. unfold RoomProvider.leaveRoom.
  cbn [RoomContext.rc_user RoomContext.currentRoomIdRef]. rewrite Ht, He1.
  cbn [fst snd RoomContext.currentRoom RoomContext.currentRoomIdRef RoomContext.joinAttemptsRef
       relay_remove].
  rewrite !room_in_room.
  destruct (decide (roomId = roomId)) as [_|Hc]; [|congruence].
  cbn [participants onDisconnectRemove with_participants with_onDisconnect].
  split; [reflexivity|]. split; [reflexivity|]. split; [reflexivity|].
  split; [rewrite child_remove_child; destruct (decide (uid u = uid u)); congruence|].
  split.
  { intros id Hid. rewrite child_remove_child. destruct (decide (id = uid u)); [contradiction|].
    rewrite child_set_child. destruct (decide (id = uid u)); [contradiction|reflexivity]. }
  split; [left; reflexivity|].
  split.
  { intros roomId'. reflexivity. }
  intros He2. unfold RoomContext.joinRoom. simpl.
  destruct (bool_decide (None = Some roomId)) eqn:Hb; [apply bool_decide_eq_true in Hb; discriminate|].
  rewrite He2. rewrite !room_in_room.
  destruct (decide (roomId = roomId)) as [_|Hc]; [|congruence].
  simpl. rewrite Hx. reflexivity.
Qed.

Lemma leaveRoomOfRooms_after_join_witness :
  let st := Example.alice_room_state in
  let env := Example.env_of "alice" in
  let st2 := RoomProvider.leaveRoom env (snd (RoomContext.joinRoom env "r1" st)) in
  child "alice" (participants (room (snd st2) "r1")) = None
  /\ child "bob" (participants (room (snd st2) "r1")) = Some (Example.person "bob")
  /\ In "alice" (onDisconnectRemove (room (snd st2) "r1"))
  /\ RoomContext.joinRoom env "r1" st2 = (Returned, st2).
Proof.
  intros st env st2.
  destruct (leaveRoomOfRooms_after_join env env env "r1" st
              {| uid := "alice"; user_displayName := "alice" |})
    as (_ & _ & _ & H4 & H5 & H6 & H7 & _).
  - reflexivity.
  - reflexivity.
  - discriminate.
  - reflexivity.
  - reflexivity.
  - split; [exact H4|]. split; [|split; [exact H6|exact (H7 "r1")]].
    exact (eq_trans (H5 "bob" ltac:(discriminate)) eq_refl).
Defined.

(** * The layout of a recording *)

Lemma ceil_div_bounds (a b : nat) :
  1 <= b -> a <= b * Recording.ceil_div a b /\ (1 <= a -> b * (Recording.ceil_div a b - 1) < a).
Proof.
  intros Hb. unfold Recording.ceil_div.
  pose proof (Nat.div_mod_eq a b) as E.
  pose proof (Nat.mod_upper_bound a b ltac:(lia)) as U.
  destruct (a mod b =? 0) eqn:Z.
  - apply Nat.eqb_eq in Z. split; [nia|]. intros Ha.
    assert (1 <= a / b) by (destruct (a / b); [nia|lia]). nia.
  - apply Nat.eqb_neq in Z. split; [nia|]. intros Ha. nia.
Qed.

Lemma grid_fits (n : nat) :
  1 <= n ->
  let c := Recording.cols n in
  let r := Recording.rows n in
  (c - 1) * (c - 1) < n <= c * c
  /\ 1 <= r <= c
  /\ c * (r - 1) < n <= c * r
  /\ (forall i, i < n -> fst (Recording.cell n i) < c /\ snd (Recording.cell n i) < r)
  /\ (forall i j, Recording.cell n i = Recording.cell n j -> i = j).
Proof.
  intros Hn c r.
  assert (Hs : (c - 1) * (c - 1) < n <= c * c).
  { pose proof (Nat.sqrt_up_spec n ltac:(lia)) as H. fold (Recording.cols n) in H. fold c in H.
    replace (Nat.pred c) with (c - 1) in H by lia. exact H. }
  assert (Hc : 1 <= c) by (destruct (Nat.eq_dec c 0) as [E|E]; [rewrite E in Hs; simpl in Hs; lia|lia]).
  destruct (ceil_div_bounds n c Hc) as [B1 B2]. specialize (B2 Hn).
  change (Recording.ceil_div n c) with r in B1, B2.
  assert (Hr : 1 <= r) by (destruct (Nat.eq_dec r 0) as [E|E]; [rewrite E in B1; lia|lia]).
  split; [exact Hs|]. split; [split; [exact Hr|nia]|]. split; [split; [exact B2|exact B1]|].
  split.
  - intros i Hi. unfold Recording.cell. fold c. simpl. split.
    + apply Nat.mod_upper_bound. lia.
    + apply Nat.Div0.div_lt_upper_bound. lia.
  - intros i j H. unfold Recording.cell in H. fold c in H. injection H as Hm Hd.
    rewrite (Nat.div_mod_eq i c), (Nat.div_mod_eq j c), Hm, Hd. reflexivity.
Qed.

(** X16. The grid of a recording has a cell for every stream.  The
    streams are the local one and those of the peers that have one; for
    their number [n] the columns are the least [c] with [c * c >= n],
    there are no more rows than columns and no row is empty, every stream
    gets a cell inside the grid, and no two streams get the same cell. *)
Theorem recording_grid_fits (localStream : MediaStream) (peers : list Peer) :
  let n := length (Recording.streams localStream peers) in
  let c := Recording.cols n in
  let r := Recording.rows n in
  n = 1 + length (List.filter (fun p => match stream p with Some _ => true | None => false end) peers)
  /\ (c - 1) * (c - 1) < n <= c * c
  /\ 1 <= r <= c
  /\ c * (r - 1) < n <= c * r
  /\ (forall i, i < n -> fst (Recording.cell n i) < c /\ snd (Recording.cell n i) < r)
  /\ (forall i j, Recording.cell n i = Recording.cell n j -> i = j).
Proof.
  intros n c r. split.
  - unfold n, Recording.streams. simpl. f_equal.
    induction peers as [|p ps IH]; simpl; [reflexivity|].
    destruct (stream p) as [m|]; simpl; [f_equal; exact IH|exact IH].
  - apply grid_fits. unfold n, Recording.streams. simpl. lia.
Qed.

(** * The middleware *)

Lemma middleware_after_redirect (request : Middleware.Request) (to : string)
    (count count' : Middleware.Count) :
  Middleware.middleware request = Middleware.Redirect to count ->
  Middleware.middleware
    {| Middleware.pathname := to;
       Middleware.firebase_token := Middleware.firebase_token request;
       Middleware.redirect_count := count' |}
  = Middleware.Next (Middleware.gt3 count').
Proof.
  destruct request as [path token c]. unfold Middleware.middleware. simpl.
  destruct (Middleware.gt3 c); [discriminate|].
  destruct ((String.eqb path "/" || String.eqb path "/login" || String.eqb path "/signup")
            && truthy (default "" token)) eqn:E1.
  - intros H. injection H as <- <-.
    apply andb_prop in E1 as [_ Et]. simpl. rewrite Et.
    destruct (Middleware.gt3 count'); reflexivity.
  - destruct (negb (String.eqb path "/" || String.eqb path "/login" || String.eqb path "/signup")
              && negb (truthy (default "" token))) eqn:E2; [|discriminate].
    intros H. injection H as <- <-.
    apply andb_prop in E2 as [_ Et]. simpl.
    destruct (truthy (default "" token)); [discriminate|].
    destruct (Middleware.gt3 count'); reflexivity.
Qed.

(** X17. The middleware of part_000 never redirects twice in a
    row: the request that follows one of its redirects, with the token
    cookie as before and whatever counter, is let through, so a request
    gets at most two responses.  And the counter is a pass: a request
    whose [redirect-count] cookie reads above three is let through
    whatever its path and token, a protected path without a token
    included. *)
Theorem middleware_redirects_once (request : Middleware.Request) :
  (forall fuel, length (Middleware.responses fuel request) <= 2)
  /\ (forall to count, Middleware.middleware request = Middleware.Redirect to count ->
        exists cleared,
          (Middleware.middleware <$> Middleware.follow request (Middleware.middleware request))
          = Some (Middleware.Next cleared))
  /\ (Middleware.gt3 (Middleware.redirect_count request) = true ->
      Middleware.middleware request = Middleware.Next true).
Proof.
  split; [|split].
  - intros [|[|fuel]]; simpl; [lia| |].
    + destruct (Middleware.follow request (Middleware.middleware request)); simpl; lia.
    + destruct (Middleware.middleware request) as [b|to count] eqn:E; simpl; [lia|].
      rewrite (middleware_after_redirect request to count count E). simpl. lia.
  - intros to count E. rewrite E. simpl.
    rewrite (middleware_after_redirect request to count count E). eauto.
  - unfold Middleware.middleware. intros ->. reflexivity.
Qed.

(** X18. The middleware gives way at the fifth try:
    a protected path asked for without a token, starting with no
    counter, is redirected to the login page four times, each response
    raising the counter by one, and the fifth request within the minute
    is let through, without a token, with the counter cleared. *)
Theorem middleware_gives_way_at_the_fifth_try (path : string) (token : option string) :
  Middleware.protected path = true -> truthy (default "" token) = false ->
  Middleware.tries 5
    {| Middleware.pathname := path; Middleware.firebase_token := token;
       Middleware.redirect_count := Middleware.Int 0 |}
  = [ Middleware.Redirect "/login" (Middleware.Int 1);
      Middleware.Redirect "/login" (Middleware.Int 2);
      Middleware.Redirect "/login" (Middleware.Int 3);
      Middleware.Redirect "/login" (Middleware.Int 4);
      Middleware.Next true ].
Proof.
  unfold Middleware.protected. intros Hp Ht.
  assert (Step : forall z, (z <= 3)%Z ->
            Middleware.middleware
              {| Middleware.pathname := path; Middleware.firebase_token := token;
                 Middleware.redirect_count := Middleware.Int z |}
            = Middleware.Redirect "/login" (Middleware.Int (z + 1))).
  { intros z Hz. unfold Middleware.middleware. simpl.
    destruct (3 <? z)%Z eqn:E; [apply Z.ltb_lt in E; lia|].
    rewrite Ht. apply negb_true_iff in Hp. rewrite Hp. reflexivity. }
  assert (Again : forall r to c,
            Middleware.again r (Middleware.Redirect to c)
            = {| Middleware.pathname := Middleware.pathname r;
                 Middleware.firebase_token := Middleware.firebase_token r;
                 Middleware.redirect_count := c |}) by reflexivity.
  cbn [Middleware.tries].
  rewrite (Step 0%Z) by lia.
  rewrite !Again. cbn [Middleware.pathname Middleware.firebase_token].
  rewrite (Step (0 + 1)%Z) by lia.
  rewrite !Again. cbn [Middleware.pathname Middleware.firebase_token].
  rewrite (Step (0 + 1 + 1)%Z) by lia.
  rewrite !Again. cbn [Middleware.pathname Middleware.firebase_token].
  rewrite (Step (0 + 1 + 1 + 1)%Z) by lia.
  rewrite !Again. cbn [Middleware.pathname Middleware.firebase_token].
  reflexivity.
Qed.

Lemma middleware_gives_way_at_the_fifth_try_witness :
  List.last
    (Middleware.tries 5
       {| Middleware.pathname := "/dashboard"; Middleware.firebase_token := None;
          Middleware.redirect_count := Middleware.Int 0 |}) (Middleware.Next false)
  = Middleware.Next true.
Proof.
  rewrite (middleware_gives_way_at_the_fifth_try "/dashboard" None); reflexivity.
Defined.

(** * Signalling handlers of part_003, step by step *)

Lemma addressed_set_grandchild {A : Type} (l : list (string * list (string * A)))
    (a b : string) (v : A) :
  addressed (set_grandchild a b v l) a b = Some v.
Proof.
  unfold addressed, set_grandchild.
  rewrite child_set_child. destruct (decide (a = a)); [|congruence]. simpl.
  rewrite child_set_child. destruct (decide (b = b)); [reflexivity|congruence].
Qed.

Lemma offer_from_stable (env : Env) (h : nat) (s : State) (rl : Relay) (pc : PeerConnection) :
  heap s !! h = Some pc -> signalingState pc = Stable -> createOfferError env h = None ->
  let offer := {| sd_type := Offer; sdp := offerSdp env h |} in
  let pc' := RTC.with_signaling HaveLocalOffer (currentLocalDescription pc) (Some offer)
               (currentRemoteDescription pc) (pendingRemoteDescription pc) pc in
  forall (B : Type) (k : unit -> M B),
  bind (createOffer env h)
    (fun offer => bind (setLocalDescription env h offer) k) {| client := s; relay := rl |}
  = k tt {| client := update_pc h (fun _ => pc')
                        (record (CallSetLocalDescription h Offer) (record (CallCreateOffer h) s));
            relay := rl |}.
Proof.
  intros Hh Hs Hc offer pc' B k.
  unfold createOffer, setLocalDescription, pc_call, bind, modify, gets, ret, throw. simpl.
  rewrite Hh. rewrite Hs. simpl. rewrite Hc. simpl. rewrite Hh.
  unfold RTC.setLocalDescription. rewrite Hs. simpl. reflexivity.
Qed.

Lemma onnegotiationneeded003_from_stable (env : Env) (h : nat) (s : State) (rl : Relay)
    (pc : PeerConnection) (u : User) :
  heap s !! h = Some pc -> user s = Some u ->
  pc_initiator pc = true -> truthy (pc_room pc) = true ->
  signalingState pc = Stable -> createOfferError env h = None ->
  Part003.onnegotiationneeded env h {| client := s; relay := rl |}
  = try_catch
      (set_offer env (pc_room pc) (uid u) (pc_peer pc) (offerSdp env h))
      (fun _ => modify (setWebRTCError (Some Part003.negotiation_error)))
      {| client :=
           update_pc h
             (fun _ => RTC.with_signaling HaveLocalOffer (currentLocalDescription pc)
                         (Some {| sd_type := Offer; sdp := offerSdp env h |})
                         (currentRemoteDescription pc) (pendingRemoteDescription pc) pc)
             (record (CallSetLocalDescription h Offer) (record (CallCreateOffer h) s));
         relay := rl |}.
Proof.
  intros Hh Hu Hi Ht Hs Hc.
  unfold Part003.onnegotiationneeded. rewrite !bind_gets. cbn [client relay].
  rewrite Hh, Hu, Hi, Ht. change (true && true) with true. cbv beta iota.
  rewrite (bool_decide_eq_true_2 _ Hs). change (negb true) with false. cbv beta iota.
  unfold try_catch.
  rewrite (offer_from_stable env h s rl pc Hh Hs Hc).
  rewrite bind_gets. cbn [client relay].
  unfold local_sdp at 1. cbn [heap update_pc setHeap setS_heap].
  rewrite list_lookup_alter_eq. cbn [heap record setS_calls]. rewrite Hh. reflexivity.
Qed.

(** X19. [onnegotiationneeded] of part_003 offers exactly from
    stable.  It changes nothing unless the connection is stable and this
    side is the initiator.  From stable, as initiator in a room, with an
    offer created, it sets the offer as local description, which leaves
    the connection in have-local-offer, and then writes it to the relay
    for the peer; when that write fails it returns all the same with the
    error message set, and the connection stays in have-local-offer with
    no offer published. *)
Theorem onnegotiationneeded003_offers_exactly_from_stable (env : Env) (h : nat) (w : World) :
  let r := Part003.onnegotiationneeded env h w in
  (snd r <> w ->
   exists pc, heap (client w) !! h = Some pc
              /\ signalingState pc = Stable /\ pc_initiator pc = true)
  /\ (forall pc u,
        heap (client w) !! h = Some pc -> user (client w) = Some u ->
        pc_initiator pc = true -> truthy (pc_room pc) = true ->
        signalingState pc = Stable -> createOfferError env h = None ->
        fst r = Ok tt
        /\ (signalingState <$> heap (client (snd r)) !! h) = Some HaveLocalOffer
        /\ local_sdp (client (snd r)) h = Some (offerSdp env h)
        /\ match relayError env with
           | None =>
               addressed (offers (room (relay (snd r)) (pc_room pc))) (uid u) (pc_peer pc)
               = Some (offerSdp env h)
               /\ webRTCError (client (snd r)) = webRTCError (client w)
           | Some _ =>
               relay (snd r) = relay w
               /\ webRTCError (client (snd r)) = Some Part003.negotiation_error
           end).
Proof.
  intros r. split; [apply onnegotiationneeded003_only_from_stable|].
  intros pc u Hh Hu Hi Ht Hs Hc. subst r.
  destruct w as [s rl]. simpl in Hh, Hu.
  rewrite (onnegotiationneeded003_from_stable env h s rl pc u Hh Hu Hi Ht Hs Hc).
  unfold try_catch, set_offer, relay_call. rewrite bind_modify. cbn [client relay].
  destruct (relayError env) as [e|] eqn:He.
  - unfold throw, modify. simpl. rewrite list_lookup_alter_eq, Hh. simpl.
    split; [reflexivity|]. split; [reflexivity|]. split; [|split; reflexivity].
    unfold local_sdp. simpl. rewrite list_lookup_alter_eq, Hh. reflexivity.
  - unfold write_relay. simpl. rewrite list_lookup_alter_eq, Hh. simpl.
    split; [reflexivity|]. split; [reflexivity|]. split.
    + unfold local_sdp. simpl. rewrite list_lookup_alter_eq, Hh. reflexivity.
    + rewrite room_in_room. destruct (decide (pc_room pc = pc_room pc)); [|congruence].
      simpl. rewrite addressed_set_grandchild. split; reflexivity.
Qed.

Lemma processOffer003_answers (env : Env) (u : User) (roomId senderId offer : string)
    (h : nat) (s : State) (rl : Relay) (pc : PeerConnection) :
  heap s !! h = Some pc -> signalingState pc = Stable ->
  sdpError env offer = None -> relayError env = None ->
  let r := Part003.processOffer env u roomId (Some h) senderId offer
             {| client := s; relay := rl |} in
  fst r = Ok tt
  /\ (exists pc', heap (client (snd r)) !! h = Some pc' /\ answered offer (answerSdp env h) pc')
  /\ addressed (answers (room (relay (snd r)) roomId)) (uid u) senderId
     = Some (answerSdp env h)
  /\ (forall r', offers (room (relay (snd r)) r') = offers (room rl r'))
  /\ webRTCError (client (snd r)) = webRTCError s
  /\ peerConnections (client (snd r)) = peerConnections s.
Proof.
  intros Hh Hs He Hr.
  unfold Part003.processOffer, try_catch, setRemoteDescription, createAnswer,
    setLocalDescription, set_answer, relay_call, pc_call, bind, modify, gets, ret, throw,
    write_relay.
  simpl. rewrite Hh, He. unfold RTC.setRemoteDescription. simpl. rewrite Hs. simpl.
  rewrite list_lookup_alter_eq, Hh. simpl.
  rewrite list_lookup_alter_eq, Hh. simpl.
  rewrite Hr. simpl.
  split; [reflexivity|]. split.
  { rewrite !list_lookup_alter_eq, Hh. simpl. eexists. split; [reflexivity|].
    unfold answered. simpl. repeat split; reflexivity. }
  split.
  { rewrite room_in_room. destruct (decide (roomId = roomId)); [|congruence].
    cbn [answers with_answers].
    unfold local_sdp. cbn [heap update_pc setHeap setS_heap record setS_calls].
    rewrite !list_lookup_alter_eq, Hh. simpl.
    apply addressed_set_grandchild. }
  split; [|split; reflexivity].
  intros r'. rewrite room_in_room. destruct (decide (roomId = r')); [subst|]; reflexivity.
Qed.

Lemma onOffer003_known_connection (env : Env) (u : User) (roomId senderId offer : string)
    (w : World) (h : nat) (pc : PeerConnection) :
  peerConnections (client w) !! senderId = Some h ->
  heap (client w) !! h = Some pc ->
  Part003.onOffer env u roomId senderId offer w
  = (if bool_decide (Some (signalingState pc) = Some HaveLocalOffer) then
       if Js.gt (uid u) senderId then ret tt
       else
         do peerConnection <-
           try_catch
             (do _ <- setLocalDescription env h {| sd_type := Rollback; sdp := "" |};
              ret (Some h))
             (fun _ => Part003.recreate env roomId h senderId false);
         match peerConnection with
         | None => ret tt
         | Some h' => Part003.processOffer env u roomId (Some h') senderId offer
         end
     else if negb (bool_decide (Some (signalingState pc) = Some Stable)) then ret tt
     else Part003.processOffer env u roomId (Some h) senderId offer) w.
Proof.
  intros Hm Hh. unfold Part003.onOffer.
  rewrite bind_gets, Hm. unfold bind at 1. unfold ret at 1.
  rewrite bind_gets, Hh. reflexivity.
Qed.

(** X20. One offer at the offers listener of part_003, for a
    sender the map has a connection for, with a relay and a browser that
    work.  A stable connection takes the offer and answers it: it is
    stable again with the offer as remote and the answer as local
    description, and the answer is in the relay for the sender.  A
    connection with its own offer pending does the same after a rollback
    when this side has the lesser identity, and does nothing when it has
    the greater.  In every other state nothing happens.  The offer is
    never taken out of the relay. *)
Theorem onOffer003_answers_or_yields (env : Env) (u : User) (roomId senderId offer : string)
    (w : World) (h : nat) (pc : PeerConnection) :
  peerConnections (client w) !! senderId = Some h ->
  heap (client w) !! h = Some pc ->
  sdpError env offer = None -> relayError env = None -> rollbackFails env = false ->
  let r := Part003.onOffer env u roomId senderId offer w in
  let answers_it :=
    fst r = Ok tt
    /\ (exists pc', heap (client (snd r)) !! h = Some pc'
                    /\ answered offer (answerSdp env h) pc')
    /\ addressed (answers (room (relay (snd r)) roomId)) (uid u) senderId
       = Some (answerSdp env h) in
  (forall r', offers (room (relay (snd r)) r') = offers (room (relay w) r'))
  /\ match signalingState pc with
     | Stable => answers_it
     | HaveLocalOffer => if Js.gt (uid u) senderId then r = (Ok tt, w) else answers_it
     | _ => r = (Ok tt, w)
     end.
Proof.
  intros Hm Hh He Hr Hb.
  rewrite (onOffer003_known_connection env u roomId senderId offer w h pc Hm Hh).
  destruct w as [s rl]. cbn [client relay] in *.
  destruct (signalingState pc) eqn:Hs;
    try (cbn; split; [intros; reflexivity|reflexivity]).
  - (* stable *)
    change (bool_decide (Some Stable = Some HaveLocalOffer)) with false.
    change (bool_decide (Some Stable = Some Stable)) with true. cbn [negb]. cbv iota.
    destruct (processOffer003_answers env u roomId senderId offer h s rl pc Hh Hs He Hr)
      as (P1 & P2 & P3 & P4 & _).
    cbv zeta. split; [exact P4|]. split; [exact P1|]. split; [exact P2|exact P3].
  - (* have-local-offer *)
    change (bool_decide (Some HaveLocalOffer = Some HaveLocalOffer)) with true. cbv iota.
    destruct (Js.gt (uid u) senderId); [cbn; split; [intros; reflexivity|reflexivity]|].
    set (pc1 := RTC.with_signaling Stable (currentLocalDescription pc) None
                  (currentRemoteDescription pc) (pendingRemoteDescription pc) pc).
    set (s1 := update_pc h (fun _ => pc1) (record (CallSetLocalDescription h Rollback) s)).
    assert (E : forall k : option nat -> M unit,
              bind (try_catch
                      (bind (setLocalDescription env h {| sd_type := Rollback; sdp := "" |})
                         (fun _ => ret (Some h)))
                      (fun _ => Part003.recreate env roomId h senderId false)) k
                {| client := s; relay := rl |}
              = k (Some h) {| client := s1; relay := rl |}).
    { intros k. unfold try_catch, setLocalDescription, pc_call, bind, modify, gets, ret, throw.
      simpl. rewrite Hh, Hb. unfold RTC.setLocalDescription. simpl. rewrite Hs. reflexivity. }
    rewrite E.
    assert (H1 : heap s1 !! h = Some pc1).
    { unfold s1. simpl. rewrite list_lookup_alter_eq, Hh. reflexivity. }
    destruct (processOffer003_answers env u roomId senderId offer h s1 rl pc1 H1 eq_refl He Hr)
      as (P1 & P2 & P3 & P4 & _).
    cbv zeta. split; [exact P4|]. split; [exact P1|]. split; [exact P2|exact P3].
Qed.

Lemma onOffer003_answers_or_yields_witness :
  let w := Example.alice_world Example.connected_to_bob in
  let r := Part003.onOffer (Example.env_of "alice") Example.alice_user "r1" "bob"
             "offer of bob" w in
  fst r = Ok tt
  /\ addressed (answers (room (relay (snd r)) "r1")) "alice" "bob" = Some "answer of alice"
  /\ offers (room (relay (snd r)) "r1") = offers (room (relay w) "r1").
Proof.
  intros w r.
  destruct (onOffer003_answers_or_yields (Example.env_of "alice") Example.alice_user "r1" "bob"
              "offer of bob" w 0 (RTC.with_ice IceNew (RTC.fresh "bob" "r1" true true))
              eq_refl eq_refl eq_refl eq_refl eq_refl) as [H1 (H2 & _ & H3)].
  split; [exact H2|]. split; [exact H3|exact (H1 "r1")].
Defined.

Lemma onnegotiationneeded003_offers_exactly_from_stable_witness :
  let w := Example.alice_world Example.connected_to_bob in
  let r := Part003.onnegotiationneeded (Example.env_of "alice") 0 w in
  fst r = Ok tt
  /\ (signalingState <$> heap (client (snd r)) !! 0) = Some HaveLocalOffer
  /\ addressed (offers (room (relay (snd r)) "r1")) "alice" "bob" = Some "offer of alice".
Proof.
  intros w r.
  destruct (onnegotiationneeded003_offers_exactly_from_stable (Example.env_of "alice") 0 w)
    as [_ H].
  destruct (H (RTC.with_ice IceNew (RTC.fresh "bob" "r1" true true)) Example.alice_user
              eq_refl eq_refl eq_refl eq_refl eq_refl eq_refl) as (H1 & H2 & _ & H3 & _).
  split; [exact H1|]. split; [exact H2|exact H3].
Defined.

Lemma onAnswer003_known_connection (env : Env) (u : User) (roomId senderId answer : string)
    (w : World) (h : nat) (pc : PeerConnection) :
  peerConnections (client w) !! senderId = Some h ->
  heap (client w) !! h = Some pc ->
  Part003.onAnswer env u roomId senderId answer w
  = (if bool_decide (Some (signalingState pc) = Some HaveLocalOffer) then
       try_catch
         (do _ <- setRemoteDescription env h {| sd_type := Answer; sdp := answer |};
          remove env (AnswerRef roomId senderId (uid u)))
         (fun error =>
            do _ <- modify (setWebRTCError (Some Part003.answer_error));
            if Js.includes "Failed to set remote answer sdp:" error
               || Js.includes "Failed to set remote description" error
            then do _ <- Part003.recreate env roomId h senderId true; ret tt
            else ret tt)
     else ret tt) w.
Proof.
  intros Hm Hh. unfold Part003.onAnswer.
  rewrite bind_gets, Hm. rewrite bind_gets, Hh. reflexivity.
Qed.

Lemma onAnswer003_taken (env : Env) (u : User) (roomId senderId answer : string)
    (s : State) (rl : Relay) (h : nat) (pc : PeerConnection) :
  peerConnections s !! senderId = Some h ->
  heap s !! h = Some pc ->
  signalingState pc = HaveLocalOffer ->
  sdpError env answer = None -> relayError env = None ->
  Part003.onAnswer env u roomId senderId answer {| client := s; relay := rl |}
  = (Ok tt,
     {| client :=
          record (CallRemove (AnswerRef roomId senderId (uid u)))
            (update_pc h
               (fun _ => RTC.with_signaling Stable (pendingLocalDescription pc) None
                           (Some {| sd_type := Answer; sdp := answer |}) None pc)
               (record (CallSetRemoteDescription h Answer) s));
        relay := relay_remove (AnswerRef roomId senderId (uid u)) rl |}).
Proof.
  intros Hm Hh Hs He Hr.
  rewrite (onAnswer003_known_connection env u roomId senderId answer
             {| client := s; relay := rl |} h pc Hm Hh).
  rewrite Hs. change (bool_decide (Some HaveLocalOffer = Some HaveLocalOffer)) with true.
  cbv iota.
  unfold try_catch, setRemoteDescription, pc_call, remove, relay_call, bind, modify, gets,
    ret, throw, write_relay.
  simpl. rewrite Hh, He. unfold RTC.setRemoteDescription. simpl. rewrite Hs. simpl.
  rewrite Hr. reflexivity.
Qed.

(** X25. One answer at the answers listener of part_003, from
    a sender the map has a connection for.  With the connection's own
    offer pending and relay and browser working, the answer is taken: the
    connection is stable with the answer as remote description and the
    offer that was pending as local description, and the answer is taken
    out of the relay, the other answers staying.  In any other signalling
    state the handler does nothing, and the answer stays in the relay. *)
Theorem onAnswer003_takes_or_skips (env : Env) (u : User) (roomId senderId answer : string)
    (w : World) (h : nat) (pc : PeerConnection) :
  peerConnections (client w) !! senderId = Some h ->
  heap (client w) !! h = Some pc ->
  sdpError env answer = None -> relayError env = None ->
  let r := Part003.onAnswer env u roomId senderId answer w in
  if bool_decide (signalingState pc = HaveLocalOffer) then
    fst r = Ok tt
    /\ (exists pc', heap (client (snd r)) !! h = Some pc'
                    /\ signalingState pc' = Stable
                    /\ RTC.remoteDescription pc' = Some {| sd_type := Answer; sdp := answer |}
                    /\ RTC.localDescription pc' = pendingLocalDescription pc)
    /\ (forall a b,
          addressed (answers (room (relay (snd r)) roomId)) a b
          = if decide (a = senderId /\ b = uid u) then None
            else addressed (answers (room (relay w) roomId)) a b)
    /\ webRTCError (client (snd r)) = webRTCError (client w)
  else r = (Ok tt, w).
Proof.
  intros Hm Hh He Hr.
  destruct w as [s rl]. cbn [client relay] in *.
  destruct (signalingState pc) eqn:Hs;
    try (rewrite (onAnswer003_known_connection env u roomId senderId answer
                    {| client := s; relay := rl |} h pc Hm Hh), Hs; reflexivity).
  change (bool_decide (HaveLocalOffer = HaveLocalOffer)) with true. cbv iota zeta.
  rewrite (onAnswer003_taken env u roomId senderId answer s rl h pc Hm Hh Hs He Hr).
  cbn [fst snd client relay].
  split; [reflexivity|]. split.
  { simpl. rewrite list_lookup_alter_eq, Hh. simpl. eexists. split; [reflexivity|].
    unfold RTC.remoteDescription, RTC.localDescription. simpl. repeat split; reflexivity. }
  split; [|reflexivity].
  intros a b. cbn [relay_remove]. rewrite room_in_room.
  destruct (decide (roomId = roomId)); [|congruence].
  simpl. rewrite addressed_remove_grandchild.
  destruct (decide (a = senderId)), (decide (b = uid u)), (decide (a = senderId /\ b = uid u));
    try reflexivity; tauto.
Qed.

Lemma onAnswer003_takes_or_skips_witness :
  let w := {| client := Example.offer_pending;
              relay := in_room "r1"
                         (fun n => with_answers [("bob", [("alice", "answer of bob")])] n)
                         Example.both_in_r1 |} in
  let r := Part003.onAnswer (Example.env_of "alice") Example.alice_user "r1" "bob"
             "answer of bob" w in
  fst r = Ok tt
  /\ addressed (answers (room (relay w) "r1")) "bob" "alice" = Some "answer of bob"
  /\ addressed (answers (room (relay (snd r)) "r1")) "bob" "alice" = None
  /\ (signalingState <$> heap (client (snd r)) !! 0) = Some Stable.
Proof.
  intros w r.
  pose proof (onAnswer003_takes_or_skips (Example.env_of "alice") Example.alice_user "r1" "bob"
                "answer of bob" w 0
                (RTC.with_signaling HaveLocalOffer None
                   (Some {| sd_type := Offer; sdp := "offer of alice" |}) None None
                   (RTC.with_ice IceNew (RTC.fresh "bob" "r1" true true)))
                eq_refl eq_refl eq_refl eq_refl) as H.
  cbv zeta in H. destruct H as (H1 & (pc' & H2 & H3 & _) & H4 & _).
  split; [exact H1|]. split; [reflexivity|]. split.
  - exact (eq_trans (H4 "bob" "alice") eq_refl).
  - fold w in H2. fold r in H2. rewrite H2. simpl. rewrite H3. reflexivity.
Defined.

(** * The handshake of part_003, end to end *)

(** X26. An offer/answer exchange of part_003 without glare,
    step by step through the relay.  A, initiator with a stable
    connection to B, gets [negotiationneeded]; B, with a stable
    connection to A, is handed the offer the relay then holds for it; A
    is handed the answer the relay then holds for it.  With relay and
    browsers working, both connections end stable, A with its offer as
    local and B's answer as remote description, B with A's offer as
    remote and its answer as local description.  The answer has been
    taken out of the relay; the offer is still there. *)
Theorem handshake003_completes (envA envB : Env) (uA uB : User) (roomId : string)
    (sA sB : State) (rl : Relay) (hA hB : nat) (pcA pcB : PeerConnection) :
  user sA = Some uA ->
  peerConnections sA !! uid uB = Some hA -> heap sA !! hA = Some pcA ->
  pc_peer pcA = uid uB -> pc_room pcA = roomId -> truthy roomId = true ->
  pc_initiator pcA = true -> signalingState pcA = Stable ->
  peerConnections sB !! uid uA = Some hB -> heap sB !! hB = Some pcB ->
  signalingState pcB = Stable ->
  createOfferError envA hA = None -> relayError envA = None -> relayError envB = None ->
  sdpError envB (offerSdp envA hA) = None -> sdpError envA (answerSdp envB hB) = None ->
  rollbackFails envB = false ->
  let offer := offerSdp envA hA in
  let answer := answerSdp envB hB in
  let w1 := snd (Part003.onnegotiationneeded envA hA {| client := sA; relay := rl |}) in
  let w2 := snd (Part003.onOffer envB uB roomId (uid uA) offer
                   {| client := sB; relay := relay w1 |}) in
  let w3 := snd (Part003.onAnswer envA uA roomId (uid uB) answer
                   {| client := client w1; relay := relay w2 |}) in
  addressed (offers (room (relay w1) roomId)) (uid uA) (uid uB) = Some offer
  /\ addressed (answers (room (relay w2) roomId)) (uid uB) (uid uA) = Some answer
  /\ (exists pcA', heap (client w3) !! hA = Some pcA'
                   /\ signalingState pcA' = Stable
                   /\ RTC.localDescription pcA' = Some {| sd_type := Offer; sdp := offer |}
                   /\ RTC.remoteDescription pcA' = Some {| sd_type := Answer; sdp := answer |})
  /\ (exists pcB', heap (client w2) !! hB = Some pcB' /\ answered offer answer pcB')
  /\ addressed (offers (room (relay w3) roomId)) (uid uA) (uid uB) = Some offer
  /\ addressed (answers (room (relay w3) roomId)) (uid uB) (uid uA) = None.
Proof.
  intros HuA HmA HhA HpA HrA Ht HiA HsA HmB HhB HsB Hco HrelA HrelB HeB HeA Hrb
    offer answer w1 w2 w3.
  assert (HtA : truthy (pc_room pcA) = true) by (rewrite HrA; exact Ht).
  (* A offers *)
  set (pcA1 := RTC.with_signaling HaveLocalOffer (currentLocalDescription pcA)
                 (Some {| sd_type := Offer; sdp := offer |})
                 (currentRemoteDescription pcA) (pendingRemoteDescription pcA) pcA).
  set (sA1 := record (CallSet (OfferRef roomId (uid uA) (uid uB)))
                (update_pc hA (fun _ => pcA1)
                   (record (CallSetLocalDescription hA Offer) (record (CallCreateOffer hA) sA)))).
  set (rl1 := in_room roomId
                (fun n => with_offers (set_grandchild (uid uA) (uid uB) offer (offers n)) n) rl).
  assert (E1 : w1 = {| client := sA1; relay := rl1 |}).
  { unfold w1.
    rewrite (onnegotiationneeded003_from_stable envA hA sA rl pcA uA HhA HuA HiA HtA HsA Hco).
    unfold try_catch, set_offer, relay_call. rewrite bind_modify. cbn [client relay].
    rewrite HrelA. unfold write_relay. rewrite HrA, HpA. reflexivity. }
  assert (O1 : addressed (offers (room rl1 roomId)) (uid uA) (uid uB) = Some offer).
  { unfold rl1. rewrite room_in_room. destruct (decide (roomId = roomId)); [|congruence].
    simpl. apply addressed_set_grandchild. }
  (* B answers *)
  assert (E2 : Part003.onOffer envB uB roomId (uid uA) offer {| client := sB; relay := rl1 |}
               = Part003.processOffer envB uB roomId (Some hB) (uid uA) offer
                   {| client := sB; relay := rl1 |}).
  { rewrite (onOffer003_known_connection envB uB roomId (uid uA) offer
               {| client := sB; relay := rl1 |} hB pcB HmB HhB).
    rewrite HsB. reflexivity. }
  destruct (processOffer003_answers envB uB roomId (uid uA) offer hB sB rl1 pcB HhB HsB HeB HrelB)
    as (_ & P2 & P3 & P4 & _).
  assert (R2 : relay w2 = relay (snd (Part003.processOffer envB uB roomId (Some hB) (uid uA)
                                        offer {| client := sB; relay := rl1 |}))).
  { unfold w2. rewrite E1. cbn [relay]. rewrite E2. reflexivity. }
  assert (C2 : client w2 = client (snd (Part003.processOffer envB uB roomId (Some hB) (uid uA)
                                          offer {| client := sB; relay := rl1 |}))).
  { unfold w2. rewrite E1. cbn [relay]. rewrite E2. reflexivity. }
  (* A takes the answer *)
  assert (HmA1 : peerConnections sA1 !! uid uB = Some hA) by exact HmA.
  assert (HhA1 : heap sA1 !! hA = Some pcA1).
  { unfold sA1. simpl. rewrite list_lookup_alter_eq, HhA. reflexivity. }
  assert (E3 : w3 = snd (Part003.onAnswer envA uA roomId (uid uB) answer
                           {| client := sA1; relay := relay w2 |})).
  { unfold w3. rewrite E1. reflexivity. }
  rewrite (onAnswer003_taken envA uA roomId (uid uB) answer sA1 (relay w2) hA pcA1
             HmA1 HhA1 eq_refl HeA HrelA) in E3.
  cbn [snd] in E3.
  split; [rewrite E1; exact O1|].
  split; [rewrite R2; exact P3|].
  split.
  { rewrite E3. cbn [client heap record setS_calls update_pc setHeap setS_heap].
    rewrite list_lookup_alter_eq, HhA1. cbn [fmap option_fmap option_map].
    eexists. split; [reflexivity|]. repeat split; reflexivity. }
  split; [rewrite C2; exact P2|].
  split.
  { rewrite E3. cbn [relay relay_remove]. rewrite room_in_room.
    destruct (decide (roomId = roomId)); [|congruence]. simpl.
    rewrite R2, P4. exact O1. }
  rewrite E3. cbn [relay relay_remove]. rewrite room_in_room.
  destruct (decide (roomId = roomId)); [|congruence]. simpl.
  rewrite addressed_remove_grandchild.
  destruct (decide (uid uB = uid uB)); [|congruence].
  destruct (decide (uid uA = uid uA)); [reflexivity|congruence].
Qed.

Lemma handshake003_completes_witness :
  let bob := {| uid := "bob"; user_displayName := "bob" |} in
  let sB := Example.with_connections [("alice", IceNew)] (Example.in_room_r1 "bob") in
  let w1 := snd (Part003.onnegotiationneeded (Example.env_of "alice") 0
                   {| client := Example.connected_to_bob; relay := Example.both_in_r1 |}) in
  let w2 := snd (Part003.onOffer (Example.env_of "bob") bob "r1" "alice" "offer of alice"
                   {| client := sB; relay := relay w1 |}) in
  let w3 := snd (Part003.onAnswer (Example.env_of "alice") Example.alice_user "r1" "bob"
                   "answer of bob" {| client := client w1; relay := relay w2 |}) in
  addressed (offers (room (relay w3) "r1")) "alice" "bob" = Some "offer of alice"
  /\ addressed (answers (room (relay w3) "r1")) "bob" "alice" = None
  /\ (signalingState <$> heap (client w3) !! 0) = Some Stable
  /\ (signalingState <$> heap (client w2) !! 0) = Some Stable.
Proof.
  intros bob sB w1 w2 w3.
  destruct (handshake003_completes (Example.env_of "alice") (Example.env_of "bob")
              Example.alice_user bob "r1" Example.connected_to_bob sB Example.both_in_r1 0 0
              (RTC.with_ice IceNew (RTC.fresh "bob" "r1" true true))
              (RTC.with_ice IceNew (RTC.fresh "alice" "r1" true true))
              eq_refl eq_refl eq_refl eq_refl eq_refl eq_refl eq_refl eq_refl
              eq_refl eq_refl eq_refl eq_refl eq_refl eq_refl eq_refl eq_refl eq_refl)
    as (_ & _ & (pcA' & A1 & A2 & _) & (pcB' & B1 & B2 & _) & H5 & H6).
  split; [exact H5|]. split; [exact H6|]. split.
  - exact (eq_trans (f_equal (fmap signalingState) A1) (f_equal Some A2)).
  - exact (eq_trans (f_equal (fmap signalingState) B1) (f_equal Some B2)).
Defined.

(** X21. Neither copy of the offers listener ever takes an
    offer out of the relay or puts one in: whatever the snapshot and the
    state, and whether the handler returns or throws, the offers of every
    room are afterwards what they were. *)
Theorem offers_listeners_never_remove_offers (env : Env) (roomId : string)
    (snapshot : option (list (string * list (string * string)))) (w : World) :
  offers_kept w (snd (Part003.onOffers env roomId snapshot w))
  /\ offers_kept w (snd (Contexts.onOffers env roomId snapshot w)).
Proof.
  split.
  - apply onOffers003_keeps_offers.
  - apply onOffersContexts_keeps_offers.
Qed.

Lemma create_all_tracked
    (create : Env -> string -> string -> bool -> State -> option nat * State)
    (l : list (Env * string * string * bool)) (s : State) :
  (forall env peerId roomId initiator s,
     tracked s -> tracked (snd (create env peerId roomId initiator s))) ->
  tracked s -> tracked (create_all create l s).
Proof.
  intros Hc. unfold create_all. revert s.
  induction l as [|[[[env peerId] roomId] initiator] l IH]; intros s Hs; simpl; [exact Hs|].
  apply IH. apply Hc. exact Hs.
Qed.

(** X22. However often [createPeerConnection] is called, in
    either copy, no peer ends up with two open connections: when every
    open connection is the one the map holds for its peer, this is still
    so after any sequence of calls, because part_003 closes the connection
    it replaces and the copy of src/contexts returns without creating
    one. *)
Theorem createPeerConnection_one_open_per_peer
    (l : list (Env * string * string * bool)) (s : State) :
  tracked s ->
  tracked (create_all Part003.createPeerConnection l s)
  /\ one_open_per_peer (create_all Part003.createPeerConnection l s)
  /\ tracked (create_all Contexts.createPeerConnection l s)
  /\ one_open_per_peer (create_all Contexts.createPeerConnection l s).
Proof.
  intros Hs.
  pose proof (create_all_tracked Part003.createPeerConnection l s
                createPeerConnection003_tracked Hs) as H1.
  pose proof (create_all_tracked Contexts.createPeerConnection l s
                createPeerConnectionContexts_tracked Hs) as H2.
  split; [exact H1|]. split; [|split; [exact H2|]].
  - intros h1 h2 pc1 pc2. apply tracked_one_live. exact H1.
  - intros h1 h2 pc1 pc2. apply tracked_one_live. exact H2.
Qed.

Lemma tracked_connected_to_bob : tracked Example.connected_to_bob.
Proof.
  intros k pc Hk Hl. destruct k as [|k].
  - vm_compute in Hk. injection Hk as <-. reflexivity.
  - vm_compute in Hk. destruct k; discriminate.
Qed.

Lemma createPeerConnection_one_open_per_peer_witness :
  let l := [(Example.env_of "alice", "bob", "r1", true);
            (Example.env_of "alice", "carol", "r1", true);
            (Example.env_of "alice", "bob", "r1", false)] in
  length (heap (create_all Part003.createPeerConnection l Example.connected_to_bob)) = 4
  /\ one_open_per_peer (create_all Part003.createPeerConnection l Example.connected_to_bob)
  /\ one_open_per_peer (create_all Contexts.createPeerConnection l Example.connected_to_bob).
Proof.
  intros l. split; [reflexivity|].
  destruct (createPeerConnection_one_open_per_peer l Example.connected_to_bob
              tracked_connected_to_bob) as (_ & H1 & _ & H2).
  split; [exact H1|exact H2].
Defined.

Lemma createPeerConnection003_recreates_witness :
  let r := Part003.createPeerConnection (Example.env_of "alice") "bob" "r1" true
             Example.connected_to_bob in
  fst r = Some 1
  /\ peerConnections (snd r) !! "bob" = Some 1
  /\ closed_at (snd r) 0.
Proof.
  intros r.
  destruct (createPeerConnection003_recreates (Example.env_of "alice") "bob" "r1" true
              Example.connected_to_bob 0 (RTC.with_ice IceNew (RTC.fresh "bob" "r1" true true)))
    as (H1 & H2 & H3 & _).
  - eexists. reflexivity.
  - reflexivity.
  - reflexivity.
  - reflexivity.
  - reflexivity.
  - split; [exact H1|]. split; [exact H2|]. eexists. split; [exact H3|reflexivity].
Defined.

(** * What the listeners of src/contexts leave in the relay *)

Lemma relay_kept_refl (w : World) : relay_kept w w.
Proof. reflexivity. Qed.

Lemma relay_kept_trans (w1 w2 w3 : World) :
  relay_kept w1 w2 -> relay_kept w2 w3 -> relay_kept w1 w3.
Proof. unfold relay_kept. intros H1 H2. rewrite H2. exact H1. Qed.

(** X27. In the copy of src/contexts the answers
    listener and the candidates listener never write to the relay:
    whatever the snapshot and the state, the relay is afterwards exactly
    what it was.  An answer or a candidate that has been applied stays
    where it is and is delivered again with every later snapshot. *)
Theorem listenersContexts_never_consume (env : Env) (roomId : string)
    (answers_snapshot : option (list (string * list (string * string))))
    (candidates_snapshot : option (list (string * list (string * list (nat * string)))))
    (w : World) :
  relay (snd (Contexts.onAnswers env roomId answers_snapshot w)) = relay w
  /\ relay (snd (Contexts.onCandidates env roomId candidates_snapshot w)) = relay w.
Proof.
  split.
  - assert (H : respects relay_kept (Contexts.onAnswers env roomId answers_snapshot)).
    { unfold Contexts.onAnswers. frame relay_kept_refl relay_kept_trans; reflexivity. }
    exact (H w).
  - assert (H : respects relay_kept (Contexts.onCandidates env roomId candidates_snapshot)).
    { unfold Contexts.onCandidates. frame relay_kept_refl relay_kept_trans; reflexivity. }
    exact (H w).
Qed.

(** * The attempt counter counts *)

Lemma attempts_kept_refl (w : World) : attempts_kept w w.
Proof. reflexivity. Qed.

Lemma attempts_kept_trans (a b c : World) :
  attempts_kept a b -> attempts_kept b c -> attempts_kept a c.
Proof. unfold attempts_kept. congruence. Qed.

Ltac frame_kept := frame attempts_kept_refl attempts_kept_trans.

Ltac kept_done :=
  unfold attempts_kept; simpl; through_shapes; simpl;
  repeat match goal with
         | |- context [match ?x with _ => _ end] => destruct x; simpl
         end;
  reflexivity.

Lemma cleanupSignalingData003_keeps_attempts (env : Env) (roomId userId : string) :
  respects attempts_kept (Part003.cleanupSignalingData env roomId userId).
Proof. unfold Part003.cleanupSignalingData. frame_kept; kept_done. Qed.

Lemma connect_keeps_attempts (env : Env) (u : User) (roomId id : string) :
  respects attempts_kept (Part003.connect env u roomId id).
Proof. unfold Part003.connect. frame_kept; kept_done. Qed.

Lemma cleanupSignalingDataContexts_keeps_attempts (env : Env) (roomId userId : string) :
  respects attempts_kept (Contexts.cleanupSignalingData env roomId userId).
Proof. unfold Contexts.cleanupSignalingData. frame_kept; kept_done. Qed.

Lemma resets_bind {A B} (m : M A) (k : A -> M B) :
  respects attempts_kept m -> (forall a, resets_on_return (k a)) ->
  resets_on_return (bind m k).
Proof.
  intros Hm Hk w. unfold bind. specialize (Hm w). unfold attempts_kept in Hm.
  destruct (m w) as [[a | e] w']; simpl in *.
  - specialize (Hk a w'). destruct (k a w') as [[b | e] w'']; simpl in *; congruence.
  - exact Hm.
Qed.

Lemma resets_last : resets_on_return (modify (setJoinAttempts 0)).
Proof. intros w. reflexivity. Qed.

(** The [try] block of [joinRoom] touches the counter in its last
    statement only. *)
Lemma join003_resets (env : Env) (u : User) (roomId : string) (currentRoom : bool) :
  resets_on_return (Part003.join env u roomId currentRoom).
Proof.
  unfold Part003.join.
  repeat (apply resets_bind; [| intros ?]); try apply resets_last;
    frame_kept;
    try apply cleanupSignalingData003_keeps_attempts; try apply connect_keeps_attempts;
    unfold Part003.setupWebRTCListeners; kept_done.
Qed.

Lemma joinContexts_resets (env : Env) (u : User) (roomId : string) (currentRoom : bool) :
  resets_on_return (Contexts.join env u roomId currentRoom).
Proof.
  unfold Contexts.join.
  repeat (apply resets_bind; [| intros ?]); try apply resets_last;
    frame_kept;
    try apply cleanupSignalingDataContexts_keeps_attempts;
    unfold Contexts.setupWebRTCListeners, Part003.setupWebRTCListeners; kept_done.
Qed.

(** One call of [joinRoom] of part_003. *)
Lemma joinRoom003_counts (env : Env) (roomId : string) (currentRoom : bool) (w : World) :
  joinAttemptsRef (client w) <= 3 ->
  counted w roomId (fst (Part003.joinRoom env roomId currentRoom w))
    (snd (Part003.joinRoom env roomId currentRoom w)).
Proof.
  intros Hle.
  unfold counted, stopped_by_guard, counter_exceeded, join_proceeds, Part003.joinRoom.
  destruct (user (client w)) as [u |] eqn:Hu.
  { destruct (joinAttemptedRef (client w) && bool_decide (currentRoomId (client w) = Some roomId))
      eqn:Hg.
    { simpl. split; [exact Hle |]. split; [reflexivity |].
      split; intros (_ & Hf & _); discriminate. }
    simpl.
    destruct (3 <? joinAttemptsRef (client w) + 1) eqn:Hn.
    { apply Nat.ltb_lt in Hn. simpl. split; [lia |].
      split; [intros [H | H]; discriminate |].
      split; [intros _; split; reflexivity | intros (_ & _ & Hx); lia]. }
    apply Nat.ltb_ge in Hn.
    pose proof (join003_resets env u roomId currentRoom) as Hr.
    match goal with
    | |- context [try_catch ?m ?k ?w0] =>
        specialize (Hr w0); unfold try_catch; destruct (m w0) as [[[] | e] w1]
    end; simpl in *.
    - split; [lia |]. split; [intros [H | H]; discriminate |].
      split; [intros (_ & _ & Hx); lia | intros _; exact Hr].
    - split; [lia |]. split; [intros [H | H]; discriminate |].
      split; [intros (_ & _ & Hx); lia | intros _; exact Hr]. }
  simpl. split; [exact Hle |]. split; [reflexivity |].
  split; intros [[x Hx] _]; discriminate.
Qed.

(** One call of [joinRoom] of src/contexts. *)
Lemma joinRoomContexts_counts (env : Env) (roomId : string) (currentRoom : bool)
    (w : World) :
  joinAttemptsRef (client w) <= 3 ->
  counted w roomId (fst (Contexts.joinRoom env roomId currentRoom w))
    (snd (Contexts.joinRoom env roomId currentRoom w)).
Proof.
  intros Hle.
  unfold counted, stopped_by_guard, counter_exceeded, join_proceeds, Contexts.joinRoom.
  destruct (user (client w)) as [u |] eqn:Hu.
  { destruct (joinAttemptedRef (client w) && bool_decide (currentRoomId (client w) = Some roomId))
      eqn:Hg.
    { simpl. split; [exact Hle |]. split; [reflexivity |].
      split; intros (_ & Hf & _); discriminate. }
    simpl.
    destruct (3 <? joinAttemptsRef (client w) + 1) eqn:Hn.
    { apply Nat.ltb_lt in Hn. simpl. split; [lia |].
      split; [intros [H | H]; discriminate |].
      split; [intros _; split; reflexivity | intros (_ & _ & Hx); lia]. }
    apply Nat.ltb_ge in Hn.
    pose proof (joinContexts_resets env u roomId currentRoom) as Hr.
    match goal with
    | |- context [try_catch ?m ?k ?w0] =>
        specialize (Hr w0); unfold try_catch; destruct (m w0) as [[[] | e] w1]
    end; simpl in *.
    - split; [lia |]. split; [intros [H | H]; discriminate |].
      split; [intros (_ & _ & Hx); lia | intros _; exact Hr].
    - split; [lia |]. split; [intros [H | H]; discriminate |].
      split; [intros (_ & _ & Hx); lia | intros _; exact Hr]. }
  simpl. split; [exact Hle |]. split; [reflexivity |].
  split; intros [[x Hx] _]; discriminate.
Qed.

(** One call of [joinRoom] of the room provider, or its timer. *)
Lemma room_event_counts (e : RoomEvent) (st : RoomContext.RoomState * Relay) :
  RoomContext.joinAttemptsRef (fst st) <= 3 ->
  room_counted st e (fst (room_event e st)) (snd (room_event e st)).
Proof.
  destruct st as [s rl]. intros Hle. destruct e as [env roomId |]; simpl in *.
  2: { split; [exact Hle | reflexivity]. }
  unfold room_counted, room_stopped_by_guard, room_counter_exceeded, room_join_proceeds,
    RoomContext.joinRoom.
  simpl.
  destruct (RoomContext.rc_user s) as [u |] eqn:Hu.
  2: { simpl. split; [exact Hle |]. split; [reflexivity |].
       split; intros [[x Hx] _]; discriminate. }
  destruct (RoomContext.joinInProgressRef s) eqn:Hp.
  { simpl. split; [exact Hle |]. split; [reflexivity |].
    split; intros (_ & Hf & _); discriminate. }
  destruct (bool_decide (RoomContext.currentRoom s = Some roomId)) eqn:Hc.
  { apply bool_decide_eq_true in Hc. simpl. split; [exact Hle |]. split; [reflexivity |].
    split; intros (_ & _ & Hne & _); contradiction. }
  apply bool_decide_eq_false in Hc.
  destruct (3 <? RoomContext.joinAttemptsRef s + 1) eqn:Hn.
  { apply Nat.ltb_lt in Hn. simpl. split; [lia |].
    split; [intros [H | [H | H]]; [discriminate | discriminate | contradiction] |].
    split; [intros _ | intros (_ & _ & _ & Hx); lia].
    unfold room_gave_up. simpl. rewrite Hu, Hp. split; reflexivity. }
  apply Nat.ltb_ge in Hn.
  destruct (relayError env); simpl.
  { split; [lia |].
    split; [intros [H | [H | H]]; [discriminate | discriminate | contradiction] |].
    split; [intros (_ & _ & _ & Hx); lia | intros _; reflexivity]. }
  destruct (negb (room_exists (room rl roomId))); simpl;
    (split; [lia |];
     split; [intros [H | [H | H]]; [discriminate | discriminate | contradiction] |];
     split; [intros (_ & _ & _ & Hx); lia | intros _; reflexivity]).
Qed.

(** A property of single calls that keeps an invariant holds of every
    call of a sequence. *)
Lemma call_trace_Forall {W C : Type} (f : C -> W -> Outcome * W) (I : W -> Prop)
    (P : W -> C -> Outcome -> W -> Prop) :
  (forall c w, I w -> P w c (fst (f c w)) (snd (f c w)) /\ I (snd (f c w))) ->
  forall calls w, I w ->
    Forall (fun '(pre, c, outcome, post) => P pre c outcome post) (call_trace f calls w).
Proof.
  intros Hstep calls. induction calls as [| c calls IH]; intros w Hw; simpl.
  - constructor.
  - destruct (Hstep c w Hw) as [HP HI].
    destruct (f c w) as [o w']. simpl in *.
    constructor; [exact HP | apply IH; exact HI].
Qed.

(** C9.  In every sequence of [joinRoom] calls the attempt counter
    counts the attempts and caps them at 3.  Of each call in the
    sequence: the counter stays within 3; a call stopped by a guard
    (nobody signed in, or a join under way) leaves the counter as it
    was; a call that finds the counter above 3 once incremented sets the
    error, throws it, resets the counter and leaves everything else, the
    relay included, as it was, so that the room is not joined; and any
    other call is an attempt: it puts the counter back to 0 when it
    returns and leaves it one higher than it found it when it throws.
    This holds for [joinRoom] of both copies of the WebRTC provider and
    for [joinRoom] of the room provider, whose timer leaves the counter
    alone. *)
Theorem join_attempts_capped (calls : list JoinCall) (w : World)
    (events : list RoomEvent) (st : RoomContext.RoomState * Relay) :
  joinAttemptsRef (client w) <= 3 ->
  RoomContext.joinAttemptsRef (fst st) <= 3 ->
  Forall (fun '(pre, c, outcome, post) => counted pre (room_of_call c) outcome post)
         (call_trace joinRoom003 calls w)
  /\ Forall (fun '(pre, c, outcome, post) => counted pre (room_of_call c) outcome post)
         (call_trace joinRoomContexts calls w)
  /\ Forall (fun '(pre, e, outcome, post) => room_counted pre e outcome post)
         (call_trace room_event events st).
Proof.
  intros Hw Hst. split; [| split].
  - apply (call_trace_Forall joinRoom003 (fun w => joinAttemptsRef (client w) <= 3)
             (fun pre c outcome post => counted pre (room_of_call c) outcome post));
      [| exact Hw].
    intros [[env roomId] cr] w0 H0.
    pose proof (joinRoom003_counts env roomId cr w0 H0) as Hc.
    split; [exact Hc | exact (proj1 Hc)].
  - apply (call_trace_Forall joinRoomContexts (fun w => joinAttemptsRef (client w) <= 3)
             (fun pre c outcome post => counted pre (room_of_call c) outcome post));
      [| exact Hw].
    intros [[env roomId] cr] w0 H0.
    pose proof (joinRoomContexts_counts env roomId cr w0 H0) as Hc.
    split; [exact Hc | exact (proj1 Hc)].
  - apply (call_trace_Forall room_event
             (fun st => RoomContext.joinAttemptsRef (fst st) <= 3) room_counted);
      [| exact Hst].
    intros e st0 H0.
    pose proof (room_event_counts e st0 H0) as Hc.
    split; [exact Hc | exact (proj1 Hc)].
Qed.

Lemma join_attempts_capped_witness :
  Forall (fun '(pre, c, outcome, post) => counted pre (room_of_call c) outcome post)
         (call_trace joinRoom003 Example.four_calls Example.alice_arrives)
  /\ Forall (fun '(pre, c, outcome, post) => counted pre (room_of_call c) outcome post)
         (call_trace joinRoomContexts Example.four_calls Example.alice_arrives)
  /\ Forall (fun '(pre, e, outcome, post) => room_counted pre e outcome post)
         (call_trace room_event Scenario.four_room_calls Example.alice_room_state).
Proof.
  apply (join_attempts_capped Example.four_calls Example.alice_arrives
           Scenario.four_room_calls Example.alice_room_state).
  - simpl. lia.
  - simpl. lia.
Defined.

(** Three attempts fail for want of a camera; the fourth is refused by
    the counter, which is back at 0 afterwards. *)
Lemma fourth_join_refused :
  List.map (fun t => snd (fst t)) (call_trace joinRoom003 Example.four_calls Example.alice_arrives)
  = [ Threw Part003.init_error; Threw Part003.init_error; Threw Part003.init_error;
      Threw Part003.too_many ]
  /\ List.map (fun t => joinAttemptsRef (client (snd t)))
       (call_trace joinRoom003 Example.four_calls Example.alice_arrives)
     = [1; 2; 3; 0].
Proof. vm_compute. split; reflexivity. Qed.

(** The same four calls in the copy of src/contexts. *)
Lemma fourth_join_refused_in_contexts :
  List.map (fun t => snd (fst t))
    (call_trace joinRoomContexts Example.four_calls Example.alice_arrives)
  = [ Threw Part003.init_error; Threw Part003.init_error; Threw Part003.init_error;
      Threw Part003.too_many ]
  /\ List.map (fun t => joinAttemptsRef (client (snd t)))
       (call_trace joinRoomContexts Example.four_calls Example.alice_arrives)
     = [1; 2; 3; 0].
Proof. vm_compute. split; reflexivity. Qed.

(** Three attempts of the room provider fail for want of the room, each
    made once the timer of the one before has run; the fourth is refused
    by the counter, which is back at 0 afterwards, and alice is on no
    roster.  A call made before the timer has run is ignored and does
    not count. *)
Lemma fourth_room_join_refused :
  List.map (fun t => snd (fst t))
    (call_trace room_event Scenario.four_room_calls Example.alice_room_state)
  = [ Threw (RoomContext.not_found "r2"); Returned;
      Threw (RoomContext.not_found "r2"); Returned;
      Threw (RoomContext.not_found "r2"); Returned;
      Threw RoomContext.too_many ]
  /\ List.map (fun t => RoomContext.joinAttemptsRef (fst (snd t)))
       (call_trace room_event Scenario.four_room_calls Example.alice_room_state)
     = [1; 1; 2; 2; 3; 3; 0]
  /\ List.map (fun t => snd (snd t))
       (call_trace room_event Scenario.four_room_calls Example.alice_room_state)
     = repeat (snd Example.alice_room_state) 7
  /\ List.map (fun t => (snd (fst t), RoomContext.joinAttemptsRef (fst (snd t))))
       (call_trace room_event
          [JoinRoom Example.env_no_media "r2"; JoinRoom Example.env_no_media "r2"]
          Example.alice_room_state)
     = [ (Threw (RoomContext.not_found "r2"), 1); (Returned, 1) ].
Proof. vm_compute. repeat split; reflexivity. Qed.

(** * Joining with the stream the fallbacks give *)




(** alice joins with the microphone alone: she is in the room with an
    audio-only stream and no error. *)
Lemma joinRoom003_with_microphone_only :
  let r := Part003.joinRoom Example.env_audio_only "r1" true Example.alice_arrives in
  fst r = Returned
  /\ currentRoomId (client (snd r)) = Some "r1"
  /\ keys (participants (room (relay (snd r)) "r1")) = ["bob"; "alice"]
  /\ localStream (media (client (snd r))) = Some Example.microphone
  /\ hasVideo (media (client (snd r))) = false
  /\ webRTCError (client (snd r)) = None.
Proof. vm_compute. repeat split; reflexivity. Qed.

(** * Negotiation needed, as the browser fires it *)







(** * The roster after an offer *)

Lemma play_app (C : Scenario.Copy) (a b : list Scenario.Step) (sys : System) :
  Scenario.play C (a ++ b) sys = Scenario.play C b (Scenario.play C a sys).
Proof. unfold Scenario.play. apply fold_left_app. Qed.

(** A step that leaves the system as it is can be repeated at will. *)
Lemma play_fixed (C : Scenario.Copy) (st : Scenario.Step) (sys : System) (n : nat) :
  Scenario.step C sys st = sys -> Scenario.play C (repeat st n) sys = sys.
Proof.
  intros H. induction n as [| n IH]; [reflexivity |].
  unfold Scenario.play in *. cbn [repeat fold_left]. rewrite H. exact IH.
Qed.

Lemma roster_again003 :
  let sys := Scenario.play Scenario.copy003
               (Scenario.offer_before_roster Scenario.bob_offers003) Scenario.start in
  Scenario.step Scenario.copy003 sys (Scenario.Delivers (ParticipantsSnapshot "alice")) = sys.
Proof. vm_compute. reflexivity. Qed.

Lemma roster_againContexts :
  let sys := Scenario.play Scenario.copyContexts
               (Scenario.offer_before_roster Scenario.bob_offersContexts) Scenario.start in
  Scenario.step Scenario.copyContexts sys (Scenario.Delivers (ParticipantsSnapshot "alice"))
  = sys.
Proof. vm_compute. reflexivity. Qed.

(** C4 (the code departs from the claim).  The offers listener makes
    the connection for a sender it has none for without making a Peer
    record, and the participants listener takes an id for known when the
    connection map has it; so a roster id that got its connection from
    the offers listener is given no Peer record by any snapshot.  Two
    runs of either copy show it, each from an empty room, by calls of
    [joinRoom] and deliveries of snapshots, with [negotiationneeded]
    fired on stable connections only.  In the first alice is alone in
    room r1 and bob joins, and bob's offer reaches alice's offers
    listener before the roster with bob reaches her participants
    listener: bob is on the roster, is not self and has no Peer record,
    and the roster gives him none, nor does any later delivery of it;
    alice's Peers stay empty while the roster less self is bob, with an
    open connection to him that she did not initiate, and bob has alice
    as Peer; with the roster first alice gets bob as Peer.  In
    the second every snapshot reaches alice in the order of the writes:
    bob's browser goes and leaves his offer in the relay, alice's own
    offer to carol brings her the offers with bob's old one, and when
    bob comes back the roster with him gives him no Peer record. *)
Theorem roster_after_offer_adds_no_peer (n : nat) :
  let again := repeat (Scenario.Delivers (ParticipantsSnapshot "alice")) n in
  let race003 :=
    Scenario.play Scenario.copy003
      (Scenario.offer_before_roster Scenario.bob_offers003 ++ again) Scenario.start in
  let raceContexts :=
    Scenario.play Scenario.copyContexts
      (Scenario.offer_before_roster Scenario.bob_offersContexts ++ again) Scenario.start in
  let back003 :=
    Scenario.play Scenario.copy003
      (Scenario.bob_comes_back Scenario.bob_offers003) Scenario.start in
  let backContexts :=
    Scenario.play Scenario.copyContexts
      (Scenario.bob_comes_back Scenario.bob_offersContexts) Scenario.start in
  (Scenario.roster race003 = ["alice"; "bob"]
   /\ Scenario.peers_of race003 "alice" = Some []
   /\ Scenario.open_connections race003 "alice" "bob" = Some [(0, false)]
   /\ Scenario.peers_of race003 "bob" = Some ["alice"])
  /\ (Scenario.roster raceContexts = ["alice"; "bob"]
      /\ Scenario.peers_of raceContexts "alice" = Some []
      /\ Scenario.open_connections raceContexts "alice" "bob" = Some [(0, false)]
      /\ Scenario.peers_of raceContexts "bob" = Some ["alice"])
  /\ Scenario.peers_of
       (Scenario.play Scenario.copy003
          (Scenario.roster_before_offer Scenario.bob_offers003) Scenario.start) "alice"
     = Some ["bob"]
  /\ Scenario.peers_of
       (Scenario.play Scenario.copyContexts
          (Scenario.roster_before_offer Scenario.bob_offersContexts) Scenario.start) "alice"
     = Some ["bob"]
  /\ (Scenario.roster back003 = ["alice"; "carol"; "bob"]
      /\ Scenario.peers_of back003 "alice" = Some ["carol"]
      /\ Scenario.open_connections back003 "alice" "bob" = Some [(2, false)])
  /\ (Scenario.roster backContexts = ["alice"; "carol"; "bob"]
      /\ Scenario.peers_of backContexts "alice" = Some ["carol"]
      /\ Scenario.open_connections backContexts "alice" "bob" = Some [(2, false)])
  /\ Scenario.fired_from_stable Scenario.copy003
       (Scenario.offer_before_roster Scenario.bob_offers003) Scenario.start = true
  /\ Scenario.fired_from_stable Scenario.copyContexts
       (Scenario.offer_before_roster Scenario.bob_offersContexts) Scenario.start = true
  /\ Scenario.fired_from_stable Scenario.copy003
       (Scenario.bob_comes_back Scenario.bob_offers003) Scenario.start = true
  /\ Scenario.fired_from_stable Scenario.copyContexts
       (Scenario.bob_comes_back Scenario.bob_offersContexts) Scenario.start = true.
Proof.
  intros again race003 raceContexts back003 backContexts.
  unfold race003, raceContexts, again, back003, backContexts.
  rewrite !play_app.
  rewrite (play_fixed Scenario.copy003 _ _ n roster_again003).
  rewrite (play_fixed Scenario.copyContexts _ _ n roster_againContexts).
  vm_compute. repeat split; reflexivity.
Qed.

(** How alice came by the connection, in part_003: before the offers
    snapshot she has none and no Peer, and bob's offer is in the relay;
    after it she has the connection, stable with bob's offer answered,
    and still no Peer. *)
Lemma offer_makes_connection_without_peer :
  let before := Scenario.play Scenario.copy003 Scenario.both_join Scenario.start in
  let after :=
    Scenario.step Scenario.copy003 before (Scenario.Delivers (OffersSnapshot "alice")) in
  Scenario.peers_of before "alice" = Some []
  /\ Scenario.open_connections before "alice" "bob" = Some []
  /\ addressed (offers (room (shared before) "r1")) "bob" "alice" = Some "offer of bob"
  /\ Scenario.peers_of after "alice" = Some []
  /\ Scenario.open_connections after "alice" "bob" = Some [(0, false)]
  /\ Example.signaling_of after "alice" "bob" = Some Stable
  /\ addressed (answers (room (shared after) "r1")) "alice" "bob" = Some "answer of alice".
Proof. vm_compute. repeat split; reflexivity. Qed.
